(* ===== verification/_CoqProject ===== *)
-Q . S2P
Prelude.v
Errors.v
Text.v
Regex.v
Sha256.v
Json.v
Crypto.v
Url.v
Clock.v
Effects.v
State.v
Memory.v
Quiet.v
Protocol.v
Toy.v
Prompt.v
PromptFacts.v
Sealed.v
CryptoFacts.v
Requests.v
WorkVerifier.v
Capabilities.v
StateFacts.v
Receipt.v
UrlFacts.v
ReceiptFacts.v
Policy.v
PolicyFacts.v
Delivery.v
Config.v
ConfigFacts.v
Identity.v
Lock.v
AuditLog.v
AuditFacts.v
WorkReceipt.v
WorkFacts.v
WorkRuns.v
WorkEvidence.v
EvidenceFacts.v
Clients.v
Agent.v
AgentFacts.v
Recovery.v
DeliveryFacts.v
Run.v
Provision.v
Controller.v
ProvisionFacts.v
Health.v
HealthFacts.v
LaunchAgent.v
BeadsTasks.v
TaskFacts.v
Pilot.v
WorkOutput.v
WorkOutputFacts.v
Commands.v
Arguments.v
WorkPilot.v
WorkPilotFacts.v
Main.v
MainFacts.v
McpServer.v
McpFacts.v
ControllerFacts.v
AgentSafety.v
AtMostOnce.v
RecoverySafety.v
History.v
DryRun.v
Traffic.v
PilotSafety.v
PilotFacts.v
PropertyList.v
Startup.v
