(* ===== verification/Prelude.v ===== *)
(** * The Technocore safe agent

    A responder for the rooms of a Technocore server that treats every message
    as untrusted input: it holds one Ed25519 identity in the macOS Keychain,
    answers a fixed set of read-only commands of authorised senders, and is
    written so that a crash at any point neither loses a message nor sends two
    different answers to it.  Around it are tools for provisioning the mailbox,
    for recovering a delivery whose outcome is not known, for the operator's
    inspections, and for signed receipts of pull requests and of commands that
    were run.

    ** How the program is put together, and where each part is modelled

    File names without a directory are under
    [src/src/technocore_safe_agent].  An operation keeps its name in the model,
    a class of the source is a record, a method a definition on it, an exception
    class a constructor of [Errors.exn].

    - The language.  [Prelude] has the notation and the automation, [Errors] the
      exceptions and the monad of computations that return or raise, [Text]
      strings, integers and UTF-8, [Regex] regular expressions, [Json] the
      [json] module, [Sha256] the hash, [Url] the parts of [urllib.parse], [Clock]
      dates.
    - The outside.  [Effects] has the monad of effectful computations: the files,
      the program's shared objects, a counter of external actions, the trace of
      requests.  At every action the environment [Env] may make it fail with an
      [OSError] or end the process; files then are what they are at that moment.
      Theorems hold for every environment, so for every fault and crash.
    - Identities and signatures: [Crypto] ([crypto.py]), [Identity]
      ([identity.py]), [Sealed] (the sealed JSON records that receipts and audit
      entries are).
    - What the agent keeps on disk: [State] ([state.py]: cursors, nonces,
      generations, request histories), [Capabilities] ([capabilities.py]: the
      policy file and the rate limiter), [Delivery] ([delivery.py]: the journal
      of the message in flight), [AuditLog] ([audit.py]), [Config]
      ([config.py]), [Lock] ([process_lock.py]).
    - What it says to the outside: [Protocol] ([protocol.py]: the room client),
      [Receipt] ([receipt.py]: GitHub's public API and the signed receipts),
      [Requests] (which requests the client's two calls make).
    - What it does: [Policy] ([policy.py]: the decision on one message), [Agent]
      ([agent.py]: a room snapshot, message by message), [Recovery]
      ([delivery_recovery.py]), [Run] (the [run] and [recover-delivery] commands
      of [cli.py], with the polling loop), [Provision] ([provision.py] and its
      commands).  [Memory] is the heap: the one [AgentState] that the responder and
      the limiter share and mutate, the cooldown clock of the receipt service, and
      the writes that the audited client of the receipt pilot has recorded.
      [Clients] is the client a responder is given: the plain one, or that one.
    - The operator's tools: [Health] ([health.py]), [Controller] and [Prompt]
      ([controller.py]: the operator's identity, its grant, the one-command
      client, and the dialogue with the Keychain command at a pseudo-terminal),
      [LaunchAgent] ([launchd.py]), [BeadsTasks] ([beads_tasks.py]), [Commands]
      (the other commands of [cli.py] and its exit codes), [Arguments] (what its
      argument parser accepts, as tables of options, and what each option
      becomes), [Main] (a command line, its handler, the exit code), [McpServer]
      ([mcp_server.py]: the tools and the session of calls), [Pilot] ([pilot.py]
      with [scripts/run_live_pilot.py] and [scripts/run_live_receipt_pilot.py]: the
      live pilot of four scenarios and the receipt pilot).
    - Work receipts: [WorkVerifier] ([work_receipt_verifier.py]), [WorkReceipt]
      ([work_receipt.py]), [WorkOutput] ([work_output.py]: the private directory
      that a receipt and its outputs are kept in), [WorkEvidence]
      ([work_evidence.py]), [WorkPilot] ([scripts/run_work_receipt_pilot.py]).

    A room message travels so: [Run._poll] reads the room through
    [Protocol.read_room]; [Agent.process_snapshot] asks [Policy.decide] about each
    new message; an answer gets a nonce from [State.next_nonce], is signed by
    [Crypto], written to the journal by [Delivery.prepare], sent by
    [Protocol.send_signed_message], audited by [AuditLog.append]; then the cursor
    is saved by [State.save] and the journal cleared.  After a crash the journal
    decides: [Run] refuses to start over a pending delivery, and [Recovery]
    resolves it with the room's own history.

    ** What the theorems show

    - At most one answer ([AgentSafety], [AtMostOnce], [RecoverySafety],
      [History], [Traffic]).  [AgentSafety] states the invariant of files and
      deliveries, the next two files that the agent and recovery keep it
      whatever fails, [History] closes it over every sequence of processes:
      no input is answered twice by processes that are not recoveries, a
      recovery sends again exactly what was signed, and every delivery is on
      record.  [Traffic] shows that the deliveries so recorded are the
      actual requests and that all other requests are reads.
    - Files under faults ([StateFacts], [ConfigFacts], [AuditFacts],
      [DeliveryFacts], [ProvisionFacts]).  Saves are atomic, new files replace
      nothing, what was saved loads as itself, the audit log only grows and its
      head commits to it, the mailbox is on disk before it is announced.
    - Bounds and time ([StateFacts], [PromptFacts]).  Nonces increase and fit, no
      principal is granted more than its limit in any hour, the Keychain dialogue
      ends and types the secret only with the echo off.
    - Decisions ([PolicyFacts], [AgentFacts], [DryRun], [ControllerFacts]).  The
      agent acts only for authorised senders, changes nothing without [--send];
      the controller sends one of four commands under one fixed grant; a
      LaunchAgent that was rendered starts an agent that reads its own mailbox
      ([Startup], which runs the arguments that [PropertyList] reads out of the
      rendered text through [Arguments] and [Run]).
    - What is left alone ([MainFacts], [McpFacts]).  The commands that inspect change
      nothing, the MCP server shows its client nothing but the configured files:
      [McpFacts.Confined] is a relation between two runs on different machines.
    - Evidence ([CryptoFacts], [UrlFacts], [ReceiptFacts], [WorkFacts],
      [WorkRuns], [WorkOutputFacts], [WorkPilotFacts], [EvidenceFacts], [HealthFacts],
      [TaskFacts], [PilotSafety] with its runs in [PilotFacts]).  What a receipt that
      verifies means, that honest ones are made and verify, that one visible in an
      output directory is about the outputs in it, what a pilot that passed has
      done, and what a healthy report, a matching evidence report and a list of
      tasks can be relied on for.

    [Quiet] and the [Steps] class of [Effects] carry the theorems that say what a
    computation leaves alone: each operation has one instance or hint, and the
    composition is automatic.  [Toy] is a small concrete environment on which
    the definitions are run and the theorems' hypotheses are shown to hold.

    ** Parameters

    - [Ed25519] is the [cryptography] package; [Ed25519Laws] says that a public key
      is 32 bytes and a signature 64, and that a signature by a key verifies under
      its public key.  Unforgeability is not assumed anywhere.
    - [UrlLib]: Unicode normalisation and the [ipaddress] grammar inside
      [urlsplit].  [FloatRepr]: the shortest decimal of a float.
    - [Keychain], [KeychainDelete], [Terminal], [Child], [Workshop], [PilotClone]: the answers
      of the processes the program starts ([/usr/bin/security], [bd], [git], the
      command of a work receipt).  [Directories], [BeadsDirectory], [Resolver]:
      what [lstat] says of directories and what paths resolve to.  [PathText]: what
      [argparse]'s paths become.  [PilotOracle], [SeedFactory]: fresh keys and tokens.
      [McpClient]: the calls of an MCP client.
    - [Env]: faults, responses, clocks.  [EnvLaws]: a float is below [2^1024] and
      [datetime.now] is a date of the calendar; only the theorems that name it
      rely on it.

    ** Fuel

    - [Run._poll] and [sleep_until] run while the process is not stopped; the fuel
      is the moment it is stopped, which ends in [Crashed] and is
      quantified over, so that the safety theorems hold for every prefix
      of a run.  [BeadsTasks.read_loop], [McpServer.serve] and [Main.main], which
      passes it on, likewise.
    - [Pilot.process_until] makes at most four attempts because the source does.
    - [Prompt.session_run] is proved to end: [keychain_dialogue_terminates] gives
      the fuel after which no more is needed, provided the monotonic clock passes
      every time.
    - [Json.loads] has fuel for the length of its input, and [loads_fuel_enough]
      proves that it is never the reason for an error.  The number conversions of
      [Text] have theirs in [int_str] lemmas.  Everything else is structural.

    ** What is not modelled, and why

    - Help texts, usage messages and what else goes to the standard error; the
      separator [--] of [argparse] where the source does not speak of it.
    - The MCP SDK's schemas and transport: [McpClient] says which calls arrive, and a
      tool's exception is the error result the SDK documents.
    - What is inside the temporary clone of the work receipt pilot: it is known
      through the answers of [git] and of the command only.
    - TLS, sockets and redirects below one request: a request has one result, a
      response or a failure.
    - Ctrl-C (but for the MCP server), recursion limits of the JSON decoder on
      deeply nested input, files that another process changes while they are read,
      failing [close].
    - Windows branches: the platform is POSIX. *)

From Stdlib Require Export ZArith Lia Bool String Ascii.
From Stdlib Require Export QArith Sorting.Sorted.
From stdpp Require Export base decidable list gmap strings.

#[export] Set Default Proof Using "Type".
#[global] Open Scope Z_scope.

(** [len(l)] is used as an integer. *)
Coercion Z.of_nat : nat >-> Z.

(** ** Python-flavoured notation *)

Declare Scope py_scope.
Delimit Scope py_scope with py.
#[global] Open Scope py_scope.

Notation "x == y" := (bool_decide (x = y)) (at level 70, no associativity) : py_scope.
Notation "x != y" := (negb (bool_decide (x = y))) (at level 70, no associativity) : py_scope.
Notation "x 'in?' l" := (bool_decide (x ∈ l)) (at level 70, no associativity) : py_scope.
Notation "a 'and' b" := (andb a b) (at level 75, right associativity, only parsing) : py_scope.
Notation "a 'or' b" := (orb a b) (at level 76, right associativity, only parsing) : py_scope.

(** ** Python's built-in data

    A [str] is the list of its code points (surrogates included, as in
    CPython); [bytes] is a list of integers in [0, 256).  [u "..."] writes an
    ASCII literal.  A [float] that came out of a text (a JSON number, an HTTP
    header, a command-line option) is kept as the exact rational it denotes
    together with that text. *)
Abbreviation str := (list Z) (only parsing).
Abbreviation bytes := (list Z) (only parsing).

Definition u (s : string) : list Z :=
  map (λ a, Z.of_N (N_of_ascii a)) (list_ascii_of_string s).

Inductive pyfloat : Type :=
  | Finite (value : Q) (text : list Z)
  | NonFinite (text : list Z).

#[export] Instance Q_eq_dec : EqDecision Q.
Proof. solve_decision. Defined.
#[export] Instance pyfloat_eq_dec : EqDecision pyfloat.
Proof. solve_decision. Defined.

(** ** Hint databases

    [py] holds the facts about results, booleans and lists that close the
    routine goals of the components; [py_rw] the rewriting rules that turn a
    boolean test into the proposition it decides. *)
Create HintDb py.
Create Rewrite HintDb py_rw.

#[export] Hint Rewrite
  andb_true_iff andb_false_iff orb_true_iff orb_false_iff
  negb_true_iff negb_false_iff
  Z.eqb_eq Z.eqb_neq Z.ltb_lt Z.ltb_ge Z.leb_le Z.leb_gt
  bool_decide_eq_true bool_decide_eq_false : py_rw.

(** Turn every boolean hypothesis and the goal into propositions. *)
Ltac breflect := autorewrite with py_rw in *.

(** Case analysis on the innermost scrutinee of a [match] or [if] in the goal
    or in the named hypothesis. *)
Ltac split_match :=
  match goal with
  | |- context [match ?x with _ => _ end] =>
      lazymatch x with
      | context [match _ with _ => _ end] => fail
      | _ => destruct x eqn:?
      end
  end.

Ltac split_match_in H :=
  match type of H with
  | context [match ?x with _ => _ end] =>
      lazymatch x with
      | context [match _ with _ => _ end] => fail
      | _ => destruct x eqn:?
      end
  end.

(** ** Lists *)

Lemma Forall_elem {A} (P : A → Prop) (l : list A) x : Forall P l → x ∈ l → P x.
Proof. rewrite Forall_forall. auto. Qed.

Lemma forallb_Forall_true {A} (f : A → bool) (l : list A) :
  forallb f l = true ↔ Forall (λ x, f x = true) l.
Proof. rewrite forallb_forall, Forall_forall. by setoid_rewrite list_elem_of_In. Qed.

Lemma map_replicate {A B} (f : A → B) n x : map f (replicate n x) = replicate n (f x).
Proof. induction n; cbn; congruence. Qed.

Lemma last_snoc_eq {A} (l : list A) (x : A) : last (l ++ [x]) = Some x.
Proof. apply last_snoc. Qed.

(** The elements of [l] are in strictly increasing order. *)
Fixpoint strictly_sorted (l : list Z) : bool :=
  match l with
  | [] => true
  | x :: l' => match l' with [] => true | y :: _ => (x <? y) && strictly_sorted l' end
  end.

(** The elements of [l] are in non-decreasing order: [l == sorted(l)]. *)
Fixpoint weakly_sorted (l : list Z) : bool :=
  match l with
  | [] => true
  | x :: l' => match l' with [] => true | y :: _ => (x <=? y) && weakly_sorted l' end
  end.

Lemma strictly_sorted_lt x l y :
  strictly_sorted (x :: l) = true → y ∈ l → x < y.
Proof.
  revert x. induction l as [|z l IH]; intros x; cbn.
  - intros _ H. by apply not_elem_of_nil in H.
  - intros H%andb_true_iff. destruct H as [H1 H2]. apply Z.ltb_lt in H1.
    rewrite elem_of_cons. intros [->|Hy]; [done|].
    specialize (IH z H2 Hy). lia.
Qed.

Lemma strictly_sorted_tail x l : strictly_sorted (x :: l) = true → strictly_sorted l = true.
Proof. destruct l; cbn; [done|]. by intros [_ ?]%andb_true_iff. Qed.

Lemma strictly_sorted_NoDup l : strictly_sorted l = true → NoDup l.
Proof.
  induction l as [|x l IH]; intros H; constructor.
  - intros Hin. pose proof (strictly_sorted_lt _ _ _ H Hin). lia.
  - apply IH. eauto using strictly_sorted_tail.
Qed.

Lemma weakly_sorted_le x l y :
  weakly_sorted (x :: l) = true → y ∈ l → x ≤ y.
Proof.
  revert x. induction l as [|z l IH]; intros x; cbn.
  - intros _ H. by apply not_elem_of_nil in H.
  - intros H%andb_true_iff. destruct H as [H1 H2]. apply Z.leb_le in H1.
    rewrite elem_of_cons. intros [->|Hy]; [done|].
    specialize (IH z H2 Hy). lia.
Qed.

Lemma weakly_sorted_tail x l : weakly_sorted (x :: l) = true → weakly_sorted l = true.
Proof. destruct l; cbn; [done|]. by intros [_ ?]%andb_true_iff. Qed.

Lemma weakly_sorted_cons x l :
  (∀ y, y ∈ l → x ≤ y) → weakly_sorted l = true → weakly_sorted (x :: l) = true.
Proof.
  destruct l as [|y l]; cbn; [done|]. intros H ->. rewrite andb_true_r.
  apply Z.leb_le, H. by left.
Qed.

Lemma weakly_sorted_filter (f : Z → bool) l :
  weakly_sorted l = true → weakly_sorted (List.filter f l) = true.
Proof.
  induction l as [|x l IH]; intros H; cbn; [done|].
  pose proof (weakly_sorted_tail _ _ H) as Ht. destruct (f x); [|auto].
  apply weakly_sorted_cons; [|auto]. intros y Hy.
  apply list_elem_of_In, filter_In in Hy as [Hy _].
  eapply weakly_sorted_le; [exact H|]. by apply list_elem_of_In.
Qed.

Lemma weakly_sorted_snoc l y :
  weakly_sorted l = true → (∀ x, x ∈ l → x ≤ y) → weakly_sorted (l ++ [y]) = true.
Proof.
  induction l as [|x l IH]; intros H Hy; [done|]. rewrite <- app_comm_cons.
  apply weakly_sorted_cons.
  - intros z. rewrite elem_of_app, list_elem_of_singleton. intros [Hz| ->].
    + eauto using weakly_sorted_le.
    + apply Hy. by left.
  - apply IH; [eauto using weakly_sorted_tail|]. intros z Hz. apply Hy. by right.
Qed.

Lemma weakly_sorted_last_max l m x :
  weakly_sorted l = true → last l = Some m → x ∈ l → x ≤ m.
Proof.
  revert x. induction l as [|y l IH]; intros x Hs Hl Hx; [done|].
  destruct l as [|z l].
  - injection Hl as ->. apply list_elem_of_singleton in Hx as ->. lia.
  - apply elem_of_cons in Hx as [->|Hx].
    + assert (y ≤ z) by (eapply weakly_sorted_le; [exact Hs|by left]).
      enough (z ≤ m) by lia. apply IH; [eauto using weakly_sorted_tail|done|by left].
    + apply IH; eauto using weakly_sorted_tail.
Qed.

#[export] Hint Resolve strictly_sorted_tail weakly_sorted_tail weakly_sorted_filter : py.
