(* ===== verification/Errors.v ===== *)
(** Exceptions and fallible computations.

    [exn] has one constructor per exception class the program defines and one
    per built-in class its calls into the standard library can raise.  The
    static part of the message is kept, so that the guard that fired can be
    read off the value; interpolated parts ({error}, {path}) are not.  [res]
    is the type of a computation that returns or raises, without side
    effects. *)

From S2P Require Import Prelude.

Inductive exn : Type :=
  (* the program's classes *)
  | IdentityError (msg : string)
  | ProtocolValueError (msg : string)
  | TransportError (msg : string) (status : option Z) (retry_after : option pyfloat)
  | ResponseError (msg : string)
  | StateError (msg : string)
  | DeliveryError (msg : string)
  | CapabilityError (msg : string)
  | AuditError (msg : string)
  | GitHubReceiptError (msg : string) (code : str)
      (status : option Z) (retry_after : option pyfloat)
  | UncertainWriteError (msg : string)
  | ConfigError (msg : string)
  | WorkReceiptError (msg : string)
  | ProcessLockError (msg : string)
  | HealthError (msg : string)
  | ControllerError (msg : string)
  | EvidenceInputError (msg : string)
  | LaunchAgentError (msg : string)
  | BeadsTasksError (msg : string)
  | PilotError (msg : string)
  (* built-in classes *)
  | ValueError (msg : string)
  | JSONDecodeError
  | UnicodeDecodeError
  | UnicodeEncodeError
  | TypeError (msg : string)
  | AssertionError
  | AttributeError
  | RecursionError
  | OSError
  | FileNotFoundError
  | BlockingIOError
  | HTTPException
  | SubprocessError.              (* CalledProcessError, TimeoutExpired *)

#[export] Instance exn_eq_dec : EqDecision exn.
Proof. solve_decision. Defined.

(** [except OSError] also catches its subclasses, and so on. *)
Definition is_OSError (e : exn) : bool :=
  match e with OSError | FileNotFoundError | BlockingIOError => true | _ => false end.
Definition is_FileNotFoundError (e : exn) : bool :=
  match e with FileNotFoundError => true | _ => false end.
Definition is_ValueError (e : exn) : bool :=
  match e with
  | ValueError _ | JSONDecodeError | UnicodeDecodeError | UnicodeEncodeError
  | ProtocolValueError _ | IdentityError _ | EvidenceInputError _ => true
  | _ => false
  end.
Definition is_JSONDecodeError (e : exn) : bool :=
  match e with JSONDecodeError => true | _ => false end.
Definition is_UnicodeDecodeError (e : exn) : bool :=
  match e with UnicodeDecodeError => true | _ => false end.
Definition is_TypeError (e : exn) : bool :=
  match e with TypeError _ => true | _ => false end.
Definition is_ProtocolValueError (e : exn) : bool :=
  match e with ProtocolValueError _ => true | _ => false end.
Definition is_TransportError (e : exn) : bool :=
  match e with TransportError _ _ _ => true | _ => false end.
Definition is_ResponseError (e : exn) : bool :=
  match e with ResponseError _ => true | _ => false end.
Definition is_StateError (e : exn) : bool :=
  match e with StateError _ => true | _ => false end.
Definition is_DeliveryError (e : exn) : bool :=
  match e with DeliveryError _ => true | _ => false end.
Definition is_CapabilityError (e : exn) : bool :=
  match e with CapabilityError _ => true | _ => false end.
Definition is_AuditError (e : exn) : bool :=
  match e with AuditError _ => true | _ => false end.
Definition is_GitHubReceiptError (e : exn) : bool :=
  match e with GitHubReceiptError _ _ _ _ => true | _ => false end.
Definition is_WorkReceiptError (e : exn) : bool :=
  match e with WorkReceiptError _ => true | _ => false end.
Definition is_HealthError (e : exn) : bool :=
  match e with HealthError _ => true | _ => false end.
Definition is_ConfigError (e : exn) : bool :=
  match e with ConfigError _ => true | _ => false end.
Definition is_IdentityError (e : exn) : bool :=
  match e with IdentityError _ => true | _ => false end.
Definition is_RecursionError (e : exn) : bool :=
  match e with RecursionError => true | _ => false end.
Definition is_EvidenceInputError (e : exn) : bool :=
  match e with EvidenceInputError _ => true | _ => false end.
Definition is_ControllerError (e : exn) : bool :=
  match e with ControllerError _ => true | _ => false end.
Definition is_UncertainWriteError (e : exn) : bool :=
  match e with UncertainWriteError _ => true | _ => false end.

(** ** The result monad *)

Inductive res (A : Type) : Type :=
  | Ok (a : A)
  | Err (e : exn).
Arguments Ok {A} a.
Arguments Err {A} e.

#[export] Instance res_eq_dec {A} `{EqDecision A} : EqDecision (res A).
Proof. solve_decision. Defined.

#[export] Instance res_ret : MRet res := λ A a, Ok a.
#[export] Instance res_bind : MBind res :=
  λ A B f m, match m with Ok a => f a | Err e => Err e end.
#[export] Instance res_fmap : FMap res :=
  λ A B f m, match m with Ok a => Ok (f a) | Err e => Err e end.

(** [raise_if b e] is [if b: raise e]. *)
Definition raise_if (b : bool) (e : exn) : res unit := if b then Err e else Ok tt.

(** [try m except c as e: h e]. *)
Definition res_catch {A} (m : res A) (c : exn → bool) (h : exn → res A) : res A :=
  match m with
  | Ok a => Ok a
  | Err e => if c e then h e else Err e
  end.

(** [[f(x) for x in l]], left to right, stopping at the first exception. *)
Fixpoint mapM_res {A B} (f : A → res B) (l : list A) : res (list B) :=
  match l with
  | [] => Ok []
  | x :: l' => y ← f x; ys ← mapM_res f l'; Ok (y :: ys)
  end.

(** A loop [for x in l] whose body updates [s] and may raise. *)
Fixpoint foldM_res {A S} (f : S → A → res S) (s : S) (l : list A) : res S :=
  match l with
  | [] => Ok s
  | x :: l' => s' ← f s x; foldM_res f s' l'
  end.

Definition is_ok {A} (m : res A) : bool := match m with Ok _ => true | Err _ => false end.
Definition of_option {A} (e : exn) (o : option A) : res A :=
  match o with Some a => Ok a | None => Err e end.

Lemma Ok_inj {A} (a b : A) : Ok a = Ok b → a = b.
Proof. congruence. Qed.

Section res_lemmas.
Context {A B : Type}.
Implicit Types (m : res A) (f : A → res B).

Lemma res_bind_Ok m f b : m ≫= f = Ok b ↔ ∃ a, m = Ok a ∧ f a = Ok b.
Proof.
  destruct m as [a|e]; cbn; split; [by eauto|by intros (?&[= ->]&?)|done|by intros (?&?&?)].
Qed.

Lemma res_bind_Err m f e :
  m ≫= f = Err e ↔ m = Err e ∨ ∃ a, m = Ok a ∧ f a = Err e.
Proof.
  destruct m as [a|e']; cbn; split.
  - eauto.
  - by intros [?|(?&[= ->]&?)].
  - intros [= ->]. eauto.
  - by intros [[= ->]|(?&?&?)].
Qed.

Lemma res_fmap_Ok (g : A → B) m b : g <$> m = Ok b ↔ ∃ a, m = Ok a ∧ b = g a.
Proof.
  destruct m; cbn; split; [intros [= <-]; eauto|intros (?&[= ->]&->); done|done|].
  by intros (?&?&?).
Qed.
End res_lemmas.

Lemma mapM_res_Forall2 {A B} (f : A → res B) l l' :
  mapM_res f l = Ok l' ↔ Forall2 (λ x y, f x = Ok y) l l'.
Proof.
  revert l'. induction l as [|x l IH]; intros l'; cbn.
  - split; [by intros [= <-]|]. by inversion 1.
  - rewrite res_bind_Ok. split.
    + intros (y&Hy&H). apply res_bind_Ok in H as (ys&Hys&[= <-]).
      constructor; [done|]. by apply IH.
    + inversion 1 as [|? y ? ys Hy Hys]; subst. exists y. split; [done|].
      apply IH in Hys. rewrite Hys. done.
Qed.

Lemma foldM_res_app {A S} (f : S → A → res S) s l1 l2 :
  foldM_res f s (l1 ++ l2) = foldM_res f s l1 ≫= λ s', foldM_res f s' l2.
Proof.
  revert s. induction l1 as [|x l1 IH]; intros s; [done|]. cbn [app foldM_res].
  destruct (f s x); [|done]. apply IH.
Qed.

Lemma raise_if_Ok b e x : raise_if b e = Ok x ↔ b = false.
Proof. destruct b, x; cbn; done. Qed.

Lemma raise_if_Err b e e' : raise_if b e = Err e' ↔ b = true ∧ e' = e.
Proof. destruct b; cbn; [|by split; [|intros []]]. split; [intros [= <-]; eauto|by intros [_ ->]]. Qed.

Lemma res_catch_Ok {A} (m : res A) c h a :
  res_catch m c h = Ok a ↔ m = Ok a ∨ ∃ e, m = Err e ∧ c e = true ∧ h e = Ok a.
Proof.
  destruct m as [a'|e]; cbn.
  - split; [by left|]. by intros [?|(?&?&?)].
  - destruct (c e) eqn:E; split; try done.
    + intros ?. right. eauto.
    + intros [?|(?&[= ->]&_&?)]; done.
    + intros [?|(?&[= ->]&?&?)]; congruence.
Qed.

Lemma of_option_Ok {A} e (o : option A) a : of_option e o = Ok a ↔ o = Some a.
Proof. destruct o; cbn; naive_solver. Qed.

#[export] Hint Rewrite @res_bind_Ok @res_fmap_Ok raise_if_Ok @res_catch_Ok @of_option_Ok : py_rw.

(** Take apart a hypothesis saying that a sequence of guards and calls
    returned: one equation per call, one boolean fact per guard. *)
Ltac res_inv H :=
  lazymatch type of H with
  | _ ≫= _ = Ok _ =>
      let H1 := fresh H in
      apply res_bind_Ok in H as (?&H1&H); res_inv H1; cbn beta in H; res_inv H
  | raise_if _ _ = Ok ?x => apply raise_if_Ok in H; try clear x
  | Ok _ = Ok _ => injection H as H; subst
  | mret _ = Ok _ => injection H as H; subst
  | Err _ = Ok _ => discriminate H
  | _ => idtac
  end.
