(* ===== verification/Text.v ===== *)
(** Python [int], [str] and [bytes] as the program uses them.

    Positional notation in an arbitrary base (decimal, hexadecimal and base58
    all go through it), [str(int)] and [int(str)] with CPython's 4300-digit
    limit, the [str] methods the source calls, UTF-8, and the Unicode 15.0
    tables (the version of Python 3.12, the oldest one the program supports)
    behind [str.strip] and [unicodedata.category]. *)

From S2P Require Import Prelude Errors.

(** ** Positional notation *)

Definition of_digits (b : Z) (ds : list Z) : Z :=
  fold_left (λ acc d, acc * b + d) ds 0.

Fixpoint to_digits_fuel (b : Z) (fuel : nat) (n : Z) (acc : list Z) : list Z :=
  match fuel with
  | O => acc
  | S fuel => if n =? 0 then acc else to_digits_fuel b fuel (n / b) (n mod b :: acc)
  end.

(** The digits of [n], most significant first; no digit for 0.  Each step
    divides by [b ≥ 2], so [log2 n + 1] steps are enough. *)
Definition to_digits (b n : Z) : list Z :=
  to_digits_fuel b (Z.to_nat (Z.log2 n) + 1) n [].

Definition in_base (b d : Z) : Prop := 0 ≤ d < b.

Section digits.
Context (b : Z) (Hb : 2 ≤ b).

Lemma fold_digits_acc ds a :
  fold_left (λ acc d, acc * b + d) ds a = a * b ^ length ds + of_digits b ds.
Proof using Hb.
  unfold of_digits. revert a. induction ds as [|d ds IH]; intros a.
  - cbn. lia.
  - cbn [fold_left length]. rewrite IH, (IH (0 * b + d)), Nat2Z.inj_succ, Z.pow_succ_r; lia.
Qed.

Lemma of_digits_cons d ds : of_digits b (d :: ds) = d * b ^ length ds + of_digits b ds.
Proof using Hb. unfold of_digits at 1. cbn [fold_left]. by rewrite fold_digits_acc, Z.mul_0_l. Qed.

Lemma of_digits_app ds1 ds2 :
  of_digits b (ds1 ++ ds2) = of_digits b ds1 * b ^ length ds2 + of_digits b ds2.
Proof using Hb. unfold of_digits at 1. by rewrite fold_left_app, fold_digits_acc. Qed.

Lemma of_digits_snoc ds x : of_digits b (ds ++ [x]) = of_digits b ds * b + x.
Proof using Type. unfold of_digits. by rewrite fold_left_app. Qed.

Lemma of_digits_bounds ds : Forall (in_base b) ds → 0 ≤ of_digits b ds < b ^ length ds.
Proof using Hb.
  induction 1 as [|d ds Hd Hds IH]; [cbn; lia|].
  rewrite of_digits_cons. cbn [length]. rewrite Nat2Z.inj_succ, Z.pow_succ_r by lia.
  unfold in_base in Hd. nia.
Qed.

Lemma to_digits_fuel_app fuel n acc :
  to_digits_fuel b fuel n acc = to_digits_fuel b fuel n [] ++ acc.
Proof using Type.
  revert n acc. induction fuel as [|fuel IH]; intros n acc; cbn; [done|].
  destruct (n =? 0); [done|]. rewrite IH, (IH _ [_]), <- app_assoc. done.
Qed.

Lemma to_digits_fuel_irrel (fuel fuel' : nat) n :
  0 ≤ n → n < 2 ^ fuel → n < 2 ^ fuel' →
  to_digits_fuel b fuel n [] = to_digits_fuel b fuel' n [].
Proof using Hb.
  revert fuel' n. induction fuel as [|fuel IH]; intros fuel' n Hn H1 H2.
  - replace n with 0 by (cbn in H1; lia). by destruct fuel'.
  - destruct fuel' as [|fuel']; cbn [to_digits_fuel].
    { replace n with 0 by (cbn in H2; lia). done. }
    destruct (Z.eqb_spec n 0); [done|].
    rewrite Nat2Z.inj_succ, Z.pow_succ_r in H1, H2 by lia.
    rewrite to_digits_fuel_app, (to_digits_fuel_app fuel').
    f_equal. apply IH; [apply Z.div_pos; lia|..]; apply Z.div_lt_upper_bound; nia.
Qed.

Lemma lt_pow2_log2 n : 0 ≤ n → n < 2 ^ (Z.to_nat (Z.log2 n) + 1)%nat.
Proof using Type.
  intros Hn. rewrite Nat2Z.inj_add, Z2Nat.id by apply Z.log2_nonneg.
  destruct (Z.eq_dec n 0) as [->|]; [done|]. apply Z.log2_spec. lia.
Qed.

Lemma to_digits_0 : to_digits b 0 = [].
Proof using Type. done. Qed.

Lemma to_digits_step n : 0 < n → to_digits b n = to_digits b (n / b) ++ [n mod b].
Proof using Hb.
  intros Hn. unfold to_digits at 1. rewrite Nat.add_1_r. cbn [to_digits_fuel].
  destruct (Z.eqb_spec n 0); [lia|]. rewrite to_digits_fuel_app. f_equal.
  assert (0 ≤ n / b) by (apply Z.div_pos; lia).
  apply to_digits_fuel_irrel; [done|..|by apply lt_pow2_log2].
  rewrite Z2Nat.id by apply Z.log2_nonneg.
  pose proof (Z.log2_spec n Hn) as [_ Hlog].
  rewrite Z.pow_succ_r in Hlog by apply Z.log2_nonneg.
  apply Z.div_lt_upper_bound; nia.
Qed.

(** Induction on [n] by division by the base. *)
Lemma base_ind (P : Z → Prop) :
  P 0 → (∀ n, 0 < n → P (n / b) → P n) → ∀ n, 0 ≤ n → P n.
Proof using Hb.
  intros H0 Hs. apply Zlt_0_ind. intros m IH Hm. destruct (Z.eq_dec m 0) as [->|]; [done|].
  apply Hs; [lia|]. apply IH.
  split; [apply Z.div_pos; lia|]. apply Z.div_lt; lia.
Qed.

Lemma of_to_digits n : 0 ≤ n → of_digits b (to_digits b n) = n.
Proof using Hb.
  revert n. apply base_ind; [done|]. intros n Hn IH.
  rewrite to_digits_step, of_digits_snoc, IH by done. pose proof (Z.div_mod n b). lia.
Qed.

Lemma to_digits_in_base n : 0 ≤ n → Forall (in_base b) (to_digits b n).
Proof using Hb.
  revert n. apply base_ind; [constructor|]. intros n Hn IH.
  rewrite to_digits_step by done. apply Forall_app. split; [done|].
  repeat constructor; apply Z.mod_pos_bound; lia.
Qed.

Lemma to_digits_nonnil n : 0 < n → to_digits b n ≠ [].
Proof using Hb. intros Hn. rewrite to_digits_step by done. by destruct (to_digits b (n / b)). Qed.

Lemma to_digits_head n : 0 < n → ∃ d ds, to_digits b n = d :: ds ∧ 0 < d < b.
Proof using Hb.
  assert (∀ n, 0 ≤ n → 0 < n → ∃ d ds, to_digits b n = d :: ds ∧ 0 < d < b) as H;
    [|intros; apply H; lia].
  apply (base_ind (λ n, 0 < n → ∃ d ds, to_digits b n = d :: ds ∧ 0 < d < b)); [lia|].
  intros m Hm IH _. rewrite to_digits_step by done.
  destruct (decide (0 < m / b)) as [Hq|Hq].
  - destruct (IH Hq) as (d&ds&->&Hd). exists d, (ds ++ [m mod b]). done.
  - assert (0 ≤ m / b) by (apply Z.div_pos; lia). replace (m / b) with 0 by lia.
    exists (m mod b), []. split; [done|]. pose proof (Z.div_mod m b).
    pose proof (Z.mod_pos_bound m b). lia.
Qed.

(** A canonical digit sequence is recovered from its value. *)
Lemma to_of_digits ds :
  Forall (in_base b) ds → (∀ d ds', ds = d :: ds' → d ≠ 0) →
  to_digits b (of_digits b ds) = ds.
Proof using Hb.
  induction ds as [|x ds IH] using rev_ind; intros Hds Hhd; [done|].
  apply Forall_app in Hds as [Hds Hx]. apply Forall_cons in Hx as [Hx _].
  assert (0 ≤ of_digits b ds) as Hpos by (apply of_digits_bounds; done).
  unfold in_base in Hx.
  assert (0 < of_digits b ds * b + x) as Hgt.
  { destruct ds as [|d ds]; [specialize (Hhd x [] eq_refl); change (of_digits b []) with 0; lia|].
    assert (d ≠ 0) by (eapply Hhd; reflexivity).
    apply Forall_cons in Hds as [Hd Hds]. unfold in_base in Hd.
    pose proof (of_digits_bounds _ Hds). rewrite of_digits_cons.
    assert (0 < b ^ length ds) by (apply Z.pow_pos_nonneg; lia). nia. }
  rewrite of_digits_snoc, to_digits_step by done.
  rewrite Z.div_add_l, (Z.div_small x), Z.add_0_r by lia.
  rewrite Z.add_comm, Z.mod_add, Z.mod_small by lia.
  rewrite IH; [done|done|]. intros d ds' ->. eapply Hhd. reflexivity.
Qed.

Lemma to_digits_length n (k : nat) : 0 ≤ n → n < b ^ k → (length (to_digits b n) ≤ k)%nat.
Proof using Hb.
  intros Hn Hk. destruct (decide (0 < n)) as [Hpos|];
    [|by replace n with 0 by lia; rewrite to_digits_0; cbn; lia].
  destruct (to_digits_head n Hpos) as (d&ds&E&Hd).
  pose proof (of_to_digits n Hn) as Hv. rewrite E, of_digits_cons in Hv.
  pose proof (to_digits_in_base n Hn) as Hf. rewrite E in Hf.
  apply Forall_cons in Hf as [_ Hf]. pose proof (of_digits_bounds _ Hf).
  rewrite E. cbn [length].
  assert (b ^ length ds < b ^ k) by nia.
  assert (Z.of_nat (length ds) < Z.of_nat k) by (apply (Z.pow_lt_mono_r_iff b); lia). lia.
Qed.
(** The digits above position [k] are the digits of the quotient. *)
Lemma to_digits_prefix (k : nat) n :
  0 < n / b ^ k →
  ∃ low, to_digits b n = to_digits b (n / b ^ k) ++ low ∧ length low = k ∧
         Forall (in_base b) low.
Proof using Hb.
  induction k as [|k IH]; intros Hq.
  - exists []. change (b ^ 0%nat) with 1. by rewrite Z.div_1_r, app_nil_r.
  - assert (n / b ^ S k = n / b ^ k / b) as E.
    { rewrite Nat2Z.inj_succ, Z.pow_succ_r by lia. rewrite Z.mul_comm, Z.div_div; [done|lia|].
      assert (0 < b ^ k); [apply Z.pow_pos_nonneg|]; lia. }
    rewrite E in *. assert (0 < n / b ^ k) as Hk.
    { destruct (Z_lt_le_dec 0 (n / b ^ k)) as [?|Hle]; [done|].
      assert (n / b ^ k / b ≤ 0); [|lia].
      apply Z.div_le_upper_bound; lia. }
    destruct (IH Hk) as (low&->&Hl&Hf).
    exists ((n / b ^ k) mod b :: low). rewrite (to_digits_step (n / b ^ k)), <- app_assoc by done.
    repeat split; [cbn; lia|]. constructor; [|done]. apply Z.mod_pos_bound. lia.
Qed.
End digits.

(** ** Integers and decimal text *)

Definition zero_char : Z := 48.

(** [str(n)] *)
Definition int_str (n : Z) : str :=
  if n =? 0 then u "0"
  else if n <? 0 then u "-" ++ map (Z.add zero_char) (to_digits 10 (- n))
  else map (Z.add zero_char) (to_digits 10 n).

(** CPython refuses to convert a text of more than 4300 digits. *)
Definition MAX_STR_DIGITS : nat := 4300.

(** [int(s)] for a text of ASCII digits. *)
Definition int_of_digits (s : str) : res Z :=
  raise_if (MAX_STR_DIGITS <? length s)%nat (ValueError "Exceeds the limit for integer string conversion");;
  Ok (of_digits 10 (map (λ c, c - zero_char) s)).

Definition ascii_digit (c : Z) : bool := (48 <=? c) && (c <=? 57).

Lemma map_digit_chars (ds : list Z) : map (λ c, c - zero_char) (map (Z.add zero_char) ds) = ds.
Proof.
  rewrite map_map. rewrite <- (map_id ds) at 2. apply map_ext. intros. unfold zero_char. lia.
Qed.

Lemma int_str_nonneg n : 0 < n → int_str n = map (Z.add zero_char) (to_digits 10 n).
Proof. intros Hn. unfold int_str. destruct (Z.eqb_spec n 0), (Z.ltb_spec n 0); done || lia. Qed.

Lemma int_str_value n : 0 ≤ n → of_digits 10 (map (λ c, c - zero_char) (int_str n)) = n.
Proof.
  intros Hn. destruct (Z.eq_dec n 0) as [->|]; [done|].
  rewrite int_str_nonneg, map_digit_chars by lia. apply of_to_digits; lia.
Qed.

Lemma int_str_digits n : 0 ≤ n → Forall (λ c, ascii_digit c = true) (int_str n).
Proof.
  intros Hn. destruct (Z.eq_dec n 0) as [->|]; [by repeat constructor|].
  rewrite int_str_nonneg by lia. apply Forall_map.
  eapply Forall_impl; [apply (to_digits_in_base 10); lia|].
  intros d Hd. unfold in_base in Hd. unfold ascii_digit, zero_char. cbn beta.
  apply andb_true_iff. split; apply Z.leb_le; lia.
Qed.

Lemma int_str_length n (k : nat) :
  0 ≤ n → n < 10 ^ k → (0 < k)%nat → (1 ≤ length (int_str n) ≤ k)%nat.
Proof.
  intros Hn Hk Hk0. destruct (Z.eq_dec n 0) as [->|]; [cbn; lia|].
  rewrite int_str_nonneg, length_map by lia. split; [|apply to_digits_length; lia].
  destruct (to_digits_head 10 ltac:(lia) n) as (?&?&->&_); [lia|]. cbn; lia.
Qed.

Lemma int_str_nonnil n : int_str n ≠ [].
Proof.
  unfold int_str. destruct (Z.eqb_spec n 0); [done|]. destruct (Z.ltb_spec n 0); [done|].
  destruct (to_digits_head 10 ltac:(lia) n) as (?&?&->&_); [lia|]. done.
Qed.

(** [int(str(n)) = n] for the non-negative integers CPython will print. *)
Lemma int_of_int_str n : 0 ≤ n → n < 10 ^ MAX_STR_DIGITS → int_of_digits (int_str n) = Ok n.
Proof.
  intros Hn Hlim. pose proof (int_str_length n _ Hn Hlim ltac:(unfold MAX_STR_DIGITS; lia)) as Hl.
  unfold int_of_digits. rewrite int_str_value by done.
  destruct (Nat.ltb_spec MAX_STR_DIGITS (length (int_str n))); [lia|]. done.
Qed.

Lemma int_str_inj n m : 0 ≤ n → 0 ≤ m → int_str n = int_str m → n = m.
Proof. intros Hn Hm E. rewrite <- (int_str_value n), <- (int_str_value m) by done. by rewrite E. Qed.

(** ** [str] methods *)

Definition startswith (p s : str) : bool := bool_decide (take (length p) s = p).
Definition endswith (p s : str) : bool :=
  (length p <=? length s)%nat && bool_decide (drop (length s - length p) s = p).
Definition removeprefix (p s : str) : str := if startswith p s then drop (length p) s else s.
Definition removesuffix (p s : str) : str :=
  if endswith p s then take (length s - length p) s else s.
Definition count_char (c : Z) (s : str) : Z := length (List.filter (Z.eqb c) s).

(** [s.partition(c)]: the text before the first [c], and the text after it if
    [c] occurs. *)
Fixpoint partition (c : Z) (s : str) : str * option str :=
  match s with
  | [] => ([], None)
  | x :: s' => if x =? c then ([], Some s')
               else let '(a, r) := partition c s' in (x :: a, r)
  end.

(** [s.split(c)] *)
Fixpoint split_char (c : Z) (s : str) : list str :=
  match s with
  | [] => [[]]
  | x :: s' =>
      match split_char c s' with
      | [] => [[x]]
      | w :: ws => if x =? c then [] :: w :: ws else (x :: w) :: ws
      end
  end.

Fixpoint dropwhile (p : Z → bool) (s : str) : str :=
  match s with
  | [] => []
  | c :: s' => if p c then dropwhile p s' else s
  end.

(** White space in the sense of [str.isspace], which [str.strip] removes. *)
Definition is_space (c : Z) : bool :=
  (9 <=? c) && (c <=? 13) || (28 <=? c) && (c <=? 32) || (c =? 0x85) || (c =? 0xA0) ||
  (c =? 0x1680) || (0x2000 <=? c) && (c <=? 0x200A) || (c =? 0x2028) || (c =? 0x2029) ||
  (c =? 0x202F) || (c =? 0x205F) || (c =? 0x3000).

Definition lstrip (s : str) : str := dropwhile is_space s.
Definition rstrip (s : str) : str := rev (dropwhile is_space (rev s)).
Definition strip (s : str) : str := rstrip (lstrip s).
Definition rstrip_char (c : Z) (s : str) : str := rev (dropwhile (Z.eqb c) (rev s)).

(** [str.lower] and [str.casefold] on ASCII.  The program folds only texts a
    pattern has restricted to ASCII before. *)
Definition lower_char (c : Z) : Z := if (65 <=? c) && (c <=? 90) then c + 32 else c.
Definition casefold (s : str) : str := map lower_char s.
Definition is_ascii (s : str) : bool := forallb (λ c, (0 <=? c) && (c <? 128)) s.

(** Reading a text file translates its line ends. *)
Fixpoint universal_newlines (s : str) : str :=
  match s with
  | [] => []
  | 13 :: s' =>
      match s' with
      | 10 :: s'' => 10 :: universal_newlines s''
      | _ => 10 :: universal_newlines s'
      end
  | c :: s' => c :: universal_newlines s'
  end.

Lemma universal_newlines_id s : 13 ∉ s → universal_newlines s = s.
Proof.
  induction s as [|c s IH]; [done|]. intros [Hc Hs]%not_elem_of_cons.
  assert (universal_newlines (c :: s) = c :: universal_newlines s) as ->; [|by rewrite IH].
  cbn. by repeat case_match.
Qed.

(** Python compares strings by code points. *)
Fixpoint str_ltb (a b : str) : bool :=
  match a, b with
  | [], [] => false
  | [], _ :: _ => true
  | _ :: _, [] => false
  | x :: a', y :: b' => if x =? y then str_ltb a' b' else x <? y
  end.

Fixpoint join (sep : str) (l : list str) : str :=
  match l with
  | [] => []
  | [s] => s
  | s :: l' => s ++ sep ++ join sep l'
  end.

Lemma dropwhile_idem p s : dropwhile p (dropwhile p s) = dropwhile p s.
Proof. induction s as [|c s IH]; cbn; [done|]. destruct (p c) eqn:E; [done|]. cbn. by rewrite E. Qed.

Lemma dropwhile_head p s c s' : dropwhile p s = c :: s' → p c = false.
Proof.
  induction s as [|x s IH]; cbn; [done|]. destruct (p x) eqn:E; [done|]. by intros [= -> ->].
Qed.

Lemma dropwhile_not p s : (∀ c s', s = c :: s' → p c = false) → dropwhile p s = s.
Proof. destruct s as [|c s]; cbn; [done|]. intros H. by rewrite (H c s). Qed.

Lemma dropwhile_suffix p s : ∃ l, s = l ++ dropwhile p s.
Proof.
  induction s as [|c s [l IH]]; cbn; [by exists []|]. destruct (p c); [|by exists []].
  exists (c :: l). cbn. by rewrite <- IH.
Qed.

Lemma strip_elem c s : c ∈ strip s → c ∈ s.
Proof.
  unfold strip, rstrip, lstrip.
  intros H. apply list_elem_of_In, in_rev, list_elem_of_In in H.
  destruct (dropwhile_suffix is_space (rev (dropwhile is_space s))) as [l Hl].
  assert (c ∈ rev (dropwhile is_space s)) as H2 by (rewrite Hl; apply elem_of_app; by right).
  apply list_elem_of_In, in_rev, list_elem_of_In in H2.
  destruct (dropwhile_suffix is_space s) as [l' Hl']. rewrite Hl'. apply elem_of_app. by right.
Qed.

(** A text none of whose ends is white space is its own [strip]. *)
Lemma strip_id s :
  (∀ c s', s = c :: s' → is_space c = false) →
  (∀ c s', s = s' ++ [c] → is_space c = false) → strip s = s.
Proof.
  intros Hl Hr. unfold strip, lstrip, rstrip. rewrite (dropwhile_not _ s) by done.
  rewrite dropwhile_not, rev_involutive; [done|].
  intros c s' E. apply (Hr c (rev s')).
  rewrite <- (rev_involutive s), E. done.
Qed.

Lemma strip_ends s :
  (∀ c s', strip s = c :: s' → is_space c = false) ∧
  (∀ c s', strip s = s' ++ [c] → is_space c = false).
Proof.
  unfold strip, lstrip, rstrip. set (t := dropwhile is_space s). split; intros c s' E.
  - destruct (dropwhile_suffix is_space (rev t)) as [l Hl].
    assert (t = (c :: s') ++ rev l) as Ht.
    { rewrite <- E, <- rev_app_distr, <- Hl. by rewrite rev_involutive. }
    eapply dropwhile_head. exact Ht.
  - apply (f_equal (@rev Z)) in E. rewrite rev_involutive, rev_app_distr in E. cbn in E.
    by eapply dropwhile_head.
Qed.

Lemma strip_idem s : strip (strip s) = strip s.
Proof. apply strip_id; apply strip_ends. Qed.

(** ** UTF-8 *)

Definition is_surrogate (c : Z) : bool := (0xD800 <=? c) && (c <=? 0xDFFF).
(** A Unicode scalar value: a code point that UTF-8 can carry. *)
Definition is_scalar (c : Z) : bool := (0 <=? c) && (c <=? 0x10FFFF) && negb (is_surrogate c).

Definition utf8_char (c : Z) : bytes :=
  if c <? 0x80 then [c]
  else if c <? 0x800 then [0xC0 + c / 64; 0x80 + c mod 64]
  else if c <? 0x10000 then [0xE0 + c / 4096; 0x80 + c / 64 mod 64; 0x80 + c mod 64]
  else [0xF0 + c / 262144; 0x80 + c / 4096 mod 64; 0x80 + c / 64 mod 64; 0x80 + c mod 64].

(** [s.encode("utf-8")] *)
Definition utf8_encode (s : str) : res bytes :=
  raise_if (negb (forallb is_scalar s)) UnicodeEncodeError;;
  Ok (concat (map utf8_char s)).

Definition is_cont (b : Z) : bool := (0x80 <=? b) && (b <=? 0xBF).

(** [b.decode("utf-8")]; [pass] is the [surrogatepass] error handler of
    [json.loads]. *)
Fixpoint utf8_decode (pass : bool) (l : bytes) : res str :=
  match l with
  | [] => Ok []
  | b0 :: l1 =>
      if (0 <=? b0) && (b0 <? 0x80) then s ← utf8_decode pass l1; Ok (b0 :: s)
      else
      match l1 with
      | [] => Err UnicodeDecodeError
      | b1 :: l2 =>
          if (0xC2 <=? b0) && (b0 <=? 0xDF) && is_cont b1 then
            s ← utf8_decode pass l2; Ok ((b0 - 0xC0) * 64 + (b1 - 0x80) :: s)
          else
          match l2 with
          | [] => Err UnicodeDecodeError
          | b2 :: l3 =>
              let c3 := (b0 - 0xE0) * 4096 + (b1 - 0x80) * 64 + (b2 - 0x80) in
              if (0xE0 <=? b0) && (b0 <=? 0xEF) && is_cont b1 && is_cont b2
                 && (0x800 <=? c3) && (pass || negb (is_surrogate c3)) then
                s ← utf8_decode pass l3; Ok (c3 :: s)
              else
              match l3 with
              | [] => Err UnicodeDecodeError
              | b3 :: l4 =>
                  let c4 := (b0 - 0xF0) * 262144 + (b1 - 0x80) * 4096
                            + (b2 - 0x80) * 64 + (b3 - 0x80) in
                  if (0xF0 <=? b0) && (b0 <=? 0xF4) && is_cont b1 && is_cont b2
                     && is_cont b3 && (0x10000 <=? c4) && (c4 <=? 0x10FFFF) then
                    s ← utf8_decode pass l4; Ok (c4 :: s)
                  else Err UnicodeDecodeError
              end
          end
      end
  end.

Ltac div_mod_eqs := Z.to_euclidean_division_equations.

Lemma utf8_decode_char pass c l :
  is_scalar c = true →
  utf8_decode pass (utf8_char c ++ l) = (s ← utf8_decode pass l; Ok (c :: s)).
Proof.
  unfold is_scalar, utf8_char. intros Hc.
  assert (0 ≤ c ≤ 0x10FFFF) as Hr by (breflect; lia).
  assert (is_surrogate c = false) as Hs by (breflect; tauto).
  destruct (Z.ltb_spec c 0x80); [cbn [app utf8_decode]|].
  { replace ((0 <=? c) && (c <? 0x80)) with true; [done|]. symmetry. breflect. lia. }
  destruct (Z.ltb_spec c 0x800).
  { cbn [app utf8_decode].
    replace ((0 <=? 0xC0 + c / 64) && (0xC0 + c / 64 <? 0x80)) with false
      by (symmetry; apply andb_false_iff; right; apply Z.ltb_ge; div_mod_eqs; lia).
    replace (_ && is_cont _) with true.
    - replace ((0xC0 + c / 64 - 0xC0) * 64 + (0x80 + c mod 64 - 0x80)) with c by (div_mod_eqs; lia). done.
    - symmetry. unfold is_cont. breflect. div_mod_eqs; lia. }
  destruct (Z.ltb_spec c 0x10000).
  { cbn [app utf8_decode].
    set (b0 := 0xE0 + c / 4096). set (b1 := 0x80 + c / 64 mod 64). set (b2 := 0x80 + c mod 64).
    assert (0xE0 ≤ b0 ≤ 0xEF) by (subst b0; div_mod_eqs; lia).
    assert (0x80 ≤ b1 ≤ 0xBF) by (subst b1; div_mod_eqs; lia).
    assert (0x80 ≤ b2 ≤ 0xBF) by (subst b2; div_mod_eqs; lia).
    assert ((b0 - 0xE0) * 4096 + (b1 - 0x80) * 64 + (b2 - 0x80) = c) as ->
      by (subst b0 b1 b2; div_mod_eqs; lia).
    clearbody b0 b1 b2.
    replace ((0 <=? b0) && (b0 <? 0x80)) with false by (symmetry; breflect; lia).
    replace ((0xC2 <=? b0) && (b0 <=? 0xDF) && is_cont b1) with false
      by (symmetry; breflect; lia).
    rewrite Hs. cbn [negb]. rewrite orb_true_r, andb_true_r.
    replace (_ && (0x800 <=? c)) with true; [done|].
    symmetry. unfold is_cont. breflect. lia. }
  cbn [app utf8_decode].
  set (b0 := 0xF0 + c / 262144). set (b1 := 0x80 + c / 4096 mod 64).
  set (b2 := 0x80 + c / 64 mod 64). set (b3 := 0x80 + c mod 64).
  assert (0xF0 ≤ b0 ≤ 0xF4) by (subst b0; div_mod_eqs; lia).
  assert (0x80 ≤ b1 ≤ 0xBF) by (subst b1; div_mod_eqs; lia).
  assert (0x80 ≤ b2 ≤ 0xBF) by (subst b2; div_mod_eqs; lia).
  assert (0x80 ≤ b3 ≤ 0xBF) by (subst b3; div_mod_eqs; lia).
  assert ((b0 - 0xF0) * 262144 + (b1 - 0x80) * 4096 + (b2 - 0x80) * 64 + (b3 - 0x80) = c) as ->
    by (subst b0 b1 b2 b3; div_mod_eqs; lia).
  clearbody b0 b1 b2 b3.
  replace ((0 <=? b0) && (b0 <? 0x80)) with false by (symmetry; breflect; lia).
  replace ((0xC2 <=? b0) && (b0 <=? 0xDF) && is_cont b1) with false by (symmetry; breflect; lia).
  replace ((0xE0 <=? b0) && (b0 <=? 0xEF) && is_cont b1 && is_cont b2 && _ && _) with false
    by (symmetry; breflect; lia).
  replace (_ && (c <=? 0x10FFFF)) with true; [done|].
  symmetry. unfold is_cont. breflect. lia.
Qed.

Lemma utf8_encode_Ok s b :
  utf8_encode s = Ok b ↔ Forall (λ c, is_scalar c = true) s ∧ b = concat (map utf8_char s).
Proof.
  unfold utf8_encode. rewrite <- forallb_Forall_true. destruct (forallb is_scalar s); cbn.
  - split; [by intros [= <-]|by intros [_ ->]].
  - split; [done|by intros [? _]].
Qed.

(** Decoding undoes encoding. *)
Lemma utf8_roundtrip pass s b : utf8_encode s = Ok b → utf8_decode pass b = Ok s.
Proof.
  intros [Hs ->]%utf8_encode_Ok. induction Hs as [|c s Hc Hs IH]; [done|].
  cbn [map concat]. by rewrite utf8_decode_char, IH.
Qed.

Lemma utf8_encode_inj s1 s2 b : utf8_encode s1 = Ok b → utf8_encode s2 = Ok b → s1 = s2.
Proof. intros H1%(utf8_roundtrip false) H2%(utf8_roundtrip false). congruence. Qed.

Lemma utf8_encode_ascii s : is_ascii s = true → utf8_encode s = Ok s.
Proof.
  unfold is_ascii. rewrite forallb_Forall_true. intros H. apply utf8_encode_Ok.
  assert (∀ c, (0 <=? c) && (c <? 128) = true → is_scalar c = true ∧ utf8_char c = [c]) as Hc.
  { intros c Hc. unfold is_scalar, is_surrogate, utf8_char. breflect.
    destruct (Z.ltb_spec c 0x80); [split; [|done]|lia]. breflect. repeat split; lia. }
  split; [eapply Forall_impl; [exact H|]; intros c ?; by apply Hc|].
  induction H as [|c s H1 Hs IH]; cbn; [done|].
  destruct (Hc c H1) as [_ ->]. cbn. by rewrite <- IH.
Qed.

(** ** Hexadecimal *)

Definition hex_digit (d : Z) : Z := if d <? 10 then 48 + d else 87 + d.
(** [b.hex()] of one byte. *)
Definition hex_byte (b : Z) : str := [hex_digit (b / 16); hex_digit (b mod 16)].
Definition hex (l : bytes) : str := concat (map hex_byte l).

Definition hex_value (c : Z) : option Z :=
  if (48 <=? c) && (c <=? 57) then Some (c - 48)
  else if (97 <=? c) && (c <=? 102) then Some (c - 87)
  else if (65 <=? c) && (c <=? 70) then Some (c - 55)
  else None.

Definition lower_hex (c : Z) : bool := (48 <=? c) && (c <=? 57) || (97 <=? c) && (c <=? 102).
Definition is_byte (b : Z) : bool := (0 <=? b) && (b <? 256).

Lemma hex_digit_lower d : 0 ≤ d < 16 → lower_hex (hex_digit d) = true.
Proof. unfold hex_digit, lower_hex. intros. destruct (Z.ltb_spec d 10); breflect; lia. Qed.

Lemma hex_lower l : Forall (λ b, is_byte b = true) l → Forall (λ c, lower_hex c = true) (hex l).
Proof.
  unfold hex, is_byte. induction 1 as [|b l Hb Hl IH]; cbn; [constructor|].
  assert (0 ≤ b < 256) by (breflect; lia).
  repeat constructor; [apply hex_digit_lower; div_mod_eqs; lia..|done].
Qed.

Lemma hex_length l : length (hex l) = (2 * length l)%nat.
Proof. unfold hex. induction l as [|b l IH]; cbn in *; lia. Qed.

(** ** Unicode tables (version 15.0) *)

Definition in_ranges (rs : list (Z * Z)) (c : Z) : bool :=
  existsb (λ '(lo, hi), (lo <=? c) && (c <=? hi)) rs.

Definition Cc : list (Z * Z) := [(0x0, 0x1F); (0x7F, 0x9F)].
Definition Cf : list (Z * Z) :=
  [(0xAD, 0xAD); (0x600, 0x605); (0x61C, 0x61C); (0x6DD, 0x6DD); (0x70F, 0x70F);
   (0x890, 0x891); (0x8E2, 0x8E2); (0x180E, 0x180E); (0x200B, 0x200F); (0x202A, 0x202E);
   (0x2060, 0x2064); (0x2066, 0x206F); (0xFEFF, 0xFEFF); (0xFFF9, 0xFFFB);
   (0x110BD, 0x110BD); (0x110CD, 0x110CD); (0x13430, 0x1343F); (0x1BCA0, 0x1BCA3);
   (0x1D173, 0x1D17A); (0xE0001, 0xE0001); (0xE0020, 0xE007F)].
Definition Cs : list (Z * Z) := [(0xD800, 0xDFFF)].
Definition Co : list (Z * Z) := [(0xE000, 0xF8FF); (0xF0000, 0xFFFFD); (0x100000, 0x10FFFD)].
Definition Zl : list (Z * Z) := [(0x2028, 0x2028)].
Definition Zp : list (Z * Z) := [(0x2029, 0x2029)].

(** First code point of each run of ten decimal digits (category Nd); the
    mathematical digits 1D7CE-1D7FF are five such runs. *)
Definition Nd_zeros : list Z :=
  [0x30; 0x660; 0x6F0; 0x7C0; 0x966; 0x9E6; 0xA66; 0xAE6; 0xB66; 0xBE6; 0xC66; 0xCE6;
   0xD66; 0xDE6; 0xE50; 0xED0; 0xF20; 0x1040; 0x1090; 0x17E0; 0x1810; 0x1946; 0x19D0;
   0x1A80; 0x1A90; 0x1B50; 0x1BB0; 0x1C40; 0x1C50; 0xA620; 0xA8D0; 0xA900; 0xA9D0;
   0xA9F0; 0xAA50; 0xABF0; 0xFF10; 0x104A0; 0x10D30; 0x11066; 0x110F0; 0x11136; 0x111D0;
   0x112F0; 0x11450; 0x114D0; 0x11650; 0x116C0; 0x11730; 0x118E0; 0x11950; 0x11C50;
   0x11D50; 0x11DA0; 0x11F50; 0x16A60; 0x16AC0; 0x16B50; 0x1D7CE; 0x1D7D8; 0x1D7E2;
   0x1D7EC; 0x1D7F6; 0x1E140; 0x1E2F0; 0x1E4F0; 0x1E950; 0x1FBF0].

(** The decimal value of a character, for [\d] and [int]. *)
Definition decimal_value (c : Z) : option Z :=
  match List.find (λ z, (z <=? c) && (c <=? z + 9)) Nd_zeros with
  | Some z => Some (c - z)
  | None => None
  end.
