(* ===== verification/Regex.v ===== *)
(** The regular expressions of [re.fullmatch].

    Patterns are first-class terms, so that each compiled pattern of the
    source is a definition one can read next to it; [fullmatch] decides them
    by Brzozowski derivatives, and [fullmatch_spec] states that it decides the
    language the pattern denotes.  A final [\Z] adds nothing to a full match
    and is left out. *)

From S2P Require Import Prelude Errors Text.

Inductive regex : Type :=
  | REmpty
  | REps
  | RClass (ranges : list (Z * Z))
  | RSeq (r1 r2 : regex)
  | RAlt (r1 r2 : regex)
  | RStar (r : regex).

Declare Scope re_scope.
Delimit Scope re_scope with re.
Bind Scope re_scope with regex.
Infix "·" := RSeq (at level 40, left associativity) : re_scope.
Infix "∥" := RAlt (at level 50, left associativity) : re_scope.

(** A literal character, a literal text, [r{n}], [r{0,n}], [r{m,n}], [r?], [r+]. *)
Definition rchar (c : Z) : regex := RClass [(c, c)].
Definition rlit (s : str) : regex := foldr (λ c r, RSeq (rchar c) r) REps s.
Definition rpow (r : regex) (n : nat) : regex := Nat.iter n (RSeq r) REps.
Definition rupto (r : regex) (n : nat) : regex := Nat.iter n (λ k, RAlt REps (RSeq r k)) REps.
Definition rrep (r : regex) (m n : nat) : regex := RSeq (rpow r m) (rupto r (n - m)).
Definition ropt (r : regex) : regex := RAlt REps r.
Definition rplus (r : regex) : regex := RSeq r (RStar r).

(** Character ranges used by the patterns. *)
Definition r09 : Z * Z := (48, 57).
Definition rAZ : Z * Z := (65, 90).
Definition raz : Z * Z := (97, 122).
Definition raf : Z * Z := (97, 102).
Definition rAF : Z * Z := (65, 70).
Definition rc (c : Z) : Z * Z := (c, c).
(** [\d] on [str] patterns: every Unicode decimal digit. *)
Definition rdigit : regex := RClass (map (λ z, (z, z + 9)) Nd_zeros).

(** ** The language of a pattern *)

Inductive Match : regex → str → Prop :=
  | MEps : Match REps []
  | MClass rs c : in_ranges rs c = true → Match (RClass rs) [c]
  | MSeq r1 r2 s1 s2 : Match r1 s1 → Match r2 s2 → Match (RSeq r1 r2) (s1 ++ s2)
  | MAltL r1 r2 s : Match r1 s → Match (RAlt r1 r2) s
  | MAltR r1 r2 s : Match r2 s → Match (RAlt r1 r2) s
  | MStarNil r : Match (RStar r) []
  | MStarCons r s1 s2 : Match r s1 → Match (RStar r) s2 → Match (RStar r) (s1 ++ s2).

#[export] Hint Constructors Match : py.

(** ** Deciding it *)

Definition seq' (r1 r2 : regex) : regex :=
  match r1, r2 with
  | REmpty, _ | _, REmpty => REmpty
  | REps, r => r
  | _, _ => RSeq r1 r2
  end.

Definition alt' (r1 r2 : regex) : regex :=
  match r1, r2 with
  | REmpty, r => r
  | r, REmpty => r
  | _, _ => RAlt r1 r2
  end.

Fixpoint nullable (r : regex) : bool :=
  match r with
  | REmpty | RClass _ => false
  | REps | RStar _ => true
  | RSeq r1 r2 => nullable r1 && nullable r2
  | RAlt r1 r2 => nullable r1 || nullable r2
  end.

Fixpoint deriv (c : Z) (r : regex) : regex :=
  match r with
  | REmpty | REps => REmpty
  | RClass rs => if in_ranges rs c then REps else REmpty
  | RSeq r1 r2 =>
      if nullable r1 then alt' (seq' (deriv c r1) r2) (deriv c r2) else seq' (deriv c r1) r2
  | RAlt r1 r2 => alt' (deriv c r1) (deriv c r2)
  | RStar r => seq' (deriv c r) (RStar r)
  end.

(** [re.fullmatch(r, s) is not None] *)
Fixpoint fullmatch (r : regex) (s : str) : bool :=
  match s with
  | [] => nullable r
  | c :: s' => fullmatch (deriv c r) s'
  end.

Lemma Match_empty s : ¬ Match REmpty s.
Proof. inversion 1. Qed.

Lemma Match_eps s : Match REps s ↔ s = [].
Proof. split; [by inversion 1|intros ->; constructor]. Qed.

Lemma Match_class rs s : Match (RClass rs) s ↔ ∃ c, s = [c] ∧ in_ranges rs c = true.
Proof. split; [inversion 1; eauto|intros (c&->&?); by constructor]. Qed.

Lemma Match_seq r1 r2 s : Match (RSeq r1 r2) s ↔ ∃ s1 s2, s = s1 ++ s2 ∧ Match r1 s1 ∧ Match r2 s2.
Proof. split; [inversion 1; eauto|intros (?&?&->&?&?); by constructor]. Qed.

Lemma Match_alt r1 r2 s : Match (RAlt r1 r2) s ↔ Match r1 s ∨ Match r2 s.
Proof. split; [inversion 1; auto|intros [?|?]; auto with py]. Qed.

Lemma seq'_cases r1 r2 :
  seq' r1 r2 = RSeq r1 r2 ∨
  (seq' r1 r2 = REmpty ∧ (r1 = REmpty ∨ r2 = REmpty)) ∨
  (seq' r1 r2 = r2 ∧ r1 = REps).
Proof. destruct r1, r2; cbn; auto. Qed.

Lemma alt'_cases r1 r2 :
  alt' r1 r2 = RAlt r1 r2 ∨ (alt' r1 r2 = r2 ∧ r1 = REmpty) ∨ (alt' r1 r2 = r1 ∧ r2 = REmpty).
Proof. destruct r1, r2; cbn; auto. Qed.

Lemma Match_seq' r1 r2 s : Match (seq' r1 r2) s ↔ Match (RSeq r1 r2) s.
Proof.
  destruct (seq'_cases r1 r2) as [->|[[-> H]|[-> ->]]]; [done|..]; rewrite Match_seq.
  - split; [by intros ?%Match_empty|]. intros (?&?&_&?&?).
    destruct H as [-> | ->]; exfalso; eapply Match_empty; eauto.
  - split; [intros ?; exists [], s; auto with py|]. by intros (?&?&->&->%Match_eps&?).
Qed.

Lemma Match_alt' r1 r2 s : Match (alt' r1 r2) s ↔ Match (RAlt r1 r2) s.
Proof.
  rewrite Match_alt. destruct (alt'_cases r1 r2) as [->|[[-> ->]|[-> ->]]].
  - apply Match_alt.
  - split; [by right|]. by intros [?%Match_empty|].
  - split; [by left|]. by intros [|?%Match_empty].
Qed.

Lemma nullable_spec r : nullable r = true ↔ Match r [].
Proof.
  induction r; cbn.
  - split; [done|by intros ?%Match_empty].
  - split; [constructor|done].
  - rewrite Match_class. split; [done|by intros (?&?&_)].
  - rewrite andb_true_iff, Match_seq, IHr1, IHr2. split.
    + intros [??]. by exists [], [].
    + intros (s1&s2&E&?&?). symmetry in E. by apply app_nil in E as [-> ->].
  - by rewrite orb_true_iff, Match_alt, IHr1, IHr2.
  - split; [constructor|done].
Qed.

Lemma Match_star_cons r c s :
  Match (RStar r) (c :: s) → ∃ s1 s2, s = s1 ++ s2 ∧ Match r (c :: s1) ∧ Match (RStar r) s2.
Proof.
  remember (RStar r) as q eqn:Eq. remember (c :: s) as t eqn:Et.
  intros H. revert c s Et. induction H as [| | | | | |r' s1 s2 H1 _ H2 IH]; try done.
  injection Eq as ->. intros c s Et. destruct s1 as [|x s1].
  - by apply IH.
  - injection Et as -> <-. eauto.
Qed.

Lemma deriv_spec c r s : Match (deriv c r) s ↔ Match r (c :: s).
Proof.
  revert s. induction r as [| |rs|r1 IH1 r2 IH2|r1 IH1 r2 IH2|r IH]; intros s; cbn [deriv].
  - split; intros ?%Match_empty; done.
  - split; [by intros ?%Match_empty|by intros ?%Match_eps].
  - rewrite Match_class. destruct (in_ranges rs c) eqn:E.
    + rewrite Match_eps. split; [intros ->; eauto|]. by intros (?&[= _ ->]&_).
    + split; [by intros ?%Match_empty|]. intros (?&[= <- _]&?). congruence.
  - assert (Match (RSeq (deriv c r1) r2) s ↔
            ∃ s1 s2, s = s1 ++ s2 ∧ Match r1 (c :: s1) ∧ Match r2 s2) as Hs.
    { rewrite Match_seq. by setoid_rewrite IH1. }
    transitivity ((∃ s1 s2, s = s1 ++ s2 ∧ Match r1 (c :: s1) ∧ Match r2 s2) ∨
                  (nullable r1 = true ∧ Match r2 (c :: s))).
    + destruct (nullable r1).
      * rewrite Match_alt', Match_alt, Match_seq', Hs, IH2. tauto.
      * rewrite Match_seq', Hs. split; [by left|]. by intros [?|[? _]].
    + rewrite Match_seq, nullable_spec. split.
      * intros [(s1&s2&->&?&?)|[??]]; [by exists (c :: s1), s2|by exists [], (c :: s)].
      * intros ([|x s1]&s2&E&?&?); cbn in E; [subst; by right|].
        injection E as -> ->. left. eauto.
  - by rewrite Match_alt', !Match_alt, IH1, IH2.
  - rewrite Match_seq', Match_seq. setoid_rewrite IH. split.
    + intros (s1&s2&->&?&?). rewrite app_comm_cons. by constructor.
    + intros (s1&s2&->&?&?)%Match_star_cons. eauto.
Qed.

(** [fullmatch] decides the language of the pattern. *)
Lemma fullmatch_spec r s : fullmatch r s = true ↔ Match r s.
Proof.
  revert r. induction s as [|c s IH]; intros r; cbn.
  - apply nullable_spec.
  - by rewrite IH, deriv_spec.
Qed.

(** ** What a match says about the text *)

(** Every character a match can contain satisfies [P]. *)
Fixpoint rforall (P : Z → Prop) (r : regex) : Prop :=
  match r with
  | REmpty | REps => True
  | RClass rs => ∀ c, in_ranges rs c = true → P c
  | RSeq r1 r2 | RAlt r1 r2 => rforall P r1 ∧ rforall P r2
  | RStar r => rforall P r
  end.

Lemma rforall_Match P r s : rforall P r → Match r s → Forall P s.
Proof.
  intros HP H. induction H; cbn in HP; try destruct HP; try constructor; eauto;
    try (apply Forall_app; split); eauto.
Qed.

(** Bounds on the length of a match; [None] is no upper bound. *)
Fixpoint rmin (r : regex) : nat :=
  match r with
  | REmpty | REps | RStar _ => 0
  | RClass _ => 1
  | RSeq r1 r2 => rmin r1 + rmin r2
  | RAlt r1 r2 => rmin r1 `min` rmin r2
  end.

Fixpoint rmax (r : regex) : option nat :=
  match r with
  | REmpty | REps => Some 0%nat
  | RClass _ => Some 1%nat
  | RSeq r1 r2 => a ← rmax r1; b ← rmax r2; Some (a + b)%nat
  | RAlt r1 r2 => a ← rmax r1; b ← rmax r2; Some (a `max` b)%nat
  | RStar _ => None
  end.

Lemma rmin_Match r s : Match r s → (rmin r ≤ length s)%nat.
Proof. induction 1; cbn; rewrite ?length_app; lia. Qed.

Lemma rmax_Match r s n : Match r s → rmax r = Some n → (length s ≤ n)%nat.
Proof.
  intros H. revert n. induction H; cbn; intros n Hn; try (simplify_eq; cbn; lia);
    destruct (rmax r1) as [a|]; try done; destruct (rmax r2) as [b|]; simplify_eq/=;
    rewrite ?length_app;
    repeat match goal with
    | IH : ∀ n, Some ?x = Some n → _ |- _ => specialize (IH _ eq_refl)
    end; lia.
Qed.

Lemma Match_lit p s : Match (rlit p) s ↔ s = p.
Proof.
  revert s. induction p as [|c p IH]; intros s; cbn [rlit foldr].
  - apply Match_eps.
  - rewrite Match_seq. setoid_rewrite Match_class. split.
    + intros (?&s2&->&(c'&->&Hc)&->%IH). cbn in Hc. breflect.
      replace c' with c by lia. done.
    + intros ->. exists [c], p. split; [done|]. split; [|by apply IH].
      exists c. split; [done|]. cbn. breflect. lia.
Qed.

(** ** Fixed-length runs of a character class *)

Lemma Match_rpow_class rs n s :
  Match (rpow (RClass rs) n) s ↔ length s = n ∧ Forall (λ c, in_ranges rs c = true) s.
Proof.
  revert s. induction n as [|n IH]; intros s.
  - change (rpow _ 0) with REps. rewrite Match_eps.
    split; [by intros ->|]. by intros [?%nil_length_inv _].
  - change (rpow ?r (S n)) with (RSeq r (rpow r n)). rewrite Match_seq. split.
    + intros (s1&s2&->&(c&->&Hc)%Match_class&[Hl Hf]%IH). cbn. split; [lia|by constructor].
    + intros [Hl Hf]. destruct s as [|c s]; [done|]. apply Forall_cons in Hf as [Hc Hf].
      exists [c], s. split; [done|]. rewrite Match_class. split; [by exists c|].
      apply IH. split; [cbn in Hl; lia|done].
Qed.

Lemma Match_rupto_class rs n s :
  Match (rupto (RClass rs) n) s ↔ (length s ≤ n)%nat ∧ Forall (λ c, in_ranges rs c = true) s.
Proof.
  revert s. induction n as [|n IH]; intros s.
  - change (rupto _ 0) with REps. rewrite Match_eps.
    split; [by intros ->; cbn|]. intros [H _]. destruct s; [done|cbn in H; lia].
  - change (rupto ?r (S n)) with (RAlt REps (RSeq r (rupto r n))). rewrite Match_alt, Match_eps, Match_seq. split.
    + intros [->|(s1&s2&->&(c&->&Hc)%Match_class&[Hl Hf]%IH)]; cbn; split; try lia;
        by constructor.
    + intros [Hl Hf]. destruct s as [|c s]; [by left|]. right.
      apply Forall_cons in Hf as [Hc Hf].
      exists [c], s. split; [done|]. rewrite Match_class. split; [by exists c|].
      apply IH. split; [cbn in Hl; lia|done].
Qed.

Lemma Match_rrep_class rs m n s :
  (m ≤ n)%nat →
  Match (rrep (RClass rs) m n) s ↔
  (m ≤ length s ≤ n)%nat ∧ Forall (λ c, in_ranges rs c = true) s.
Proof.
  intros Hmn. unfold rrep. rewrite Match_seq. setoid_rewrite Match_rpow_class.
  setoid_rewrite Match_rupto_class. split.
  - intros (s1&s2&->&[H1 F1]&[H2 F2]). rewrite length_app, Forall_app. lia || (split; [lia|done]).
  - intros [Hl Hf]. exists (take m s), (drop m s). rewrite take_drop, length_take, length_drop.
    rewrite <- (take_drop m s), Forall_app in Hf. destruct Hf. repeat split; done || lia.
Qed.

(** What a pattern says of every character and of the length of a match. *)
Lemma rforall_rrep (P : Z → Prop) r m n : rforall P r → rforall P (rrep r m n).
Proof.
  intros Hr. unfold rrep. cbn [rforall]. split.
  - induction m as [|m IH]; [done|]. by split.
  - generalize (n - m)%nat. intros k. induction k as [|k IH]; [done|]. cbn. by repeat split.
Qed.

Lemma fullmatch_forall P r s : rforall P r → fullmatch r s = true → Forall P s.
Proof. intros HP H%fullmatch_spec. by eapply rforall_Match. Qed.

Lemma fullmatch_max r s n : fullmatch r s = true → rmax r = Some n → (length s ≤ n)%nat.
Proof. intros H%fullmatch_spec. by apply rmax_Match. Qed.

Lemma fullmatch_min r s : fullmatch r s = true → (rmin r ≤ length s)%nat.
Proof. intros H%fullmatch_spec. by apply rmin_Match. Qed.
