(* ===== verification/Sha256.v ===== *)
(** [hashlib.sha256], executable (FIPS 180-4), with the shape of its digests. *)

From S2P Require Import Prelude Errors Text.

Definition w32 (x : Z) : Z := x mod 2 ^ 32.
Definition rotr (n x : Z) : Z := Z.lor (Z.shiftr x n) (w32 (Z.shiftl x (32 - n))).

Definition Ch (x y z : Z) : Z := Z.lxor (Z.land x y) (Z.land (2 ^ 32 - 1 - x) z).
Definition Maj (x y z : Z) : Z := Z.lxor (Z.land x y) (Z.lxor (Z.land x z) (Z.land y z)).
Definition Sigma0 (x : Z) : Z := Z.lxor (rotr 2 x) (Z.lxor (rotr 13 x) (rotr 22 x)).
Definition Sigma1 (x : Z) : Z := Z.lxor (rotr 6 x) (Z.lxor (rotr 11 x) (rotr 25 x)).
Definition sigma0 (x : Z) : Z := Z.lxor (rotr 7 x) (Z.lxor (rotr 18 x) (Z.shiftr x 3)).
Definition sigma1 (x : Z) : Z := Z.lxor (rotr 17 x) (Z.lxor (rotr 19 x) (Z.shiftr x 10)).

(** The standard defines its constants: the first 32 bits of the fractional
    parts of the square roots of the first 8 primes and of the cube roots of the
    first 64. *)
Definition prime_number (n : Z) : bool :=
  forallb (λ d, negb (n mod d =? 0)) (seqZ 2 (Z.sqrt n - 1)).
Definition first_primes (k : nat) : list Z := take k (List.filter prime_number (seqZ 2 320)).

(** The integer cube root, bit by bit from [2 ^ n] down. *)
Fixpoint cube_root (n : nat) (acc x : Z) : Z :=
  match n with
  | O => acc
  | S n => let acc' := acc + 2 ^ n in cube_root n (if acc' ^ 3 <=? x then acc' else acc) x
  end.

Definition sha256_K : list Z :=
  Eval vm_compute in map (λ p, w32 (cube_root 40 0 (p * 2 ^ 96))) (first_primes 64).
Definition sha256_H0 : list Z :=
  Eval vm_compute in map (λ p, w32 (Z.sqrt (p * 2 ^ 64))) (first_primes 8).

(** The message schedule, kept reversed: the last word first. *)
Fixpoint schedule (n : nat) (rev_w : list Z) : list Z :=
  match n with
  | O => rev_w
  | S n =>
      let w i := nth i rev_w 0 in
      schedule n (w32 (sigma1 (w 1%nat) + w 6%nat + sigma0 (w 14%nat) + w 15%nat) :: rev_w)
  end.

Definition sha256_round (st : list Z) (kw : Z * Z) : list Z :=
  match st with
  | [a; b; c; d; e; f; g; h] =>
      let t1 := h + Sigma1 e + Ch e f g + kw.1 + kw.2 in
      let t2 := Sigma0 a + Maj a b c in
      [w32 (t1 + t2); a; b; c; w32 (d + t1); e; f; g]
  | _ => st
  end.

Definition compress (st block : list Z) : list Z :=
  let ws := rev (schedule 48 (rev block)) in
  zip_with (λ x y, w32 (x + y)) st (fold_left sha256_round (zip sha256_K ws) st).

Fixpoint words (l : bytes) : list Z :=
  match l with
  | a :: b :: c :: d :: l' => a * 2 ^ 24 + b * 2 ^ 16 + c * 2 ^ 8 + d :: words l'
  | _ => []
  end.

(** [n] bytes of [x], most significant first. *)
Fixpoint be_bytes (n : nat) (x : Z) : bytes :=
  match n with
  | O => []
  | S n => (x / 256 ^ n) mod 256 :: be_bytes n x
  end.

Definition pad (m : bytes) : bytes :=
  let zeros := Z.to_nat ((55 - length m) mod 64) in
  m ++ [0x80] ++ repeat 0 zeros ++ be_bytes 8 (8 * length m).

Fixpoint blocks (fuel : nat) (ws st : list Z) : list Z :=
  match fuel with
  | O => st
  | S fuel => match ws with
              | [] => st
              | _ => blocks fuel (drop 16 ws) (compress st (take 16 ws))
              end
  end.

(** [hashlib.sha256(m).digest()]; one block per 16 words, so [length m] blocks
    and one more are enough fuel. *)
Definition sha256 (m : bytes) : bytes :=
  concat (map (be_bytes 4) (blocks (S (length m)) (words (pad m)) sha256_H0)).

(** [hashlib.sha256(m).hexdigest()] *)
Definition sha256_hex (m : bytes) : str := hex (sha256 m).

Example sha256_empty :
  sha256_hex [] = u "e3b0c44298fc1c149afbf4c8996fb92427ae41e4649b934ca495991b7852b855".
Proof. vm_compute. reflexivity. Qed.

Example sha256_abc :
  sha256_hex (u "abc") = u "ba7816bf8f01cfea414140de5dae2223b00361a396177a9cb410ff61f20015ad".
Proof. vm_compute. reflexivity. Qed.

Example sha256_two_blocks :
  sha256_hex (u "abcdbcdecdefdefgefghfghighijhijkijkljklmklmnlmnomnopnopq")
  = u "248d6a61d20638b8e5c026930c3e6039a33ce45964ff2167f6ecedd419db06c1".
Proof. vm_compute. reflexivity. Qed.

(** ** Shape of the digest *)

Lemma be_bytes_length n x : length (be_bytes n x) = n.
Proof. induction n; cbn; congruence. Qed.

Lemma be_bytes_byte n x : Forall (λ b, is_byte b = true) (be_bytes n x).
Proof.
  induction n as [|n IH]; cbn [be_bytes]; constructor; [|done].
  unfold is_byte. apply andb_true_iff. rewrite Z.leb_le, Z.ltb_lt. apply Z.mod_pos_bound. lia.
Qed.

Lemma sha256_round_length st kw : length st = 8%nat → length (sha256_round st kw) = 8%nat.
Proof. intros H. do 9 (destruct st as [|? st]; try done). Qed.

Lemma compress_length st block : length st = 8%nat → length (compress st block) = 8%nat.
Proof.
  intros H. unfold compress. rewrite length_zip_with.
  assert (∀ l st, length st = 8%nat → length (fold_left sha256_round l st) = 8%nat) as Hf.
  { induction l as [|kw l IH]; cbn; intros; [done|]. by apply IH, sha256_round_length. }
  rewrite Hf by done. rewrite H. done.
Qed.

Lemma blocks_length fuel ws st : length st = 8%nat → length (blocks fuel ws st) = 8%nat.
Proof.
  revert ws st. induction fuel as [|fuel IH]; intros ws st H; cbn; [done|].
  destruct ws; [done|]. by apply IH, compress_length.
Qed.

Lemma sha256_length m : length (sha256 m) = 32%nat.
Proof.
  unfold sha256. pose proof (blocks_length (S (length m)) (words (pad m)) sha256_H0 eq_refl) as H.
  set (l := blocks _ _ _) in *. clearbody l.
  do 9 (destruct l as [|? l]; try done).
Qed.

Lemma sha256_bytes m : Forall (λ b, is_byte b = true) (sha256 m).
Proof.
  unfold sha256. set (l := blocks _ _ _). clearbody l.
  induction l as [|x l IH]; cbn [map concat]; [constructor|].
  apply Forall_app. split; [apply be_bytes_byte|done].
Qed.

Lemma sha256_hex_length m : length (sha256_hex m) = 64%nat.
Proof. unfold sha256_hex. by rewrite hex_length, sha256_length. Qed.

Lemma sha256_hex_lower m : Forall (λ c, lower_hex c = true) (sha256_hex m).
Proof. apply hex_lower, sha256_bytes. Qed.

#[global] Opaque sha256 sha256_hex.
