(* ===== verification/Json.v ===== *)
(** The [json] module: values, [json.dumps] with [ensure_ascii=True] and the
    compact separators, and [json.loads].

    A JSON object is a Python dict: an association list in insertion order
    whose keys are distinct.  A float is kept as the exact decimal it denotes
    with its text; the only one a schema of the program accepts is zero, which
    is kept as the text Python prints for it.  [loads] is written
    with fuel; [loads_fuel_enough] shows that the fuel given is never the
    reason for an error, and [loads_dumps] that it reads back what [dumps]
    writes. *)

From S2P Require Import Prelude Errors Text.

Inductive json : Type :=
  | JNull
  | JBool (b : bool)
  | JInt (z : Z)
  | JFloat (f : pyfloat)
  | JStr (s : str)
  | JList (l : list json)
  | JDict (kvs : list (str * json)).

(** ** Induction and equality *)

Section json_induction.
Context (P : json → Prop).
Context (Hnull : P JNull) (Hbool : ∀ b, P (JBool b)) (Hint : ∀ z, P (JInt z)).
Context (Hfloat : ∀ f, P (JFloat f)) (Hstr : ∀ s, P (JStr s)).
Context (Hlist : ∀ l, Forall P l → P (JList l)).
Context (Hdict : ∀ kvs, Forall (λ kv, P kv.2) kvs → P (JDict kvs)).

Fixpoint json_nested_ind (j : json) : P j :=
  match j with
  | JNull => Hnull
  | JBool b => Hbool b
  | JInt z => Hint z
  | JFloat f => Hfloat f
  | JStr s => Hstr s
  | JList l =>
      Hlist l ((fix go l : Forall P l :=
        match l with
        | [] => Forall_nil_2 P
        | j :: l => Forall_cons_2 P j l (json_nested_ind j) (go l)
        end) l)
  | JDict kvs =>
      Hdict kvs ((fix go kvs : Forall (λ kv, P kv.2) kvs :=
        match kvs with
        | [] => Forall_nil_2 _
        | kv :: kvs => Forall_cons_2 _ kv kvs (json_nested_ind kv.2) (go kvs)
        end) kvs)
  end.
End json_induction.

#[export] Instance json_eq_dec : EqDecision json.
Proof.
  refine (fix go (x y : json) : Decision (x = y) :=
    match x, y with
    | JNull, JNull => left eq_refl
    | JBool a, JBool b => cast_if (decide (a = b))
    | JInt a, JInt b => cast_if (decide (a = b))
    | JFloat a, JFloat b => cast_if (decide (a = b))
    | JStr a, JStr b => cast_if (decide (a = b))
    | JList a, JList b => cast_if (@list_eq_dec _ go a b)
    | JDict a, JDict b => cast_if (@list_eq_dec _ (@prod_eq_dec _ _ _ go) a b)
    | _, _ => right _
    end); clear go; abstract congruence.
Defined.

(** ** Dictionaries *)

Fixpoint dict_get {A} (k : str) (kvs : list (str * A)) : option A :=
  match kvs with
  | [] => None
  | (k', v) :: kvs' => if k' == k then Some v else dict_get k kvs'
  end.

(** [d[k] = v]: replace in place, or append. *)
Fixpoint dict_set {A} (k : str) (v : A) (kvs : list (str * A)) : list (str * A) :=
  match kvs with
  | [] => [(k, v)]
  | (k', v') :: kvs' => if k' == k then (k', v) :: kvs' else (k', v') :: dict_set k v kvs'
  end.

(** [dict(pairs)] *)
Definition dict_of_pairs {A} (pairs : list (str * A)) : list (str * A) :=
  fold_left (λ d kv, dict_set kv.1 kv.2 d) pairs [].

(** [d.update(kvs)] *)
Definition dict_update {A} (d kvs : list (str * A)) : list (str * A) :=
  fold_left (λ d kv, dict_set kv.1 kv.2 d) kvs d.

(** [set(d) == keys] *)
Definition has_exact_keys {A} (d : list (str * A)) (keys : list str) : bool :=
  forallb (λ k, k in? keys) d.*1 && forallb (λ k, k in? d.*1) keys.

(** [d.get(k)]: [None] and a missing key are the same value. *)
Definition jget (k : str) (d : list (str * json)) : json :=
  default JNull (dict_get k d).

(** The text of a value that is known to be one. *)
Definition str_of (v : json) : str := match v with JStr s => s | _ => [] end.

(** ** [json.dumps] *)

Definition QUOTE : Z := 34.
Definition BSLASH : Z := 92.

Definition hex4 (c : Z) : str :=
  [hex_digit (c / 4096); hex_digit (c / 256 mod 16); hex_digit (c / 16 mod 16); hex_digit (c mod 16)].

Definition escape_u (c : Z) : str := BSLASH :: 117 :: hex4 c.

Definition quote_char (c : Z) : str :=
  if c =? QUOTE then [BSLASH; QUOTE]
  else if c =? BSLASH then [BSLASH; BSLASH]
  else if c =? 8 then [BSLASH; 98]
  else if c =? 9 then [BSLASH; 116]
  else if c =? 10 then [BSLASH; 110]
  else if c =? 12 then [BSLASH; 102]
  else if c =? 13 then [BSLASH; 114]
  else if (32 <=? c) && (c <=? 126) then [c]
  else if c <? 0x10000 then escape_u c
  else escape_u (0xD800 + (c - 0x10000) / 1024) ++ escape_u (0xDC00 + (c - 0x10000) mod 1024).

Definition quote_str (s : str) : str := QUOTE :: concat (map quote_char s) ++ [QUOTE].

(** [sorted(items)] by key. *)
Fixpoint insert_key {A} (kv : str * A) (l : list (str * A)) : list (str * A) :=
  match l with
  | [] => [kv]
  | kv' :: l' => if str_ltb kv'.1 kv.1 then kv' :: insert_key kv l' else kv :: l
  end.
Fixpoint sort_keys {A} (l : list (str * A)) : list (str * A) :=
  match l with
  | [] => []
  | kv :: l' => insert_key kv (sort_keys l')
  end.

Definition float_text (f : pyfloat) : str :=
  match f with Finite _ t | NonFinite t => t end.

(** [sort] is [dumps]'s [sort_keys] argument. *)
Fixpoint dumps (sort : bool) (j : json) : str :=
  match j with
  | JNull => u "null"
  | JBool true => u "true"
  | JBool false => u "false"
  | JInt z => int_str z
  | JFloat f => float_text f
  | JStr s => quote_str s
  | JList l => u "[" ++ join (u ",") (map (dumps sort) l) ++ u "]"
  | JDict kvs =>
      let items := map (λ kv, (kv.1, dumps sort kv.2)) kvs in
      let items := if sort then sort_keys items else items in
      u "{" ++ join (u ",") (map (λ kv, quote_str kv.1 ++ u ":" ++ kv.2) items) ++ u "}"
  end.

(** [json.dumps(v, ensure_ascii=True, separators=(",", ":"), sort_keys=True)],
    whose UTF-8 encoding is itself. *)
Definition canonical_json (j : json) : bytes := dumps true j.

(** ** [json.loads] *)

Record loader := Loader {
  on_pairs : list (str * json) → res (list (str * json));  (* object_pairs_hook *)
  on_constant : str → res json                             (* parse_constant *)
}.

Definition default_loader : loader :=
  Loader (λ kvs, Ok (dict_of_pairs kvs)) (λ t, Ok (JFloat (NonFinite t))).

Definition has_duplicates (kvs : list (str * json)) : bool := negb (bool_decide (NoDup kvs.*1)).

(** An [object_pairs_hook] that raises [e] on a repeated key. *)
Definition reject_duplicates (e : exn) : list (str * json) → res (list (str * json)) :=
  λ kvs, raise_if (has_duplicates kvs) e;; Ok kvs.

Definition is_ws (c : Z) : bool := (c =? 32) || (c =? 9) || (c =? 10) || (c =? 13).
Definition skip_ws (s : str) : str := dropwhile is_ws s.

Definition hex4_value (a b c d : Z) : option Z :=
  x ← hex_value a; y ← hex_value b; z ← hex_value c; w ← hex_value d;
  Some (x * 4096 + y * 256 + z * 16 + w).

Definition is_high (c : Z) : bool := (0xD800 <=? c) && (c <=? 0xDBFF).
Definition is_low (c : Z) : bool := (0xDC00 <=? c) && (c <=? 0xDFFF).

Definition simple_escape (c : Z) : option Z :=
  if c =? QUOTE then Some QUOTE else if c =? BSLASH then Some BSLASH
  else if c =? 47 then Some 47 else if c =? 98 then Some 8
  else if c =? 102 then Some 12 else if c =? 110 then Some 10
  else if c =? 114 then Some 13 else if c =? 116 then Some 9 else None.

(** [\uXXXX] at the head of [s], after the backslash. *)
Definition scan_u (s : str) : option (Z * str) :=
  match s with
  | 117 :: a :: b :: c :: d :: s' => v ← hex4_value a b c d; Some (v, s')
  | _ => None
  end.

(** The rest of a string literal, after its opening quote. *)
Fixpoint scan_string (s : str) : res (str * str) :=
  match s with
  | [] => Err JSONDecodeError
  | c :: s1 =>
      if c =? QUOTE then Ok ([], s1)
      else if c <=? 31 then Err JSONDecodeError
      else if negb (c =? BSLASH) then
        '(t, r) ← scan_string s1; Ok (c :: t, r)
      else
      match s1 with
      | [] => Err JSONDecodeError
      | e :: s2 =>
          if negb (e =? 117) then
            match simple_escape e with
            | None => Err JSONDecodeError
            | Some x => '(t, r) ← scan_string s2; Ok (x :: t, r)
            end
          else
          match s2 with
          | h1 :: h2 :: h3 :: h4 :: s3 =>
              match hex4_value h1 h2 h3 h4 with
              | None => Err JSONDecodeError
              | Some hi =>
                  let single := '(t, r) ← scan_string s3; Ok (hi :: t, r) in
                  match s3 with
                  | b1 :: b2 :: l1 :: l2 :: l3 :: l4 :: s4 =>
                      if is_high hi && (b1 =? BSLASH) && (b2 =? 117) then
                        match hex4_value l1 l2 l3 l4 with
                        | None => Err JSONDecodeError
                        | Some lo =>
                            if is_low lo then
                              '(t, r) ← scan_string s4;
                              Ok (0x10000 + (hi - 0xD800) * 1024 + (lo - 0xDC00) :: t, r)
                            else single
                        end
                      else single
                  | _ => single
                  end
              end
          | _ => Err JSONDecodeError
          end
      end
  end.

Fixpoint span (p : Z → bool) (s : str) : str * str :=
  match s with
  | [] => ([], [])
  | c :: s' => if p c then let '(a, b) := span p s' in (c :: a, b) else ([], s)
  end.

(** An optional fraction, an optional exponent. *)
Definition scan_frac (s : str) : str * str :=
  match s with
  | 46 :: s1 => match span ascii_digit s1 with ([], _) => ([], s) | (ds, r) => (46 :: ds, r) end
  | _ => ([], s)
  end.

Definition scan_exp (s : str) : str * str :=
  match s with
  | e :: s1 =>
      if (e =? 101) || (e =? 69) then
        let '(sign, s2) := match s1 with
                           | x :: s2 => if (x =? 43) || (x =? 45) then ([x], s2) else ([], s1)
                           | [] => ([], s1)
                           end in
        match span ascii_digit s2 with
        | ([], _) => ([], s)
        | (ds, r) => (e :: sign ++ ds, r)
        end
      else ([], s)
  | [] => ([], s)
  end.

Definition digits_value (s : str) : Z := of_digits 10 (map (λ c, c - zero_char) s).

(** The exact value of a decimal literal given by its parts. *)
Definition decimal_Q (neg : bool) (int frac exp : str) : Q :=
  let m := digits_value (int ++ drop 1 frac) in
  let m := if neg then - m else m in
  let e := match exp with
           | _ :: 45 :: ds => - digits_value ds
           | _ :: 43 :: ds => digits_value ds
           | _ :: ds => digits_value ds
           | [] => 0
           end - length (drop 1 frac) in
  if 0 <=? e then inject_Z (m * 10 ^ e) else Qmake m (Z.to_pos (10 ^ (- e))).

(** Up to [2^-1075] the nearest double is zero. *)
Definition FLOAT_ZERO : Q := 1 # (2 ^ 1075).
Definition float_literal (neg : bool) (q : Q) (text : str) : pyfloat :=
  if Qle_bool q FLOAT_ZERO && Qle_bool (- FLOAT_ZERO) q then Finite 0 (if neg then u "-0.0" else u "0.0")
  else Finite q text.

(** The unsigned part of a number; [neg] says whether a minus sign preceded. *)
Definition scan_number (neg : bool) (s : str) : res (json * str) :=
  let '(int, s1) := match s with
                    | 48 :: s1 => ([48], s1)
                    | _ => span ascii_digit s
                    end in
  match int with
  | [] => Err JSONDecodeError
  | _ =>
      let '(frac, s2) := scan_frac s1 in
      let '(exp, s3) := scan_exp s2 in
      let sign := if neg then [45] else [] in
      match frac ++ exp with
      | [] => z ← int_of_digits int; Ok (JInt (if neg then - z else z), s1)
      | _ => Ok (JFloat (float_literal neg (decimal_Q neg int frac exp) (sign ++ int ++ frac ++ exp)), s3)
      end
  end.

(** The value at the head of [s], which does not start with white space; then
    the elements of a list and the members of an object after the opening
    bracket and white space.  Out of fuel is a [RecursionError]. *)
Section parser.
Context (L : loader).

Fixpoint parse_value (n : nat) (s : str) {struct n} : res (json * str) :=
  match n with
  | O => Err RecursionError
  | S n =>
      match s with
      | [] => Err JSONDecodeError
      | c :: s' =>
          if c =? QUOTE then '(t, r) ← scan_string s'; Ok (JStr t, r)
          else if c =? 123 then
            '(kvs, r) ← parse_members n true (skip_ws s');
            d ← on_pairs L kvs; Ok (JDict d, r)
          else if c =? 91 then
            '(l, r) ← parse_elements n true (skip_ws s'); Ok (JList l, r)
          else if startswith (u "null") s then Ok (JNull, drop 4 s)
          else if startswith (u "true") s then Ok (JBool true, drop 4 s)
          else if startswith (u "false") s then Ok (JBool false, drop 5 s)
          else if startswith (u "NaN") s then v ← on_constant L (u "NaN"); Ok (v, drop 3 s)
          else if startswith (u "Infinity") s then
            v ← on_constant L (u "Infinity"); Ok (v, drop 8 s)
          else if startswith (u "-Infinity") s then
            v ← on_constant L (u "-Infinity"); Ok (v, drop 9 s)
          else if c =? 45 then scan_number true s'
          else scan_number false s
      end
  end
with parse_elements (n : nat) (first : bool) (s : str) {struct n} : res (list json * str) :=
  match n with
  | O => Err RecursionError
  | S n =>
      match s with
      | 93 :: s' => if first then Ok ([], s') else Err JSONDecodeError
      | _ =>
          '(v, r) ← parse_value n s;
          match skip_ws r with
          | 93 :: r' => Ok ([v], r')
          | 44 :: r' => '(vs, r'') ← parse_elements n false (skip_ws r'); Ok (v :: vs, r'')
          | _ => Err JSONDecodeError
          end
      end
  end
with parse_members (n : nat) (first : bool) (s : str) {struct n}
    : res (list (str * json) * str) :=
  match n with
  | O => Err RecursionError
  | S n =>
      match s with
      | 125 :: s' => if first then Ok ([], s') else Err JSONDecodeError
      | 34 :: s' =>
          '(k, r) ← scan_string s';
          match skip_ws r with
          | 58 :: r' =>
              '(v, r2) ← parse_value n (skip_ws r');
              match skip_ws r2 with
              | 125 :: r3 => Ok ([(k, v)], r3)
              | 44 :: r3 =>
                  '(kvs, r4) ← parse_members n false (skip_ws r3); Ok ((k, v) :: kvs, r4)
              | _ => Err JSONDecodeError
              end
          | _ => Err JSONDecodeError
          end
      | _ => Err JSONDecodeError
      end
  end.
End parser.

Definition loads_with (L : loader) (s : str) : res json :=
  raise_if (startswith [0xFEFF] s) JSONDecodeError;;
  '(v, r) ← parse_value L (2 * length s + 2) (skip_ws s);
  raise_if (negb (bool_decide (skip_ws r = []))) JSONDecodeError;;
  Ok v.

(** [json.loads] of a [str]. *)
Definition loads : str → res json := loads_with default_loader.

(** ** The fuel of [loads] is enough *)

(** The outcome of a scanner on [s]: what is left is shorter, and running out
    of fuel is not why it fails. *)
Definition consumes {A} (m : res (A * str)) (s : str) : Prop :=
  match m with Ok (_, r) => (length r < length s)%nat | Err e => e ≠ RecursionError end.

Lemma consumes_bind {A B} (m : res (A * str)) (f : A * str → res (B * str)) s t :
  consumes m s → (∀ a r, m = Ok (a, r) → (length r < length s)%nat → consumes (f (a, r)) t) →
  consumes (m ≫= f) t.
Proof. destruct m as [[a r]|e]; cbn; [|done]. intros H Hf. by apply Hf. Qed.

Lemma dropwhile_length p s : (length (dropwhile p s) ≤ length s)%nat.
Proof. induction s as [|c s IH]; cbn; [lia|]. destruct (p c); cbn; lia. Qed.

Lemma skip_ws_length s : (length (skip_ws s) ≤ length s)%nat.
Proof. apply dropwhile_length. Qed.

Lemma scan_string_consumes s : consumes (scan_string s) s.
Proof.
  assert (∀ n s, (length s ≤ n)%nat → consumes (scan_string s) s) as H; [|by eapply H].
  clear s. induction n as [|n IH]; intros [|c s1] Hn; cbn [length] in Hn; try done || lia.
  cbn [scan_string].
  assert (∀ s' x, (length s' ≤ length s1)%nat →
    consumes ('(t, r) ← scan_string s'; Ok (x :: t : str, r)) (c :: s1)) as Hk.
  { intros s' x Hs'. eapply consumes_bind; [apply (IH s'); lia|].
    intros t r _ Hr. cbn in *. lia. }
  repeat case_match; subst; try done; try (apply Hk; cbn [length] in *; lia); cbn; lia.
Qed.

Lemma span_length p s a b : span p s = (a, b) → length s = (length a + length b)%nat.
Proof.
  revert a b. induction s as [|c s IH]; cbn; intros a b H; [by simplify_eq|].
  destruct (p c); [|by simplify_eq]. destruct (span p s) as [a' b']. simplify_eq.
  cbn. rewrite (IH a' b) by done. lia.
Qed.

Lemma scan_frac_length s a b : scan_frac s = (a, b) → (length b ≤ length s)%nat.
Proof.
  unfold scan_frac. intros H. repeat case_match; simplify_eq; cbn; try lia.
  match goal with Hs : span _ _ = _ |- _ => apply span_length in Hs; cbn in Hs end. lia.
Qed.

Lemma scan_exp_length s a b : scan_exp s = (a, b) → (length b ≤ length s)%nat.
Proof.
  unfold scan_exp. intros H. repeat case_match; simplify_eq; cbn; try lia;
    match goal with Hs : span _ _ = _ |- _ => apply span_length in Hs; cbn in Hs end; lia.
Qed.

Lemma int_of_digits_err s e : int_of_digits s = Err e → e ≠ RecursionError.
Proof. unfold int_of_digits. intros H. by apply res_bind_Err in H as [[_ ->]%raise_if_Err|(?&?&?)]. Qed.

Lemma scan_number_consumes neg s : consumes (scan_number neg s) s.
Proof.
  unfold scan_number.
  destruct (match s with 48 :: s1 => ([48], s1) | _ => span ascii_digit s end) as [int s1] eqn:E.
  assert (length s = (length int + length s1)%nat) as Hl
    by (repeat case_match; simplify_eq; cbn; try done; by apply span_length in E).
  destruct int as [|d int]; [done|].
  destruct (scan_frac s1) as [frac s2] eqn:E1. destruct (scan_exp s2) as [exp s3] eqn:E2.
  apply scan_frac_length in E1. apply scan_exp_length in E2.
  destruct (frac ++ exp); [|cbn in *; lia].
  destruct (int_of_digits (d :: int)) eqn:Ei; cbn in *; [lia|by eapply int_of_digits_err].
Qed.

Section fuel.
Context (L : loader).
Context (HLp : ∀ kvs e, on_pairs L kvs = Err e → e ≠ RecursionError).
Context (HLc : ∀ t e, on_constant L t = Err e → e ≠ RecursionError).

Lemma on_constant_consumes t k s :
  (0 < k ≤ length s)%nat →
  consumes (v ← on_constant L t; Ok (v, drop k s)) s.
Proof using HLc.
  intros Hk. destruct (on_constant L t) eqn:E; cbn; [rewrite length_drop; lia|eauto].
Qed.

Lemma startswith_length p s : startswith p s = true → (length p ≤ length s)%nat.
Proof using Type.
  unfold startswith. intros H%bool_decide_eq_true. rewrite <- H, length_take. lia.
Qed.

Lemma parse_consumes n :
  (∀ s, (2 * length s + 1 ≤ n)%nat → consumes (parse_value L n s) s) ∧
  (∀ b s, (2 * length s + 2 ≤ n)%nat → consumes (parse_elements L n b s) s) ∧
  (∀ b s, (2 * length s + 2 ≤ n)%nat → consumes (parse_members L n b s) s).
Proof using HLp HLc.
  induction n as [|n (IHv&IHe&IHm)]; [repeat split; intros; lia|].
  repeat split.
  - intros [|c s] Hn; cbn [parse_value]; [done|]. cbn [length] in Hn.
    pose proof (skip_ws_length s) as Hws.
    destruct (c =? QUOTE).
    { eapply consumes_bind; [apply scan_string_consumes|]. intros t r _ Hr. cbn in *. lia. }
    destruct (c =? 123).
    { eapply consumes_bind; [apply IHm; lia|]. intros kvs r _ Hr.
      destruct (on_pairs L kvs) eqn:E; cbn; [lia|eauto]. }
    destruct (c =? 91).
    { eapply consumes_bind; [apply IHe; lia|]. intros l r _ Hr. cbn in *. lia. }
    destruct (startswith (u "null") _) eqn:E1; [cbn; rewrite length_drop; lia|].
    destruct (startswith (u "true") _) eqn:E2; [cbn; rewrite length_drop; lia|].
    destruct (startswith (u "false") _) eqn:E3; [cbn; rewrite length_drop; lia|].
    destruct (startswith (u "NaN") _) eqn:E4;
      [apply on_constant_consumes; apply startswith_length in E4; cbn in *; lia|].
    destruct (startswith (u "Infinity") _) eqn:E5;
      [apply on_constant_consumes; apply startswith_length in E5; cbn in *; lia|].
    destruct (startswith (u "-Infinity") _) eqn:E6;
      [apply on_constant_consumes; apply startswith_length in E6; cbn in *; lia|].
    destruct (c =? 45); [|apply scan_number_consumes].
    pose proof (scan_number_consumes true s) as H. destruct (scan_number true s) as [[??]|]; cbn in *; lia || done.
  - intros b s Hn. cbn [parse_elements].
    assert (consumes ('(v, r) ← parse_value L n s;
      match skip_ws r with
      | 93 :: r' => Ok ([v], r')
      | 44 :: r' => '(vs, r'') ← parse_elements L n false (skip_ws r'); Ok (v :: vs, r'')
      | _ => Err JSONDecodeError
      end) s) as Hgo.
    { eapply consumes_bind; [apply IHv; lia|]. intros v r _ Hr.
      pose proof (skip_ws_length r). repeat case_match; subst; cbn in *; try done; try lia.
      eapply consumes_bind; [apply IHe|].
      - pose proof (skip_ws_length l). lia.
      - intros vs r'' _ Hr''. pose proof (skip_ws_length l). cbn. lia. }
    repeat case_match; subst; try exact Hgo; cbn; done || lia.
  - intros b s Hn. cbn [parse_members]. repeat case_match; subst; cbn; try done; try lia.
    eapply consumes_bind; [apply scan_string_consumes|]. intros k r _ Hr. cbn [length] in Hn.
    pose proof (skip_ws_length r). repeat case_match; subst; cbn in *; try done.
    pose proof (skip_ws_length l0).
    eapply consumes_bind; [apply IHv; lia|]. intros v r2 _ Hr2.
    pose proof (skip_ws_length r2). repeat case_match; subst; cbn in *; try done; try lia.
    pose proof (skip_ws_length l1).
    eapply consumes_bind; [apply IHm; lia|]. intros kvs r4 _ Hr4. cbn. lia.
Qed.

(** [loads_with] never fails for lack of fuel. *)
Lemma loads_fuel_enough s : loads_with L s ≠ Err RecursionError.
Proof using HLp HLc.
  unfold loads_with. intros H.
  apply res_bind_Err in H as [[_ ?]%raise_if_Err|(_&_&H)]; [done|].
  apply res_bind_Err in H as [H|((v&r)&_&H)].
  - destruct (parse_consumes (2 * length s + 2)) as [Hv _].
    specialize (Hv (skip_ws s)). rewrite H in Hv. cbn in Hv.
    apply Hv; [|done]. pose proof (skip_ws_length s). lia.
  - by apply res_bind_Err in H as [[_ ?]%raise_if_Err|(_&_&?)].
Qed.
End fuel.

(** ** Sorting keys *)

Lemma insert_key_perm {A} (kv : str * A) l : insert_key kv l ≡ₚ kv :: l.
Proof.
  induction l as [|kv' l IH]; cbn; [done|]. destruct (str_ltb kv'.1 kv.1); [|done].
  rewrite IH. apply Permutation_swap.
Qed.

Lemma sort_keys_perm {A} (l : list (str * A)) : sort_keys l ≡ₚ l.
Proof. induction l as [|kv l IH]; cbn; [done|]. by rewrite insert_key_perm, IH. Qed.

Definition map_vals {A B} (f : A → B) (kvs : list (str * A)) : list (str * B) :=
  map (λ kv, (kv.1, f kv.2)) kvs.

Lemma map_vals_keys {A B} (f : A → B) kvs : (map_vals f kvs).*1 = kvs.*1.
Proof. unfold map_vals. induction kvs; cbn; congruence. Qed.

Lemma sort_keys_map_vals {A B} (f : A → B) l : sort_keys (map_vals f l) = map_vals f (sort_keys l).
Proof.
  assert (∀ kv l, insert_key (kv.1, f kv.2) (map_vals f l) = map_vals f (insert_key kv l)) as Hi.
  { intros kv l'. induction l' as [|kv' l' IH]; cbn; [done|].
    destruct (str_ltb kv'.1 kv.1); cbn; [|done]. by f_equal. }
  induction l as [|kv l IH]; [done|].
  change (insert_key (kv.1, f kv.2) (sort_keys (map_vals f l)) =
          map_vals f (insert_key kv (sort_keys l))).
  by rewrite IH, Hi.
Qed.

Lemma str_ltb_irrefl a : str_ltb a a = false.
Proof. induction a as [|x a IH]; cbn; [done|]. by rewrite Z.eqb_refl. Qed.

Lemma str_ltb_asym a b : str_ltb a b = true → str_ltb b a = false.
Proof.
  revert b. induction a as [|x a IH]; intros [|y b]; cbn; try done.
  rewrite (Z.eqb_sym y x). destruct (Z.eqb_spec x y); [apply IH|]. breflect. lia.
Qed.

Lemma str_ltb_total a b : str_ltb a b = false → str_ltb b a = false → a = b.
Proof.
  revert b. induction a as [|x a IH]; intros [|y b]; cbn; try done.
  rewrite (Z.eqb_sym y x). destruct (Z.eqb_spec x y) as [->|]; [intros; f_equal; auto|].
  breflect. lia.
Qed.

Lemma str_ltb_trans a b c : str_ltb a b = true → str_ltb b c = true → str_ltb a c = true.
Proof.
  revert b c. induction a as [|x a IH]; intros [|y b] [|z c]; cbn; try done.
  destruct (Z.eqb_spec x y), (Z.eqb_spec y z), (Z.eqb_spec x z); subst; eauto; breflect; lia.
Qed.

(** Strictly increasing keys. *)
Definition keys_sorted {A} (l : list (str * A)) : Prop :=
  StronglySorted (λ a b, str_ltb a.1 b.1 = true) l.

Lemma insert_key_sorted {A} (kv : str * A) l :
  keys_sorted l → kv.1 ∉ l.*1 → keys_sorted (insert_key kv l).
Proof.
  unfold keys_sorted. intros Hs. induction Hs as [|kv' l Hs IH Hf]; intros Hn; cbn.
  - repeat constructor.
  - cbn in Hn. apply not_elem_of_cons in Hn as [Hne Hn].
    destruct (str_ltb kv'.1 kv.1) eqn:E; constructor; auto.
    + assert (insert_key kv l ≡ₚ kv :: l) as -> by apply insert_key_perm. by constructor.
    + by constructor.
    + assert (str_ltb kv.1 kv'.1 = true) as Hlt.
      { destruct (str_ltb kv.1 kv'.1) eqn:E'; [done|]. by destruct Hne; apply str_ltb_total. }
      constructor; [done|]. eapply Forall_impl; [exact Hf|]. intros; by eapply str_ltb_trans.
Qed.

Lemma sort_keys_sorted {A} (l : list (str * A)) : NoDup l.*1 → keys_sorted (sort_keys l).
Proof.
  induction l as [|kv l IH]; cbn; [constructor|]. intros [Hn Hd]%NoDup_cons.
  apply insert_key_sorted; [auto|].
  assert ((sort_keys l).*1 ≡ₚ l.*1) as -> by (f_equiv; apply sort_keys_perm). done.
Qed.

Lemma sort_keys_id {A} (l : list (str * A)) : keys_sorted l → sort_keys l = l.
Proof.
  induction 1 as [|kv l Hs IH Hf]; cbn; [done|]. rewrite IH.
  destruct l as [|kv' l]; cbn; [done|].
  apply Forall_cons in Hf as [Hlt _]. by rewrite (str_ltb_asym _ _ Hlt).
Qed.

(** ** Reading back what was written *)

(** The values that print and parse: no float, no lone surrogate, integers
    CPython converts, distinct keys. *)
Fixpoint json_ok (j : json) : Prop :=
  match j with
  | JNull | JBool _ => True
  | JInt z => Z.abs z < 10 ^ MAX_STR_DIGITS
  | JFloat _ => False
  | JStr s => Forall (λ c, is_scalar c = true) s
  | JList l => foldr (λ j P, json_ok j ∧ P) True l
  | JDict kvs =>
      NoDup kvs.*1 ∧
      foldr (λ kv P, (Forall (λ c, is_scalar c = true) kv.1 ∧ json_ok kv.2) ∧ P) True kvs
  end.

Lemma foldr_and_Forall {A} (P : A → Prop) l : foldr (λ x Q, P x ∧ Q) True l ↔ Forall P l.
Proof. induction l; cbn; [by split|]. by rewrite Forall_cons, IHl. Qed.

(** What [loads] builds from the text of [j]. *)
Fixpoint norm (sort : bool) (j : json) : json :=
  match j with
  | JList l => JList (map (norm sort) l)
  | JDict kvs =>
      let items := map (λ kv, (kv.1, norm sort kv.2)) kvs in
      JDict (if sort then sort_keys items else items)
  | _ => j
  end.

(** A number is not continued by [r]. *)
Definition number_stop (r : str) : Prop :=
  match r with
  | [] => True
  | c :: _ => ascii_digit c = false ∧ c ≠ 46 ∧ c ≠ 101 ∧ c ≠ 69
  end.

Lemma hex_value_digit d : 0 ≤ d < 16 → hex_value (hex_digit d) = Some d.
Proof.
  intros. unfold hex_digit, hex_value. destruct (Z.ltb_spec d 10).
  - replace ((48 <=? 48 + d) && (48 + d <=? 57)) with true by (symmetry; breflect; lia).
    f_equal. lia.
  - replace ((48 <=? 87 + d) && (87 + d <=? 57)) with false by (symmetry; breflect; lia).
    replace ((97 <=? 87 + d) && (87 + d <=? 102)) with true by (symmetry; breflect; lia).
    f_equal. lia.
Qed.

Lemma hex4_roundtrip c :
  0 ≤ c < 0x10000 →
  hex4_value (hex_digit (c / 4096)) (hex_digit (c / 256 mod 16))
             (hex_digit (c / 16 mod 16)) (hex_digit (c mod 16)) = Some c.
Proof.
  intros Hc. unfold hex4_value. rewrite !hex_value_digit by (div_mod_eqs; lia).
  cbn. f_equal. div_mod_eqs; lia.
Qed.

Lemma scan_string_plain c r :
  c ≠ QUOTE → 31 < c → c ≠ BSLASH →
  scan_string (c :: r) = ('(t, r') ← scan_string r; Ok (c :: t, r')).
Proof.
  intros. cbn [scan_string].
  replace (c =? QUOTE) with false by (symmetry; breflect; done).
  replace (c <=? 31) with false by (symmetry; breflect; lia).
  replace (c =? BSLASH) with false by (symmetry; breflect; done). done.
Qed.

Lemma scan_string_escape e x r :
  e ≠ 117 → simple_escape e = Some x →
  scan_string (BSLASH :: e :: r) = ('(t, r') ← scan_string r; Ok (x :: t, r')).
Proof.
  intros He Hx. cbn [scan_string]. change (BSLASH =? QUOTE) with false.
  change (BSLASH <=? 31) with false. change (BSLASH =? BSLASH) with true. cbn [negb].
  replace (e =? 117) with false by (symmetry; breflect; done). cbn [negb]. by rewrite Hx.
Qed.

Lemma scan_string_u c r :
  0 ≤ c < 0x10000 → is_surrogate c = false →
  scan_string (escape_u c ++ r) = ('(t, r') ← scan_string r; Ok (c :: t, r')).
Proof.
  intros Hc Hs. unfold escape_u, hex4. cbn [app scan_string].
  change (BSLASH =? QUOTE) with false. change (BSLASH <=? 31) with false.
  change (BSLASH =? BSLASH) with true. change (117 =? 117) with true. cbn [negb].
  rewrite hex4_roundtrip by done.
  assert (is_high c = false) as ->.
  { unfold is_surrogate in Hs. unfold is_high. breflect. lia. }
  cbn [andb]. destruct r as [|?[|?[|?[|?[|?[|??]]]]]]; done.
Qed.

Lemma scan_string_pair hi lo r :
  0xD800 ≤ hi ≤ 0xDBFF → 0xDC00 ≤ lo ≤ 0xDFFF →
  scan_string (escape_u hi ++ escape_u lo ++ r) =
  ('(t, r') ← scan_string r; Ok (0x10000 + (hi - 0xD800) * 1024 + (lo - 0xDC00) :: t, r')).
Proof.
  intros Hh Hl. unfold escape_u, hex4. cbn [app scan_string].
  change (BSLASH =? QUOTE) with false. change (BSLASH <=? 31) with false.
  change (BSLASH =? BSLASH) with true. change (117 =? 117) with true. cbn [negb].
  rewrite !hex4_roundtrip by lia.
  replace (is_high hi) with true by (symmetry; unfold is_high; breflect; lia).
  replace (is_low lo) with true by (symmetry; unfold is_low; breflect; lia).
  done.
Qed.

Lemma scan_string_char c r :
  is_scalar c = true →
  scan_string (quote_char c ++ r) = ('(t, r') ← scan_string r; Ok (c :: t, r')).
Proof.
  unfold is_scalar. intros Hc.
  assert (0 ≤ c ≤ 0x10FFFF) as Hr by (breflect; lia).
  assert (is_surrogate c = false) as Hs by (breflect; tauto). clear Hc.
  unfold quote_char.
  repeat match goal with
  | |- context [if c =? ?k then _ else _] =>
      destruct (Z.eqb_spec c k) as [->|]; [by apply scan_string_escape|]
  end.
  destruct ((32 <=? c) && (c <=? 126)) eqn:E.
  { cbn [app]. apply scan_string_plain; breflect; lia. }
  destruct (Z.ltb_spec c 0x10000); [apply scan_string_u; [lia|done]|].
  rewrite <- app_assoc, scan_string_pair by (div_mod_eqs; lia).
  replace (0x10000 + (0xD800 + (c - 0x10000) / 1024 - 0xD800) * 1024 +
           (0xDC00 + (c - 0x10000) mod 1024 - 0xDC00)) with c by (div_mod_eqs; lia).
  done.
Qed.

Lemma scan_quoted s r :
  Forall (λ c, is_scalar c = true) s →
  scan_string (concat (map quote_char s) ++ QUOTE :: r) = Ok (s, r).
Proof.
  induction 1 as [|c s Hc Hs IH]; [done|]. cbn [map concat].
  by rewrite <- app_assoc, scan_string_char, IH.
Qed.

Lemma span_digits ds r :
  Forall (λ c, ascii_digit c = true) ds → number_stop r → span ascii_digit (ds ++ r) = (ds, r).
Proof.
  induction 1 as [|c ds Hc Hds IH]; intros Hr; cbn.
  - destruct r as [|c r]; cbn; [done|]. destruct Hr as [-> _]. done.
  - rewrite Hc, IH by done. done.
Qed.

Lemma scan_frac_stop r : number_stop r → scan_frac r = ([], r).
Proof.
  destruct r as [|c r]; [done|]. intros (_&Hc&_). unfold scan_frac.
  repeat case_match; simplify_eq; done.
Qed.

Lemma scan_exp_stop r : number_stop r → scan_exp r = ([], r).
Proof.
  destruct r as [|c r]; [done|]. intros (_&_&H1&H2). unfold scan_exp.
  replace ((c =? 101) || (c =? 69)) with false by (symmetry; breflect; lia). done.
Qed.

Lemma int_str_no_leading_zero z c t : 0 < z → int_str z = c :: t → c ≠ 48.
Proof.
  intros Hz. rewrite int_str_nonneg by done.
  destruct (to_digits_head 10 ltac:(lia) z Hz) as (d&ds&->&Hd). cbn. unfold zero_char.
  intros [= <- _]. lia.
Qed.

Lemma scan_int neg z r :
  0 ≤ z < 10 ^ MAX_STR_DIGITS → number_stop r →
  scan_number neg (int_str z ++ r) = Ok (JInt (if neg then - z else z), r).
Proof.
  intros Hz Hr. unfold scan_number.
  assert ((match int_str z ++ r with
           | 48 :: s1 => ([48], s1)
           | _ => span ascii_digit (int_str z ++ r)
           end) = (int_str z, r)) as ->.
  { destruct (Z.eq_dec z 0) as [->|]; [done|].
    pose proof (span_digits (int_str z) r (int_str_digits z ltac:(lia)) Hr) as Hsp.
    pose proof (int_str_nonnil z) as Hnn.
    destruct (int_str z) as [|c t] eqn:E; [by destruct Hnn|].
    pose proof (int_str_no_leading_zero z c t ltac:(lia) E). cbn [app] in *.
    repeat case_match; simplify_eq; done. }
  rewrite scan_frac_stop, scan_exp_stop by done.
  pose proof (int_of_int_str z) as Hi. pose proof (int_str_nonnil z) as Hnn.
  destruct (int_str z) as [|c t] eqn:E; [by destruct Hnn|].
  cbn [app]. rewrite Hi by lia. done.
Qed.

Lemma skip_ws_nonws c s : is_ws c = false → skip_ws (c :: s) = c :: s.
Proof. intros H. unfold skip_ws. cbn. by rewrite H. Qed.

(** The first character of a printed value. *)
Definition value_head (c : Z) : Prop :=
  is_ws c = false ∧ c ≠ 93 ∧ c ≠ 125 ∧ c ≠ 0xFEFF.

Lemma digit_value_head c : ascii_digit c = true → value_head c.
Proof. unfold ascii_digit, value_head, is_ws. intros. breflect. lia. Qed.

Lemma dumps_head sort j : json_ok j → ∃ c t, dumps sort j = c :: t ∧ value_head c.
Proof.
  intros Hok. destruct j as [|[]|z|f|s|l|kvs]; cbn in Hok |- *;
    try (eexists _, _; split; [reflexivity|]; unfold value_head, is_ws; breflect; cbn; lia).
  - destruct (int_str z) as [|c t] eqn:E; [by destruct (int_str_nonnil z)|].
    exists c, t. split; [done|]. destruct (Z.le_gt_cases 0 z) as [Hz|Hz].
    + pose proof (int_str_digits z Hz) as H. rewrite E in H. apply Forall_cons in H as [H _].
      by apply digit_value_head.
    + unfold int_str in E. replace (z =? 0) with false in E by (symmetry; breflect; lia).
      replace (z <? 0) with true in E by (symmetry; breflect; lia). injection E as <- _.
      unfold value_head, is_ws. breflect. lia.
  - done.
  - exists QUOTE, (concat (map quote_char s) ++ [QUOTE]). split; [done|].
    unfold value_head, is_ws, QUOTE. breflect. cbn. lia.
Qed.

(** The loader keeps the members of an object whose keys are distinct. *)
Definition keeps_distinct (L : loader) : Prop := ∀ kvs, NoDup kvs.*1 → on_pairs L kvs = Ok kvs.

Section roundtrip.
Context (L : loader) (HL : keeps_distinct L) (sort : bool).

(** [parse_value] reads the text of [j] back, whatever follows it. *)
Definition reads (j : json) : Prop :=
  ∀ n r, (2 * length (dumps sort j) + 1 ≤ n)%nat → number_stop r →
    parse_value L n (dumps sort j ++ r) = Ok (norm sort j, r).

Lemma reads_int z : Z.abs z < 10 ^ MAX_STR_DIGITS → reads (JInt z).
Proof using Type.
  intros Hz [|n] r Hn Hr; [lia|]. cbn [dumps norm].
  destruct (Z.le_gt_cases 0 z) as [Hpos|Hneg].
  - pose proof (int_str_digits z Hpos) as Hd. pose proof (int_str_nonnil z).
    destruct (int_str z) as [|c t] eqn:E; [done|].
    apply Forall_cons in Hd as [Hc _].
    assert (48 ≤ c ≤ 57) by (unfold ascii_digit in Hc; breflect; lia).
    cbn [app parse_value].
    replace (c =? QUOTE) with false by (symmetry; unfold QUOTE; breflect; lia).
    replace (c =? 123) with false by (symmetry; breflect; lia).
    replace (c =? 91) with false by (symmetry; breflect; lia).
    replace (c =? 45) with false by (symmetry; breflect; lia).
    assert (∀ p, match p with [] => False | x :: _ => x < 48 ∨ 57 < x end →
                 startswith p (c :: t ++ r) = false) as Hst.
    { intros [|p ps] Hp; [done|]. unfold startswith. apply bool_decide_eq_false. cbn.
      intros [=]. lia. }
    rewrite !Hst by (cbn; lia). rewrite app_comm_cons, <- E. rewrite scan_int by lia || done.
    done.
  - unfold int_str. replace (z =? 0) with false by (symmetry; breflect; lia).
    replace (z <? 0) with true by (symmetry; breflect; lia).
    rewrite <- int_str_nonneg by lia. change (u "-") with [45]. cbn [app parse_value].
    change (45 =? QUOTE) with false. change (45 =? 123) with false.
    change (45 =? 91) with false. change (45 =? 45) with true. cbn [negb].
    assert (∀ p, match p with [] => False | x :: _ => x ≠ 45 end →
                 startswith p (45 :: int_str (- z) ++ r) = false) as Hst.
    { intros [|p ps] Hp; [done|]. unfold startswith. apply bool_decide_eq_false. cbn. by intros [=]. }
    rewrite !Hst by (cbn; lia).
    replace (startswith (u "-Infinity") _) with false.
    + rewrite scan_int by lia || done. do 3 f_equal. lia.
    + symmetry. unfold startswith. apply bool_decide_eq_false.
      pose proof (int_str_digits (- z) ltac:(lia)) as Hd. pose proof (int_str_nonnil (- z)).
      destruct (int_str (- z)) as [|c t]; [done|]. apply Forall_cons in Hd as [Hc _].
      unfold ascii_digit in Hc. cbn. intros [=]. breflect. lia.
Qed.

Lemma reads_str s : Forall (λ c, is_scalar c = true) s → reads (JStr s).
Proof using Type.
  intros Hs [|n] r Hn Hr; [lia|]. cbn [dumps norm]. unfold quote_str.
  cbn [app parse_value]. change (QUOTE =? QUOTE) with true. cbn match.
  rewrite <- app_assoc. cbn [app]. by rewrite scan_quoted.
Qed.

Lemma number_stop_sep c r : c ∈ [44; 93; 125] → number_stop (c :: r).
Proof using Type. intros Hc. repeat (apply elem_of_cons in Hc as [->|Hc]; [done|]). by apply not_elem_of_nil in Hc. Qed.

Lemma parse_elements_cons n b j s :
  json_ok j →
  parse_elements L (S n) b (dumps sort j ++ s) =
  '(v, r) ← parse_value L n (dumps sort j ++ s);
  match skip_ws r with
  | 93 :: r' => Ok ([v], r')
  | 44 :: r' => '(vs, r'') ← parse_elements L n false (skip_ws r'); Ok (v :: vs, r'')
  | _ => Err JSONDecodeError
  end.
Proof using Type.
  intros (c&t&E&_&H93&_)%(dumps_head sort). rewrite E. cbn [app parse_elements].
  repeat case_match; simplify_eq; done.
Qed.

Lemma reads_elements l n b r :
  Forall json_ok l → Forall reads l → l ≠ [] →
  (2 * length (join (u ",") (map (dumps sort) l)) + 2 ≤ n)%nat →
  parse_elements L n b (join (u ",") (map (dumps sort) l) ++ 93 :: r)
  = Ok (map (norm sort) l, r).
Proof using Type.
  intros Hok Hl. revert n b. induction l as [|j l IH]; intros n b Hne Hn; [done|].
  apply Forall_cons in Hok as [Hj Hok]. apply Forall_cons in Hl as [Hrj Hl].
  destruct n as [|n]; [lia|]. destruct l as [|j' l].
  - cbn [map join] in *. rewrite parse_elements_cons, Hrj by
      first [done | lia | apply number_stop_sep; set_solver].
    done.
  - set (t := join (u ",") (map (dumps sort) (j' :: l))) in *.
    change (join (u ",") (map (dumps sort) (j :: j' :: l))) with (dumps sort j ++ u "," ++ t) in *.
    rewrite !length_app in Hn. cbn [length u] in Hn.
    rewrite <- !app_assoc, parse_elements_cons, Hrj by
      first [done | cbn in *; lia | apply number_stop_sep; set_solver].
    cbn [mbind res_bind]. change (u ",") with [44]. cbn [app].
    destruct (dumps_head sort j') as (c&t'&E&Hws&_); [by apply Forall_cons in Hok as []|].
    assert (skip_ws (t ++ 93 :: r) = t ++ 93 :: r) as Hsk.
    { subst t. cbn [map]. destruct (map (dumps sort) l); cbn [join]; rewrite E; cbn [app];
        by apply skip_ws_nonws. }
    rewrite skip_ws_nonws by done. cbn match. rewrite Hsk.
    subst t. rewrite (IH Hok Hl n false) by (done || cbn in *; lia). done.
Qed.

(** One member of an object, printed. *)
Definition member_text (kv : str * json) : str := quote_str kv.1 ++ u ":" ++ dumps sort kv.2.

Definition member_ok (kv : str * json) : Prop :=
  Forall (λ c, is_scalar c = true) kv.1 ∧ json_ok kv.2.

Lemma parse_members_cons n b kv s :
  member_ok kv →
  parse_members L (S n) b (member_text kv ++ s) =
  '(v, r2) ← parse_value L n (dumps sort kv.2 ++ s);
  match skip_ws r2 with
  | 125 :: r3 => Ok ([(kv.1, v)], r3)
  | 44 :: r3 =>
      '(kvs, r4) ← parse_members L n false (skip_ws r3); Ok ((kv.1, v) :: kvs, r4)
  | _ => Err JSONDecodeError
  end.
Proof using Type.
  intros [Hk Hv]. unfold member_text, quote_str. change QUOTE with 34.
  cbn [app parse_members]. rewrite <- !app_assoc. cbn [app]. change 34 with QUOTE.
  rewrite scan_quoted by done. cbn [mbind res_bind]. change (u ":") with [58]. cbn [app].
  rewrite skip_ws_nonws by done. cbn match.
  destruct (dumps_head sort kv.2 Hv) as (c&t&E&Hws&_). rewrite E. cbn [app].
  by rewrite skip_ws_nonws.
Qed.

Lemma reads_members l n b r :
  Forall member_ok l → Forall (λ kv, reads kv.2) l → l ≠ [] →
  (2 * length (join (u ",") (map member_text l)) + 2 ≤ n)%nat →
  parse_members L n b (join (u ",") (map member_text l) ++ 125 :: r)
  = Ok (map_vals (norm sort) l, r).
Proof using Type.
  intros Hok Hl. revert n b. induction l as [|kv l IH]; intros n b Hne Hn; [done|].
  apply Forall_cons in Hok as [Hj Hok]. apply Forall_cons in Hl as [Hrj Hl].
  destruct n as [|n]; [lia|].
  assert (length (member_text kv) = (length (quote_str kv.1) + 1 + length (dumps sort kv.2))%nat)
    as Hlen by (unfold member_text; rewrite !length_app; cbn; lia).
  destruct l as [|kv' l].
  - cbn [map join] in *. rewrite parse_members_cons, Hrj by
      first [done | lia | apply number_stop_sep; set_solver].
    done.
  - set (t := join (u ",") (map member_text (kv' :: l))) in *.
    change (join (u ",") (map member_text (kv :: kv' :: l))) with (member_text kv ++ u "," ++ t) in *.
    rewrite !length_app in Hn. cbn [length u] in Hn.
    rewrite <- !app_assoc, parse_members_cons, Hrj by
      first [done | cbn in *; lia | apply number_stop_sep; set_solver].
    cbn [mbind res_bind]. change (u ",") with [44]. cbn [app].
    assert (skip_ws (t ++ 125 :: r) = t ++ 125 :: r) as Hsk.
    { subst t. cbn [map]. unfold member_text at 1 3, quote_str.
      destruct (map member_text l); cbn [join app]; by apply skip_ws_nonws. }
    rewrite skip_ws_nonws by done. cbn match. rewrite Hsk.
    subst t. rewrite (IH Hok Hl n false) by (done || cbn in *; lia). done.
Qed.

Lemma reads_list l : Forall json_ok l → Forall reads l → reads (JList l).
Proof using Type.
  intros Hok Hl [|n] r Hn Hr; [lia|]. cbn [dumps norm] in *.
  rewrite !length_app in Hn. change (u "[") with [91] in *. change (u "]") with [93] in *.
  cbn [app parse_value]. change (91 =? QUOTE) with false. change (91 =? 123) with false.
  change (91 =? 91) with true. cbn match. rewrite <- app_assoc. cbn [app].
  destruct l as [|j l].
  - cbn [map join app]. rewrite skip_ws_nonws by done. cbn in Hn.
    destruct n as [|n]; [lia|]. done.
  - set (t := join (u ",") (map (dumps sort) (j :: l))) in *.
    assert (skip_ws (t ++ 93 :: r) = t ++ 93 :: r) as ->.
    { destruct (dumps_head sort j) as (c&t'&E&Hws&_); [by apply Forall_cons in Hok as []|].
      subst t. cbn [map]. destruct (map (dumps sort) l); cbn [join]; rewrite E; cbn [app];
        by apply skip_ws_nonws. }
    subst t. rewrite reads_elements by (done || cbn in *; lia). done.
Qed.

Lemma reads_dict kvs :
  NoDup kvs.*1 → Forall member_ok kvs → Forall (λ kv, reads kv.2) kvs → reads (JDict kvs).
Proof using HL.
  intros Hnd Hok Hl [|n] r Hn Hr; [lia|].
  set (l := if sort then sort_keys kvs else kvs).
  assert (l ≡ₚ kvs) as Hp by (subst l; destruct sort; [apply sort_keys_perm|done]).
  assert (dumps sort (JDict kvs) = u "{" ++ join (u ",") (map member_text l) ++ u "}") as E.
  { cbn [dumps]. fold (map_vals (dumps sort) kvs). do 3 f_equal. subst l. unfold member_text.
    destruct sort; rewrite ?sort_keys_map_vals; unfold map_vals; by rewrite map_map. }
  assert (norm sort (JDict kvs) = JDict (map_vals (norm sort) l)) as ->.
  { cbn [norm]. fold (map_vals (norm sort) kvs). subst l.
    destruct sort; by rewrite ?sort_keys_map_vals. }
  rewrite E in *. clear E. rewrite <- Hp in Hnd, Hok, Hl. clearbody l. clear Hp kvs.
  rewrite !length_app in Hn. change (u "{") with [123] in *. change (u "}") with [125] in *.
  cbn [app parse_value]. change (123 =? QUOTE) with false. change (123 =? 123) with true.
  cbn match. rewrite <- app_assoc. cbn [app].
  assert (on_pairs L (map_vals (norm sort) l) = Ok (map_vals (norm sort) l)) as HLl
    by (apply HL; by rewrite map_vals_keys).
  destruct l as [|kv l].
  - cbn [map join app]. rewrite skip_ws_nonws by done. cbn in Hn.
    destruct n as [|n]; [lia|]. cbn in *. by rewrite HLl.
  - set (t := join (u ",") (map member_text (kv :: l))) in *.
    assert (skip_ws (t ++ 125 :: r) = t ++ 125 :: r) as ->.
    { subst t. cbn [map]. unfold member_text at 1 3, quote_str.
      destruct (map member_text l); cbn [join app]; by apply skip_ws_nonws. }
    subst t. rewrite reads_members by (done || cbn in *; lia).
    cbn [mbind res_bind]. rewrite HLl. done.
Qed.

Lemma reads_value j : json_ok j → reads j.
Proof using HL.
  induction j as [|b|z|f|s|l IH|kvs IH] using json_nested_ind; cbn [json_ok]; intros Hok.
  - intros [|n] r Hn _; [lia|]. done.
  - intros [|n] r Hn _; [lia|]. by destruct b.
  - by apply reads_int.
  - done.
  - by apply reads_str.
  - apply foldr_and_Forall in Hok. apply reads_list; [done|].
    eapply Forall_impl; [apply Forall_and; split; [exact IH|exact Hok]|]. intros j [??]; auto.
  - destruct Hok as [Hnd Hok]. fold (member_ok) in Hok.
    assert (Forall member_ok kvs) as Hm by (by apply foldr_and_Forall).
    apply reads_dict; [done..|].
    eapply Forall_impl; [apply Forall_and; split; [exact IH|exact Hm]|].
    intros kv [? [_ ?]]; auto.
Qed.

(** [json.loads(json.dumps(v))] is [v], with sorted keys if [dumps] sorts. *)
Lemma loads_dumps j : json_ok j → loads_with L (dumps sort j) = Ok (norm sort j).
Proof using HL.
  intros Hok. unfold loads_with. destruct (dumps_head sort j Hok) as (c&t&E&Hws&_&_&Hbom).
  assert (startswith [0xFEFF] (dumps sort j) = false) as ->.
  { rewrite E. unfold startswith. apply bool_decide_eq_false. cbn. congruence. }
  assert (skip_ws (dumps sort j) = dumps sort j) as -> by (rewrite E; by apply skip_ws_nonws).
  cbn [raise_if mbind res_bind].
  pose proof (reads_value j Hok (2 * length (dumps sort j) + 2)%nat [] ltac:(lia) I) as H.
  rewrite app_nil_r in H. rewrite H. done.
Qed.

(** The same with the line feed that ends every file the program writes. *)
Lemma loads_dumps_line j :
  json_ok j → loads_with L (dumps sort j ++ [10]) = Ok (norm sort j).
Proof using HL.
  intros Hok. unfold loads_with. destruct (dumps_head sort j Hok) as (c&t&E&Hws&_&_&Hbom).
  assert (startswith [0xFEFF] (dumps sort j ++ [10]) = false) as ->.
  { rewrite E. unfold startswith. apply bool_decide_eq_false. cbn. congruence. }
  assert (skip_ws (dumps sort j ++ [10]) = dumps sort j ++ [10]) as ->
    by (rewrite E; cbn [app]; by apply skip_ws_nonws).
  cbn [raise_if mbind res_bind].
  rewrite (reads_value j Hok) by (rewrite ?length_app; done || lia). done.
Qed.
End roundtrip.

Lemma dict_get_set {A} k k' (v : A) d :
  dict_get k (dict_set k' v d) = if k' == k then Some v else dict_get k d.
Proof.
  induction d as [|[k0 v0] d IH]; cbn; [done|]. destruct (k0 == k') eqn:E; cbn; breflect.
  - subst. by destruct (k' == k).
  - rewrite IH. destruct (k0 == k) eqn:E2, (k' == k) eqn:E3; breflect; congruence.
Qed.

(** The last value given wins. *)
Lemma dict_get_update {A} k (d kvs : list (str * A)) :
  dict_get k (dict_update d kvs) =
  match dict_get k (reverse kvs) with Some v => Some v | None => dict_get k d end.
Proof.
  revert d. induction kvs as [|[k' v] kvs IH] using rev_ind; intros d; [done|].
  unfold dict_update. rewrite fold_left_app, reverse_app. cbn. rewrite dict_get_set.
  destruct (k' == k); [done|]. apply IH.
Qed.

Lemma jget_update k d kvs :
  jget k (dict_update d kvs) = match dict_get k (reverse kvs) with Some v => v | None => jget k d end.
Proof. unfold jget. rewrite dict_get_update. by destruct (dict_get k (reverse kvs)). Qed.

Lemma dict_set_fresh {A} k (v : A) d : k ∉ d.*1 → dict_set k v d = d ++ [(k, v)].
Proof.
  induction d as [|[k' v'] d IH]; cbn; [done|]. intros [Hne Hn]%not_elem_of_cons.
  rewrite bool_decide_eq_false_2 by done. by rewrite IH.
Qed.

Lemma fold_dict_set {A} (kvs d : list (str * A)) :
  NoDup (d ++ kvs).*1 → fold_left (λ d kv, dict_set kv.1 kv.2 d) kvs d = d ++ kvs.
Proof.
  revert d. induction kvs as [|[k v] kvs IH]; intros d Hd; cbn; [by rewrite app_nil_r|].
  assert (k ∉ d.*1) as Hk.
  { rewrite fmap_app in Hd. apply NoDup_app in Hd as (_&Hd&_). intros Hk.
    apply (Hd k Hk). by left. }
  rewrite dict_set_fresh by done. rewrite IH; rewrite <- app_assoc; done.
Qed.

Lemma dict_of_distinct_pairs {A} (kvs : list (str * A)) :
  NoDup kvs.*1 → dict_of_pairs kvs = kvs.
Proof. apply (fold_dict_set kvs []). Qed.

Lemma keeps_distinct_default : keeps_distinct default_loader.
Proof. intros kvs H. cbn. by rewrite dict_of_distinct_pairs. Qed.

Lemma keeps_distinct_reject e c : keeps_distinct (Loader (reject_duplicates e) c).
Proof.
  intros kvs H. cbn. unfold reject_duplicates, has_duplicates.
  by rewrite bool_decide_eq_true_2.
Qed.

#[export] Hint Resolve keeps_distinct_default keeps_distinct_reject : py.

(** The keys and the value under each key survive sorting. *)
Lemma dict_get_elem {A} k (kvs : list (str * A)) v : dict_get k kvs = Some v → (k, v) ∈ kvs.
Proof.
  induction kvs as [|[k' v'] kvs IH]; cbn; [done|]. case_bool_decide as E.
  - intros [= ->]. subst. by left.
  - intros H. right. auto.
Qed.

Lemma dict_get_In {A} k (kvs : list (str * A)) v :
  NoDup kvs.*1 → (k, v) ∈ kvs → dict_get k kvs = Some v.
Proof.
  induction kvs as [|[k' v'] kvs IH]; cbn; [by intros _ ?%not_elem_of_nil|].
  intros [Hn Hd]%NoDup_cons [[= <- <-]|Hin]%elem_of_cons.
  - by rewrite bool_decide_eq_true_2.
  - rewrite bool_decide_eq_false_2; [auto|]. intros ->. apply Hn.
    apply list_elem_of_fmap. by exists (k, v).
Qed.

(** Without sorting the value itself comes back. *)
Lemma norm_false j : norm false j = j.
Proof.
  induction j as [| | | | |l IH|kvs IH] using json_nested_ind; cbn; try done; f_equal.
  - rewrite <- (map_id l) at 2. apply map_ext_Forall in IH. exact IH.
  - rewrite <- (map_id kvs) at 2. apply (map_ext_Forall _ id).
    eapply Forall_impl; [exact IH|]. intros [k v]. cbn. by intros ->.
Qed.

(** ** The text is printable ASCII *)

Definition printable_ascii (c : Z) : bool := (32 <=? c) && (c <=? 126).

Lemma hex_digit_printable d : 0 ≤ d < 16 → printable_ascii (hex_digit d) = true.
Proof. unfold printable_ascii, hex_digit. intros. destruct (Z.ltb_spec d 10); breflect; lia. Qed.

Lemma escape_u_printable c :
  0 ≤ c < 65536 → Forall (λ c, printable_ascii c = true) (escape_u c).
Proof.
  intros Hc. unfold escape_u, hex4.
  repeat (constructor; [done || (apply hex_digit_printable; div_mod_eqs; lia)|]). constructor.
Qed.

Lemma quote_char_printable c :
  is_scalar c = true → Forall (λ c, printable_ascii c = true) (quote_char c).
Proof.
  unfold is_scalar. intros H. breflect. unfold quote_char.
  do 7 (case_match; [by repeat constructor|]).
  destruct ((32 <=? c) && (c <=? 126)) eqn:E; [by repeat constructor|].
  destruct (c <? 0x10000) eqn:E2; breflect.
  - apply escape_u_printable. lia.
  - apply Forall_app. split; apply escape_u_printable; div_mod_eqs; lia.
Qed.

Lemma quote_str_printable s :
  Forall (λ c, is_scalar c = true) s → Forall (λ c, printable_ascii c = true) (quote_str s).
Proof.
  intros H. constructor; [done|]. apply Forall_app. split; [|by repeat constructor].
  apply Forall_concat, Forall_map. eapply Forall_impl; [exact H|]. apply quote_char_printable.
Qed.

Lemma int_str_printable z : Forall (λ c, printable_ascii c = true) (int_str z).
Proof.
  assert (∀ n, 0 ≤ n → Forall (λ c, printable_ascii c = true) (int_str n)) as Hpos.
  { intros n Hn. eapply Forall_impl; [by apply int_str_digits|]. intros c.
    unfold ascii_digit, printable_ascii. breflect. lia. }
  destruct (Z.le_gt_cases 0 z) as [Hz|Hz]; [auto|].
  specialize (Hpos (- z) ltac:(lia)). unfold int_str in *.
  replace (- z =? 0) with false in Hpos by (symmetry; breflect; lia).
  replace (- z <? 0) with false in Hpos by (symmetry; breflect; lia).
  replace (z =? 0) with false by (symmetry; breflect; lia).
  replace (z <? 0) with true by (symmetry; breflect; lia). by constructor.
Qed.

Lemma join_Forall (P : Z → Prop) sep l : Forall P sep → Forall (Forall P) l → Forall P (join sep l).
Proof.
  intros Hs Hl. induction Hl as [|s l H Hl IH]; cbn; [constructor|].
  destruct l; [done|]. rewrite !Forall_app. auto.
Qed.

Lemma dumps_printable sort j :
  json_ok j → Forall (λ c, printable_ascii c = true) (dumps sort j).
Proof.
  induction j as [|[]|z|f|s|l IH|kvs IH] using json_nested_ind; cbn [dumps json_ok]; intros Hok;
    try (by repeat constructor).
  - apply int_str_printable.
  - by apply quote_str_printable.
  - apply foldr_and_Forall in Hok. rewrite !Forall_app. split; [by repeat constructor|].
    split; [|by repeat constructor]. apply join_Forall; [by repeat constructor|].
    apply Forall_map. eapply Forall_impl; [apply Forall_and; split; [exact IH|exact Hok]|].
    intros j [??]; auto.
  - destruct Hok as [_ Hok]. assert (Forall (λ kv : str * json,
      Forall (λ c, is_scalar c = true) kv.1 ∧ json_ok kv.2) kvs) as Hm by (by apply foldr_and_Forall).
    rewrite !Forall_app. split; [by repeat constructor|]. split; [|by repeat constructor].
    apply join_Forall; [by repeat constructor|]. apply Forall_map.
    fold (map_vals (dumps sort) kvs).
    assert (Forall (λ kv : str * str, Forall (λ c, printable_ascii c = true) (quote_str kv.1 ++ u ":" ++ kv.2))
              (map_vals (dumps sort) kvs)) as H.
    { apply Forall_map. eapply Forall_impl; [apply Forall_and; split; [exact IH|exact Hm]|].
      intros kv (H1&H2&H3). rewrite !Forall_app. split; [by apply quote_str_printable|].
      split; [by repeat constructor|auto]. }
    destruct sort; [|done]. by rewrite sort_keys_perm.
Qed.

(** ** Printable objects *)

Lemma json_ok_JDict kvs :
  json_ok (JDict kvs) ↔
  NoDup kvs.*1 ∧ Forall (λ kv, Forall (λ c, is_scalar c = true) kv.1 ∧ json_ok kv.2) kvs.
Proof.
  cbn. by rewrite (foldr_and_Forall (λ kv : str * json,
    Forall (λ c, is_scalar c = true) kv.1 ∧ json_ok kv.2)).
Qed.

Lemma json_ok_JList l : json_ok (JList l) ↔ Forall json_ok l.
Proof. cbn. by rewrite foldr_and_Forall. Qed.

(** Decide a closed proposition by computing. *)
Ltac decide_by_computing := apply (bool_decide_unpack _); by vm_compute.

(** Split [json_ok] of an object with literal keys into its values. *)
Ltac json_ok_fields :=
  apply json_ok_JDict; split;
    [decide_by_computing
    |repeat (apply Forall_cons; split; [split; [decide_by_computing|]|]); try apply Forall_nil_2; cbn [snd]].

(** ** [json.loads] of [bytes] *)

(** UTF-16 and UTF-32, which [loads] recognises by their zero bytes, with the
    [surrogatepass] error handler. *)
Fixpoint utf16_units (big : bool) (l : bytes) : res (list Z) :=
  match l with
  | [] => Ok []
  | a :: b :: l' => us ← utf16_units big l'; Ok ((if big then a * 256 + b else b * 256 + a) :: us)
  | _ => Err UnicodeDecodeError
  end.

Fixpoint utf16_join (us : list Z) : str :=
  match us with
  | hi :: us' =>
      match us' with
      | lo :: us'' =>
          if is_high hi && is_low lo
          then 0x10000 + (hi - 0xD800) * 1024 + (lo - 0xDC00) :: utf16_join us''
          else hi :: utf16_join us'
      | [] => [hi]
      end
  | [] => []
  end.

Definition utf16_decode (big : bool) (l : bytes) : res str := utf16_join <$> utf16_units big l.

Fixpoint utf32_decode (big : bool) (l : bytes) : res str :=
  match l with
  | [] => Ok []
  | a :: b :: c :: d :: l' =>
      let x := if big then ((a * 256 + b) * 256 + c) * 256 + d
               else ((d * 256 + c) * 256 + b) * 256 + a in
      raise_if (0x10FFFF <? x) UnicodeDecodeError;;
      s ← utf32_decode big l'; Ok (x :: s)
  | _ => Err UnicodeDecodeError
  end.

(** [json.detect_encoding] and the decoding. *)
Definition decode_json_bytes (l : bytes) : res str :=
  if startswith [0; 0; 0xFE; 0xFF] l then utf32_decode true (drop 4 l)
  else if startswith [0xFF; 0xFE; 0; 0] l then utf32_decode false (drop 4 l)
  else if startswith [0xFE; 0xFF] l then utf16_decode true (drop 2 l)
  else if startswith [0xFF; 0xFE] l then utf16_decode false (drop 2 l)
  else if startswith [0xEF; 0xBB; 0xBF] l then utf8_decode true (drop 3 l)
  else
    match l with
    | a :: b :: c :: d :: _ =>
        if a =? 0 then (if b =? 0 then utf32_decode true l else utf16_decode true l)
        else if b =? 0 then
          (if (c =? 0) && (d =? 0) then utf32_decode false l else utf16_decode false l)
        else utf8_decode true l
    | [a; b] =>
        if a =? 0 then utf16_decode true l
        else if b =? 0 then utf16_decode false l
        else utf8_decode true l
    | _ => utf8_decode true l
    end.

Definition loads_bytes_with (L : loader) (raw : bytes) : res json :=
  s ← decode_json_bytes raw; loads_with L s.
Definition loads_bytes : bytes → res json := loads_bytes_with default_loader.

Lemma decode_json_ascii s :
  Forall (λ c, printable_ascii c = true) s → decode_json_bytes (s ++ [10]) = Ok (s ++ [10]) ∧
  decode_json_bytes s = Ok s.
Proof.
  intros H. assert (∀ t, (∀ c, c ∈ t → 10 ≤ c ≤ 126) → decode_json_bytes t = Ok t) as Hd.
  { intros t Ht. unfold decode_json_bytes.
    assert (utf8_decode true t = Ok t) as E.
    { apply utf8_roundtrip, utf8_encode_ascii. apply forallb_Forall_true, Forall_forall.
      intros c Hc. specialize (Ht c Hc). breflect. lia. }
    rewrite E. unfold startswith.
    destruct t as [|a [|b [|c [|d t]]]]; cbn [take length]; try done;
      pose proof (Ht a ltac:(set_solver)); try pose proof (Ht b ltac:(set_solver));
      repeat (rewrite bool_decide_eq_false_2; [|by intros [=]; lia]);
      replace (a =? 0) with false by (symmetry; breflect; lia);
      try replace (b =? 0) with false by (symmetry; breflect; lia); done. }
  pose proof (λ c Hc, Forall_elem _ s c H Hc) as Hc. unfold printable_ascii in Hc.
  split; apply Hd.
  - intros c [Hin| ->%list_elem_of_singleton]%elem_of_app; [|lia].
    specialize (Hc c Hin). breflect. lia.
  - intros c Hin. specialize (Hc c Hin). breflect. lia.
Qed.

(** [v in S] for a set [S] of texts: an unhashable value raises. *)
Definition in_set (v : json) (l : list str) : res bool :=
  match v with
  | JList _ | JDict _ => Err (TypeError "unhashable type")
  | JStr s => Ok (s in? l)
  | _ => Ok false
  end.

Lemma in_set_Ok v l b : in_set v l = Ok b → b = true → ∃ s, v = JStr s ∧ s ∈ l.
Proof. destruct v; cbn; try done; intros [= <-] Hb; try done. breflect. eauto. Qed.

(** ** The integers [loads] returns can be printed again *)

Fixpoint ints_printable (j : json) : Prop :=
  match j with
  | JInt z => Z.abs z < 10 ^ MAX_STR_DIGITS
  | JList l => foldr (λ j P, ints_printable j ∧ P) True l
  | JDict kvs => foldr (λ kv P, ints_printable kv.2 ∧ P) True kvs
  | _ => True
  end.

Definition member_printable (kv : str * json) : Prop := ints_printable kv.2.

Lemma ints_printable_list l : ints_printable (JList l) ↔ Forall ints_printable l.
Proof. apply foldr_and_Forall. Qed.

Lemma ints_printable_dict kvs : ints_printable (JDict kvs) ↔ Forall member_printable kvs.
Proof. apply (foldr_and_Forall member_printable). Qed.

Lemma dict_set_Forall {A} (P : A → Prop) k v (d : list (str * A)) :
  P v → Forall (λ kv, P kv.2) d → Forall (λ kv, P kv.2) (dict_set k v d).
Proof.
  intros Hv. induction 1 as [|[k' v'] d Hd Hf IH]; cbn; [by repeat constructor|].
  case_bool_decide; by constructor.
Qed.

Lemma dict_of_pairs_Forall {A} (P : A → Prop) (kvs : list (str * A)) :
  Forall (λ kv, P kv.2) kvs → Forall (λ kv, P kv.2) (dict_of_pairs kvs).
Proof.
  unfold dict_of_pairs. assert (Forall (λ kv : str * A, P kv.2) []) as H0 by constructor.
  revert H0. generalize (@nil (str * A)) as d.
  induction kvs as [|kv kvs IH]; intros d Hd Hf; [done|]. apply Forall_cons in Hf as [Hkv Hf].
  cbn. apply IH; [|done]. by apply dict_set_Forall.
Qed.

Lemma ascii_digit_in_base s :
  Forall (λ c, ascii_digit c = true) s → Forall (in_base 10) (map (λ c, c - zero_char) s).
Proof.
  intros H. apply Forall_map. eapply Forall_impl; [exact H|]. intros c.
  unfold ascii_digit, in_base, zero_char. breflect. lia.
Qed.

Lemma span_forall p s a b : span p s = (a, b) → Forall (λ c, p c = true) a.
Proof.
  revert a b. induction s as [|c s IH]; cbn; intros a b H; [by simplify_eq; constructor|].
  destruct (p c) eqn:E; [|by simplify_eq; constructor].
  destruct (span p s) as [x y]. injection H as <- <-. constructor; [done|by eapply IH].
Qed.

Lemma int_of_digits_printable s z :
  Forall (λ c, ascii_digit c = true) s → int_of_digits s = Ok z → 0 ≤ z < 10 ^ MAX_STR_DIGITS.
Proof.
  intros Hd%ascii_digit_in_base H. unfold int_of_digits in H.
  apply res_bind_Ok in H as (?&Hl%raise_if_Ok&[= <-]). apply Nat.ltb_ge in Hl.
  pose proof (of_digits_bounds 10 ltac:(lia) _ Hd) as Hb. rewrite length_map in Hb.
  assert (10 ^ length s ≤ 10 ^ MAX_STR_DIGITS) by (apply Z.pow_le_mono_r; lia). lia.
Qed.

Lemma scan_number_printable neg s v r : scan_number neg s = Ok (v, r) → ints_printable v.
Proof.
  unfold scan_number.
  destruct (match s with 48 :: s1 => ([48], s1) | _ => span ascii_digit s end) as [int s1] eqn:E.
  assert (Forall (λ c, ascii_digit c = true) int) as Hd.
  { repeat case_match; simplify_eq; try (by repeat constructor); by eapply span_forall. }
  destruct int as [|d int]; [done|].
  destruct (scan_frac s1) as [frac s2]. destruct (scan_exp s2) as [exp s3].
  destruct (frac ++ exp); [|by intros [= <- <-]]. intros H.
  apply res_bind_Ok in H as (z&Hz%int_of_digits_printable&[= <- <-]); [|done].
  cbn. destruct neg; lia.
Qed.

(** What holds of every value that is parsed. *)
Section parsed.
Context (L : loader) (R : json → Prop).
Let R_member (kv : str * json) : Prop := R kv.2.
Context (Hscalar : ∀ v, match v with JNull | JBool _ | JStr _ => R v | _ => True end).
Context (Hnumber : ∀ neg s v r, scan_number neg s = Ok (v, r) → R v).
Context (Hconstant : ∀ t v, on_constant L t = Ok v → R v).
Context (Hlist : ∀ l, Forall R l → R (JList l)).
Context (Hdict : ∀ kvs d, on_pairs L kvs = Ok d → Forall R_member kvs → R (JDict d)).
Set Default Proof Using "All".

Lemma parse_all n :
  (∀ s v r, parse_value L n s = Ok (v, r) → R v) ∧
  (∀ b s l r, parse_elements L n b s = Ok (l, r) → Forall R l) ∧
  (∀ b s kvs r, parse_members L n b s = Ok (kvs, r) → Forall R_member kvs).
Proof.
  induction n as [|n (IHv&IHe&IHm)]; [done|]. repeat split.
  - intros s v r H. cbn [parse_value] in H. destruct s as [|c s]; [done|].
    repeat match type of H with
    | (if ?b then _ else _) = _ => destruct b
    | _ ≫= _ = Ok _ => apply res_bind_Ok in H as (x&Hx&H); try destruct x
    | Ok _ = Ok _ => injection H as <- <-
    end; try done; try (by eapply Hnumber); try (by eapply Hconstant);
      try exact (Hscalar JNull); try (exact (Hscalar (JBool _))); try (exact (Hscalar (JStr _))).
    + apply res_bind_Ok in H as (d&Hd&[= <- <-]). eapply Hdict; [exact Hd|]. by eapply IHm.
    + apply Hlist. by eapply IHe.
  - intros b s l r H. cbn [parse_elements] in H.
    assert (∀ s, ('(v, r) ← parse_value L n s;
             match skip_ws r with
             | 93 :: r' => Ok ([v], r')
             | 44 :: r' => '(vs, r'') ← parse_elements L n false (skip_ws r'); Ok (v :: vs, r'')
             | _ => Err JSONDecodeError
             end) = Ok (l, r) → Forall R l) as Hk.
    { clear H. intros s' H. apply res_bind_Ok in H as ([v r1]&Hv%IHv&H).
      repeat case_match; try done; try (by simplify_eq; repeat constructor).
      apply res_bind_Ok in H as ([vs r2]&Hvs%IHe&[= <- <-]). by constructor. }
    destruct b; repeat case_match; simplify_eq; try (by constructor); by eapply Hk.
  - intros b s kvs r H. cbn [parse_members] in H.
    repeat case_match; try done; simplify_eq; try (by constructor).
    apply res_bind_Ok in H as ([k r1]&_&H). repeat case_match; try done.
    apply res_bind_Ok in H as ([v r2]&Hv%IHv&H).
    repeat case_match; try done; try (by simplify_eq; repeat constructor).
    apply res_bind_Ok in H as ([kvs' r3]&Hm%IHm&[= <- <-]). by constructor.
Qed.

Lemma loads_all s v : loads_with L s = Ok v → R v.
Proof.
  unfold loads_with. intros H. apply res_bind_Ok in H as (?&_&H).
  apply res_bind_Ok in H as ([v' r]&Hv&H). apply res_bind_Ok in H as (?&_&[= <-]).
  by eapply parse_all.
Qed.
End parsed.

Lemma loads_printable (L : loader) s v :
  (∀ kvs d, on_pairs L kvs = Ok d → Forall member_printable kvs → Forall member_printable d) →
  (∀ t v, on_constant L t = Ok v → ints_printable v) →
  loads_with L s = Ok v → ints_printable v.
Proof.
  intros HLp HLc. apply (loads_all L ints_printable); [by intros []|apply scan_number_printable|done| |].
  - intros l. apply ints_printable_list.
  - intros kvs d Hd Hf. apply ints_printable_dict. by eapply HLp.
Qed.

(** No object has a key twice. *)
Fixpoint distinct_keys (j : json) : Prop :=
  match j with
  | JList l => foldr (λ j P, distinct_keys j ∧ P) True l
  | JDict kvs => NoDup kvs.*1 ∧ foldr (λ kv P, distinct_keys kv.2 ∧ P) True kvs
  | _ => True
  end.

Lemma distinct_keys_dict kvs :
  distinct_keys (JDict kvs) ↔ NoDup kvs.*1 ∧ Forall (λ kv, distinct_keys kv.2) kvs.
Proof. cbn [distinct_keys]. by rewrite (foldr_and_Forall (λ kv : str * json, distinct_keys kv.2)). Qed.

Lemma loads_distinct e c s v :
  (∀ t v, c t = Ok v → distinct_keys v) → loads_with (Loader (reject_duplicates e) c) s = Ok v → distinct_keys v.
Proof.
  intros Hc. apply (loads_all _ distinct_keys); [by intros []| |done| |].
  - intros neg t w r Hn. unfold scan_number in Hn.
    destruct (match t with 48 :: s1 => ([48], s1) | _ => span ascii_digit t end) as [[|d int] s1]; [done|].
    destruct (scan_frac s1) as [frac s2]. destruct (scan_exp s2) as [exp s3].
    destruct (frac ++ exp); [|by injection Hn as <- <-]. by apply res_bind_Ok in Hn as (z&_&[= <- <-]).
  - intros l Hl. by apply (foldr_and_Forall distinct_keys).
  - intros kvs d Hd Hf. cbn in Hd. unfold reject_duplicates in Hd.
    apply res_bind_Ok in Hd as (?&Hd%raise_if_Ok&[= <-]). apply distinct_keys_dict. split; [|done].
    by apply negb_false_iff, bool_decide_eq_true in Hd.
Qed.

Lemma jget_distinct k kvs : distinct_keys (JDict kvs) → distinct_keys (jget k kvs).
Proof.
  intros [_ Hf]%distinct_keys_dict. unfold jget. destruct (dict_get k kvs) as [v|] eqn:E; [|done].
  apply dict_get_elem in E. by specialize (Forall_elem _ _ _ Hf E).
Qed.

Lemma loads_bytes_printable raw v : loads_bytes raw = Ok v → ints_printable v.
Proof.
  unfold loads_bytes, loads_bytes_with. intros H. apply res_bind_Ok in H as (s&_&H).
  eapply loads_printable; [| |exact H].
  - intros kvs d [= <-]. apply (dict_of_pairs_Forall ints_printable).
  - by intros t w [= <-].
Qed.

Lemma jget_printable k kvs : Forall member_printable kvs → ints_printable (jget k kvs).
Proof.
  intros H. unfold jget. destruct (dict_get k kvs) as [v|] eqn:E; [|done].
  apply dict_get_elem in E. by specialize (Forall_elem _ _ _ H E).
Qed.
