(* ===== verification/Crypto.v ===== *)
(** [crypto.py]: Ed25519 identities as did:key, and the canonical form of a
    room message.

    Ed25519 itself is the [cryptography] package's: the class [Ed25519] has
    one field per call the program makes, [Ed25519Laws] the documented
    behaviour of those calls.  A private key is represented by its 32-byte
    seed and a public key by its raw bytes. *)

From S2P Require Import Prelude Errors Text Regex Sha256 Json.

Class Ed25519 := {
  ed_public : bytes → bytes;                (* private_key.public_key().public_bytes(Raw, Raw) *)
  ed_sign : bytes → bytes → bytes;          (* private_key.sign(payload) *)
  ed_verify : bytes → bytes → bytes → bool  (* public_key.verify(signature, payload) returns *)
}.

Class Ed25519Laws `{Ed25519} := {
  ed_public_length seed : length (ed_public seed) = 32%nat;
  ed_public_bytes seed : Forall (λ b, is_byte b = true) (ed_public seed);
  ed_sign_length seed m : length (ed_sign seed m) = 64%nat;
  ed_sign_bytes seed m : Forall (λ b, is_byte b = true) (ed_sign seed m);
  ed_verify_sign seed m : ed_verify (ed_public seed) (ed_sign seed m) m = true
}.

(** ** Constants *)

Definition BASE58BTC_ALPHABET : str :=
  u "123456789ABCDEFGHJKLMNPQRSTUVWXYZabcdefghijkmnopqrstuvwxyz".
Definition INVISIBLE_CATEGORIES : list (Z * Z) := Cc ++ Cf ++ Cs ++ Co ++ Zl ++ Zp.
Definition MULTICODEC_ED25519 : bytes := [0xed; 0x01].

Definition b58_ranges : list (Z * Z) := [(49, 57); (65, 72); (74, 78); (80, 90); (97, 107); (109, 122)].
Definition DID_PATTERN : regex := RSeq (rlit (u "did:key:z6Mk")) (rpow (RClass b58_ranges) 44).
Definition NONCE_PATTERN : regex := rrep (RClass [r09]) 1 19.
Definition ROOM_PATTERN : regex :=
  RSeq (RClass [raz; r09]) (rrep (RClass [raz; r09; rc 95; rc 45]) 0 47).
Definition SEED_PATTERN : regex := rpow (RClass [r09; raf; rAF]) 64.
Definition SIGNATURE_PATTERN : regex := rpow (RClass [rAZ; raz; r09; rc 95; rc 45]) 86.

(** ** Base 58 *)

(** [len(l) - len(l.lstrip(c))] *)
Definition leading (c : Z) (l : list Z) : nat := length l - length (dropwhile (Z.eqb c) l).

Definition b58_char (d : Z) : Z := default 0 (BASE58BTC_ALPHABET !! Z.to_nat d).

(** [str.index] *)
Fixpoint index_of (c : Z) (l : list Z) (i : Z) : option Z :=
  match l with
  | [] => None
  | x :: l' => if x =? c then Some i else index_of c l' (i + 1)
  end.

(** The [while number] loop prepends the digits of [number] in base 58. *)
Definition _base58btc_encode (data : bytes) : str :=
  let leading_zeroes := leading 0 data in
  let number := of_digits 256 data in
  replicate leading_zeroes 49 ++ map b58_char (to_digits 58 number).

(** [to_bytes] with the least sufficient length is the list of base-256 digits. *)
Definition _base58btc_decode (value : str) : res bytes :=
  raise_if (value == []) (ProtocolValueError "base58btc value must not be empty");;
  number ← foldM_res (λ number c,
    digit ← of_option (ProtocolValueError "base58btc value contains an invalid character")
              (index_of c BASE58BTC_ALPHABET 0);
    Ok (number * 58 + digit)) 0 value;
  let decoded := to_digits 256 number in
  let leading_zeroes := leading 49 value in
  Ok (replicate leading_zeroes 0 ++ decoded).

(** ** Keys and DIDs *)

(** [bytes.fromhex] of a text the pattern has accepted. *)
Fixpoint fromhex (s : str) : bytes :=
  match s with
  | a :: b :: s' => default 0 (hex_value a) * 16 + default 0 (hex_value b) :: fromhex s'
  | _ => []
  end.

(** [bytes.fromhex] reads both cases; [hex_value] the lower one. *)
Definition private_key_from_seed (seed : str) : res bytes :=
  raise_if (negb (fullmatch SEED_PATTERN seed))
    (IdentityError "Keychain identity must be exactly 64 hexadecimal characters");;
  Ok (fromhex (casefold seed)).

Definition validate_did (did : str) : res str :=
  raise_if (negb (fullmatch DID_PATTERN did))
    (ProtocolValueError "DID must be a canonical Ed25519 did:key");;
  Ok did.

Definition validate_room (room : str) : res str :=
  raise_if (negb (fullmatch ROOM_PATTERN room))
    (ProtocolValueError "room must match ^[a-z0-9][a-z0-9_-]{0,47}$");;
  Ok room.

(** The same functions on a JSON value. *)
Definition validate_did_value (v : json) : res str :=
  match v with
  | JStr did => validate_did did
  | _ => Err (ProtocolValueError "DID must be a canonical Ed25519 did:key")
  end.
Definition validate_room_value (v : json) : res str :=
  match v with
  | JStr room => validate_room room
  | _ => Err (ProtocolValueError "room must match ^[a-z0-9][a-z0-9_-]{0,47}$")
  end.

(** [str(nonce)]; an integer of more than 4300 digits cannot be printed.  A
    nonce that is neither an integer nor a text never matches the pattern. *)
Definition validate_nonce (nonce : json) : res str :=
  let bad := Err (ProtocolValueError "nonce must contain 1-19 ASCII digits") in
  match nonce with
  | JInt z =>
      raise_if (10 ^ MAX_STR_DIGITS <=? Z.abs z)
        (ValueError "Exceeds the limit for integer string conversion");;
      if fullmatch NONCE_PATTERN (int_str z) then Ok (int_str z) else bad
  | JStr s => if fullmatch NONCE_PATTERN s then Ok s else bad
  | _ => bad
  end.

Definition invisible (c : Z) : bool := in_ranges INVISIBLE_CATEGORIES c.

Definition sweep_text (text : str) (limit : Z) : res str :=
  let swept := strip (map (λ c, if invisible c then 32 else c) text) in
  raise_if (swept == []) (ProtocolValueError "message has no visible text after the protocol sweep");;
  raise_if (limit <? length swept) (ProtocolValueError "message exceeds the character limit");;
  Ok swept.

(** ** URL-safe base 64 *)

Definition b64_char (d : Z) : Z :=
  if d <? 26 then 65 + d else if d <? 52 then 71 + d else if d <? 62 then d - 4
  else if d =? 62 then 45 else 95.

Definition b64_value (c : Z) : option Z :=
  if (65 <=? c) && (c <=? 90) then Some (c - 65)
  else if (97 <=? c) && (c <=? 122) then Some (c - 71)
  else if (48 <=? c) && (c <=? 57) then Some (c + 4)
  else if c =? 45 then Some 62 else if c =? 95 then Some 63 else None.

Fixpoint urlsafe_b64encode (l : bytes) : str :=
  match l with
  | a :: b :: c :: l' =>
      b64_char (a / 4) :: b64_char (a mod 4 * 16 + b / 16)
      :: b64_char (b mod 16 * 4 + c / 64) :: b64_char (c mod 64) :: urlsafe_b64encode l'
  | [a; b] => [b64_char (a / 4); b64_char (a mod 4 * 16 + b / 16); b64_char (b mod 16 * 4); 61]
  | [a] => [b64_char (a / 4); b64_char (a mod 4 * 16); 61; 61]
  | [] => []
  end.

(** Decoding of a text over the alphabet once its padding is completed; the
    bits of the last character beyond a whole byte are dropped, whatever they
    are. *)
Fixpoint urlsafe_b64decode (s : str) : option bytes :=
  match s with
  | a :: b :: c :: d :: s' =>
      x ← b64_value a; y ← b64_value b; z ← b64_value c; w ← b64_value d;
      l ← urlsafe_b64decode s';
      Some (x * 4 + y / 16 :: y mod 16 * 16 + z / 4 :: z mod 4 * 64 + w :: l)
  | [a; b; c] =>
      x ← b64_value a; y ← b64_value b; z ← b64_value c;
      Some [x * 4 + y / 16; y mod 16 * 16 + z / 4]
  | [a; b] => x ← b64_value a; y ← b64_value b; Some [x * 4 + y / 16]
  | [_] => None
  | [] => Some []
  end.

Section crypto.
Context `{Ed : Ed25519}.

Definition did_from_private_key (private_key : bytes) : res str :=
  let public_key := ed_public private_key in
  let did := u "did:key:z" ++ _base58btc_encode (MULTICODEC_ED25519 ++ public_key) in
  raise_if (negb (fullmatch DID_PATTERN did)) (IdentityError "derived an invalid Ed25519 did:key");;
  Ok did.

Definition public_key_from_did (did : str) : res bytes :=
  valid_did ← validate_did did;
  decoded ← _base58btc_decode (removeprefix (u "did:key:z") valid_did);
  raise_if (negb (length decoded =? 34) or negb (startswith MULTICODEC_ED25519 decoded))
    (ProtocolValueError "DID does not contain a canonical Ed25519 public key");;
  Ok (drop (length MULTICODEC_ED25519) decoded).

Definition fingerprint_of_did (did : str) : res str :=
  validate_did did;;
  Ok (take 16 (sha256_hex did)).

Definition sign_detached (private_key : bytes) (payload : bytes) : res str :=
  let signature := rstrip_char 61 (urlsafe_b64encode (ed_sign private_key payload)) in
  raise_if (negb (fullmatch SIGNATURE_PATTERN signature))
    (IdentityError "generated an invalid Ed25519 signature");;
  Ok signature.

(** The [try] catches [InvalidSignature] and every [ValueError]. *)
Definition verify_detached_signature (did : str) (payload : bytes) (signature : str) : bool :=
  if negb (fullmatch SIGNATURE_PATTERN signature) then false
  else
    match urlsafe_b64decode signature, public_key_from_did did with
    | Some decoded_signature, Ok public_key => ed_verify public_key decoded_signature payload
    | _, _ => false
    end.

Definition canonical_message (room nonce swept : str) : str :=
  room ++ u "|" ++ nonce ++ u "|" ++ swept.

Definition sign_room_message (private_key : bytes) (room : str) (nonce : json) (text : str)
  : res (str * str) :=
  valid_room ← validate_room room;
  valid_nonce ← validate_nonce nonce;
  swept ← sweep_text text 4096;
  canonical ← utf8_encode (canonical_message valid_room valid_nonce swept);
  signature ← sign_detached private_key canonical;
  Ok (swept, signature).
End crypto.

(** ** Base 58 round trip *)

Lemma leading_app_repl c k l :
  (∀ x l', l = x :: l' → x ≠ c) → leading c (replicate k c ++ l) = k.
Proof.
  intros H. unfold leading.
  assert (dropwhile (Z.eqb c) (replicate k c ++ l) = l) as ->.
  { induction k as [|k IH]; cbn; [|by rewrite Z.eqb_refl].
    apply dropwhile_not. intros x l' E. apply Z.eqb_neq. intros ->. by apply (H x l'). }
  rewrite length_app, length_replicate. lia.
Qed.

Lemma leading_split c l :
  l = replicate (leading c l) c ++ dropwhile (Z.eqb c) l.
Proof.
  unfold leading. induction l as [|x l IH]; cbn [dropwhile length]; [done|].
  destruct (Z.eqb_spec c x) as [<-|].
  - assert (length (dropwhile (Z.eqb c) l) ≤ length l)%nat.
    { destruct (dropwhile_suffix (Z.eqb c) l) as [p E]. rewrite E at 2. rewrite length_app. lia. }
    replace (S (length l) - length (dropwhile (Z.eqb c) l))%nat
      with (S (length l - length (dropwhile (Z.eqb c) l))) by lia.
    cbn. by rewrite <- IH.
  - cbn [length]. by rewrite Nat.sub_diag.
Qed.

Lemma of_digits_zeros b k l : of_digits b (replicate k 0 ++ l) = of_digits b l.
Proof. induction k as [|k IH]; cbn [replicate app]; [done|]. by unfold of_digits in *; cbn. Qed.

Lemma b58_index d :
  0 ≤ d < 58 → index_of (b58_char d) BASE58BTC_ALPHABET 0 = Some d.
Proof.
  intros Hd. assert (Forall (λ d, index_of (b58_char d) BASE58BTC_ALPHABET 0 = Some d) (seqZ 0 58)) as H.
  { apply (bool_decide_unpack _). by vm_compute. }
  apply (Forall_elem _ _ _ H), elem_of_seqZ. lia.
Qed.

Lemma b58_char_range d : 0 ≤ d < 58 → in_ranges b58_ranges (b58_char d) = true.
Proof.
  intros Hd. assert (Forall (λ d, in_ranges b58_ranges (b58_char d) = true) (seqZ 0 58)) as H.
  { apply (bool_decide_unpack _). by vm_compute. }
  apply (Forall_elem _ _ _ H), elem_of_seqZ. lia.
Qed.

Lemma b58_char_not_one d : 0 < d < 58 → b58_char d ≠ 49.
Proof.
  intros Hd. assert (Forall (λ d, b58_char d ≠ 49) (seqZ 1 57)) as H.
  { apply (bool_decide_unpack _). by vm_compute. }
  apply (Forall_elem _ _ _ H), elem_of_seqZ. lia.
Qed.

#[local] Abbreviation b58_step := (λ number c,
  digit ← of_option (ProtocolValueError "base58btc value contains an invalid character")
            (index_of c BASE58BTC_ALPHABET 0);
  Ok (number * 58 + digit)).

Lemma b58_fold ds a :
  Forall (in_base 58) ds →
  foldM_res b58_step a (map b58_char ds) = Ok (fold_left (λ acc d, acc * 58 + d) ds a).
Proof.
  revert a. induction ds as [|d ds IH]; intros a; [done|].
  intros [Hd Hds]%Forall_cons. cbn [map foldM_res]. rewrite b58_index by done.
  cbn [of_option mbind res_bind]. by rewrite IH.
Qed.

Lemma b58_decode_value (k : nat) n :
  0 ≤ n → (k ≠ 0%nat ∨ 0 < n) →
  _base58btc_decode (replicate k 49 ++ map b58_char (to_digits 58 n))
  = Ok (replicate k 0 ++ to_digits 256 n).
Proof.
  intros Hn Hne. unfold _base58btc_decode. rewrite bool_decide_eq_false_2.
  2: { destruct k; [|done]. destruct Hne as [?|Hp]; [done|].
       destruct (to_digits_head 58 ltac:(lia) n Hp) as (d&ds&->&_). done. }
  cbn [raise_if mbind res_bind].
  assert (replicate k 49 ++ map b58_char (to_digits 58 n)
          = map b58_char (replicate k 0 ++ to_digits 58 n)) as ->
    by (by rewrite map_app, map_replicate).
  rewrite b58_fold.
  2: { apply Forall_app. split; [apply Forall_replicate; unfold in_base; lia|].
       apply to_digits_in_base; lia. }
  fold (of_digits 58 (replicate k 0 ++ to_digits 58 n)).
  rewrite of_digits_zeros, of_to_digits by lia. cbn [mbind res_bind].
  rewrite map_app, map_replicate. change (b58_char 0) with 49.
  rewrite leading_app_repl; [done|]. intros x l E.
  destruct (decide (0 < n)) as [Hp|]; [|by replace n with 0 in E by lia].
  destruct (to_digits_head 58 ltac:(lia) n Hp) as (d&ds&Ed&Hd). rewrite Ed in E.
  injection E as <- <-. by apply b58_char_not_one.
Qed.

Lemma byte_in_base l : Forall (λ b, is_byte b = true) l → Forall (in_base 256) l.
Proof.
  intros H. eapply Forall_impl; [exact H|]. intros b. unfold is_byte, in_base. breflect. lia.
Qed.

Lemma base58_roundtrip data :
  Forall (λ b, is_byte b = true) data → data ≠ [] →
  _base58btc_decode (_base58btc_encode data) = Ok data.
Proof.
  intros Hb%byte_in_base Hne. unfold _base58btc_encode.
  set (rest := dropwhile (Z.eqb 0) data).
  assert (∀ d ds, rest = d :: ds → d ≠ 0) as Hhd.
  { intros d ds E%dropwhile_head. by apply Z.eqb_neq in E. }
  assert (data = replicate (leading 0 data) 0 ++ rest) as E by apply leading_split.
  assert (Forall (in_base 256) rest) as Hr by (rewrite E in Hb; by apply Forall_app in Hb as []).
  assert (of_digits 256 data = of_digits 256 rest) as -> by (rewrite E; apply of_digits_zeros).
  pose proof (of_digits_bounds 256 ltac:(lia) rest Hr) as Hbd.
  rewrite b58_decode_value; [|lia|].
  - rewrite to_of_digits by done || lia. by rewrite E at 2.
  - destruct (decide (0 < of_digits 256 rest)) as [|Hz]; [by right|left]. intros Hk.
    rewrite Hk in E. cbn in E. destruct rest as [|d ds]; [done|].
    apply Hz. pose proof (Hhd d ds eq_refl). apply Forall_cons in Hr as [Hd Hds].
    unfold in_base in Hd. rewrite of_digits_cons by lia.
    pose proof (of_digits_bounds 256 ltac:(lia) ds Hds).
    assert (0 < 256 ^ length ds) by (apply Z.pow_pos_nonneg; lia). nia.
Qed.

(** ** The derived DID always has the accepted shape *)

Lemma ed25519_did_digits pk :
  length pk = 32%nat → Forall (λ b, is_byte b = true) pk →
  ∃ low, _base58btc_encode (MULTICODEC_ED25519 ++ pk) = u "6Mk" ++ low ∧ length low = 44%nat ∧
         Forall (λ c, in_ranges b58_ranges c = true) low.
Proof.
  intros Hl Hb%byte_in_base. unfold _base58btc_encode.
  change (leading 0 (MULTICODEC_ED25519 ++ pk)) with (leading 0 (replicate 0 0 ++ MULTICODEC_ED25519 ++ pk)).
  rewrite leading_app_repl by (intros x l [= <- _]; done).
  rewrite of_digits_app by lia. pose proof (of_digits_bounds 256 ltac:(lia) pk Hb) as Hbd.
  rewrite Hl in *. change (of_digits 256 MULTICODEC_ED25519) with 60673.
  set (n := 60673 * _ + _).
  set (q := of_digits 58 [5; 20; 43]).
  assert (n / 58 ^ 44%nat = q) as Hq.
  { symmetry. apply (Z.div_unique _ _ _ (n - 58 ^ 44%nat * q)); [left|lia]. subst n q.
    change (of_digits 58 [5; 20; 43]) with (5 * 3364 + 20 * 58 + 43).
    set (m := of_digits 256 pk) in *. clearbody m.
    change (Z.of_nat 32) with 32 in *. change (Z.of_nat 44) with 44.
    assert (58 ^ 44 * (5 * 3364 + 20 * 58 + 43) ≤ 60673 * 256 ^ 32) by (vm_compute; congruence).
    assert (60673 * 256 ^ 32 + 256 ^ 32 ≤ 58 ^ 44 * (5 * 3364 + 20 * 58 + 43) + 58 ^ 44) by (vm_compute; congruence).
    lia. }
  destruct (to_digits_prefix 58 ltac:(lia) 44 n) as (low&E&Hlow&Hin); [rewrite Hq; clear; vm_compute; reflexivity|].
  exists (map b58_char low). rewrite E, Hq.
  split; [by rewrite map_app|split; [by rewrite length_map|]].
  apply Forall_map. eapply Forall_impl; [exact Hin|]. intros d Hd. by apply b58_char_range.
Qed.

Lemma DID_PATTERN_spec did :
  fullmatch DID_PATTERN did = true ↔
  ∃ low, did = u "did:key:z6Mk" ++ low ∧ length low = 44%nat ∧
         Forall (λ c, in_ranges b58_ranges c = true) low.
Proof.
  rewrite fullmatch_spec. unfold DID_PATTERN. rewrite Match_seq.
  setoid_rewrite Match_lit. setoid_rewrite Match_rpow_class. split.
  - intros (?&low&->&->&Hl&Hf). by exists low.
  - intros (low&->&Hl&Hf). by exists (u "did:key:z6Mk"), low.
Qed.

Section keys.
Context `{Ed25519Laws}.
Set Default Proof Using "All".

(** The exceptions [did_from_private_key] guards against never happen. *)
Lemma did_from_private_key_total seed :
  ∃ did, did_from_private_key seed = Ok did ∧ fullmatch DID_PATTERN did = true ∧
         did = u "did:key:z" ++ _base58btc_encode (MULTICODEC_ED25519 ++ ed_public seed).
Proof.
  unfold did_from_private_key. set (did := _ ++ _).
  assert (fullmatch DID_PATTERN did = true) as E.
  { apply DID_PATTERN_spec. destruct (ed25519_did_digits (ed_public seed)) as (low&E&?&?).
    - apply ed_public_length.
    - apply ed_public_bytes.
    - exists low. subst did. by rewrite E. }
  exists did. by rewrite E.
Qed.

Lemma public_key_of_own_did seed did :
  did_from_private_key seed = Ok did → public_key_from_did did = Ok (ed_public seed).
Proof.
  intros E. destruct (did_from_private_key_total seed) as (did'&E'&Hp&Ed).
  rewrite E in E'. injection E' as <-.
  unfold public_key_from_did, validate_did. rewrite Hp. cbn [negb raise_if mbind res_bind].
  rewrite Ed. unfold removeprefix, startswith.
  rewrite take_app_length, bool_decide_eq_true_2, drop_app_length by done.
  rewrite base58_roundtrip; [|apply Forall_app; split; [by repeat constructor|apply ed_public_bytes]|done].
  cbn [mbind res_bind]. rewrite length_app, ed_public_length.
  unfold startswith. rewrite take_app_length, bool_decide_eq_true_2 by done. done.
Qed.
End keys.

Lemma validate_did_Ok did did' : validate_did did = Ok did' ↔ did' = did ∧ fullmatch DID_PATTERN did = true.
Proof. unfold validate_did. destruct (fullmatch _ did); cbn; naive_solver. Qed.

Lemma validate_room_Ok room room' :
  validate_room room = Ok room' ↔ room' = room ∧ fullmatch ROOM_PATTERN room = true.
Proof. unfold validate_room. destruct (fullmatch _ room); cbn; naive_solver. Qed.

Lemma DID_PATTERN_length did : fullmatch DID_PATTERN did = true → length did = 56%nat.
Proof. intros (low&->&Hl&_)%DID_PATTERN_spec. rewrite length_app. cbn. lia. Qed.

(** ** URL-safe base 64 *)

Lemma b64_value_char d : 0 ≤ d < 64 → b64_value (b64_char d) = Some d.
Proof.
  intros Hd. assert (Forall (λ d, b64_value (b64_char d) = Some d) (seqZ 0 64)) as H.
  { apply (bool_decide_unpack _). by vm_compute. }
  apply (Forall_elem _ _ _ H), elem_of_seqZ. lia.
Qed.

Lemma b64_char_range d :
  0 ≤ d < 64 → in_ranges [rAZ; raz; r09; rc 95; rc 45] (b64_char d) = true.
Proof.
  intros Hd. assert (Forall (λ d, in_ranges [rAZ; raz; r09; rc 95; rc 45] (b64_char d) = true) (seqZ 0 64)) as H.
  { apply (bool_decide_unpack _). by vm_compute. }
  apply (Forall_elem _ _ _ H), elem_of_seqZ. lia.
Qed.

Lemma b64_char_value d : 0 ≤ d < 64 → b64_char d ≠ 61.
Proof.
  intros Hd. assert (Forall (λ d, b64_char d ≠ 61) (seqZ 0 64)) as H.
  { apply (bool_decide_unpack _). by vm_compute. }
  apply (Forall_elem _ _ _ H), elem_of_seqZ. lia.
Qed.

(** The last letter, of four bits that are zero at the end. *)
Definition CANONICAL_END : list (Z * Z) := [rc 65; rc 81; rc 103; rc 119].

Lemma canonical_end_no_pad c : in_ranges CANONICAL_END c = true → c ≠ 61.
Proof. by intros Hc ->. Qed.

(** A text of [3 k + 1] bytes, such as a signature: two padding characters. *)
Lemma b64_encode_one_more (k : nat) l :
  length l = (3 * k + 1)%nat → Forall (λ b, is_byte b = true) l →
  ∃ body, urlsafe_b64encode l = body ++ [61; 61] ∧ length body = (4 * k + 2)%nat ∧
          Forall (λ c, in_ranges [rAZ; raz; r09; rc 95; rc 45] c = true) body ∧
          (∀ c s, body = s ++ [c] → in_ranges CANONICAL_END c = true) ∧ urlsafe_b64decode body = Some l.
Proof.
  intros Hl Hb%byte_in_base. revert l Hl Hb. induction k as [|k IH]; intros l Hl Hb.
  - destruct l as [|a [|? ?]]; try (cbn in Hl; lia). apply Forall_cons in Hb as [Ha _].
    unfold in_base in Ha. cbn [urlsafe_b64encode].
    exists [b64_char (a / 4); b64_char (a mod 4 * 16)].
    assert (0 ≤ a / 4 < 64 ∧ 0 ≤ a mod 4 * 16 < 64) as [H1 H2] by (div_mod_eqs; lia).
    split; [done|]. split; [done|]. split.
    { repeat (constructor; [by apply b64_char_range|]). constructor. }
    split.
    { intros c s E. change [?x; ?y] with ([x] ++ [y]) in E. apply app_inj_2 in E as [_ [= <-]]; [|done].
      assert (a mod 4 = 0 ∨ a mod 4 = 1 ∨ a mod 4 = 2 ∨ a mod 4 = 3) as Ha4 by (div_mod_eqs; lia).
      by destruct Ha4 as [-> | [-> | [-> | ->]]]. }
    cbn [urlsafe_b64decode]. rewrite !b64_value_char by done. cbn. do 2 f_equal. div_mod_eqs; lia.
  - destruct l as [|a [|b [|c l]]]; try (cbn in Hl; lia).
    rewrite !Forall_cons in Hb. destruct Hb as (Ha&Hb&Hc&Hb'). unfold in_base in Ha, Hb, Hc.
    destruct (IH l) as (body&E&Hlen&Hf&Hlast&Hd); [cbn in Hl; lia|done|].
    cbn [urlsafe_b64encode].
    set (x := a / 4). set (y := a mod 4 * 16 + b / 16). set (z := b mod 16 * 4 + c / 64). set (w := c mod 64).
    assert (0 ≤ x < 64 ∧ 0 ≤ y < 64 ∧ 0 ≤ z < 64 ∧ 0 ≤ w < 64) as (H1&H2&H3&H4)
      by (subst x y z w; div_mod_eqs; lia).
    exists (b64_char x :: b64_char y :: b64_char z :: b64_char w :: body).
    split; [by rewrite E|]. split; [cbn; lia|]. split.
    { repeat (constructor; [by apply b64_char_range|]). done. }
    split.
    { intros ch s E'. destruct body as [|h t] using rev_ind; [cbn in Hlen; lia|].
      rewrite !app_comm_cons in E'. apply app_inj_2 in E' as [_ [= <-]]; [|done]. by eapply Hlast. }
    cbn [urlsafe_b64decode]. rewrite !b64_value_char, Hd by done. cbn. do 2 f_equal; [|do 2 f_equal];
      subst x y z w; div_mod_eqs; lia.
Qed.

Lemma rstrip_char_pad body :
  (∀ c s, body = s ++ [c] → c ≠ 61) → rstrip_char 61 (body ++ [61; 61]) = body.
Proof.
  intros H. unfold rstrip_char. rewrite rev_app_distr. cbn [rev app dropwhile Z.eqb Pos.eqb].
  rewrite dropwhile_not, rev_involutive; [done|]. intros c s E. apply Z.eqb_neq. intros <-.
  apply (H 61 (rev s)); [|done]. rewrite <- (rev_involutive body), E. done.
Qed.

Section signatures.
Context `{Ed25519Laws}.
Set Default Proof Using "All".

(** Signing never fails, and the text decodes to the signature. *)
Lemma sign_detached_canonical seed payload :
  ∃ sig, sign_detached seed payload = Ok sig ∧ fullmatch SIGNATURE_PATTERN sig = true ∧
         urlsafe_b64decode sig = Some (ed_sign seed payload) ∧
         fullmatch (RSeq (rpow (RClass [rAZ; raz; r09; rc 95; rc 45]) 85) (RClass CANONICAL_END)) sig = true.
Proof.
  destruct (b64_encode_one_more 21 (ed_sign seed payload)) as (body&E&Hl&Hf&Hlast&Hd).
  - by rewrite ed_sign_length.
  - apply ed_sign_bytes.
  - exists body. unfold sign_detached. rewrite E, rstrip_char_pad by eauto using canonical_end_no_pad.
    assert (fullmatch SIGNATURE_PATTERN body = true) as Hp
      by (apply fullmatch_spec, Match_rpow_class; split; [by rewrite Hl|done]).
    rewrite Hp. split; [done|]. split; [done|]. split; [done|]. apply fullmatch_spec, Match_seq.
    destruct body as [|c s _] using rev_ind; [done|]. apply Forall_app in Hf as [Hf _].
    rewrite length_app in Hl. exists s, [c]. split; [done|]. rewrite Match_rpow_class, Match_class.
    split; [split; [cbn in Hl; lia|done]|]. exists c. eauto.
Qed.

Lemma sign_detached_total seed payload :
  ∃ sig, sign_detached seed payload = Ok sig ∧ fullmatch SIGNATURE_PATTERN sig = true ∧
         urlsafe_b64decode sig = Some (ed_sign seed payload).
Proof. destruct (sign_detached_canonical seed payload) as (sig&?&?&?&_). eauto. Qed.

Lemma verify_own_signature seed did payload sig :
  did_from_private_key seed = Ok did → sign_detached seed payload = Ok sig →
  verify_detached_signature did payload sig = true.
Proof.
  intros Hdid Hsig. destruct (sign_detached_total seed payload) as (sig'&E&Hp&Hd).
  rewrite Hsig in E. injection E as <-.
  unfold verify_detached_signature. rewrite Hp, Hd, (public_key_of_own_did seed) by done.
  cbn [negb]. apply ed_verify_sign.
Qed.

(** A positive answer is a statement about the key the DID names. *)
Lemma verify_detached_inv did payload sig :
  verify_detached_signature did payload sig = true →
  ∃ pk raw, public_key_from_did did = Ok pk ∧ urlsafe_b64decode sig = Some raw ∧
            fullmatch DID_PATTERN did = true ∧ ed_verify pk raw payload = true.
Proof.
  unfold verify_detached_signature. destruct (fullmatch _ sig); [|done]. cbn [negb].
  destruct (urlsafe_b64decode sig) as [raw|]; [|done].
  destruct (public_key_from_did did) as [pk|] eqn:E; [|done]. intros Hv. exists pk, raw.
  repeat split; try done. unfold public_key_from_did in E.
  apply res_bind_Ok in E as (d&Hd&_). by apply validate_did_Ok in Hd as [_ ?].
Qed.
End signatures.

(** ** Nonces, rooms and the canonical message *)

Lemma NONCE_PATTERN_spec s :
  fullmatch NONCE_PATTERN s = true ↔
  (1 ≤ length s ≤ 19)%nat ∧ Forall (λ c, ascii_digit c = true) s.
Proof.
  rewrite fullmatch_spec. unfold NONCE_PATTERN. rewrite Match_rrep_class by lia.
  assert (∀ c, in_ranges [r09] c = ascii_digit c) as E by (intros c; cbn; by rewrite orb_false_r).
  by setoid_rewrite E.
Qed.

Lemma validate_nonce_int n :
  0 ≤ n → n < 10 ^ 19 → validate_nonce (JInt n) = Ok (int_str n).
Proof.
  intros Hn Hlt. unfold validate_nonce.
  assert (10 ^ 19 ≤ 10 ^ MAX_STR_DIGITS) as Hm
    by (apply Z.pow_le_mono_r; [lia|apply Z.leb_le; by vm_compute]).
  destruct (Z.leb_spec (10 ^ MAX_STR_DIGITS) (Z.abs n)); [lia|]. cbn [raise_if mbind res_bind].
  assert (fullmatch NONCE_PATTERN (int_str n) = true) as ->; [|done].
  apply NONCE_PATTERN_spec. split; [|by apply int_str_digits].
  apply int_str_length; done || lia.
Qed.

Lemma validate_nonce_digits v s : validate_nonce v = Ok s → fullmatch NONCE_PATTERN s = true.
Proof.
  unfold validate_nonce. destruct v; try done.
  - intros H. apply res_bind_Ok in H as (?&_&H). by destruct (fullmatch _ _) eqn:E in H; simplify_eq.
  - intros H. by destruct (fullmatch _ _) eqn:E in H; simplify_eq.
Qed.

Lemma pipe_free_split (a b x y : str) :
  124 ∉ a → 124 ∉ b → a ++ 124 :: x = b ++ 124 :: y → a = b ∧ x = y.
Proof.
  revert b. induction a as [|c a IH]; intros [|d b] Ha Hb E; simplify_eq/=.
  - done.
  - by destruct Hb; left.
  - by destruct Ha; left.
  - destruct (IH b) as [-> ->]; [set_solver..|done|done].
Qed.

Lemma room_no_pipe room : fullmatch ROOM_PATTERN room = true → 124 ∉ room.
Proof.
  intros H Hin. apply (fullmatch_forall (λ c, c ≠ 124)) in H.
  - by apply (Forall_elem _ _ _ H Hin).
  - cbn. repeat split; intros c Hc ->; by vm_compute in Hc.
Qed.

Lemma nonce_no_pipe s : fullmatch NONCE_PATTERN s = true → 124 ∉ s.
Proof.
  intros [_ H]%NONCE_PATTERN_spec Hin. by specialize (Forall_elem _ _ _ H Hin).
Qed.

Lemma canonical_message_inj_valid r1 n1 t1 r2 n2 t2 :
  fullmatch ROOM_PATTERN r1 = true → fullmatch ROOM_PATTERN r2 = true →
  fullmatch NONCE_PATTERN n1 = true → fullmatch NONCE_PATTERN n2 = true →
  canonical_message r1 n1 t1 = canonical_message r2 n2 t2 → r1 = r2 ∧ n1 = n2 ∧ t1 = t2.
Proof.
  intros Hr1%room_no_pipe Hr2%room_no_pipe Hn1%nonce_no_pipe Hn2%nonce_no_pipe E.
  unfold canonical_message in E. apply pipe_free_split in E as [-> E]; [|done..].
  by apply pipe_free_split in E as [-> ->].
Qed.

(** ** The text sweep *)

Definition swept_char (c : Z) : Z := if invisible c then 32 else c.

Lemma swept_char_visible c : invisible (swept_char c) = false.
Proof. unfold swept_char. by destruct (invisible c) eqn:E. Qed.

Lemma sweep_text_visible text limit t :
  sweep_text text limit = Ok t →
  Forall (λ c, invisible c = false) t ∧ t ≠ [] ∧ length t ≤ limit ∧ strip t = t.
Proof.
  unfold sweep_text. fold swept_char. intros H.
  apply res_bind_Ok in H as (?&H1&H). apply res_bind_Ok in H as (?&H2&[= <-]).
  apply raise_if_Ok in H1, H2. breflect. repeat split; [|done|lia|apply strip_idem].
  apply Forall_forall. intros c Hc%strip_elem.
  apply list_elem_of_In, in_map_iff in Hc as (c'&<-&_). apply swept_char_visible.
Qed.

Lemma sweep_text_fixpoint t limit :
  Forall (λ c, invisible c = false) t → t ≠ [] → length t ≤ limit → strip t = t →
  sweep_text t limit = Ok t.
Proof.
  intros Hv Hne Hlen Hs. unfold sweep_text. fold swept_char.
  assert (map swept_char t = t) as ->.
  { rewrite <- (map_id t) at 2. apply map_ext_in. intros c Hc%list_elem_of_In.
    unfold swept_char. by rewrite (Forall_elem _ _ _ Hv Hc). }
  rewrite Hs, bool_decide_eq_false_2 by done. cbn [raise_if mbind res_bind].
  destruct (Z.ltb_spec limit (length t)); [lia|done].
Qed.

(** A Python [str] holds code points up to [0x10FFFF]. *)
Definition is_code_point (c : Z) : bool := (0 <=? c) && (c <=? 0x10FFFF).

Lemma invisible_surrogate c : is_surrogate c = true → invisible c = true.
Proof.
  unfold invisible, INVISIBLE_CATEGORIES, in_ranges. rewrite !existsb_app.
  intros H. assert (existsb (λ '(lo, hi), (lo <=? c) && (c <=? hi)) Cs = true) as ->; [|by rewrite !orb_true_r].
  cbn. by rewrite orb_false_r.
Qed.

Lemma swept_encodable text limit t :
  Forall (λ c, is_code_point c = true) text → sweep_text text limit = Ok t →
  ∃ b, utf8_encode t = Ok b.
Proof.
  intros Hcp H. pose proof (sweep_text_visible _ _ _ H) as [Hv _].
  unfold sweep_text in H. fold swept_char in H.
  apply res_bind_Ok in H as (?&_&H). apply res_bind_Ok in H as (?&_&[= <-]).
  set (t := strip _) in *. unfold utf8_encode.
  assert (forallb is_scalar t = true) as ->; [|by eexists].
  apply forallb_Forall_true, Forall_forall. intros c Hc.
  pose proof (Forall_elem _ _ _ Hv Hc) as Hvis. subst t. apply strip_elem in Hc.
  apply list_elem_of_In, in_map_iff in Hc as (c'&<-&Hc'%list_elem_of_In).
  pose proof (Forall_elem _ _ _ Hcp Hc') as Hr. unfold is_scalar, is_code_point, swept_char in *.
  destruct (invisible c') eqn:E; [done|]. rewrite Hr. cbn.
  destruct (is_surrogate c') eqn:Es; [|done]. apply invisible_surrogate in Es. congruence.
Qed.
