(* ===== verification/Url.v ===== *)
(** The parts of [urllib.parse] and of number parsing the program uses:
    [urlsplit] (CPython 3.12), percent-encoding, [float] of a text.

    Unicode normalisation and the [ipaddress] grammar, which [urlsplit] asks
    about a non-ASCII or a bracketed host, are parameters. *)

From S2P Require Import Prelude Errors Text Regex Json.

Class UrlLib := {
  nfkc : str → str;                 (* unicodedata.normalize("NFKC", s) *)
  ip_version : str → option Z       (* ipaddress.ip_address(s).version, or it raises *)
}.

(** ** [urlsplit] *)

Record split_result := SplitResult {
  scheme : str; netloc : str; url_path : str; query : str; fragment : str
}.

Definition mem (c : Z) (s : str) : bool := existsb (Z.eqb c) s.

(** [s.rpartition(c)]: the text after the last [c], and the text before it if
    [c] occurs. *)
Fixpoint rpartition (c : Z) (s : str) : option str * str :=
  match s with
  | [] => (None, [])
  | x :: s' =>
      match rpartition c s' with
      | (Some a, b) => (Some (x :: a), b)
      | (None, b) => if x =? c then (Some [], b) else (None, x :: b)
      end
  end.

(** [s.split(c, 1)] where the separator may be missing. *)
Definition split_once (c : Z) (s : str) : str * str :=
  let '(a, b) := partition c s in (a, default [] b).

Definition is_alpha_ascii (c : Z) : bool := in_ranges [rAZ; raz] c.
Definition scheme_char (c : Z) : bool := in_ranges [rAZ; raz; r09; rc 43; rc 45; rc 46] c.

(** The scheme and the rest of the text. *)
Definition split_scheme (s : str) : str * str :=
  match partition 58 s with
  | (c :: p, Some rest) =>
      if is_alpha_ascii c && forallb scheme_char (c :: p) then (casefold (c :: p), rest) else ([], s)
  | _ => ([], s)
  end.

Definition netloc_stop (c : Z) : bool := (c =? 47) || (c =? 63) || (c =? 35).

Section urlsplit.
Context `{UrlLib}.

Definition IPVFUTURE : regex :=
  RSeq (rchar 118) (RSeq (rplus (RClass [r09; raf; rAF])) (RSeq (rchar 46) (rplus (RClass [(0, 9); (11, 0x10FFFF)])))).

Definition _check_bracketed_host (hostname : str) : res unit :=
  if startswith [118] hostname then
    raise_if (negb (fullmatch IPVFUTURE hostname)) (ValueError "IPvFuture address is invalid")
  else
    match ip_version hostname with
    | None => Err (ValueError "does not appear to be an IPv4 or IPv6 address")
    | Some v => raise_if (v =? 4) (ValueError "An IPv4 address cannot be in brackets")
    end.

Definition _check_bracketed_netloc (netloc : str) : res unit :=
  let hostname_and_port := (rpartition 64 netloc).2 in
  match partition 91 hostname_and_port with
  | (before_bracket, Some bracketed) =>
      raise_if (before_bracket != []) (ValueError "Invalid IPv6 URL");;
      let '(hostname, port) := split_once 93 bracketed in
      raise_if ((port != []) and negb (startswith [58] port)) (ValueError "Invalid IPv6 URL");;
      _check_bracketed_host hostname
  | (hostname_and_port, None) => _check_bracketed_host (split_once 58 hostname_and_port).1
  end.

Definition _checknetloc (netloc : str) : res unit :=
  if is_ascii netloc then Ok tt
  else
    let n := List.filter (λ c, negb (mem c (u "@:#?"))) netloc in
    let netloc2 := nfkc n in
    if n == netloc2 then Ok tt
    else raise_if (existsb (λ c, mem c netloc2) (u "/?#@:"))
           (ValueError "netloc contains invalid characters under NFKC normalization").

Definition urlsplit (url : str) : res split_result :=
  let url := dropwhile (λ c, (0 <=? c) && (c <=? 32)) url in
  let url := List.filter (λ c, negb (mem c [9; 10; 13])) url in
  let '(scheme, url) := split_scheme url in
  '(netloc, url) ←
    (if startswith (u "//") url then
       let '(netloc, rest) := span (λ c, negb (netloc_stop c)) (drop 2 url) in
       let opens := mem 91 netloc in
       let closes := mem 93 netloc in
       raise_if (xorb opens closes) (ValueError "Invalid IPv6 URL");;
       (if opens && closes then _check_bracketed_netloc netloc else Ok tt);;
       Ok (netloc, rest)
     else Ok ([], url));
  let '(url, fragment) := split_once 35 url in
  let '(url, query) := split_once 63 url in
  _checknetloc netloc;;
  Ok (SplitResult scheme netloc url query fragment).
End urlsplit.

(** [hostname], lower-cased; a missing host is the empty text. *)
Definition hostname (r : split_result) : str :=
  let hostinfo := (rpartition 64 (netloc r)).2 in
  let host := match partition 91 hostinfo with
              | (_, Some bracketed) => (split_once 93 bracketed).1
              | (_, None) => (split_once 58 hostinfo).1
              end in
  match partition 37 host with
  | (h, Some zone) => casefold h ++ 37 :: zone
  | (h, None) => casefold h
  end.

(** The text of the port, [None] when there is none. *)
Definition port_text (r : split_result) : option str :=
  let hostinfo := (rpartition 64 (netloc r)).2 in
  let port := match partition 91 hostinfo with
              | (_, Some bracketed) => (split_once 58 (split_once 93 bracketed).2).2
              | (_, None) => (split_once 58 hostinfo).2
              end in
  if port == [] then None else Some port.

Definition username (r : split_result) : option str :=
  match rpartition 64 (netloc r) with
  | (Some userinfo, _) => Some (split_once 58 userinfo).1
  | (None, _) => None
  end.

Definition password (r : split_result) : option str :=
  match rpartition 64 (netloc r) with
  | (Some userinfo, _) => (partition 58 userinfo).2
  | (None, _) => None
  end.

(** [if value:] on an optional text. *)
Definition truthy (o : option str) : bool := match o with Some (_ :: _) => true | _ => false end.

(** ** Percent-encoding *)

Definition unreserved (b : Z) : bool := in_ranges [rAZ; raz; r09; rc 95; rc 46; rc 45; rc 126] b.

Definition HEX_UPPER : str := u "0123456789ABCDEF".

Definition quote_byte (b : Z) : str :=
  if unreserved b then [b]
  else [37; default 0 (HEX_UPPER !! Z.to_nat (b / 16)); default 0 (HEX_UPPER !! Z.to_nat (b mod 16))].

(** [quote(s, safe="")] *)
Definition quote (s : str) : res str := b ← utf8_encode s; Ok (concat (map quote_byte b)).

(** ** [float(s)] *)

(** Digits of any script become ASCII ones; an underscore must stand between
    two digits, and goes. *)
Definition ascii_digits (s : str) : str :=
  map (λ c, match decimal_value c with Some d => 48 + d | None => c end) s.

Fixpoint drop_underscores (prev_digit : bool) (s : str) : option str :=
  match s with
  | [] => Some []
  | 95 :: s' =>
      match s' with
      | d :: _ => if prev_digit && ascii_digit d then drop_underscores false s' else None
      | [] => None
      end
  | c :: s' => t ← drop_underscores (ascii_digit c) s'; Some (c :: t)
  end.

(** From [2^1024 - 2^970] on, the nearest double is infinite. *)
Definition FLOAT_LIMIT : Q := inject_Z (2 ^ 1024 - 2 ^ 970).
Definition float_of_Q (q : Q) (text : str) : pyfloat :=
  if Qle_bool FLOAT_LIMIT q || Qle_bool q (- FLOAT_LIMIT) then NonFinite text else Finite q text.

Definition parse_unsigned_float (neg : bool) (text s : str) : option pyfloat :=
  if casefold s in? [u "inf"; u "infinity"; u "nan"] then Some (NonFinite text)
  else
    let '(int, s1) := span ascii_digit s in
    let '(frac, s2) := match s1 with
                       | 46 :: s2 => let '(f, s3) := span ascii_digit s2 in (f, s3)
                       | _ => ([], s1)
                       end in
    let '(exp, s3) := scan_exp s2 in
    match int ++ frac, s3 with
    | _ :: _, [] => Some (float_of_Q (decimal_Q neg int (46 :: frac) exp) text)
    | _, _ => None
    end.

Definition py_float (raw : str) : option pyfloat :=
  s ← drop_underscores false (ascii_digits (strip raw));
  match s with
  | 45 :: s' => parse_unsigned_float true raw s'
  | 43 :: s' => parse_unsigned_float false raw s'
  | _ => parse_unsigned_float false raw s
  end.

Example py_float_examples :
  py_float (u " 1_0.5e1 ") = Some (Finite (105 # 1) (u " 1_0.5e1 ")) ∧
  py_float (u "-Infinity") = Some (NonFinite (u "-Infinity")) ∧
  py_float (u "1e400") = Some (NonFinite (u "1e400")) ∧ py_float (u "1__0") = None.
Proof. vm_compute. repeat split. Qed.
