(* ===== verification/Clock.v ===== *)
(** Dates: [datetime.now(UTC)], its rendering, and the two readers of
    time stamps the program uses. *)

From S2P Require Import Prelude Errors Text Regex.

(** A UTC [datetime] without its microseconds, which every use drops. *)
Record datetime := DateTime {
  dt_year : Z; dt_month : Z; dt_day : Z; dt_hour : Z; dt_minute : Z; dt_second : Z
}.

Definition leap_year (y : Z) : bool :=
  (y mod 4 =? 0) && (negb (y mod 100 =? 0) || (y mod 400 =? 0)).

Definition days_in_month (y m : Z) : Z :=
  if m =? 2 then (if leap_year y then 29 else 28)
  else if (m =? 4) || (m =? 6) || (m =? 9) || (m =? 11) then 30 else 31.

(** What the [datetime] constructor accepts. *)
Definition valid_datetime (d : datetime) : bool :=
  (1 <=? dt_year d) && (dt_year d <=? 9999) && (1 <=? dt_month d) && (dt_month d <=? 12) &&
  (1 <=? dt_day d) && (dt_day d <=? days_in_month (dt_year d) (dt_month d)) &&
  (0 <=? dt_hour d) && (dt_hour d <=? 23) && (0 <=? dt_minute d) && (dt_minute d <=? 59) &&
  (0 <=? dt_second d) && (dt_second d <=? 59).

(** [a < b]: the fields one after the other. *)
Definition datetime_fields (d : datetime) : list Z :=
  [dt_year d; dt_month d; dt_day d; dt_hour d; dt_minute d; dt_second d].
Definition datetime_ltb (a b : datetime) : bool := str_ltb (datetime_fields a) (datetime_fields b).

Definition digit2 (n : Z) : str := [48 + n / 10; 48 + n mod 10].
Definition digit4 (n : Z) : str := digit2 (n / 100) ++ digit2 (n mod 100).

(** [value.strftime("%Y-%m-%dT%H:%M:%SZ")]; [%Y] is padded to four digits
    from the year 1000 on. *)
Definition format_timestamp (d : datetime) : str :=
  digit4 (dt_year d) ++ 45 :: digit2 (dt_month d) ++ 45 :: digit2 (dt_day d) ++ 84 ::
  digit2 (dt_hour d) ++ 58 :: digit2 (dt_minute d) ++ 58 :: digit2 (dt_second d) ++ [90].

(** [\d{4}-\d{2}-\d{2}T\d{2}:\d{2}:\d{2}Z\Z] *)
Definition TIMESTAMP_PATTERN : regex :=
  RSeq (rpow rdigit 4) (RSeq (rchar 45) (RSeq (rpow rdigit 2) (RSeq (rchar 45) (RSeq (rpow rdigit 2)
  (RSeq (rchar 84) (RSeq (rpow rdigit 2) (RSeq (rchar 58) (RSeq (rpow rdigit 2) (RSeq (rchar 58)
  (RSeq (rpow rdigit 2) (rchar 90))))))))))).

(** The number written by a run of decimal digits of any script. *)
Definition digits_number (s : str) : Z :=
  of_digits 10 (map (λ c, default 0 (decimal_value c)) s).

(** The fields of a text of the shape above. *)
Definition timestamp_fields (s : str) : datetime :=
  let field i n := digits_number (take n (drop i s)) in
  DateTime (field 0 4)%nat (field 5 2)%nat (field 8 2)%nat (field 11 2)%nat (field 14 2)%nat
    (field 17 2)%nat.

(** [datetime.fromisoformat(s.removesuffix("Z") + "+00:00")] returns; it reads
    ASCII digits only. *)
Definition fromisoformat_ok (s : str) : bool :=
  is_ascii s && valid_datetime (timestamp_fields s).

(** [datetime.strptime(s, "%Y-%m-%dT%H:%M:%SZ")] returns.  Its pattern takes a
    digit of any script where its own is [\d]. *)
Definition STRPTIME_PATTERN : regex :=
  let rd a b := RClass [(a, b)] in
  RSeq (rpow rdigit 4) (RSeq (rchar 45)
  (RSeq (RAlt (RSeq (rchar 49) (rd 48 50)) (RSeq (rchar 48) (rd 49 57))) (RSeq (rchar 45)
  (RSeq (RAlt (RSeq (rchar 51) (rd 48 49)) (RAlt (RSeq (rd 49 50) rdigit) (RSeq (rchar 48) (rd 49 57))))
  (RSeq (rchar 84)
  (RSeq (RAlt (RSeq (rchar 50) (rd 48 51)) (RSeq (rd 48 49) rdigit)) (RSeq (rchar 58)
  (RSeq (RSeq (rd 48 53) rdigit) (RSeq (rchar 58)
  (RSeq (RAlt (RSeq (rchar 54) (rd 48 49)) (RSeq (rd 48 53) rdigit)) (rchar 90))))))))))).

Definition strptime_ok (s : str) : bool :=
  fullmatch STRPTIME_PATTERN s && valid_datetime (timestamp_fields s).

(** ** A rendered date passes both readers *)

Lemma decimal_value_ascii k : 0 ≤ k ≤ 9 → decimal_value (48 + k) = Some k.
Proof.
  intros Hk. unfold decimal_value, Nd_zeros. cbn [List.find].
  assert ((0x30 <=? 48 + k) && (48 + k <=? 0x30 + 9) = true) as -> by (breflect; lia).
  f_equal. lia.
Qed.

Lemma Match_rdigit k : 0 ≤ k ≤ 9 → Match rdigit [48 + k].
Proof.
  intros Hk. constructor. unfold in_ranges, Nd_zeros. cbn [map existsb].
  assert ((0x30 <=? 48 + k) && (48 + k <=? 0x30 + 9) = true) as -> by (breflect; lia). done.
Qed.

Lemma Match_rd a b c : a ≤ c ≤ b → Match (RClass [(a, b)]) [c].
Proof. intros Hc. constructor. cbn. breflect. lia. Qed.

Lemma two_digits n : 0 ≤ n ≤ 99 → 0 ≤ n / 10 ≤ 9 ∧ 0 ≤ n mod 10 ≤ 9 ∧ n = 10 * (n / 10) + n mod 10.
Proof. intros. div_mod_eqs. lia. Qed.

Lemma Match_cons r1 r2 c s : Match r1 [c] → Match r2 s → Match (RSeq r1 r2) (c :: s).
Proof. intros. by apply (MSeq r1 r2 [c] s). Qed.

Lemma Match_pair r1 r2 a b : Match r1 [a] → Match r2 [b] → Match (RSeq r1 r2) [a; b].
Proof. intros. by apply Match_cons. Qed.

Lemma Match_digit2 n : 0 ≤ n ≤ 99 → Match (rpow rdigit 2) (digit2 n).
Proof.
  intros (H1&H2&_)%two_digits. apply Match_cons; [by apply Match_rdigit|].
  apply Match_cons; [by apply Match_rdigit|constructor].
Qed.

Lemma Match_digit4 n : 0 ≤ n ≤ 9999 → Match (rpow rdigit 4) (digit4 n).
Proof.
  intros Hn. destruct (two_digits (n / 100)) as (H1&H2&_); [div_mod_eqs; lia|].
  destruct (two_digits (n mod 100)) as (H3&H4&_); [div_mod_eqs; lia|].
  do 4 (apply Match_cons; [by apply Match_rdigit|]). constructor.
Qed.

Lemma Match_char c : Match (rchar c) [c].
Proof. apply Match_rd. lia. Qed.

(** A text made of a part and a separator. *)
Lemma Match_part r r' c s t :
  Match r s → Match r' t → Match (RSeq r (RSeq (rchar c) r')) (s ++ c :: t).
Proof. intros. constructor; [done|]. apply Match_cons; [apply Match_char|done]. Qed.

Record in_calendar (d : datetime) : Prop := {
  cal_year : 1 ≤ dt_year d ≤ 9999;
  cal_month : 1 ≤ dt_month d ≤ 12;
  cal_day : 1 ≤ dt_day d ≤ 31;
  cal_hour : 0 ≤ dt_hour d ≤ 23;
  cal_minute : 0 ≤ dt_minute d ≤ 59;
  cal_second : 0 ≤ dt_second d ≤ 59
}.

Lemma valid_in_calendar d : valid_datetime d = true → in_calendar d.
Proof.
  unfold valid_datetime. intros H. breflect.
  assert (days_in_month (dt_year d) (dt_month d) ≤ 31)
    by (unfold days_in_month; repeat case_match; lia).
  split; lia.
Qed.

Lemma format_timestamp_pattern d :
  valid_datetime d = true → fullmatch TIMESTAMP_PATTERN (format_timestamp d) = true.
Proof.
  intros [? ? ? ? ? ?]%valid_in_calendar. apply fullmatch_spec.
  unfold TIMESTAMP_PATTERN, format_timestamp.
  apply Match_part; [apply Match_digit4; lia|].
  do 4 (apply Match_part; [apply Match_digit2; lia|]).
  constructor; [apply Match_digit2; lia|apply Match_char].
Qed.

Lemma digits_number_digit2 n : 0 ≤ n ≤ 99 → digits_number (digit2 n) = n.
Proof.
  intros (H1&H2&H3)%two_digits. unfold digits_number, digit2. cbn [map].
  rewrite !decimal_value_ascii by done. cbn. lia.
Qed.

Lemma digits_number_digit4 n : 0 ≤ n ≤ 9999 → digits_number (digit4 n) = n.
Proof.
  intros Hn. destruct (two_digits (n / 100)) as (H1&H2&H3); [div_mod_eqs; lia|].
  destruct (two_digits (n mod 100)) as (H4&H5&H6); [div_mod_eqs; lia|].
  unfold digits_number, digit4, digit2. cbn [map app].
  rewrite !decimal_value_ascii by done. cbn. div_mod_eqs; lia.
Qed.

Lemma timestamp_fields_format d : in_calendar d → timestamp_fields (format_timestamp d) = d.
Proof.
  intros [? ? ? ? ? ?]. destruct d as [y mo dy h mi sec]. cbn in *.
  unfold timestamp_fields. cbn [dt_year dt_month dt_day dt_hour dt_minute dt_second].
  f_equal; [apply (digits_number_digit4 y)|apply (digits_number_digit2 mo)|
            apply (digits_number_digit2 dy)|apply (digits_number_digit2 h)|
            apply (digits_number_digit2 mi)|apply (digits_number_digit2 sec)]; lia.
Qed.

Lemma digit2_ascii n : 0 ≤ n ≤ 99 → is_ascii (digit2 n) = true.
Proof. intros (H1&H2&_)%two_digits. unfold is_ascii, digit2. cbn [forallb]. breflect. lia. Qed.

Lemma format_timestamp_ascii d : in_calendar d → is_ascii (format_timestamp d) = true.
Proof.
  intros [? ? ? ? ? ?]. unfold format_timestamp, digit4.
  assert (∀ a b, is_ascii a = true → is_ascii b = true → is_ascii (a ++ b) = true) as Happ
    by (intros a b Ha Hb; unfold is_ascii in *; by rewrite forallb_app, Ha, Hb).
  assert (∀ c s, 0 ≤ c < 128 → is_ascii s = true → is_ascii (c :: s) = true) as Hcons
    by (intros c s Hc Hs; unfold is_ascii in *; cbn; rewrite Hs; breflect; lia).
  repeat first [apply Hcons; [lia|] | apply Happ | apply digit2_ascii; div_mod_eqs; lia]. done.
Qed.

Lemma fromisoformat_format d :
  valid_datetime d = true → fromisoformat_ok (format_timestamp d) = true.
Proof.
  intros Hv. pose proof (valid_in_calendar d Hv) as Hc. unfold fromisoformat_ok.
  by rewrite format_timestamp_ascii, timestamp_fields_format, Hv.
Qed.

Lemma strptime_format d : valid_datetime d = true → strptime_ok (format_timestamp d) = true.
Proof.
  intros Hv. pose proof (valid_in_calendar d Hv) as Hc. unfold strptime_ok.
  rewrite timestamp_fields_format, Hv, andb_true_r by done. destruct Hc as [? ? ? ? ? ?].
  apply fullmatch_spec. unfold STRPTIME_PATTERN, format_timestamp.
  apply Match_part; [apply Match_digit4; lia|].
  apply Match_part; [|apply Match_part; [|apply Match_part; [|apply Match_part; [|constructor; [|apply Match_char]]]]].
  - destruct (two_digits (dt_month d)) as (H1&H2&H3); [lia|]. unfold digit2.
    destruct (Z.eq_dec (dt_month d / 10) 1); [apply MAltL|apply MAltR]; apply Match_pair; apply Match_rd; lia.
  - destruct (two_digits (dt_day d)) as (H1&H2&H3); [lia|]. unfold digit2.
    destruct (Z.eq_dec (dt_day d / 10) 3); [apply MAltL; apply Match_pair; apply Match_rd; lia|].
    apply MAltR. destruct (Z.eq_dec (dt_day d / 10) 0).
    + apply MAltR. apply Match_pair; apply Match_rd; lia.
    + apply MAltL. apply Match_pair; [apply Match_rd; lia|by apply Match_rdigit].
  - destruct (two_digits (dt_hour d)) as (H1&H2&H3); [lia|]. unfold digit2.
    destruct (Z.eq_dec (dt_hour d / 10) 2); [apply MAltL; apply Match_pair; apply Match_rd; lia|].
    apply MAltR. apply Match_pair; [apply Match_rd; lia|by apply Match_rdigit].
  - destruct (two_digits (dt_minute d)) as (H1&H2&H3); [lia|].
    apply Match_pair; [apply Match_rd; lia|by apply Match_rdigit].
  - destruct (two_digits (dt_second d)) as (H1&H2&H3); [lia|].
    apply MAltR. apply Match_pair; [apply Match_rd; lia|by apply Match_rdigit].
Qed.
