(* ===== verification/Effects.v ===== *)
(** Effectful computations: the file system, the network and the clocks.

    A computation takes a [world] to an outcome and a world.  The world holds
    the files, the objects the program keeps in memory ([Mem], chosen by the
    component), a counter of the external actions performed so far and a trace
    of the network requests.  Everything the program does not control is asked
    from the environment [Env] at the current count: whether the action fails
    with an [OSError] or the process dies at it, what a request returns, what
    the clocks show.  Theorems quantify over [Env], hence over every place a
    crash or a fault can occur.

    Paths are the resolved, absolute ones; a descriptor is identified with the
    path it was opened at, since no other process touches the files of a
    running agent.  A crash ends the process and keeps the files as they are:
    what a power failure does to unsynchronised directory entries is not
    modelled. *)

From S2P Require Import Prelude Errors Text Clock.

(** From here on [cbn] leaves literals folded. *)
#[global] Arguments u : simpl never.

(** ** Files *)

Inductive path : Type :=
  | Path (s : str)
  | Temp (n : nat).      (* a name [tempfile.mkstemp] made up *)

#[export] Instance path_eq_dec : EqDecision path.
Proof. solve_decision. Defined.
#[export] Instance path_countable : Countable path.
Proof.
  refine (inj_countable' (λ p, match p with Path s => inl s | Temp n => inr n end)
                         (λ x, match x with inl s => Path s | inr n => Temp n end) _).
  by intros [].
Defined.

Inductive file_kind : Type := Regular | Symlink | OtherKind.
#[export] Instance file_kind_eq_dec : EqDecision file_kind.
Proof. solve_decision. Defined.

Record file := File {
  f_kind : file_kind;
  f_mode : Z;          (* S_IMODE *)
  f_uid : Z;
  f_data : bytes
}.

(** [0o600], and [0o077]: what group and others may do. *)
Definition MODE_0600 : Z := 384.
Definition MODE_GROUP_OTHER : Z := 63.

Abbreviation files := (gmap path file) (only parsing).

(** ** The environment *)

Inductive fault : Type := NoFault | OsFault | BlockFault | CrashFault.

(** What [urlopen] and the reading of the response give. *)
Inductive http_result : Type :=
  | HttpBody (status : Z) (raw : bytes)
  | HttpStatus (code : Z) (body : option bytes) (retry_after : option str)  (* HTTPError *)
  | HttpFailed                                  (* URLError, TimeoutError, OSError *)
  | HttpBroken.                                 (* http.client.HTTPException *)

(** What the [http.client] connection gives: a response of any status, its
    header names in lower case, or an [OSError] or [HTTPException]. *)
Inductive connection_result : Type :=
  | Response (status : Z) (headers : list (str * str)) (body : bytes)
  | ConnectionFailed.

Class Env := {
  env_fault : nat → fault;
  env_short_write : nat → nat;        (* bytes written before a failing write *)
  env_http : nat → str → http_result;
  env_connection : nat → str → connection_result;
  env_time_ns : nat → Z;              (* time.time_ns() *)
  env_time : nat → pyfloat;           (* time.time() *)
  env_monotonic : nat → Q;            (* time.monotonic() *)
  env_now : nat → datetime;
  env_euid : Z;
  env_pid : Z;
  env_token : nat → str               (* secrets.token_hex(12) *)
}.

(** What is documented of the clocks: a [float] is below [2^1024], and
    [datetime.now] is a date of the calendar. *)
Class EnvLaws `{Env} := {
  env_time_range n q t : env_time n = Finite q t → (q < inject_Z (2 ^ 1024))%Q;
  env_now_valid n : valid_datetime (env_now n) = true
}.

(** ** Computations *)

(** The nonce, the text and the signature of a message. *)
Definition envelope : Type := Z * str * str.

(** The room, the input that is answered, the message. *)
Definition delivery : Type := str * Z * envelope.

Inductive event : Type :=
  | EvHttp (url : str)
  (* a signed message handed to the client; the input it answers is known to
     the caller only, so the event is recorded there *)
  | EvDeliver (room : str) (input_sequence : Z) (env : envelope).

Record world (Mem : Type) := World {
  w_fs : files;
  w_mem : Mem;
  w_tick : nat;
  w_trace : list event
}.
Arguments World {Mem} _ _ _ _.
Arguments w_fs {Mem} _.
Arguments w_mem {Mem} _.
Arguments w_tick {Mem} _.
Arguments w_trace {Mem} _.

Inductive outcome (A : Type) : Type :=
  | Ret (a : A)
  | Raise (e : exn)
  | Crashed.
Arguments Ret {A} a.
Arguments Raise {A} e.
Arguments Crashed {A}.

Definition M (Mem A : Type) : Type := world Mem → outcome A * world Mem.

#[export] Instance M_ret {Mem} : MRet (M Mem) := λ A a w, (Ret a, w).
#[export] Instance M_bind {Mem} : MBind (M Mem) := λ A B f m w,
  match m w with
  | (Ret a, w') => f a w'
  | (Raise e, w') => (Raise e, w')
  | (Crashed, w') => (Crashed, w')
  end.

Section operations.
Context {Mem : Type}.
Implicit Types (A B : Type) (p : path).
#[local] Abbreviation M := (M Mem).

Definition raise {A} (e : exn) : M A := λ w, (Raise e, w).

(** The process dies. *)
Definition crash {A} : M A := λ w, (Crashed, w).

(** A pure fallible computation. *)
Definition lift {A} (m : res A) : M A :=
  match m with Ok a => mret a | Err e => raise e end.

Definition check (b : bool) (e : exn) : M unit := lift (raise_if b e).

(** [try: m except c as e: h(e)] *)
Definition try_except {A} (m : M A) (c : exn → bool) (h : exn → M A) : M A := λ w,
  match m w with
  | (Raise e, w') => if c e then h e w' else (Raise e, w')
  | r => r
  end.

(** [m] with [h] run when [m] raises; a dead process runs nothing. *)
Definition on_raise {A} (m : M A) (h : M unit) : M A := λ w,
  match m w with
  | (Raise e, w') => (h;; raise e) w'
  | r => r
  end.

(** [try: m finally: h] *)
Definition try_finally {A} (m : M A) (h : M unit) : M A :=
  a ← on_raise m h; h;; mret a.

Definition get_mem : M Mem := λ w, (Ret (w_mem w), w).
Definition put_mem (m : Mem) : M unit := λ w,
  (Ret tt, World (w_fs w) m (w_tick w) (w_trace w)).
Definition get_files : M files := λ w, (Ret (w_fs w), w).
Definition put_files (fs : files) : M unit := λ w,
  (Ret tt, World fs (w_mem w) (w_tick w) (w_trace w)).
Definition emit (ev : event) : M unit := λ w,
  (Ret tt, World (w_fs w) (w_mem w) (w_tick w) (w_trace w ++ [ev])).

(** The number of the action about to be performed. *)
Definition next_tick : M nat := λ w,
  (Ret (w_tick w), World (w_fs w) (w_mem w) (S (w_tick w)) (w_trace w)).

Fixpoint mapM_ {A} (f : A → M unit) (l : list A) : M unit :=
  match l with [] => mret tt | x :: l' => f x;; mapM_ f l' end.

Section environment.
Context `{Env}.

(** Every external action may fail or be the last thing the process does. *)
Definition action : M nat :=
  n ← next_tick;
  match env_fault n with
  | NoFault => mret n
  | OsFault => raise OSError
  | BlockFault => raise OSError
  | CrashFault => crash
  end.

(** [LOCK_NB]: the lock may be taken. *)
Definition lock_action : M nat :=
  n ← next_tick;
  match env_fault n with
  | NoFault => mret n
  | OsFault => raise OSError
  | BlockFault => raise BlockingIOError
  | CrashFault => crash
  end.

Definition path_exists p : M bool :=
  action;; fs ← get_files; mret (bool_decide (is_Some (fs !! p))).

Definition path_file p : M file :=
  action;; fs ← get_files;
  match fs !! p with
  | None => raise FileNotFoundError
  | Some f => mret f
  end.

(** [os.open] with [O_NOFOLLOW] and [os.fstat]. *)
Definition open_nofollow p : M file :=
  f ← path_file p;
  if decide (f_kind f = Symlink) then raise OSError else mret f.

Definition read_bytes p : M bytes :=
  f ← path_file p;
  if decide (f_kind f = Regular) then mret (f_data f) else raise OSError.

(** The parent directory exists afterwards; directories are not entries of
    [files]. *)
Definition mkdir_parents p : M unit := action;; mret tt.
Definition fsync_directory p : M unit := action;; mret tt.
Definition fsync p : M unit := action;; mret tt.

Definition update_file p (f : file → file) : M unit :=
  action;; fs ← get_files; put_files (alter f p fs).

Definition chmod p (mode : Z) : M unit :=
  update_file p (λ f, File (f_kind f) mode (f_uid f) (f_data f)).
Definition write_bytes p (data : bytes) : M unit :=
  update_file p (λ f, File (f_kind f) (f_mode f) (f_uid f) data).

Definition mkstemp : M path :=
  n ← action; fs ← get_files;
  put_files (<[Temp n := File Regular MODE_0600 env_euid []]> fs);;
  mret (Temp n).

(** [os.open] with [O_CREAT]. *)
Definition create_if_missing p (mode : Z) : M unit :=
  action;; fs ← get_files;
  match fs !! p with
  | None => put_files (<[p := File Regular mode env_euid []]> fs)
  | Some _ => mret tt
  end.

Definition replace src dst : M unit :=
  action;; fs ← get_files;
  match fs !! src with
  | None => raise FileNotFoundError
  | Some f => put_files (<[dst := f]> (delete src fs))
  end.

Definition unlink p : M unit :=
  action;; fs ← get_files;
  match fs !! p with
  | None => raise FileNotFoundError
  | Some _ => put_files (delete p fs)
  end.

(** [try: os.unlink(p) except FileNotFoundError: pass] *)
Definition unlink_quiet p : M unit :=
  try_except (unlink p) is_FileNotFoundError (λ _, mret tt).

(** A request and the reading of its response: the process may die before
    or after the request is on the wire. *)
Definition network {R} (oracle : nat → str → R) (url : str) : M R :=
  n ← next_tick;
  match env_fault n with
  | CrashFault => crash
  | _ =>
      emit (EvHttp url);;
      n' ← next_tick;
      match env_fault n' with
      | CrashFault => crash
      | _ => mret (oracle n url)
      end
  end.

(** [urlopen(url)] *)
Definition http_get (url : str) : M http_result := network env_http url.

(** [HTTPSConnection(host).request("GET", path)] *)
Definition connection_get (host path : str) : M connection_result :=
  network env_connection (u "https://" ++ host ++ path).

Definition time_ns : M Z := n ← next_tick; mret (env_time_ns n).
Definition time_time : M pyfloat := n ← next_tick; mret (env_time n).
Definition time_monotonic : M Q := n ← next_tick; mret (env_monotonic n).
Definition now_utc : M datetime := n ← next_tick; mret (env_now n).

(** [except OSError as error: raise err from error] *)
Definition os_errors {A} (err : exn) (m : M A) : M A :=
  try_except m is_OSError (λ _, raise err).

(** The way every file is saved: a private temporary file beside the
    target, written, synchronised and, after a last check if there is one,
    renamed over it.  The [finally] of the
    source removes the temporary file while its name is set, that is until
    the rename has succeeded. *)
Definition write_temporary_via (cleanup : path → M unit) (err : exn) p (data : bytes) (last_check : M unit)
  : M unit :=
  t ← os_errors err mkstemp;
  on_raise
    (os_errors err (chmod t MODE_0600;; write_bytes t data;; fsync t;; last_check;; replace t p))
    (cleanup t).

Definition write_temporary_checked : exn → path → bytes → M unit → M unit := write_temporary_via unlink_quiet.

Definition write_temporary (err : exn) p (data : bytes) : M unit :=
  write_temporary_checked err p data (mret tt).
End environment.
End operations.

(** ** Reasoning: weakest preconditions *)

(** [wp m Φ w]: whatever [m] does from [w] satisfies [Φ]. *)
Definition wp {Mem A} (m : M Mem A) (Φ : outcome A → world Mem → Prop) (w : world Mem) : Prop :=
  Φ (m w).1 (m w).2.

Section wp.
Context {Mem : Type}.
Implicit Types w : world Mem.

Lemma wp_mono {A} (m : M Mem A) (Φ Ψ : outcome A → world Mem → Prop) w :
  wp m Φ w → (∀ o w', Φ o w' → Ψ o w') → wp m Ψ w.
Proof. unfold wp. auto. Qed.

(** The outcome and the world of a run, as a theorem states them. *)
Lemma wp_pair {A} (m : M Mem A) (Φ : outcome A → world Mem → Prop) w :
  wp m Φ w → let '(o, w') := m w in Φ o w'.
Proof. unfold wp. by destruct (m w). Qed.

Lemma wp_ret {A} (a : A) (Φ : outcome A → world Mem → Prop) w :
  wp (mret a) Φ w ↔ Φ (Ret a) w.
Proof. done. Qed.

Lemma wp_raise {A} e (Φ : outcome A → world Mem → Prop) w : wp (raise e) Φ w ↔ Φ (Raise e) w.
Proof. done. Qed.

Lemma wp_bind {A B} (m : M Mem A) (f : A → M Mem B) Φ w :
  wp (m ≫= f) Φ w ↔
  wp m (λ o w', match o with
                | Ret a => wp (f a) Φ w'
                | Raise e => Φ (Raise e) w'
                | Crashed => Φ Crashed w'
                end) w.
Proof. unfold wp, mbind, M_bind. by destruct (m w) as [[a|e|] w']. Qed.

Lemma wp_lift {A} (m : res A) (Φ : outcome A → world Mem → Prop) w :
  wp (lift m) Φ w ↔ match m with Ok a => Φ (Ret a) w | Err e => Φ (Raise e) w end.
Proof. by destruct m. Qed.

Lemma wp_try {A} (m : M Mem A) c h Φ w :
  wp (try_except m c h) Φ w ↔
  wp m (λ o w', match o with
                | Raise e => if c e then wp (h e) Φ w' else Φ (Raise e) w'
                | _ => Φ o w'
                end) w.
Proof. unfold wp, try_except. destruct (m w) as [[|e|] ?]; [done| |done]. cbn. by destruct (c e). Qed.

Lemma wp_on_raise {A} (m : M Mem A) h Φ w :
  wp (on_raise m h) Φ w ↔
  wp m (λ o w', match o with
                | Raise e => wp (h;; raise e) Φ w'
                | _ => Φ o w'
                end) w.
Proof. unfold wp, on_raise. by destruct (m w) as [[|e|] ?]. Qed.
End wp.

(** ** Reasoning: what a computation leaves alone *)

Definition is_temp (p : path) : bool := match p with Temp _ => true | Path _ => false end.

Definition delivery_of (ev : event) : option delivery :=
  match ev with EvDeliver room seq env => Some (room, seq, env) | EvHttp _ => None end.

(** The signed messages handed to the client so far. *)
Definition deliveries (tr : list event) : list delivery := omap delivery_of tr.

Lemma deliveries_app l1 l2 : deliveries (l1 ++ l2) = deliveries l1 ++ deliveries l2.
Proof. apply omap_app. Qed.

(** The files in [P] are untouched, the memory changes within [Q] and nothing
    is delivered. *)
Record frame {Mem} (P : path → Prop) (Q : Mem → Mem → Prop) (w w' : world Mem) : Prop := {
  frame_fs p : P p → w_fs w' !! p = w_fs w !! p;
  frame_mem : Q (w_mem w) (w_mem w');
  frame_trace : deliveries (w_trace w') = deliveries (w_trace w)
}.

#[export] Instance frame_preorder {Mem} (P : path → Prop) (Q : Mem → Mem → Prop) `{!PreOrder Q} :
  PreOrder (frame P Q).
Proof.
  split.
  - intros w. by split.
  - intros w1 w2 w3 [F1 M1 T1] [F2 M2 T2]. split.
    + intros p Hp. by rewrite F2, F1.
    + by etrans.
    + by rewrite T2.
Qed.

(** Every run of [m] is a step of the preorder [R]. *)
Class Steps {Mem A} (R : world Mem → world Mem → Prop) (m : M Mem A) : Prop :=
  steps w : R w (m w).2.

Abbreviation Keeps P Q := (Steps (frame P Q)).

Section steps.
Context {Mem : Type} (R : world Mem → world Mem → Prop) `{!PreOrder R}.
Set Default Proof Using "All".

Lemma keeps_ret {A} (a : A) : Steps R (mret a).
Proof. intros w. reflexivity. Qed.

Lemma keeps_raise {A} e : Steps R (raise (A := A) e).
Proof. intros w. reflexivity. Qed.

Lemma keeps_crash {A} : Steps R (crash (A := A)).
Proof. intros w. reflexivity. Qed.

Lemma keeps_lift {A} (m : res A) : Steps R (lift m).
Proof. intros w. destruct m; reflexivity. Qed.

Lemma keeps_check b e : Steps R (check b e).
Proof. apply keeps_lift. Qed.

Lemma keeps_bind {A B} (m : M Mem A) (f : A → M Mem B) :
  Steps R m → (∀ a, Steps R (f a)) → Steps R (m ≫= f).
Proof.
  intros Hm Hf w. specialize (Hm w). unfold mbind, M_bind.
  destruct (m w) as [[a|e|] w']; cbn in *; [|done..]. etrans; [exact Hm|]. apply Hf.
Qed.

(** The continuation may use how the first part returned. *)
Lemma steps_bind_at {A B} (m : M Mem A) (f : A → M Mem B) w :
  Steps R m → (∀ a w', m w = (Ret a, w') → R w' (f a w').2) → R w ((m ≫= f) w).2.
Proof.
  intros Hm Hf. specialize (Hm w). unfold mbind, M_bind.
  destruct (m w) as [[a|e|] w'] eqn:E; cbn in *; [|done..]. etrans; [exact Hm|]. by eapply Hf.
Qed.

Lemma keeps_try {A} (m : M Mem A) c h :
  Steps R m → (∀ e, Steps R (h e)) → Steps R (try_except m c h).
Proof.
  intros Hm Hh w. specialize (Hm w). unfold try_except.
  destruct (m w) as [[a|e|] w']; cbn in *; [done| |done].
  destruct (c e); [|done]. etrans; [exact Hm|]. apply Hh.
Qed.

Lemma keeps_on_raise {A} (m : M Mem A) h : Steps R m → Steps R h → Steps R (on_raise m h).
Proof.
  intros Hm Hh w. specialize (Hm w). unfold on_raise.
  destruct (m w) as [[a|e|] w']; cbn in *; [done| |done]. etrans; [exact Hm|].
  apply keeps_bind; [done|]. intros _. apply keeps_raise.
Qed.

Lemma keeps_finally {A} (m : M Mem A) h : Steps R m → Steps R h → Steps R (try_finally m h).
Proof.
  intros Hm Hh. apply keeps_bind; [by apply keeps_on_raise|]. intros a.
  apply keeps_bind; [done|]. intros _. apply keeps_ret.
Qed.

Lemma keeps_mapM_ {A} (f : A → M Mem unit) l : (∀ x, Steps R (f x)) → Steps R (mapM_ f l).
Proof.
  intros Hf. induction l as [|x l IH]; [apply keeps_ret|]. by apply keeps_bind.
Qed.

Lemma keeps_get_mem : Steps R get_mem.
Proof. intros w. reflexivity. Qed.

Lemma keeps_get_files : Steps R get_files.
Proof. intros w. reflexivity. Qed.


(** A weaker relation. *)
Lemma steps_sub {A} (R' : world Mem → world Mem → Prop) (m : M Mem A) :
  Steps R' m → (∀ w w', R' w w' → R w w') → Steps R m.
Proof. intros Hm HR w. apply HR, Hm. Qed.

Lemma wp_steps {A} (m : M Mem A) (Φ : outcome A → world Mem → Prop) w :
  Steps R m → (∀ o w', R w w' → m w = (o, w') → Φ o w') → wp m Φ w.
Proof. intros Hm HΦ. specialize (Hm w). unfold wp. destruct (m w) as [o w']. by apply HΦ. Qed.

Lemma keeps_modify_mem f : (∀ w, R w (World (w_fs w) (f (w_mem w)) (w_tick w) (w_trace w))) →
  Steps R (m ← get_mem; put_mem (f m)).
Proof. intros Hf w. apply Hf. Qed.
End steps.

Section keeps.
Context {Mem : Type} (P : path → Prop) (Q : Mem → Mem → Prop) `{!PreOrder Q}.
Set Default Proof Using "All".

Lemma keeps_next_tick : Keeps P Q next_tick.
Proof. intros w. by split. Qed.

Lemma keeps_emit url : Keeps P Q (emit (EvHttp url)).
Proof.
  intros w. split; cbn; try done. rewrite deliveries_app. cbn. by rewrite app_nil_r.
Qed.

Section environment.
Context `{Env}.

Lemma keeps_action : Keeps P Q action.
Proof.
  apply keeps_bind; [apply _|apply keeps_next_tick|]. intros n.
  destruct (env_fault n);
    first [apply keeps_ret; apply _|apply keeps_raise; apply _|apply keeps_crash; apply _].
Qed.

Lemma keeps_lock_action : Keeps P Q lock_action.
Proof.
  apply keeps_bind; [apply _|apply keeps_next_tick|]. intros n.
  destruct (env_fault n);
    first [apply keeps_ret; apply _|apply keeps_raise; apply _|apply keeps_crash; apply _].
Qed.

(** A step that may change the file at [p] only. *)
Lemma keeps_file_step p (f : files → M Mem unit) :
  ¬ P p →
  (∀ w, (f (w_fs w) w).2 = w ∨
        ∃ fs', (∀ q, q ≠ p → fs' !! q = w_fs w !! q) ∧
               (f (w_fs w) w).2 = World fs' (w_mem w) (w_tick w) (w_trace w)) →
  Keeps P Q (action;; fs ← get_files; f fs).
Proof.
  intros Hp Hf. apply keeps_bind; [apply _|apply keeps_action|]. intros _ w.
  assert ((fs ← get_files; f fs) w = f (w_fs w) w) as -> by done.
  destruct (Hf w) as [->|(fs'&Hq&->)]; [reflexivity|].
  split; cbn; try done. intros q Hq'. apply Hq. by intros ->.
Qed.

Lemma keeps_update_file p f : ¬ P p → Keeps P Q (update_file p f).
Proof.
  intros Hp. apply (keeps_file_step p (λ fs, put_files (alter f p fs))); [done|].
  intros w. right. eexists. split; [|reflexivity]. intros q Hq. by apply lookup_alter_ne.
Qed.

Lemma keeps_unlink p : ¬ P p → Keeps P Q (unlink p).
Proof.
  intros Hp. apply (keeps_file_step p (λ fs, match fs !! p with
    | None => raise FileNotFoundError | Some _ => put_files (delete p fs) end)); [done|].
  intros w. destruct (w_fs w !! p); [right|by left]. eexists. split; [|reflexivity].
  intros q Hq. by apply lookup_delete_ne.
Qed.

Lemma keeps_create_if_missing p mode : ¬ P p → Keeps P Q (create_if_missing p mode).
Proof.
  intros Hp. apply (keeps_file_step p (λ fs, match fs !! p with
    | None => put_files (<[p := File Regular mode env_euid []]> fs)
    | Some _ => mret tt end)); [done|].
  intros w. destruct (w_fs w !! p); [by left|right]. eexists. split; [|reflexivity].
  intros q Hq. by apply lookup_insert_ne.
Qed.
End environment.
End keeps.

Ltac keeps_step :=
  first
    [ assumption | apply keeps_ret; apply _ | apply keeps_raise; apply _ | apply keeps_crash; apply _
    | apply keeps_lift; apply _ | apply keeps_check; apply _
    | apply keeps_get_mem; apply _ | apply keeps_get_files; apply _
    | apply keeps_next_tick; apply _ | apply keeps_emit; apply _
    | apply keeps_action; apply _ | apply keeps_lock_action; apply _
    | solve [eauto with keeps]
    | apply keeps_bind; [apply _| |intros ?] | apply keeps_try; [apply _| |intros ?]
    | apply keeps_on_raise; [apply _| | ] | apply keeps_finally; [apply _| | ]
    | apply keeps_mapM_; [apply _|intros ?]
    | apply keeps_update_file; [apply _|] | apply keeps_unlink; [apply _|]
    | apply keeps_create_if_missing; [apply _|]
    | progress intros | case_match ].

(** Prove that a computation built from the operations above keeps a frame. *)
Ltac keeps := repeat keeps_step.

Create HintDb keeps.
#[export] Hint Extern 1 (PreOrder _) => apply _ : keeps.

Section keeps_operations.
Context {Mem : Type} (P : path → Prop) (Q : Mem → Mem → Prop) `{!PreOrder Q} `{Env}.
Set Default Proof Using "All".

Lemma keeps_path_exists p : Keeps P Q (path_exists p).
Proof. unfold path_exists. keeps. Qed.
Lemma keeps_path_file p : Keeps P Q (path_file p).
Proof. unfold path_file. keeps. Qed.
Lemma keeps_open_nofollow p : Keeps P Q (open_nofollow p).
Proof. unfold open_nofollow, path_file. keeps. Qed.
Lemma keeps_read_bytes p : Keeps P Q (read_bytes p).
Proof. unfold read_bytes, path_file. keeps. Qed.
Lemma keeps_mkdir_parents p : Keeps P Q (mkdir_parents p).
Proof. unfold mkdir_parents. keeps. Qed.
Lemma keeps_fsync_directory p : Keeps P Q (fsync_directory p).
Proof. unfold fsync_directory. keeps. Qed.
Lemma keeps_fsync p : Keeps P Q (fsync p).
Proof. unfold fsync. keeps. Qed.
Lemma keeps_network {R} (oracle : nat → str → R) url : Keeps P Q (network oracle url).
Proof. unfold network. keeps. Qed.
Lemma keeps_http_get url : Keeps P Q (http_get url).
Proof. apply keeps_network. Qed.
Lemma keeps_connection_get host path : Keeps P Q (connection_get host path).
Proof. apply keeps_network. Qed.
Lemma keeps_time_ns : Keeps P Q time_ns.
Proof. unfold time_ns. keeps. Qed.
Lemma keeps_time_time : Keeps P Q time_time.
Proof. unfold time_time. keeps. Qed.
Lemma keeps_time_monotonic : Keeps P Q time_monotonic.
Proof. unfold time_monotonic. keeps. Qed.
Lemma keeps_now_utc : Keeps P Q now_utc.
Proof. unfold now_utc. keeps. Qed.
Lemma keeps_mkstemp : (∀ n, ¬ P (Temp n)) → Keeps P Q mkstemp.
Proof.
  intros Ht. unfold mkstemp. apply keeps_bind; [apply _|apply keeps_action; apply _|]. intros n w.
  split; cbn; try done. intros q Hq. apply lookup_insert_ne. intros <-. by apply (Ht n).
Qed.
Lemma keeps_replace src dst : ¬ P src → ¬ P dst → Keeps P Q (replace src dst).
Proof.
  intros Hs Hd. unfold replace. apply keeps_bind; [apply _|apply keeps_action; apply _|]. intros _ w.
  unfold mbind, M_bind, get_files. cbn. destruct (w_fs w !! src); cbn; [|reflexivity].
  split; cbn; try done. intros q Hq. rewrite lookup_insert_ne, lookup_delete_ne; [done|..]; by intros <-.
Qed.
Lemma keeps_unlink_quiet p : ¬ P p → Keeps P Q (unlink_quiet p).
Proof. intros Hp. unfold unlink_quiet. pose proof (keeps_unlink P Q p Hp). keeps. Qed.
Lemma keeps_chmod p mode : ¬ P p → Keeps P Q (chmod p mode).
Proof. apply keeps_update_file. apply _. Qed.
Lemma keeps_write_bytes p data : ¬ P p → Keeps P Q (write_bytes p data).
Proof. apply keeps_update_file. apply _. Qed.
End keeps_operations.

#[export] Hint Resolve keeps_path_exists keeps_path_file keeps_open_nofollow keeps_read_bytes
  keeps_mkdir_parents keeps_fsync_directory keeps_fsync keeps_http_get keeps_connection_get keeps_time_ns
  keeps_time_time keeps_time_monotonic keeps_now_utc keeps_update_file keeps_unlink
  keeps_create_if_missing keeps_chmod keeps_write_bytes keeps_mkstemp keeps_replace
  keeps_unlink_quiet : keeps.

(** No file in particular: a computation that keeps this delivers nothing, and
    whatever it does to the files goes. *)
Definition no_path (p : path) : Prop := False.

Lemma not_no_path p : ¬ no_path p.
Proof. by intros []. Qed.
#[export] Hint Resolve not_no_path : keeps.

(** ** Reasoning: saving a file *)

Section saving.
Context {Mem : Type} `{Env}.
Implicit Types w : world Mem.
Set Default Proof Using "All".

Definition ticked w : world Mem := World (w_fs w) (w_mem w) (S (w_tick w)) (w_trace w).

Lemma wp_action (Φ : outcome nat → world Mem → Prop) w :
  Φ (Ret (w_tick w)) (ticked w) → Φ (Raise OSError) (ticked w) → Φ Crashed (ticked w) →
  wp action Φ w.
Proof.
  intros H1 H2 H3. unfold wp, action, mbind, M_bind. cbn. by destruct (env_fault (w_tick w)).
Qed.

(** The file a save leaves: private, owned by this user, with the new data. *)
Definition private_file (data : bytes) : file := File Regular MODE_0600 env_euid data.

(** What a save of [data] at [p] may have done when it stops: nothing but
    temporary files, or the whole of it. *)
Definition save_effect p (data : bytes) (w w' : world Mem) : Prop :=
  frame (λ q, q ≠ p ∧ is_temp q = false) eq w w' ∧
  (w_fs w' !! p = w_fs w !! p ∨ w_fs w' !! p = Some (private_file data)).

Lemma wp_mkstemp (Φ : outcome path → world Mem → Prop) w :
  (let t := Temp (w_tick w) in
   Φ (Ret t) (World (<[t := private_file []]> (w_fs w)) (w_mem w) (S (w_tick w)) (w_trace w))) →
  Φ (Raise OSError) (ticked w) → Φ Crashed (ticked w) → wp mkstemp Φ w.
Proof. intros H1 H2 H3. unfold mkstemp. apply wp_bind, wp_action; [exact H1|exact H2|exact H3]. Qed.

Lemma wp_update_file p f (Φ : outcome unit → world Mem → Prop) w :
  Φ (Ret tt) (World (alter f p (w_fs w)) (w_mem w) (S (w_tick w)) (w_trace w)) →
  Φ (Raise OSError) (ticked w) → Φ Crashed (ticked w) → wp (update_file p f) Φ w.
Proof. intros H1 H2 H3. unfold update_file. apply wp_bind, wp_action; [exact H1|exact H2|exact H3]. Qed.

Lemma wp_plain_action (Φ : outcome unit → world Mem → Prop) w :
  Φ (Ret tt) (ticked w) → Φ (Raise OSError) (ticked w) → Φ Crashed (ticked w) →
  wp (action;; mret tt) Φ w.
Proof. intros H1 H2 H3. apply wp_bind, wp_action; [exact H1|exact H2|exact H3]. Qed.

Lemma wp_replace src dst f (Φ : outcome unit → world Mem → Prop) w :
  w_fs w !! src = Some f →
  Φ (Ret tt) (World (<[dst := f]> (delete src (w_fs w))) (w_mem w) (S (w_tick w)) (w_trace w)) →
  Φ (Raise OSError) (ticked w) → Φ Crashed (ticked w) → wp (replace src dst) Φ w.
Proof.
  intros Hs H1 H2 H3. unfold replace. apply wp_bind, wp_action; [|exact H2|exact H3].
  unfold wp, get_files, mbind, M_bind. cbn. by rewrite Hs.
Qed.

(** Nothing but temporary files changed. *)
Definition settled (w w' : world Mem) : Prop := frame (λ q, is_temp q = false) eq w w'.

(** How a step that fails ends. *)
Definition failed {A} (err : exn) (o : outcome A) : Prop :=
  o = Raise err ∨ o = Raise OSError ∨ o = Crashed.

Lemma settled_temp w w' fs n t :
  settled w w' → (∀ q, q ≠ Temp n → fs !! q = w_fs w' !! q) →
  settled w (World fs (w_mem w') t (w_trace w')).
Proof.
  intros [F M T] Hq. split; cbn; try done. intros q Ht. rewrite Hq, F; [done..|].
  by intros ->.
Qed.

Lemma settled_ticked w w' : settled w w' → settled w (ticked w').
Proof. intros [F M T]. by split. Qed.

(** The cleanup of the temporary file, then the exception again. *)
Lemma wp_cleanup {A} err n e (Φ : outcome A → world Mem → Prop) w w' :
  e = err ∨ e = OSError → settled w w' →
  (∀ o w2, settled w w2 → failed err o → Φ o w2) →
  wp (unlink_quiet (Temp n);; raise e) Φ w'.
Proof.
  intros He Hs HF.
  assert (∀ w2, settled w w2 → Φ (Raise e) w2) as Hre
    by (intros w2 H2; apply HF; [done|destruct He as [->| ->]; unfold failed; auto]).
  assert (∀ w2, settled w w2 → Φ Crashed w2) as Hcr
    by (intros w2 H2; apply HF; [done|unfold failed; auto]).
  apply wp_bind. unfold unlink_quiet. apply wp_try. unfold unlink. apply wp_bind, wp_action.
  - unfold wp, get_files, mbind, M_bind. cbn. destruct (w_fs w' !! Temp n); cbn.
    + apply Hre. eapply settled_temp; [done|]. intros q Hq. by apply lookup_delete_ne.
    + by apply Hre, settled_ticked.
  - cbn. apply HF; [by apply settled_ticked|unfold failed; auto].
  - by apply Hcr, settled_ticked.
Qed.

(** A step on the temporary file. *)
Lemma wp_temp_update n f x (Φ : outcome unit → world Mem → Prop) w w' :
  settled w w' → w_fs w' !! Temp n = Some x →
  (∀ w2, settled w w2 → w_fs w2 !! Temp n = Some (f x) → Φ (Ret tt) w2) →
  (∀ w2, settled w w2 → Φ (Raise OSError) w2 ∧ Φ Crashed w2) →
  wp (update_file (Temp n) f) Φ w'.
Proof.
  intros Hs Hx HR HF. destruct (HF (ticked w')) as [H1 H2]; [by apply settled_ticked|].
  apply wp_update_file; [|done..]. apply HR.
  - apply settled_temp with n; [done|]. intros q Hq. by apply lookup_alter_ne.
  - cbn. by rewrite lookup_alter_eq, Hx.
Qed.

(** A check that changes nothing passes, or fails with an [OSError]. *)
Definition harmless (c : M Mem unit) w : Prop :=
  ∀ w', settled w w' →
  wp c (λ o w2, w_fs w2 = w_fs w' ∧ settled w w2 ∧ (o = Ret tt ∨ o = Raise OSError ∨ o = Crashed)) w'.

Lemma harmless_ret w : harmless (mret tt) w.
Proof. intros w' Hs. apply wp_ret. auto. Qed.

(** A cleanup that removes the temporary file or fails as [unlink] does. *)
Definition cleans (cleanup : path → M Mem unit) : Prop :=
  ∀ err n (Φ : outcome unit → world Mem → Prop) w w', settled w w' →
  (∀ o w2, settled w w2 → failed err o → Φ o w2) → wp (cleanup (Temp n);; raise err) Φ w'.

Lemma cleans_unlink_quiet : cleans unlink_quiet.
Proof. intros err n Φ w w' Hs HF. eapply wp_cleanup; eauto. Qed.

Lemma wp_write_temporary_via cleanup err p data c (Φ : outcome unit → world Mem → Prop) w :
  cleans cleanup → is_temp p = false → harmless c w →
  (∀ w', frame (λ q, q ≠ p ∧ is_temp q = false) eq w w' →
         w_fs w' !! p = Some (private_file data) → Φ (Ret tt) w') →
  (∀ o w', settled w w' → failed err o → Φ o w') →
  wp (write_temporary_via cleanup err p data c) Φ w.
Proof.
  intros Hclean Hp Hc HR HF.
  assert (∀ w2, settled w w2 → Φ Crashed w2) as Hcr
    by (intros w2 H2; apply HF; [done|unfold failed; auto]).
  assert (∀ n w2, settled w w2 → wp (cleanup (Temp n);; raise err) Φ w2) as Hcl
    by (intros n w2 H2; eapply Hclean; eauto).
  assert (settled w w) as H0 by done.
  unfold write_temporary_via. apply wp_bind, wp_try, wp_mkstemp; cbn;
    [|apply HF; [by apply settled_ticked|unfold failed; auto]|by apply Hcr, settled_ticked].
  set (n := w_tick w). apply wp_on_raise, wp_try, wp_bind.
  eapply (wp_temp_update n _ (private_file []) _ w); [|apply lookup_insert_eq| |intros w2 H2; cbn; split; auto].
  { apply (settled_temp w w _ n); [done|]. intros q Hq. by apply lookup_insert_ne. }
  cbn. intros w2 H2 E2. apply wp_bind.
  eapply (wp_temp_update n _ (private_file []) _ w); [exact H2|exact E2| |intros w3 H3; cbn; split; auto].
  cbn. intros w3 H3 E3. apply wp_bind. unfold fsync.
  apply wp_plain_action; cbn; [|by apply Hcl, settled_ticked|by apply Hcr, settled_ticked].
  apply wp_bind. eapply wp_mono; [apply Hc, settled_ticked, H3|].
  intros o w4 (Ef&H4&[->|[->| ->]]); cbn; [|by apply Hcl|by apply Hcr].
  apply wp_replace with (private_file data); cbn;
    [by rewrite Ef| |by apply Hcl, settled_ticked|by apply Hcr, settled_ticked].
  apply HR; [|apply lookup_insert_eq].
  destruct H4 as [F4 M4 T4]. split; cbn; try done. intros q [Hq Ht].
  rewrite lookup_insert_ne, lookup_delete_ne by (done || by intros <-). by apply F4.
Qed.

Lemma wp_write_temporary_checked err p data c (Φ : outcome unit → world Mem → Prop) w :
  is_temp p = false → harmless c w →
  (∀ w', frame (λ q, q ≠ p ∧ is_temp q = false) eq w w' →
         w_fs w' !! p = Some (private_file data) → Φ (Ret tt) w') →
  (∀ o w', settled w w' → failed err o → Φ o w') →
  wp (write_temporary_checked err p data c) Φ w.
Proof. apply wp_write_temporary_via, cleans_unlink_quiet. Qed.

Lemma wp_write_temporary err p data (Φ : outcome unit → world Mem → Prop) w :
  is_temp p = false →
  (∀ w', frame (λ q, q ≠ p ∧ is_temp q = false) eq w w' →
         w_fs w' !! p = Some (private_file data) → Φ (Ret tt) w') →
  (∀ o w', settled w w' → failed err o → Φ o w') →
  wp (write_temporary err p data) Φ w.
Proof. intros Hp. by apply wp_write_temporary_checked, harmless_ret. Qed.
End saving.

(** How a save of [data] at [p] ends: completed, or stopped with the old file
    or the new one in place. *)
Record save_ends {Mem} `{Env} (err : exn) (p : path) (data : bytes) (w : world Mem)
    (o : outcome unit) (w' : world Mem) : Prop := {
  save_frame : frame (λ q, q ≠ p ∧ is_temp q = false) eq w w';
  save_outcome : o = Ret tt ∨ failed err o;
  save_file : w_fs w' !! p = Some (private_file data) ∨ (o ≠ Ret tt ∧ w_fs w' !! p = w_fs w !! p)
}.

Section save_ends.
Context {Mem : Type} `{Env}.
Implicit Types w : world Mem.
Set Default Proof Using "All".

Lemma frame_ticked P w w' : frame P eq w w' → frame P eq w (ticked w').
Proof. intros [F M T]. by split. Qed.

Lemma settled_frame p w w' : settled w w' → frame (λ q, q ≠ p ∧ is_temp q = false) eq w w'.
Proof. intros [F M T]. split; [|done..]. intros q [_ Hq]. by apply F. Qed.

(** A save that raised or crashed before the rename. *)
Lemma save_ends_failed err p data w o w' :
  is_temp p = false → settled w w' → failed err o → save_ends err p data w o w'.
Proof.
  intros Hp Hs Hf. split; [by apply settled_frame|by right|]. right.
  split; [by destruct Hf as [->|[->| ->]]|]. by apply (frame_fs _ _ _ _ Hs).
Qed.

(** Afterwards the file is there, and stays there through [chmod]. *)
Lemma wp_save_chmod err p data w w' (Φ : outcome unit → world Mem → Prop) :
  frame (λ q, q ≠ p ∧ is_temp q = false) eq w w' → w_fs w' !! p = Some (private_file data) →
  (∀ o w2, save_ends err p data w o w2 → w_fs w2 !! p = Some (private_file data) → Φ o w2) →
  wp (os_errors err (chmod p MODE_0600)) Φ w'.
Proof.
  intros Hf Hp HΦ. apply wp_try, wp_update_file; cbn.
  - assert (alter (λ f, File (f_kind f) MODE_0600 (f_uid f) (f_data f)) p (w_fs w') = w_fs w') as ->.
    { apply map_eq. intros q. destruct (decide (q = p)) as [->|].
      - by rewrite lookup_alter_eq, Hp.
      - by apply lookup_alter_ne. }
    apply HΦ; [|done]. split; [by apply frame_ticked in Hf|by left|by left].
  - apply HΦ; [|done]. split; [by apply frame_ticked|by right; left|by left].
  - apply HΦ; [|done]. split; [by apply frame_ticked|by right; right; right|by left].
Qed.
End save_ends.

(** ** Reasoning: how a computation returned *)

Section returned.
Context {Mem : Type}.
Implicit Types w : world Mem.

Lemma bind_Ret {A B} (m : M Mem A) (f : A → M Mem B) b w w' :
  (m ≫= f) w = (Ret b, w') ↔ ∃ a w1, m w = (Ret a, w1) ∧ f a w1 = (Ret b, w').
Proof.
  unfold mbind, M_bind. destruct (m w) as [[a|e|] w1]; split; try naive_solver.
Qed.

Lemma lift_Ret {A} (m : res A) a w w' : lift m w = (Ret a, w') ↔ m = Ok a ∧ w' = w.
Proof. destruct m; cbn; unfold mret, M_ret, raise; naive_solver. Qed.

Lemma check_Ret b e w w' x : check b e w = (Ret x, w') ↔ b = false ∧ w' = w.
Proof. unfold check. rewrite lift_Ret, raise_if_Ok. done. Qed.

Lemma ret_Ret {A} (a b : A) w w' : (mret a : M Mem A) w = (Ret b, w') ↔ b = a ∧ w' = w.
Proof. unfold mret, M_ret. naive_solver. Qed.

Lemma raise_Ret {A} e (b : A) w w' : raise e w = (Ret b, w') ↔ False.
Proof. unfold raise. naive_solver. Qed.

Lemma try_Ret {A} (m : M Mem A) c h a w w' :
  try_except m c h w = (Ret a, w') ↔
  m w = (Ret a, w') ∨ ∃ e w1, m w = (Raise e, w1) ∧ c e = true ∧ h e w1 = (Ret a, w').
Proof.
  unfold try_except. destruct (m w) as [[b|e|] w1].
  - split; [by left|]. by intros [?|(?&?&[=]&_)].
  - destruct (c e) eqn:E; split.
    + intros ?. right. by exists e, w1.
    + by intros [?|(?&?&[= <- <-]&_&?)].
    + done.
    + intros [?|(?&?&[= <- <-]&?&_)]; congruence.
  - split; [by left|]. by intros [?|(?&?&?&_)].
Qed.

Lemma on_raise_Ret {A} (m : M Mem A) h a w w' : on_raise m h w = (Ret a, w') → m w = (Ret a, w').
Proof.
  unfold on_raise. destruct (m w) as [[b|e|] w1]; [done| |done]. by intros (?&?&_&[]%raise_Ret)%bind_Ret.
Qed.

Lemma os_errors_Ret {A} err (m : M Mem A) a w w' :
  os_errors err m w = (Ret a, w') ↔ m w = (Ret a, w').
Proof.
  unfold os_errors. rewrite try_Ret. split; [|by left].
  intros [?|(?&?&_&_&[]%raise_Ret)]; done.
Qed.
End returned.

(** ** Reasoning: following one execution *)

Lemma bind_step {Mem A B} (m : M Mem A) (f : A → M Mem B) a w w1 :
  m w = (Ret a, w1) → (m ≫= f) w = f a w1.
Proof. intros E. unfold mbind, M_bind. by rewrite E. Qed.

Lemma bind_raises {Mem A B} (m : M Mem A) (f : A → M Mem B) e w w1 :
  m w = (Raise e, w1) → (m ≫= f) w = (Raise e, w1).
Proof. intros E. unfold mbind, M_bind. by rewrite E. Qed.
