(* ===== verification/State.v ===== *)
(** [state.py]: the persistent cursors, nonces, generations and request
    histories of the agent. *)

From S2P Require Import Prelude Errors Text Regex Json Crypto Effects.

Record AgentState := MkAgentState {
  cursors : gmap str Z;
  nonces : gmap str Z;
  generations : gmap str Z;
  capability_requests : gmap str (list Z)
}.

Definition empty_state : AgentState := MkAgentState ∅ ∅ ∅ ∅.

Definition STATE_SCHEMA : str := u "technocore-safe-agent-state-v1".
Definition NONCE_LIMIT : Z := 9999999999999999999.
Definition MAX_CAPABILITY_PRINCIPALS : nat := 128.
Definition MAX_CAPABILITY_HISTORY : nat := 1000.

Definition set_cursors (f : gmap str Z → gmap str Z) (s : AgentState) : AgentState :=
  MkAgentState (f (cursors s)) (nonces s) (generations s) (capability_requests s).
Definition set_nonces (f : gmap str Z → gmap str Z) (s : AgentState) : AgentState :=
  MkAgentState (cursors s) (f (nonces s)) (generations s) (capability_requests s).
Definition set_generations (f : gmap str Z → gmap str Z) (s : AgentState) : AgentState :=
  MkAgentState (cursors s) (nonces s) (f (generations s)) (capability_requests s).
Definition set_capability_requests (f : gmap str (list Z) → gmap str (list Z)) (s : AgentState)
  : AgentState :=
  MkAgentState (cursors s) (nonces s) (generations s) (f (capability_requests s)).

(** ** Checks on values read from a file *)

Definition _require_nonnegative_int (value : json) : res Z :=
  match value with
  | JInt z => raise_if (z <? 0) (StateError "must be a non-negative integer");; Ok z
  | _ => Err (StateError "must be a non-negative integer")
  end.

Definition _require_positive_int (value : json) : res Z :=
  match value with
  | JInt z => raise_if (z <=? 0) (StateError "must be a positive integer");; Ok z
  | _ => Err (StateError "must be a positive integer")
  end.

Definition _nonnegative_int_map (value : json) : res (gmap str Z) :=
  match value with
  | JDict kvs =>
      foldM_res (λ checked kv,
        raise_if (kv.1 == []) (StateError "state map contains an invalid room");;
        z ← _require_nonnegative_int kv.2;
        Ok (<[kv.1 := z]> checked)) ∅ kvs
  | _ => Err (StateError "state map must be an object")
  end.

(** One entry of [capability_requests]. *)
Definition _capability_history (did : str) (raw_timestamps : json) : res (str * list Z) :=
  valid_did ← res_catch (validate_did did) is_ProtocolValueError
    (λ _, Err (StateError "state capability_requests contains an invalid principal"));
  raw ← (match raw_timestamps with
         | JList l => if (MAX_CAPABILITY_HISTORY <? length l)%nat
                      then Err (StateError "state capability request history is invalid or oversized")
                      else Ok l
         | _ => Err (StateError "state capability request history is invalid or oversized")
         end);
  timestamps ← mapM_res _require_nonnegative_int raw;
  raise_if (negb (weakly_sorted timestamps))
    (StateError "state capability request history is not ordered");;
  Ok (valid_did, timestamps).

Definition _capability_request_map (value : json) : res (gmap str (list Z)) :=
  match value with
  | JDict kvs =>
      raise_if (MAX_CAPABILITY_PRINCIPALS <? length kvs)%nat
        (StateError "state capability_requests must be a bounded object");;
      foldM_res (λ checked kv,
        '(did, timestamps) ← _capability_history kv.1 kv.2;
        Ok (<[did := timestamps]> checked)) ∅ kvs
  | _ => Err (StateError "state capability_requests must be a bounded object")
  end.

(** ** The operations of [AgentState]

    A method that assigns returns the new state with its result. *)

Definition cursor_for (room : str) (s : AgentState) : Z := default 0 (cursors s !! room).

Definition advance_cursor (room : str) (sequence : Z) (s : AgentState) : res AgentState :=
  _require_nonnegative_int (JInt sequence);;
  raise_if (sequence <? cursor_for room s) (StateError "refusing to move a room cursor backwards");;
  Ok (set_cursors <[room := sequence]> s).

Definition generation_for (room : str) (s : AgentState) : option Z := generations s !! room.

Definition observe_generation (room : str) (generation : Z) (s : AgentState)
  : res (bool * AgentState) :=
  _require_nonnegative_int (JInt generation);;
  let previous := generations s !! room in
  raise_if (match previous with Some p => generation <? p | None => false end)
    (StateError "refusing to move a room generation backwards");;
  Ok (match previous with Some p => p <? generation | None => false end,
      set_generations <[room := generation]> s).

Definition next_nonce (room : str) (clock_value : Z) (s : AgentState) : res (Z * AgentState) :=
  _require_nonnegative_int (JInt clock_value);;
  let selected := clock_value `max` (default 0 (nonces s !! room) + 1) in
  raise_if (NONCE_LIMIT <? selected) (StateError "nonce exceeds the Technocore 19-digit limit");;
  Ok (selected, set_nonces <[room := selected]> s).

Definition observe_nonce (room : str) (nonce : Z) (s : AgentState) : res AgentState :=
  _require_nonnegative_int (JInt nonce);;
  Ok (set_nonces <[room := default 0 (nonces s !! room) `max` nonce]> s).

(** [max(now, existing[-1] if existing else now)] *)
Definition effective_time (now : Z) (existing : list Z) : Z :=
  match last existing with Some t => now `max` t | None => now end.

Definition recent (cutoff : Z) (timestamps : list Z) : list Z :=
  List.filter (λ t, cutoff <? t) timestamps.

Definition capability_request_count (did : str) (now window_seconds : Z) (s : AgentState) : res Z :=
  _require_nonnegative_int (JInt now);;
  _require_positive_int (JInt window_seconds);;
  let existing := default [] (capability_requests s !! did) in
  let effective_now := effective_time now existing in
  let cutoff := effective_now - window_seconds in
  Ok (Z.of_nat (length (recent cutoff existing))).

Definition _prune_capability_requests (now window_seconds : Z) (s : AgentState) : AgentState :=
  let cutoff := now - window_seconds in
  set_capability_requests
    (omap (λ timestamps, let current := recent cutoff timestamps in
                         if current == [] then None else Some current)) s.

Definition reserve_capability_request (did : str) (now window_seconds : Z) (s : AgentState)
  : res AgentState :=
  raise_if (did == []) (StateError "capability principal must be a non-empty string");;
  _require_nonnegative_int (JInt now);;
  _require_positive_int (JInt window_seconds);;
  let s := _prune_capability_requests now window_seconds s in
  let existing := default [] (capability_requests s !! did) in
  let effective_now := effective_time now existing in
  let cutoff := effective_now - window_seconds in
  Ok (set_capability_requests <[did := recent cutoff existing ++ [effective_now]]> s).

(** ** Loading and saving *)

(** [dict(sorted(m.items()))] *)
Definition sorted_items {A} (m : gmap str A) : list (str * A) := sort_keys (map_to_list m).

Definition int_map_json (m : gmap str Z) : json := JDict (map_vals JInt (sorted_items m)).
Definition history_map_json (m : gmap str (list Z)) : json :=
  JDict (map_vals (λ l, JList (map JInt l)) (sorted_items m)).

Definition state_payload (s : AgentState) : json :=
  JDict ([(u "schema", JStr STATE_SCHEMA);
          (u "cursors", int_map_json (cursors s));
          (u "nonces", int_map_json (nonces s))]
         ++ (if bool_decide (generations s = ∅) then []
             else [(u "generations", int_map_json (generations s))])
         ++ (if bool_decide (capability_requests s = ∅) then []
             else [(u "capability_requests", history_map_json (capability_requests s))])).

(** [json.dump(payload, stream, ...)] and the line feed, as the bytes written. *)
Definition state_bytes (s : AgentState) : bytes := dumps false (state_payload s) ++ [10].

Definition parse_state (payload : json) : res AgentState :=
  kvs ← of_option (StateError "state file has an unsupported schema")
    (match payload with JDict kvs => Some kvs | _ => None end);
  raise_if (jget (u "schema") kvs != JStr STATE_SCHEMA)
    (StateError "state file has an unsupported schema");;
  cursors ← _nonnegative_int_map (jget (u "cursors") kvs);
  nonces ← _nonnegative_int_map (jget (u "nonces") kvs);
  generations ← _nonnegative_int_map (default (JDict []) (dict_get (u "generations") kvs));
  capability_requests ←
    _capability_request_map (default (JDict []) (dict_get (u "capability_requests") kvs));
  Ok (MkAgentState cursors nonces generations capability_requests).

(** [json.loads(path.read_text(encoding="utf-8"))] of the bytes of a file. *)
Definition loads_text (raw : bytes) : res json :=
  text ← utf8_decode false raw; loads (universal_newlines text).

Section files.
Context {Mem : Type} `{Env}.

Definition read_json_text (p : path) : M Mem json :=
  raw ← read_bytes p; lift (loads_text raw).

Definition load (p : path) : M Mem AgentState :=
  exists_ ← path_exists p;
  if (exists_ : bool) then
    payload ← try_except (read_json_text p)
      (λ e, is_OSError e || is_JSONDecodeError e)
      (λ _, raise (StateError "cannot read state file"));
    lift (parse_state payload)
  else mret empty_state.

Definition save (s : AgentState) (p : path) : M Mem unit :=
  mkdir_parents p;;
  write_temporary (StateError "cannot write state file") p (state_bytes s);;
  os_errors (StateError "cannot write state file") (chmod p MODE_0600).
End files.

(** ** Reading back a saved state *)

Lemma foldM_insert {A B} (F : gmap str B → str * A → res (gmap str B)) (g : A → B) l m :
  Forall (λ kv, ∀ m, F m kv = Ok (<[kv.1 := g kv.2]> m)) l →
  foldM_res F m l = Ok (foldl (λ m kv, <[kv.1 := kv.2]> m) m (map_vals g l)).
Proof.
  intros H. revert m. induction H as [|kv l Hkv _ IH]; intros m; [done|].
  cbn [foldM_res map_vals map foldl]. rewrite Hkv. apply IH.
Qed.

Lemma foldl_insert_map {B} (l : list (str * B)) :
  NoDup l.*1 → foldl (λ m kv, <[kv.1 := kv.2]> m) (∅ : gmap str B) l = list_to_map l.
Proof.
  intros Hn. assert (∀ l m, foldl (λ m kv, <[kv.1 := kv.2]> m) m l
    = foldr (λ kv m, <[kv.1 := kv.2]> m) m (rev l)) as ->.
  { clear. induction l as [|kv l IH]; intros m; [done|]. cbn [foldl rev].
    by rewrite foldr_app, IH. }
  change (list_to_map (M := gmap str B) (rev l) = list_to_map l).
  apply list_to_map_proper.
  - assert (rev l ≡ₚ l) as -> by (symmetry; apply Permutation_rev). done.
  - symmetry. apply Permutation_rev.
Qed.

Lemma sorted_items_perm {A} (m : gmap str A) : sorted_items m ≡ₚ map_to_list m.
Proof. apply sort_keys_perm. Qed.

Lemma sorted_items_NoDup {A} (m : gmap str A) : NoDup (sorted_items m).*1.
Proof. rewrite sorted_items_perm. apply NoDup_fst_map_to_list. Qed.

Lemma sorted_items_map {A} (m : gmap str A) : list_to_map (sorted_items m) = m.
Proof.
  rewrite <- (list_to_map_to_list m) at 2. apply list_to_map_proper; [apply sorted_items_NoDup|].
  apply sorted_items_perm.
Qed.

Lemma sorted_items_Forall {A} (P : str → A → Prop) (m : gmap str A) :
  map_Forall P m → Forall (λ kv, P kv.1 kv.2) (sorted_items m).
Proof.
  intros H. rewrite sorted_items_perm. apply map_Forall_to_list in H.
  eapply Forall_impl; [exact H|]. by intros [k v].
Qed.

Lemma read_back_map {A B} (F : gmap str B → str * A → res (gmap str B)) (enc : B → A) (g : A → B)
  (m : gmap str B) :
  (∀ v, g (enc v) = v) →
  map_Forall (λ k v, ∀ m', F m' (k, enc v) = Ok (<[k := v]> m')) m →
  foldM_res F ∅ (map_vals enc (sorted_items m)) = Ok m.
Proof.
  intros Hg HF. rewrite (foldM_insert F g).
  - assert (map_vals g (map_vals enc (sorted_items m)) = sorted_items m) as ->.
    { unfold map_vals. rewrite map_map. rewrite <- (map_id (sorted_items m)) at 2. apply map_ext.
      intros [k v]. cbn. by rewrite Hg. }
    by rewrite foldl_insert_map, sorted_items_map by apply sorted_items_NoDup.
  - apply Forall_map. apply sorted_items_Forall in HF. eapply Forall_impl; [exact HF|].
    intros [k v] H m'. cbn. by rewrite H, Hg.
Qed.

(** An integer CPython prints, at least 0. *)
Definition printable_nat (z : Z) : Prop := 0 ≤ z < 10 ^ MAX_STR_DIGITS.
Definition key_ok (k : str) : Prop := k ≠ [] ∧ Forall (λ c, is_scalar c = true) k.

Definition int_map_ok (m : gmap str Z) : Prop := map_Forall (λ k z, key_ok k ∧ printable_nat z) m.

Definition history_ok (did : str) (l : list Z) : Prop :=
  fullmatch DID_PATTERN did = true ∧ (length l ≤ MAX_CAPABILITY_HISTORY)%nat ∧
  Forall printable_nat l ∧ weakly_sorted l = true.

(** What every operation of a running agent keeps. *)
Record state_wf (s : AgentState) : Prop := {
  wf_cursors : int_map_ok (cursors s);
  wf_nonces : int_map_ok (nonces s);
  wf_generations : int_map_ok (generations s);
  wf_requests : map_Forall history_ok (capability_requests s)
}.

(** What [load] accepts: no more than 128 principals besides. *)
Definition principals_ok (s : AgentState) : bool :=
  (size (capability_requests s) <=? MAX_CAPABILITY_PRINCIPALS)%nat.

Lemma require_nonnegative_ok z : 0 ≤ z → _require_nonnegative_int (JInt z) = Ok z.
Proof. intros Hz. unfold _require_nonnegative_int. by destruct (Z.ltb_spec z 0); [lia|]. Qed.

Lemma int_map_roundtrip m : int_map_ok m → _nonnegative_int_map (int_map_json m) = Ok m.
Proof.
  intros Hm. unfold _nonnegative_int_map, int_map_json.
  apply (read_back_map _ JInt (λ v, match v with JInt z => z | _ => 0 end)); [done|].
  intros k z Hk m'. destruct (Hm k z Hk) as [[Hne _] [Hz _]]. cbn [fst snd].
  rewrite bool_decide_eq_false_2 by done. cbn [raise_if mbind res_bind].
  by rewrite require_nonnegative_ok.
Qed.

Lemma capability_history_roundtrip did l :
  history_ok did l → _capability_history did (JList (map JInt l)) = Ok (did, l).
Proof.
  intros (Hd&Hlen&Hf&Hs). unfold _capability_history, validate_did. rewrite Hd. cbn [negb raise_if].
  cbn [mbind res_bind res_catch]. rewrite length_map.
  destruct (Nat.ltb_spec MAX_CAPABILITY_HISTORY (length l)); [lia|].
  cbn [mbind res_bind].
  assert (mapM_res _require_nonnegative_int (map JInt l) = Ok l) as ->.
  { apply mapM_res_Forall2. clear - Hf. induction Hf as [|z l [Hz _] _ IH]; constructor; [|done].
    by apply require_nonnegative_ok. }
  cbn [mbind res_bind]. by rewrite Hs.
Qed.

Lemma history_map_roundtrip m :
  map_Forall history_ok m →
  _capability_request_map (history_map_json m)
  = if (size m <=? MAX_CAPABILITY_PRINCIPALS)%nat then Ok m
    else Err (StateError "state capability_requests must be a bounded object").
Proof.
  intros Hm. unfold _capability_request_map, history_map_json, map_vals.
  rewrite length_map.
  assert (length (sorted_items m) = size m) as -> by (rewrite sorted_items_perm; apply length_map_to_list).
  destruct (Nat.ltb_spec MAX_CAPABILITY_PRINCIPALS (size m)), (Nat.leb_spec (size m) MAX_CAPABILITY_PRINCIPALS);
    [lia|done| |lia]. cbn [raise_if mbind res_bind].
  apply (read_back_map _ (λ l, JList (map JInt l))
           (λ v, match v with JList l => map (λ x, match x with JInt z => z | _ => 0 end) l | _ => [] end)).
  { intros l. rewrite map_map. apply map_id. }
  intros k l Hk m'. cbn [fst snd]. by rewrite capability_history_roundtrip by auto.
Qed.

(** The members of a saved state. *)
Lemma state_payload_fields (a b : json) (x y : list (str * json)) :
  let kvs := [(u "schema", JStr STATE_SCHEMA); (u "cursors", a); (u "nonces", b)] ++ x ++ y in
  jget (u "schema") kvs = JStr STATE_SCHEMA ∧ jget (u "cursors") kvs = a ∧
  jget (u "nonces") kvs = b ∧
  dict_get (u "generations") kvs = dict_get (u "generations") (x ++ y) ∧
  dict_get (u "capability_requests") kvs = dict_get (u "capability_requests") (x ++ y).
Proof. repeat split. Qed.

Lemma parse_state_payload s :
  state_wf s →
  parse_state (state_payload s)
  = if principals_ok s then Ok s
    else Err (StateError "state capability_requests must be a bounded object").
Proof.
  intros [H1 H2 H3 H4]. destruct s as [c n g r]. unfold principals_ok.
  cbn [cursors nonces generations capability_requests] in *.
  unfold parse_state, state_payload. cbn [cursors nonces generations capability_requests of_option].
  set (x := if bool_decide (g = ∅) then _ else _). set (y := if bool_decide (r = ∅) then _ else _).
  cbn [mbind res_bind].
  destruct (state_payload_fields (int_map_json c) (int_map_json n) x y) as (->&->&->&->&->).
  rewrite bool_decide_eq_true_2 by done. cbn [negb raise_if].
  rewrite !int_map_roundtrip by done. cbn [mbind res_bind].
  assert (_nonnegative_int_map (default (JDict []) (dict_get (u "generations") (x ++ y))) = Ok g) as ->.
  { subst x. destruct (decide (g = ∅)) as [Hg|Hg].
    - rewrite bool_decide_eq_true_2 by done. subst g y. by destruct (bool_decide (r = ∅)).
    - rewrite bool_decide_eq_false_2 by done. by apply (int_map_roundtrip g). }
  assert (_capability_request_map (default (JDict []) (dict_get (u "capability_requests") (x ++ y)))
          = _capability_request_map (history_map_json r)) as ->.
  { subst y. destruct (decide (r = ∅)) as [Hr|Hr].
    - rewrite bool_decide_eq_true_2 by done. subst r x. by destruct (bool_decide (g = ∅)).
    - rewrite bool_decide_eq_false_2 by done. subst x. by destruct (bool_decide (g = ∅)). }
  rewrite history_map_roundtrip by done. cbn [mbind res_bind]. by case_match.
Qed.

Lemma json_ok_dict {A} (enc : A → json) (l : list (str * A)) :
  NoDup l.*1 → Forall (λ kv, Forall (λ c, is_scalar c = true) kv.1 ∧ json_ok (enc kv.2)) l →
  json_ok (JDict (map_vals enc l)).
Proof.
  intros Hn Hf. apply json_ok_JDict. split; [by rewrite map_vals_keys|].
  apply Forall_map. exact Hf.
Qed.

Lemma json_ok_ints l : Forall printable_nat l → json_ok (JList (map JInt l)).
Proof.
  intros H. cbn. apply foldr_and_Forall, Forall_map. eapply Forall_impl; [exact H|].
  intros z [??]. cbn. lia.
Qed.

Lemma int_map_json_ok m : int_map_ok m → json_ok (int_map_json m).
Proof.
  intros Hm. apply json_ok_dict; [apply sorted_items_NoDup|].
  apply sorted_items_Forall in Hm. eapply Forall_impl; [exact Hm|].
  intros [k z] [[_ ?] [??]]. cbn in *. split; [done|lia].
Qed.

Lemma did_scalar did : fullmatch DID_PATTERN did = true → Forall (λ c, is_scalar c = true) did.
Proof.
  intros (low&->&_&Hf)%DID_PATTERN_spec. apply Forall_app. split; [by repeat constructor|].
  eapply Forall_impl; [exact Hf|]. intros c. cbn. unfold is_scalar, is_surrogate. breflect. lia.
Qed.

Lemma history_map_json_ok m : map_Forall history_ok m → json_ok (history_map_json m).
Proof.
  intros Hm. apply json_ok_dict; [apply sorted_items_NoDup|].
  apply sorted_items_Forall in Hm. eapply Forall_impl; [exact Hm|].
  intros [k l] (Hd&_&Hf&_). cbn [fst snd] in *. split; [by apply did_scalar|by apply json_ok_ints].
Qed.

Lemma state_payload_ok s : state_wf s → json_ok (state_payload s).
Proof.
  intros [H1%int_map_json_ok H2%int_map_json_ok H3%int_map_json_ok H4%history_map_json_ok].
  unfold state_payload. revert H1 H2 H3 H4.
  generalize (int_map_json (cursors s)), (int_map_json (nonces s)), (int_map_json (generations s)),
    (history_map_json (capability_requests s)). intros a b g r Ha Hb Hg Hr.
  assert (json_ok (JStr STATE_SCHEMA)) by (cbn; decide_by_computing).
  destruct (bool_decide (generations s = ∅)), (bool_decide (capability_requests s = ∅));
    cbn [app]; by json_ok_fields.
Qed.

Lemma is_ascii_printable s : Forall (λ c, printable_ascii c = true) s → is_ascii s = true.
Proof.
  intros H. apply forallb_Forall_true. eapply Forall_impl; [exact H|]. intros c.
  unfold printable_ascii. breflect. lia.
Qed.

(** The bytes of a text file with one JSON value on one line. *)
Lemma loads_text_line j : json_ok j → loads_text (dumps false j ++ [10]) = Ok j.
Proof.
  intros Hok. pose proof (dumps_printable false j Hok) as Hp. unfold loads_text.
  assert (is_ascii (dumps false j ++ [10]) = true) as Ha.
  { unfold is_ascii. rewrite forallb_app. apply is_ascii_printable in Hp. unfold is_ascii in Hp.
    by rewrite Hp. }
  rewrite (utf8_roundtrip false (dumps false j ++ [10])) by (by apply utf8_encode_ascii).
  cbn [mbind res_bind]. rewrite universal_newlines_id.
  - unfold loads. rewrite loads_dumps_line by eauto with py. by rewrite norm_false.
  - rewrite elem_of_app, list_elem_of_singleton. intros [Hin|?]; [|done].
    by specialize (Forall_elem _ _ _ Hp Hin).
Qed.

Lemma load_saved_bytes s :
  state_wf s →
  loads_text (state_bytes s) ≫= parse_state
  = if principals_ok s then Ok s
    else Err (StateError "state capability_requests must be a bounded object").
Proof.
  intros Hs. unfold state_bytes. rewrite loads_text_line by by apply state_payload_ok.
  by apply parse_state_payload.
Qed.

(** ** The operations keep a state well formed *)

Lemma state_wf_empty : state_wf empty_state.
Proof. split; apply map_Forall_empty. Qed.

Lemma require_nonnegative_Ok z x : _require_nonnegative_int (JInt z) = Ok x ↔ 0 ≤ z ∧ x = z.
Proof. unfold _require_nonnegative_int. destruct (Z.ltb_spec z 0); cbn; naive_solver lia. Qed.

Lemma require_positive_Ok z x : _require_positive_int (JInt z) = Ok x ↔ 0 < z ∧ x = z.
Proof. unfold _require_positive_int. destruct (Z.leb_spec z 0); cbn; naive_solver lia. Qed.

Lemma advance_cursor_Ok room q s s' :
  advance_cursor room q s = Ok s' ↔ 0 ≤ q ∧ cursor_for room s ≤ q ∧ s' = set_cursors <[room := q]> s.
Proof.
  unfold advance_cursor, _require_nonnegative_int.
  destruct (Z.ltb_spec q 0); cbn; [split; [done|lia]|].
  destruct (Z.ltb_spec q (cursor_for room s)); cbn; [split; [done|lia]|].
  split; [by intros [= <-]|by intros (_&_&->)].
Qed.

Lemma cursor_for_set room q s : cursor_for room (set_cursors <[room := q]> s) = q.
Proof. unfold cursor_for, set_cursors. cbn. by rewrite lookup_insert_eq. Qed.

Lemma int_map_ok_insert k z m : key_ok k → printable_nat z → int_map_ok m → int_map_ok (<[k := z]> m).
Proof. intros. by apply map_Forall_insert_2. Qed.

Lemma advance_cursor_wf room q s s' :
  advance_cursor room q s = Ok s' → key_ok room → q < 10 ^ MAX_STR_DIGITS → state_wf s → state_wf s'.
Proof.
  intros (?&?&->)%advance_cursor_Ok ?? []. split; cbn; try done. by apply int_map_ok_insert.
Qed.

Lemma observe_generation_Ok room g s b s' :
  observe_generation room g s = Ok (b, s') → 0 ≤ g ∧ s' = set_generations <[room := g]> s.
Proof.
  unfold observe_generation. intros H. apply res_bind_Ok in H as (?&[Hnn ->]%require_nonnegative_Ok&H).
  apply res_bind_Ok in H as (?&_&[= _ <-]). done.
Qed.

Lemma observe_generation_wf room g s b s' :
  observe_generation room g s = Ok (b, s') → key_ok room → g < 10 ^ MAX_STR_DIGITS → state_wf s → state_wf s'.
Proof.
  intros [? ->]%observe_generation_Ok ?? []. split; cbn; try done. by apply int_map_ok_insert.
Qed.

Lemma NONCE_LIMIT_printable n : n ≤ NONCE_LIMIT → n < 10 ^ MAX_STR_DIGITS.
Proof.
  assert (10 ^ 19 ≤ 10 ^ MAX_STR_DIGITS) by (apply Z.pow_le_mono_r; [lia|apply Z.leb_le; by vm_compute]).
  unfold NONCE_LIMIT. lia.
Qed.

Lemma next_nonce_Ok room clock s n s' :
  next_nonce room clock s = Ok (n, s') ↔
  0 ≤ clock ∧ n = clock `max` (default 0 (nonces s !! room) + 1) ∧ n ≤ NONCE_LIMIT ∧
  s' = set_nonces <[room := n]> s.
Proof.
  unfold next_nonce, _require_nonnegative_int.
  destruct (Z.ltb_spec clock 0); cbn [raise_if mbind res_bind]; [split; [done|lia]|].
  set (n' := clock `max` _). destruct (Z.ltb_spec NONCE_LIMIT n'); cbn [raise_if mbind res_bind].
  - split; [done|lia].
  - split; [by intros [= <- <-]|by intros (_&->&_&->)].
Qed.

Lemma next_nonce_wf room clock s n s' :
  next_nonce room clock s = Ok (n, s') → key_ok room → state_wf s → state_wf s'.
Proof.
  intros (?&Hn&Hlim&->)%next_nonce_Ok ? [H1 H2 H3 H4]. split; cbn; try done.
  apply int_map_ok_insert; [done| |done]. split; [lia|by apply NONCE_LIMIT_printable].
Qed.

Lemma observe_nonce_wf room n s s' :
  observe_nonce room n s = Ok s' → key_ok room → n ≤ NONCE_LIMIT → state_wf s → state_wf s'.
Proof.
  unfold observe_nonce. intros H ?? [H1 H2 H3 H4].
  apply res_bind_Ok in H as (?&[Hnn ->]%require_nonnegative_Ok&[= <-]). split; cbn; try done.
  apply int_map_ok_insert; [done| |done].
  pose proof (NONCE_LIMIT_printable n ltac:(done)). destruct (nonces s !! room) as [z|] eqn:E; cbn.
  - destruct (H2 _ _ E) as [_ [??]]. split; lia.
  - split; lia.
Qed.

(** ** Request histories *)

Lemma recent_sublist cutoff l : recent cutoff l `sublist_of` l.
Proof.
  induction l as [|t l IH]; cbn; [done|]. destruct (cutoff <? t); [by apply sublist_skip|by apply sublist_cons].
Qed.

Lemma recent_length cutoff l : (length (recent cutoff l) ≤ length l)%nat.
Proof. apply sublist_length, recent_sublist. Qed.

Lemma recent_elem cutoff l t : t ∈ recent cutoff l ↔ t ∈ l ∧ cutoff < t.
Proof.
  unfold recent. rewrite !list_elem_of_In, filter_In. by rewrite Z.ltb_lt.
Qed.

Lemma recent_recent a b l : a ≤ b → recent b (recent a l) = recent b l.
Proof.
  intros Hab. unfold recent. induction l as [|t l IH]; cbn; [done|].
  destruct (a <? t) eqn:Ea; cbn; destruct (b <? t) eqn:Eb; rewrite ?IH; try done.
  breflect. lia.
Qed.

Lemma recent_all cutoff l : (∀ t, t ∈ l → cutoff < t) → recent cutoff l = l.
Proof.
  unfold recent. induction l as [|t l IH]; intros H; cbn; [done|].
  destruct (Z.ltb_spec cutoff t); [|specialize (H t ltac:(by left)); lia].
  rewrite IH; [done|]. intros t' Ht'. apply H. by right.
Qed.

Lemma history_ok_recent did cutoff l : history_ok did l → history_ok did (recent cutoff l).
Proof.
  intros (Hd&Hl&Hf&Hs). split; [done|]. pose proof (recent_length cutoff l). split; [lia|]. split.
  - apply Forall_forall. intros t [Ht _]%recent_elem. by specialize (Forall_elem _ _ _ Hf Ht).
  - by apply weakly_sorted_filter.
Qed.

Lemma effective_time_ge now l : now ≤ effective_time now l.
Proof. unfold effective_time. destruct (last l); lia. Qed.

Lemma effective_time_last now l t : weakly_sorted l = true → t ∈ l → t ≤ effective_time now l.
Proof.
  intros Hs Ht. unfold effective_time. destruct (last l) as [m|] eqn:E.
  - pose proof (weakly_sorted_last_max l m t Hs E Ht). lia.
  - apply last_None in E as ->. by apply not_elem_of_nil in Ht.
Qed.

Lemma effective_time_printable did now l :
  printable_nat now → history_ok did l → printable_nat (effective_time now l).
Proof.
  intros Hnow (_&_&Hf&_). unfold effective_time. destruct (last l) as [m|] eqn:E; [|done].
  apply last_Some_elem_of in E. pose proof (Forall_elem _ _ _ Hf E) as [??].
  destruct (Z.max_spec now m) as [[_ ->]|[_ ->]]; done.
Qed.

(** The history of [d] after pruning. *)
Lemma prune_lookup now window s d :
  default [] (capability_requests (_prune_capability_requests now window s) !! d)
  = recent (now - window) (default [] (capability_requests s !! d)).
Proof.
  unfold _prune_capability_requests, set_capability_requests. cbn. rewrite lookup_omap.
  destruct (capability_requests s !! d) as [l|]; cbn; [|done]. by case_bool_decide as E.
Qed.

Lemma prune_wf now window s : state_wf s → state_wf (_prune_capability_requests now window s).
Proof.
  intros [H1 H2 H3 H4]. split; cbn; try done. intros d l. rewrite lookup_omap.
  destruct (capability_requests s !! d) as [l'|] eqn:E; cbn; [|done].
  case_bool_decide; [done|]. intros [= <-]. by apply history_ok_recent, H4.
Qed.

Lemma last_recent cutoff l m :
  last l = Some m → cutoff < m → last (recent cutoff l) = Some m.
Proof.
  intros (l'&->)%last_Some Hm. unfold recent. rewrite List.filter_app. cbn.
  destruct (Z.ltb_spec cutoff m); [|lia]. apply last_snoc.
Qed.

(** Pruning by the clock never drops what the window still counts. *)
Lemma effective_time_pruned now window l :
  0 < window → weakly_sorted l = true →
  effective_time now (recent (now - window) l) = effective_time now l.
Proof.
  intros Hw Hs. unfold effective_time. destruct (last l) as [m|] eqn:E.
  - destruct (Z_lt_le_dec (now - window) m) as [Hm|Hm].
    + by rewrite (last_recent _ _ m).
    + destruct (last (recent (now - window) l)) as [m'|] eqn:E'; [|lia].
      apply last_Some_elem_of, recent_elem in E' as [Hin Hgt].
      pose proof (weakly_sorted_last_max l m m' Hs E Hin). lia.
  - apply last_None in E as ->. done.
Qed.

Lemma reserve_Ok d now window s s' :
  map_Forall history_ok (capability_requests s) →
  reserve_capability_request d now window s = Ok s' →
  let existing := default [] (capability_requests s !! d) in
  let t := effective_time now existing in
  0 ≤ now ∧ 0 < window ∧
  s' = set_capability_requests <[d := recent (t - window) existing ++ [t]]>
         (_prune_capability_requests now window s).
Proof.
  intros Hh H. unfold reserve_capability_request in H.
  apply res_bind_Ok in H as (?&_&H). apply res_bind_Ok in H as (?&[Hn ->]%require_nonnegative_Ok&H).
  apply res_bind_Ok in H as (?&[Hw ->]%require_positive_Ok&H). apply Ok_inj in H as <-. cbv zeta.
  set (existing := default [] (capability_requests s !! d)).
  assert (weakly_sorted existing = true) as Hs.
  { subst existing. destruct (capability_requests s !! d) as [l|] eqn:E; [|done]. by apply Hh in E as (_&_&_&?). }
  split; [done|]. split; [done|]. rewrite prune_lookup. fold existing.
  rewrite effective_time_pruned, recent_recent; [done| |done..].
  pose proof (effective_time_ge now existing). lia.
Qed.

Lemma count_Ok d now window s n :
  capability_request_count d now window s = Ok n →
  let existing := default [] (capability_requests s !! d) in
  0 ≤ now ∧ 0 < window ∧ n = Z.of_nat (length (recent (effective_time now existing - window) existing)).
Proof.
  unfold capability_request_count. intros H.
  apply res_bind_Ok in H as (?&[Hn ->]%require_nonnegative_Ok&H).
  apply res_bind_Ok in H as (?&[Hw ->]%require_positive_Ok&[= <-]). done.
Qed.

Lemma reserve_wf d now window s s' n :
  capability_request_count d now window s = Ok n → n < Z.of_nat MAX_CAPABILITY_HISTORY →
  reserve_capability_request d now window s = Ok s' →
  fullmatch DID_PATTERN d = true → now < 10 ^ MAX_STR_DIGITS → state_wf s → state_wf s'.
Proof.
  intros Hc Hn Hr Hd Hnow Hwf. pose proof (wf_requests _ Hwf) as Hh.
  apply reserve_Ok in Hr as (Hpos&Hw&->); [|done].
  pose proof (prune_wf now window s Hwf) as [H1 H2 H3 H4]. split; cbn; try done.
  apply map_Forall_insert_2; [|exact H4].
  set (existing := default [] (capability_requests s !! d)) in *.
  assert (history_ok d existing) as He.
  { subst existing. destruct (capability_requests s !! d) as [l|] eqn:E; [by apply Hh|].
    split; [done|]. split; [cbn; lia|]. by split; constructor. }
  apply count_Ok in Hc as (_&_&->). fold existing in Hn.
  set (t := effective_time now existing) in *.
  pose proof (history_ok_recent d (t - window) existing He) as (_&Hl&Hf&Hs).
  split; [done|]. rewrite length_app. cbn [length]. split; [lia|]. split.
  - apply Forall_app. split; [done|]. constructor; [|constructor].
    by eapply effective_time_printable.
  - apply weakly_sorted_snoc; [done|]. intros x [Hx _]%recent_elem.
    destruct He as (_&_&_&Hse). by apply effective_time_last.
Qed.

(** ** Saving is atomic *)

Section saving.
Context {Mem : Type} `{Env}.
Set Default Proof Using "All".

Lemma wp_save s p (Φ : outcome unit → world Mem → Prop) w :
  is_temp p = false →
  (∀ o w', save_ends (StateError "cannot write state file") p (state_bytes s) w o w' → Φ o w') →
  wp (save s p) Φ w.
Proof.
  intros Hp HΦ. assert (settled w (ticked w)) as Ht by by apply settled_ticked.
  unfold save, mkdir_parents. apply wp_bind, wp_plain_action; cbn.
  2,3: apply HΦ, save_ends_failed; [done..|]; unfold failed; auto.
  apply wp_bind, wp_write_temporary; [done|..].
  - intros w' Hf Hd. eapply (wp_save_chmod _ _ _ w); [|exact Hd|auto].
    etrans; [by apply settled_frame, Ht|done].
  - intros o w' Hs Hf. assert (settled w w') as Hs' by (unfold settled in *; by etrans).
    assert (failed (StateError "cannot write state file") (A := unit) o) by done.
    destruct o as [[]|e|]; [by destruct Hf as [?|[?|?]]|by apply HΦ, save_ends_failed..].
Qed.
End saving.

(** ** What is on disk *)

(** The state file is the one [save] wrote for [s], or there is none and [s]
    is the initial state. *)
Definition on_disk {Mem} `{Env} (p : path) (s : AgentState) (w : world Mem) : Prop :=
  match w_fs w !! p with
  | None => s = empty_state
  | Some f => f = private_file (state_bytes s)
  end.

Section loading.
Context {Mem : Type} `{HEnv : Env}.
Set Default Proof Using "All".

Lemma action_Ret n (w w' : world Mem) : action w = (Ret n, w') → w' = ticked w.
Proof.
  unfold action, mbind, M_bind. cbn. by destruct (env_fault (w_tick w)); intros [= _ <-].
Qed.

Lemma path_exists_Ret p b (w w' : world Mem) :
  path_exists p w = (Ret b, w') → w' = ticked w ∧ b = bool_decide (is_Some (w_fs w !! p)).
Proof.
  unfold path_exists. intros (n&w1&->%action_Ret&H)%bind_Ret.
  apply bind_Ret in H as (fs&w2&[= <- <-]&[-> ->]%ret_Ret). done.
Qed.

Lemma path_file_Ret p f (w w' : world Mem) :
  path_file p w = (Ret f, w') → w' = ticked w ∧ w_fs w !! p = Some f.
Proof.
  unfold path_file. intros (n&w1&->%action_Ret&H)%bind_Ret.
  apply bind_Ret in H as (fs&w2&[= <- <-]&H). cbn in H.
  destruct (w_fs w !! p); [|by apply raise_Ret in H]. by apply ret_Ret in H as [-> ->].
Qed.

Lemma read_bytes_Ret p raw (w w' : world Mem) :
  read_bytes p w = (Ret raw, w') → w' = ticked w ∧ ∃ f, w_fs w !! p = Some f ∧ raw = f_data f.
Proof.
  unfold read_bytes. intros (f&w1&[-> Hf]%path_file_Ret&H)%bind_Ret.
  destruct (decide _); [|by apply raise_Ret in H]. apply ret_Ret in H as [-> ->]. eauto.
Qed.

Lemma read_json_text_Ret p j (w w' : world Mem) :
  read_json_text p w = (Ret j, w') →
  w' = ticked w ∧ ∃ f, w_fs w !! p = Some f ∧ loads_text (f_data f) = Ok j.
Proof.
  unfold read_json_text. intros (raw&w1&[-> (f&Hf&->)]%read_bytes_Ret&[Hj ->]%lift_Ret)%bind_Ret.
  eauto.
Qed.

(** A state that loads is the state that was saved. *)
Lemma load_Ret p s s' (w w' : world Mem) :
  state_wf s → on_disk p s w → load p w = (Ret s', w') → s' = s.
Proof.
  intros Hwf Hd. unfold load. intros (b&w1&[-> ->]%path_exists_Ret&H)%bind_Ret.
  unfold on_disk in Hd. destruct (w_fs w !! p) as [f|] eqn:Ef; cbn in H.
  - apply bind_Ret in H as (j&w2&Hj&[Hp ->]%lift_Ret).
    apply try_Ret in Hj as [(_&f'&Hf'&Hj)%read_json_text_Ret|(?&?&_&_&[]%raise_Ret)].
    change (w_fs (ticked w) !! p) with (w_fs w !! p) in Hf'. rewrite Ef in Hf'.
    injection Hf' as <-. subst f. change (f_data (private_file ?x)) with x in Hj.
    pose proof (load_saved_bytes s Hwf) as Hl. rewrite Hj in Hl. cbn [mbind res_bind] in Hl.
    rewrite Hp in Hl.
    by destruct (principals_ok s); simplify_eq.
  - subst s. by injection H as <- _.
Qed.

Lemma keeps_load P Q `{!PreOrder Q} p : Keeps P Q (load (Mem := Mem) p).
Proof. unfold load, read_json_text. keeps. Qed.
End loading.
#[export] Hint Resolve keeps_load : keeps.
