(* ===== verification/Memory.v ===== *)
(** The objects a running agent keeps in memory and shares between its parts:
    the [AgentState] the responder and the rate limiter both hold, the
    [_last_attempt_at] of the receipt service, and the [acknowledged_writes] of
    the pilot's client. *)

From S2P Require Import Prelude Errors Effects State.

Record _AcknowledgedSignedWrite := MkWrite { w_sequence : Z; w_did : str; w_nonce : str; w_text : str }.

Record memory := Memory {
  m_state : AgentState;
  m_last_attempt : option Q;
  m_writes : list _AcknowledgedSignedWrite
}.

Definition empty_memory : memory := Memory empty_state None [].

Abbreviation IO := (M memory).

Definition get_state : IO AgentState := m ← get_mem; mret (m_state m).
Definition put_state (s : AgentState) : IO unit :=
  m ← get_mem; put_mem (Memory s (m_last_attempt m) (m_writes m)).
Definition get_last_attempt : IO (option Q) := m ← get_mem; mret (m_last_attempt m).
Definition put_last_attempt (t : option Q) : IO unit :=
  m ← get_mem; put_mem (Memory (m_state m) t (m_writes m)).
Definition get_writes : IO (list _AcknowledgedSignedWrite) := m ← get_mem; mret (m_writes m).
Definition put_writes (ws : list _AcknowledgedSignedWrite) : IO unit :=
  m ← get_mem; put_mem (Memory (m_state m) (m_last_attempt m) ws).

(** A method that reads the shared state, and one that assigns to it. *)
Definition ask_state {A} (f : AgentState → res A) : IO A := s ← get_state; lift (f s).
Definition modify_state (f : AgentState → res AgentState) : IO unit :=
  s ← get_state; s' ← lift (f s); put_state s'.
Definition update_state {A} (f : AgentState → res (A * AgentState)) : IO A :=
  s ← get_state; '(a, s') ← lift (f s); put_state s';; mret a.

(** [self.state.save(path)] *)
Definition save_state `{Env} (p : path) : IO unit := s ← get_state; save s p.

(** The shared state is left as it is. *)
Definition same_state (m m' : memory) : Prop := m_state m' = m_state m.

#[export] Instance same_state_preorder : PreOrder same_state.
Proof. split; [done|]. intros x y z. unfold same_state. congruence. Qed.

(** Anything may have become of the memory. *)
Definition anything (m m' : memory) : Prop := True.
#[export] Instance anything_preorder : PreOrder anything.
Proof. by split. Qed.

Section memory.
Implicit Types (Φ : outcome unit → world memory → Prop) (w : world memory).

Definition with_state (s : AgentState) (w : world memory) : world memory :=
  World (w_fs w) (Memory s (m_last_attempt (w_mem w)) (m_writes (w_mem w))) (w_tick w) (w_trace w).

Lemma wp_ask_state {A} (f : AgentState → res A) (Φ : outcome A → world memory → Prop) w :
  wp (ask_state f) Φ w ↔
  match f (m_state (w_mem w)) with Ok a => Φ (Ret a) w | Err e => Φ (Raise e) w end.
Proof. apply (wp_lift (f (m_state (w_mem w))) Φ w). Qed.

Lemma wp_modify_state f Φ w :
  wp (modify_state f) Φ w ↔
  match f (m_state (w_mem w)) with
  | Ok s => Φ (Ret tt) (with_state s w)
  | Err e => Φ (Raise e) w
  end.
Proof. unfold wp, modify_state, get_state, mbind, M_bind. cbn. by destruct (f (m_state (w_mem w))). Qed.

Lemma wp_update_state {A} (f : AgentState → res (A * AgentState))
    (Φ : outcome A → world memory → Prop) w :
  wp (update_state f) Φ w ↔
  match f (m_state (w_mem w)) with
  | Ok (a, s) => Φ (Ret a) (with_state s w)
  | Err e => Φ (Raise e) w
  end.
Proof. unfold wp, update_state, get_state, mbind, M_bind. cbn.
  by destruct (f (m_state (w_mem w))) as [[]|].
Qed.

Lemma keeps_ask_state {A} P Q `{!PreOrder Q} (f : AgentState → res A) : Keeps P Q (ask_state f).
Proof. unfold ask_state, get_state. keeps. Qed.

Lemma keeps_last_attempt P t : Keeps P same_state (put_last_attempt t).
Proof. intros w. by split. Qed.

Lemma keeps_put_writes P Q `{!PreOrder Q} ws :
  (∀ m, Q m (Memory (m_state m) (m_last_attempt m) ws)) → Keeps P Q (put_writes ws).
Proof. intros HQ w. split; [done|apply HQ|done]. Qed.

Lemma keeps_get_writes P Q `{!PreOrder Q} : Keeps P Q get_writes.
Proof. unfold get_writes. keeps. Qed.

Lemma keeps_get_last_attempt P Q `{!PreOrder Q} : Keeps P Q get_last_attempt.
Proof. unfold get_last_attempt. keeps. Qed.
End memory.
#[export] Hint Resolve keeps_ask_state keeps_last_attempt keeps_get_last_attempt keeps_get_writes : keeps.

(** ** Steps that may save the shared state

    Between two messages only the request histories and the state file change:
    the cursors in memory stay, and the file is as before or holds a
    well-formed state with the cursors of the memory. *)

Definition same_cursors (m m' : memory) : Prop := cursors (m_state m') = cursors (m_state m).

#[export] Instance same_cursors_preorder : PreOrder same_cursors.
Proof. split; [done|]. intros x y z. unfold same_cursors. congruence. Qed.

Definition wf_memory (m : memory) : Prop := state_wf (m_state m).

Record state_step `{Env} (sp : path) (w w' : world memory) : Prop := {
  ss_frame : frame (λ q, q ≠ sp ∧ is_temp q = false) same_cursors w w';
  ss_wf : wf_memory (w_mem w) → wf_memory (w_mem w');
  ss_disk : wf_memory (w_mem w) →
    w_fs w' !! sp = w_fs w !! sp ∨
    ∃ s, state_wf s ∧ cursors s = cursors (m_state (w_mem w')) ∧
         w_fs w' !! sp = Some (private_file (state_bytes s))
}.

#[export] Instance state_step_preorder `{Env} sp : PreOrder (state_step sp).
Proof.
  split.
  - intros w. split; [reflexivity|done|by left].
  - intros w1 w2 w3 [F1 W1 D1] [F2 W2 D2]. split; [by etrans|auto|]. intros Hwf.
    destruct (D2 (W1 Hwf)) as [->|?]; [|by right]. destruct (D1 Hwf) as [->|(s&?&?&?)]; [by left|].
    right. exists s. split; [done|]. split; [|done]. pose proof (frame_mem _ _ _ _ F2) as Hm.
    unfold same_cursors in Hm. by rewrite Hm.
Qed.

Section state_steps.
Context `{HEnv : Env}.
Set Default Proof Using "All".

Lemma keeps_state_step {A} sp (m : IO A) :
  Keeps (λ _, True) same_state m → Steps (state_step sp) m.
Proof.
  intros Hm. eapply steps_sub; [apply _|exact Hm|]. intros w w' [F M T]. split.
  - split; [by intros; apply F| |done]. unfold same_cursors. by rewrite M.
  - unfold wf_memory. by rewrite M.
  - intros _. left. by apply F.
Qed.

(** An assignment to the shared state that leaves the cursors. *)
Lemma steps_with_state sp s w :
  cursors s = cursors (m_state (w_mem w)) → (wf_memory (w_mem w) → state_wf s) →
  state_step sp w (with_state s w).
Proof. intros Hc Hwf. split; [by split|done|by left]. Qed.

Lemma steps_save_state sp : is_temp sp = false → Steps (state_step sp) (save_state sp).
Proof.
  intros Hsp w. change (state_step sp w (save (m_state (w_mem w)) sp w).2).
  apply (wp_save _ _ (λ _ w', state_step sp w w')); [done|]. intros o w' [[F M T] _ Hd]. split.
  - split; [done| |done]. unfold same_cursors. by rewrite M.
  - unfold wf_memory. by rewrite M.
  - intros Hwf. destruct Hd as [Hd|[_ Hd]]; [|by left]. right. eexists. split; [exact Hwf|].
    split; [by rewrite M|done].
Qed.
End state_steps.
