(* ===== verification/Quiet.v ===== *)
(** Computations that send nothing: the trace of requests is left as it is,
    exactly.  Every operation of [Effects] but the two requests is one, so is
    whatever is built from them. *)

From S2P Require Import Prelude Errors Text Json Effects State.

Definition unheard {Mem} (w w' : world Mem) : Prop := w_trace w' = w_trace w.

#[export] Instance unheard_preorder {Mem} : PreOrder (unheard (Mem := Mem)).
Proof. split; [done|]. intros w1 w2 w3. unfold unheard. congruence. Qed.

Abbreviation Quiet m := (Steps unheard m).

Ltac quiet_step :=
  first
    [ assumption | apply keeps_ret; apply _ | apply keeps_raise; apply _ | apply keeps_crash; apply _
    | apply keeps_lift; apply _ | apply keeps_check; apply _
    | apply keeps_get_mem; apply _ | apply keeps_get_files; apply _
    | solve [eauto with quiet]
    | apply keeps_bind; [apply _| |intros ?] | apply keeps_try; [apply _| |intros ?]
    | apply keeps_on_raise; [apply _| | ] | apply keeps_finally; [apply _| | ]
    | apply keeps_mapM_; [apply _|intros ?]
    | progress intros | case_match ].

(** Prove that a computation built from the operations below sends nothing. *)
Ltac quiet := repeat quiet_step.

Create HintDb quiet.

Section quiet.
Context {Mem : Type} `{Env}.
Set Default Proof Using "All".

Lemma quiet_next_tick : Quiet (next_tick (Mem := Mem)).
Proof. by intros w. Qed.
Lemma quiet_put_files fs : Quiet (put_files (Mem := Mem) fs).
Proof. by intros w. Qed.
Lemma quiet_put_mem m : Quiet (put_mem (Mem := Mem) m).
Proof. by intros w. Qed.

#[local] Hint Resolve quiet_next_tick quiet_put_files quiet_put_mem : quiet.

Lemma quiet_action : Quiet (action (Mem := Mem)).
Proof. unfold action. quiet. Qed.
Lemma quiet_lock_action : Quiet (lock_action (Mem := Mem)).
Proof. unfold lock_action. quiet. Qed.

#[local] Hint Resolve quiet_action quiet_lock_action : quiet.

Lemma quiet_path_exists p : Quiet (path_exists (Mem := Mem) p).
Proof. unfold path_exists. quiet. Qed.
Lemma quiet_path_file p : Quiet (path_file (Mem := Mem) p).
Proof. unfold path_file. quiet. Qed.
Lemma quiet_open_nofollow p : Quiet (open_nofollow (Mem := Mem) p).
Proof. pose proof (quiet_path_file p). unfold open_nofollow. quiet. Qed.
Lemma quiet_read_bytes p : Quiet (read_bytes (Mem := Mem) p).
Proof. pose proof (quiet_path_file p). unfold read_bytes. quiet. Qed.
Lemma quiet_mkdir_parents p : Quiet (mkdir_parents (Mem := Mem) p).
Proof. unfold mkdir_parents. quiet. Qed.
Lemma quiet_fsync_directory p : Quiet (fsync_directory (Mem := Mem) p).
Proof. unfold fsync_directory. quiet. Qed.
Lemma quiet_fsync p : Quiet (fsync (Mem := Mem) p).
Proof. unfold fsync. quiet. Qed.
Lemma quiet_update_file p f : Quiet (update_file (Mem := Mem) p f).
Proof. unfold update_file. quiet. Qed.
Lemma quiet_mkstemp : Quiet (mkstemp (Mem := Mem)).
Proof. unfold mkstemp. quiet. Qed.
Lemma quiet_create_if_missing p mode : Quiet (create_if_missing (Mem := Mem) p mode).
Proof. unfold create_if_missing. quiet. Qed.
Lemma quiet_replace src dst : Quiet (replace (Mem := Mem) src dst).
Proof. unfold replace. quiet. Qed.
Lemma quiet_unlink p : Quiet (unlink (Mem := Mem) p).
Proof. unfold unlink. quiet. Qed.
Lemma quiet_unlink_quiet p : Quiet (unlink_quiet (Mem := Mem) p).
Proof. pose proof (quiet_unlink p). unfold unlink_quiet. quiet. Qed.
Lemma quiet_chmod p mode : Quiet (chmod (Mem := Mem) p mode).
Proof. apply quiet_update_file. Qed.
Lemma quiet_write_bytes p data : Quiet (write_bytes (Mem := Mem) p data).
Proof. apply quiet_update_file. Qed.
Lemma quiet_time_ns : Quiet (time_ns (Mem := Mem)).
Proof. unfold time_ns. quiet. Qed.
Lemma quiet_now_utc : Quiet (now_utc (Mem := Mem)).
Proof. unfold now_utc. quiet. Qed.
Lemma quiet_time_time : Quiet (time_time (Mem := Mem)).
Proof. unfold time_time. quiet. Qed.
Lemma quiet_time_monotonic : Quiet (time_monotonic (Mem := Mem)).
Proof. unfold time_monotonic. quiet. Qed.
End quiet.

#[export] Hint Resolve quiet_next_tick quiet_put_files quiet_put_mem quiet_action quiet_lock_action
  quiet_path_exists quiet_path_file quiet_open_nofollow quiet_read_bytes quiet_mkdir_parents
  quiet_fsync_directory quiet_fsync quiet_update_file quiet_mkstemp quiet_create_if_missing quiet_replace
  quiet_unlink quiet_unlink_quiet quiet_chmod quiet_write_bytes quiet_time_ns quiet_now_utc
  quiet_time_time quiet_time_monotonic : quiet.

Section files.
Context {Mem : Type} `{Env}.
Implicit Types w : world Mem.
Set Default Proof Using "All".

Lemma quiet_write_temporary err p data : Quiet (write_temporary (Mem := Mem) err p data).
Proof. unfold write_temporary, os_errors. quiet. Qed.
Lemma quiet_read_json_text p : Quiet (read_json_text (Mem := Mem) p).
Proof. unfold read_json_text. quiet. Qed.
Lemma quiet_load p : Quiet (load (Mem := Mem) p).
Proof. pose proof (quiet_read_json_text p). unfold load. quiet. Qed.
Lemma quiet_save s p : Quiet (save (Mem := Mem) s p).
Proof.
  pose proof (quiet_write_temporary (StateError "cannot write state file") p (state_bytes s)).
  unfold save, os_errors. quiet.
Qed.

(** A request is heard at most once, and changes nothing else. *)
Definition asked (url : str) (w w' : world Mem) : Prop :=
  w_fs w' = w_fs w ∧ w_mem w' = w_mem w ∧ (w_trace w' = w_trace w ∨ w_trace w' = w_trace w ++ [EvHttp url]).

Lemma http_get_asked url w : asked url w (http_get url w).2.
Proof.
  unfold http_get, network, mbind, M_bind. cbn. unfold asked.
  destruct (env_fault (w_tick w)); cbn; auto; destruct (env_fault (S (w_tick w))); cbn; auto.
Qed.

(** When there is an answer it was heard. *)
Lemma http_get_heard url w r w' : http_get url w = (Ret r, w') → w_trace w' = w_trace w ++ [EvHttp url].
Proof.
  unfold http_get, network, mbind, M_bind. cbn.
  destruct (env_fault (w_tick w)); cbn; try done; destruct (env_fault (S (w_tick w))); cbn; try done;
    by intros [= _ <-].
Qed.
End files.
#[export] Hint Resolve quiet_write_temporary quiet_read_json_text quiet_load quiet_save : quiet.

(** ** Computations that only read *)

(** Nothing but the clock has moved. *)
Definition untouched {Mem} (w w' : world Mem) : Prop :=
  w_fs w' = w_fs w ∧ w_mem w' = w_mem w ∧ w_trace w' = w_trace w.

#[export] Instance untouched_preorder {Mem} : PreOrder (untouched (Mem := Mem)).
Proof. split; [done|]. intros w1 w2 w3 (?&?&?) (?&?&?). repeat split; congruence. Qed.

Create HintDb untouched.

(** Prove that a computation built from the operations below only reads. *)
Ltac untouched :=
  repeat first
    [ assumption | apply keeps_ret; apply _ | apply keeps_raise; apply _ | apply keeps_crash; apply _
    | apply keeps_lift; apply _ | apply keeps_check; apply _
    | apply keeps_get_mem; apply _ | apply keeps_get_files; apply _
    | solve [eauto with untouched]
    | apply keeps_bind; [apply _| |intros ?] | apply keeps_try; [apply _| |intros ?]
    | apply keeps_on_raise; [apply _| | ] | progress intros | case_match ].

Section reading.
Context {Mem : Type} `{Env}.
Implicit Types w : world Mem.
Set Default Proof Using "Type".

Lemma untouched_next_tick : Steps untouched (next_tick (Mem := Mem)).
Proof. by intros w. Qed.
#[local] Hint Resolve untouched_next_tick : untouched.
Lemma untouched_action : Steps untouched (action (Mem := Mem)).
Proof. unfold action. untouched. Qed.
Lemma untouched_lock_action : Steps untouched (lock_action (Mem := Mem)).
Proof. unfold lock_action. untouched. Qed.
#[local] Hint Resolve untouched_action untouched_lock_action : untouched.
Lemma untouched_path_exists p : Steps untouched (path_exists (Mem := Mem) p).
Proof. unfold path_exists. untouched. Qed.
Lemma untouched_path_file p : Steps untouched (path_file (Mem := Mem) p).
Proof. unfold path_file. untouched. Qed.
#[local] Hint Resolve untouched_path_exists untouched_path_file : untouched.
Lemma untouched_open_nofollow p : Steps untouched (open_nofollow (Mem := Mem) p).
Proof. unfold open_nofollow. untouched. Qed.
Lemma untouched_read_bytes p : Steps untouched (read_bytes (Mem := Mem) p).
Proof. unfold read_bytes. untouched. Qed.
#[local] Hint Resolve untouched_read_bytes : untouched.
Lemma untouched_read_json_text p : Steps untouched (read_json_text (Mem := Mem) p).
Proof. unfold read_json_text. untouched. Qed.
#[local] Hint Resolve untouched_read_json_text : untouched.
Lemma untouched_load p : Steps untouched (load (Mem := Mem) p).
Proof. unfold load. untouched. Qed.

End reading.
#[export] Hint Resolve untouched_next_tick untouched_action untouched_lock_action untouched_path_exists
  untouched_path_file untouched_open_nofollow untouched_read_bytes untouched_read_json_text untouched_load
  : untouched.
