(* ===== verification/Protocol.v ===== *)
(** [protocol.py]: the client of the room protocol, and what it accepts as a
    room snapshot. *)

From S2P Require Import Prelude Errors Text Regex Json Crypto Url Effects.

Definition MAX_RESPONSE_BYTES : Z := 5 * 1024 * 1024.
Definition MAX_URL_BYTES : Z := 8000.
Definition CANONICAL_SIGNATURE : regex :=
  RSeq (rpow (RClass [rAZ; raz; r09; rc 95; rc 45]) 85) (RClass [rc 65; rc 81; rc 103; rc 119]).

Record RoomMessage := MkRoomMessage {
  seq : Z;
  sender : str;
  text : str;
  nonce : option str
}.

#[export] Instance RoomMessage_eq_dec : EqDecision RoomMessage.
Proof. solve_decision. Defined.

Record RoomSnapshot := MkRoomSnapshot {
  room : str;
  first_seq : Z;
  last_seq : Z;
  messages : list RoomMessage;
  generation : Z
}.

Definition is_signed (m : RoomMessage) : bool :=
  match nonce m with
  | None => false
  | Some _ => is_ok (validate_did (sender m))
  end.

(** ** What a response must look like *)

Definition _parse_message (item : json) : res RoomMessage :=
  match item with
  | JDict kvs =>
      seq ← (match jget (u "seq") kvs with
             | JInt z => raise_if (z <=? 0) (ResponseError "Technocore message has an invalid sequence");; Ok z
             | _ => Err (ResponseError "Technocore message has an invalid sequence")
             end);
      '(sender, text) ← (match jget (u "from") kvs, jget (u "text") kvs with
                         | JStr s, JStr t => Ok (s, t)
                         | _, _ => Err (ResponseError "Technocore message has invalid sender or text")
                         end);
      nonce ← (match jget (u "nonce") kvs with
               | JNull => Ok None
               | v => Some <$> res_catch (validate_nonce v) is_ProtocolValueError
                        (λ _, Err (ResponseError "Technocore message has an invalid nonce"))
               end);
      Ok (MkRoomMessage seq sender text nonce)
  | _ => Err (ResponseError "Technocore messages must be JSON objects")
  end.

(** A field that must be a non-negative integer, not a boolean. *)
Definition nonnegative_field (v : json) (e : exn) : res Z :=
  match v with JInt z => raise_if (z <? 0) e;; Ok z | _ => Err e end.

Definition _parse_snapshot (payload : list (str * json)) (expected_room : str) : res RoomSnapshot :=
  raise_if (jget (u "room") payload != JStr expected_room)
    (ResponseError "Technocore returned a different room");;
  last_seq ← nonnegative_field (jget (u "last_seq") payload)
    (ResponseError "Technocore returned an invalid last_seq");
  raw_messages ← (match jget (u "messages") payload with
                  | JList l => Ok l
                  | _ => Err (ResponseError "Technocore returned an invalid messages list")
                  end);
  let first := default (JInt (if raw_messages == [] then 0 else 1)) (dict_get (u "first_seq") payload) in
  let first := if (first == JNull) and (raw_messages == []) then JInt 0 else first in
  first_seq ← nonnegative_field first (ResponseError "Technocore returned an invalid first_seq");
  generation ← nonnegative_field (default (JInt 0) (dict_get (u "generation") payload))
    (ResponseError "Technocore returned an invalid generation");
  messages ← mapM_res _parse_message raw_messages;
  let sequences := map seq messages in
  raise_if (negb (weakly_sorted sequences) or negb (bool_decide (NoDup sequences)))
    (ResponseError "Technocore messages are not strictly ordered");;
  raise_if (match head sequences, last sequences with
            | Some first_observed, Some last_observed =>
                (last_seq <? last_observed) || (first_observed <? first_seq)
            | _, _ => false
            end)
    (ResponseError "Technocore message sequences are outside the advertised range");;
  Ok (MkRoomSnapshot expected_room first_seq last_seq messages generation).

(** ** The client *)

Record TechnocoreClient := MkTechnocoreClient {
  base_url : str;
  timeout : Q
}.

Section client.
Context `{UrlLib}.

Definition validate_base_url (base_url : str) : res str :=
  raise_if (base_url != strip base_url)
    (ProtocolValueError "base URL must not contain surrounding whitespace");;
  parsed ← urlsplit base_url;
  let loopback := hostname parsed in? [u "127.0.0.1"; u "localhost"; u "::1"] in
  raise_if ((scheme parsed != u "https") and negb ((scheme parsed == u "http") and loopback))
    (ProtocolValueError "base URL must use HTTPS, except for an explicit loopback host");;
  raise_if ((netloc parsed == []) || truthy (username parsed) || truthy (password parsed) ||
            (query parsed != []) || (fragment parsed != []))
    (ProtocolValueError "base URL must contain only scheme and host");;
  Ok (rstrip_char 47 base_url).

Definition _bounded_float (value : pyfloat) (minimum maximum : Q) : res Q :=
  match value with
  | NonFinite _ => Err (ProtocolValueError "must be a finite number")
  | Finite rendered _ =>
      raise_if (negb (Qle_bool minimum rendered && Qle_bool rendered maximum))
        (ProtocolValueError "must be between the bounds");;
      Ok rendered
  end.

Definition make_client (base_url : str) (timeout : pyfloat) : res TechnocoreClient :=
  base_url ← validate_base_url base_url;
  timeout ← _bounded_float timeout (1 # 10) 120;
  Ok (MkTechnocoreClient base_url timeout).
End client.

Definition _retry_after (header : option str) : option pyfloat :=
  match header with
  | None => None
  | Some raw =>
      match py_float raw with
      | Some (Finite q t) => if Qle_bool 0 q then Some (Finite q t) else None
      | _ => None
      end
  end.

(** Python prints a [float] with the shortest digits that read back. *)
Class FloatRepr := float_repr : Q → str.

Section requests.
Context {Mem : Type} `{Env} `{FloatRepr}.

Definition _request_json (url : str) : M Mem (list (str * json)) :=
  r ← http_get url;
  match r with
  | HttpStatus code body retry_after =>
      raise (TransportError "Technocore returned an HTTP error" (Some code) (_retry_after retry_after))
  | HttpFailed => raise (TransportError "Technocore request failed" None None)
  | HttpBroken => raise HTTPException
  | HttpBody _ raw =>
      check (MAX_RESPONSE_BYTES <? length raw)
        (ResponseError "Technocore response exceeded the 5 MiB safety limit");;
      payload ← lift (res_catch (loads_bytes raw) (λ e, is_UnicodeDecodeError e || is_JSONDecodeError e)
                        (λ _, Err (ResponseError "Technocore returned invalid JSON")));
      match payload with
      | JDict kvs => mret kvs
      | _ => raise (ResponseError "Technocore response must be a JSON object")
      end
  end.

Definition read_url (client : TechnocoreClient) (room : str) (since : Z) (wait : Q) (limit cache_buster : Z)
  : str :=
  base_url client ++ u "/r/" ++ room ++ u "?format=json&since=" ++ int_str since
  ++ u "&wait=" ++ float_repr wait ++ u "&limit=" ++ int_str limit ++ u "&n=" ++ int_str cache_buster.

Definition read_room (client : TechnocoreClient) (room : str) (since : Z) (wait : pyfloat)
    (limit cache_buster : Z) : M Mem RoomSnapshot :=
  valid_room ← lift (validate_room room);
  check (since <? 0) (ProtocolValueError "since must be zero or greater");;
  selected_wait ← lift (_bounded_float wait 0 10);
  check (Qle_bool (timeout client) selected_wait)
    (ProtocolValueError "timeout must be greater than the long-poll wait");;
  check (negb ((1 <=? limit) && (limit <=? 200)))
    (ProtocolValueError "limit must be between 1 and 200");;
  check (cache_buster <? 0) (ProtocolValueError "cache buster must be zero or greater");;
  payload ← _request_json (read_url client valid_room since selected_wait limit cache_buster);
  lift (_parse_snapshot payload valid_room).

Definition send_url (client : TechnocoreClient) (room did signature nonce text : str) : res str :=
  parts ← mapM_res quote [did; signature; nonce; text];
  room ← quote room;
  Ok (base_url client ++ u "/r/" ++ room ++ u "/say-signed/" ++ join (u "/") parts ++ u "?format=json").

Definition send_signed_message (client : TechnocoreClient) (room did signature : str) (sent_nonce : json)
    (sent_text : str) : M Mem RoomMessage :=
  valid_room ← lift (validate_room room);
  valid_did ← lift (validate_did did);
  valid_nonce ← lift (validate_nonce sent_nonce);
  check (negb (fullmatch CANONICAL_SIGNATURE signature))
    (ProtocolValueError "signature must use canonical unpadded base64url encoding");;
  url ← lift (send_url client valid_room valid_did signature valid_nonce sent_text);
  raw_url ← lift (utf8_encode url);
  check (MAX_URL_BYTES <? length raw_url)
    (ProtocolValueError "signed GET URL exceeds the agent's 8000-byte safety limit");;
  payload ← _request_json url;
  snapshot ← lift (_parse_snapshot payload valid_room);
  posted ← lift (_parse_message (jget (u "posted") payload));
  check ((sender posted != valid_did) || (text posted != sent_text) ||
         (nonce posted != Some valid_nonce) ||
         negb (seq posted in? map seq (messages snapshot)))
    (ResponseError "Technocore posted record does not match the signed request");;
  mret posted.
End requests.

(** ** What a snapshot guarantees *)

Lemma weakly_sorted_NoDup_strict l :
  weakly_sorted l = true → NoDup l → strictly_sorted l = true.
Proof.
  induction l as [|x l IH]; [done|]. intros Hw [Hn Hd]%NoDup_cons.
  pose proof (weakly_sorted_tail _ _ Hw) as Ht. destruct l as [|y l]; [done|].
  assert (x ≤ y) by (eapply weakly_sorted_le; [exact Hw|by left]).
  assert (x ≠ y) by (intros ->; apply Hn; by left).
  change (((x <? y) && strictly_sorted (y :: l)) = true). rewrite IH by done.
  by destruct (Z.ltb_spec x y); [|lia].
Qed.

(** A message of an accepted response. *)
Definition message_ok (m : RoomMessage) : Prop :=
  0 < seq m ∧ (∀ n, nonce m = Some n → fullmatch NONCE_PATTERN n = true).

Lemma parse_message_ok item m : _parse_message item = Ok m → message_ok m.
Proof.
  unfold _parse_message. destruct item as [| | | | | |kvs]; try done. intros H.
  apply res_bind_Ok in H as (sq&Hs&H). apply res_bind_Ok in H as ([sn tx]&_&H).
  apply res_bind_Ok in H as (nn&Hn&[= <-]). split; cbn.
  - destruct (jget _ kvs); try done. apply res_bind_Ok in Hs as (?&Hz%raise_if_Ok&[= <-]).
    breflect. lia.
  - intros n ->. destruct (jget (u "nonce") kvs) as [| | | | | |]; try done;
      apply res_fmap_Ok in Hn as (n'&Hn&[= <-]); apply res_catch_Ok in Hn as [Hn|(?&_&_&?)];
      by eauto using validate_nonce_digits.
Qed.

Record snapshot_ok (expected_room : str) (s : RoomSnapshot) : Prop := {
  snapshot_room : room s = expected_room;
  snapshot_sorted : strictly_sorted (map seq (messages s)) = true;
  snapshot_range : Forall (λ m, first_seq s ≤ seq m ≤ last_seq s) (messages s);
  snapshot_messages : Forall message_ok (messages s);
  snapshot_nonnegative : 0 ≤ first_seq s ∧ 0 ≤ last_seq s ∧ 0 ≤ generation s
}.

Lemma nonnegative_field_Ok v e z : nonnegative_field v e = Ok z → 0 ≤ z ∧ v = JInt z.
Proof.
  destruct v; try done. intros H. apply res_bind_Ok in H as (?&Hz%raise_if_Ok&[= <-]).
  breflect. split; [lia|done].
Qed.

Lemma head_min l x y : weakly_sorted l = true → head l = Some x → y ∈ l → x ≤ y.
Proof.
  destruct l as [|z l]; [done|]. intros Hs [= ->] [->|Hy]%elem_of_cons; [lia|].
  by eapply weakly_sorted_le.
Qed.

Lemma parse_snapshot_ok payload expected_room s :
  _parse_snapshot payload expected_room = Ok s → snapshot_ok expected_room s.
Proof.
  unfold _parse_snapshot. intros H.
  apply res_bind_Ok in H as (?&_&H).
  apply res_bind_Ok in H as (lastq&[Hlast _]%nonnegative_field_Ok&H).
  apply res_bind_Ok in H as (raw&_&H). cbv zeta in H.
  apply res_bind_Ok in H as (firstq&[Hfirst _]%nonnegative_field_Ok&H).
  apply res_bind_Ok in H as (gen&[Hgen _]%nonnegative_field_Ok&H).
  apply res_bind_Ok in H as (ms&Hms%mapM_res_Forall2&H).
  apply res_bind_Ok in H as (?&Hord%raise_if_Ok&H).
  apply res_bind_Ok in H as (?&Hrng%raise_if_Ok&[= <-]).
  apply orb_false_iff in Hord as [Hs Hd]. apply negb_false_iff in Hs, Hd. breflect.
  split; cbn; [done|by apply weakly_sorted_NoDup_strict| | |done].
  - apply Forall_forall. intros m Hm. assert (seq m ∈ map seq ms) as Hin
      by (by apply list_elem_of_In, in_map, list_elem_of_In).
    destruct (map seq ms) as [|s0 l] eqn:E; [by apply not_elem_of_nil in Hin|].
    destruct (last (s0 :: l)) as [y|] eqn:El; [|by apply last_None in El].
    cbn [head] in Hrng. apply orb_false_iff in Hrng as [Hr1 Hr2]. breflect.
    pose proof (head_min _ s0 (seq m) Hs eq_refl Hin).
    pose proof (weakly_sorted_last_max _ y (seq m) Hs El Hin). lia.
  - clear - Hms. induction Hms; constructor; eauto using parse_message_ok.
Qed.

Section client_lemmas.
Context {Mem : Type} (P : path → Prop) (Q : Mem → Mem → Prop) `{!PreOrder Q} `{Env} `{FloatRepr}.
Set Default Proof Using "All".

Lemma keeps_request_json url : Keeps P Q (_request_json url).
Proof. unfold _request_json. keeps. Qed.

Lemma keeps_read_room client room since wait limit cb :
  Keeps P Q (read_room client room since wait limit cb).
Proof. unfold read_room. keeps; apply keeps_request_json. Qed.

Lemma keeps_send_signed_message client room did sig nonce text :
  Keeps P Q (send_signed_message client room did sig nonce text).
Proof. unfold send_signed_message. keeps; apply keeps_request_json. Qed.
End client_lemmas.
#[export] Hint Resolve keeps_request_json keeps_read_room keeps_send_signed_message : keeps.

Lemma is_signed_inv m :
  is_signed m = true → fullmatch DID_PATTERN (sender m) = true ∧ is_Some (nonce m).
Proof.
  unfold is_signed. destruct (nonce m); [|done]. unfold validate_did.
  destruct (fullmatch _ _); [|done]. eauto.
Qed.

(** ** The numbers of a response can be printed again *)

Definition snapshot_printable (s : RoomSnapshot) : Prop :=
  Forall (λ m, seq m < 10 ^ MAX_STR_DIGITS) (messages s) ∧ last_seq s < 10 ^ MAX_STR_DIGITS ∧
  generation s < 10 ^ MAX_STR_DIGITS.

Lemma nonnegative_field_printable v e z :
  ints_printable v → nonnegative_field v e = Ok z → z < 10 ^ MAX_STR_DIGITS.
Proof. intros Hv [Hz ->]%nonnegative_field_Ok. cbn in Hv. lia. Qed.

Lemma parse_message_printable item m :
  ints_printable item → _parse_message item = Ok m → seq m < 10 ^ MAX_STR_DIGITS.
Proof.
  unfold _parse_message. destruct item as [| | | | | |kvs]; try done.
  intros Hi%ints_printable_dict H. apply res_bind_Ok in H as (sq&Hs&H).
  apply res_bind_Ok in H as ([sn tx]&_&H). apply res_bind_Ok in H as (nn&_&[= <-]). cbn.
  pose proof (jget_printable (u "seq") kvs Hi) as Hp. destruct (jget _ kvs); try done.
  apply res_bind_Ok in Hs as (?&_&[= <-]). cbn in Hp. lia.
Qed.

Lemma parse_snapshot_printable payload expected_room s :
  Forall member_printable payload → _parse_snapshot payload expected_room = Ok s → snapshot_printable s.
Proof.
  intros Hp. unfold _parse_snapshot. intros H.
  apply res_bind_Ok in H as (?&_&H).
  apply res_bind_Ok in H as (lastq&Hlast%nonnegative_field_printable&H);
    [|by apply jget_printable].
  apply res_bind_Ok in H as (raw&Hraw&H). cbv zeta in H.
  apply res_bind_Ok in H as (firstq&_&H).
  apply res_bind_Ok in H as (gen&Hgen%nonnegative_field_printable&H).
  2: { pose proof (jget_printable (u "generation") payload Hp) as Hg. unfold jget in Hg.
       destruct (dict_get _ payload); [done|]. cbn. by apply Z.pow_pos_nonneg. }
  apply res_bind_Ok in H as (ms&Hms%mapM_res_Forall2&H).
  apply res_bind_Ok in H as (?&_&H). apply res_bind_Ok in H as (?&_&[= <-]).
  split; [|done]. cbn.
  assert (Forall ints_printable raw) as Hr.
  { pose proof (jget_printable (u "messages") payload Hp) as Hm.
    destruct (jget (u "messages") payload); try done. injection Hraw as ->.
    by apply ints_printable_list. }
  clear - Hms Hr. induction Hms as [|x m l l' Hx Hms IH]; constructor.
  - apply Forall_cons in Hr as [Hx' _]. by eapply parse_message_printable.
  - apply Forall_cons in Hr as [_ Hr]. auto.
Qed.

Section responses.
Context {Mem : Type} `{HEnv : Env} `{HFloat : FloatRepr}.
Set Default Proof Using "All".

Lemma request_json_Ret url payload (w w' : world Mem) :
  _request_json url w = (Ret payload, w') → Forall member_printable payload.
Proof.
  unfold _request_json. intros (r&w1&_&H)%bind_Ret.
  destruct r; try by apply raise_Ret in H.
  apply bind_Ret in H as (?&w2&_&H). apply bind_Ret in H as (v&w3&[Hv ->]%lift_Ret&H).
  apply res_catch_Ok in Hv as [Hv%loads_bytes_printable|(?&_&_&?)]; [|done].
  destruct v; try by apply raise_Ret in H. apply ret_Ret in H as [-> _].
  by apply ints_printable_dict.
Qed.

(** What [read_room] returns is a snapshot of the room asked for. *)
Lemma read_room_Ret client room since wait limit cb s (w w' : world Mem) :
  read_room client room since wait limit cb w = (Ret s, w') →
  snapshot_ok room s ∧ snapshot_printable s ∧ fullmatch ROOM_PATTERN room = true.
Proof.
  unfold read_room. intros H.
  apply bind_Ret in H as (vr&w1&[[-> Hroom]%validate_room_Ok ->]%lift_Ret&H).
  do 5 (apply bind_Ret in H as (?&?&_&H)).
  apply bind_Ret in H as (payload&?&Hp%request_json_Ret&[Hs _]%lift_Ret).
  split; [by eapply parse_snapshot_ok|]. split; [by eapply parse_snapshot_printable|done].
Qed.

(** What [send_signed_message] returns is among the messages of the room and
    is the message that was signed. *)
Lemma send_signed_message_Ret client room did sig nonce text m (w w' : world Mem) :
  send_signed_message client room did sig nonce text w = (Ret m, w') →
  ∃ valid_nonce, validate_nonce nonce = Ok valid_nonce ∧ sender m = did ∧ Protocol.text m = text ∧
    Protocol.nonce m = Some valid_nonce ∧ message_ok m ∧ seq m < 10 ^ MAX_STR_DIGITS.
Proof.
  unfold send_signed_message. intros H.
  apply bind_Ret in H as (vr&w1&[[-> _]%validate_room_Ok ->]%lift_Ret&H).
  apply bind_Ret in H as (vd&w1&[[-> _]%validate_did_Ok ->]%lift_Ret&H).
  apply bind_Ret in H as (vn&w1&[Hn ->]%lift_Ret&H). exists vn.
  do 4 (apply bind_Ret in H as (?&?&_&H)).
  apply bind_Ret in H as (payload&?&Hp%request_json_Ret&H).
  apply bind_Ret in H as (snap&?&_&H). apply bind_Ret in H as (posted&?&[Hposted ->]%lift_Ret&H).
  apply bind_Ret in H as (?&?&[Hc ->]%check_Ret&[-> _]%ret_Ret).
  rewrite !orb_false_iff in Hc. destruct Hc as [[[H1 H2] H3] _]. breflect.
  do 4 (split; [done|]). split; [by eapply parse_message_ok|].
  eapply parse_message_printable; [|done]. by apply jget_printable.
Qed.
End responses.
