(* ===== verification/Toy.v ===== *)
(** A concrete environment, to run the definitions on: a signature scheme that
    signs with a checksum, a resolver that knows no IP address, clocks that show
    a fixed time, a server that answers from a table, a disk that never fails. *)

From S2P Require Import Prelude Errors Text Json Crypto Url Clock Effects Protocol.

(** ** Signatures *)

Definition toy_fit (n : nat) (l : bytes) : bytes := take n (map (λ b, b mod 256) l ++ replicate n 0).

Definition toy_sum (l : bytes) : Z := foldr Z.add 0 l mod 256.

#[export] Instance toy_ed25519 : Ed25519 := {
  ed_public seed := toy_fit 32 seed;
  ed_sign seed m := toy_fit 32 seed ++ toy_fit 32 [toy_sum m];
  ed_verify key signature m := bool_decide (signature = toy_fit 32 key ++ toy_fit 32 [toy_sum m])
}.

Lemma toy_fit_length n l : length (toy_fit n l) = n.
Proof. unfold toy_fit. rewrite length_take, length_app, length_replicate. lia. Qed.

Lemma toy_fit_bytes n l : Forall (λ b, is_byte b = true) (toy_fit n l).
Proof.
  apply Forall_take, Forall_app. split.
  - apply Forall_map, Forall_forall. intros b _. cbn. unfold is_byte.
    pose proof (Z.mod_pos_bound b 256 ltac:(lia)). breflect. lia.
  - by apply Forall_replicate.
Qed.

Lemma toy_fit_id n l : length l = n → Forall (λ b, is_byte b = true) l → toy_fit n l = l.
Proof.
  intros Hl Hb. unfold toy_fit.
  assert (map (λ b, b mod 256) l = l) as ->.
  { clear Hl. induction Hb as [|b l Hb _ IH]; [done|]. cbn. f_equal; [|done].
    unfold is_byte in Hb. breflect. apply Z.mod_small. lia. }
  by rewrite take_app_length' by done.
Qed.

#[export] Instance toy_ed25519_laws : Ed25519Laws.
Proof.
  split; intros seed; try intros m.
  - apply toy_fit_length.
  - apply toy_fit_bytes.
  - cbn. by rewrite length_app, !toy_fit_length.
  - apply Forall_app. split; apply toy_fit_bytes.
  - cbn -[toy_fit]. rewrite (toy_fit_id 32 (toy_fit 32 seed)); [|apply toy_fit_length|apply toy_fit_bytes].
    by apply bool_decide_eq_true_2.
Qed.

(** ** The other libraries *)

#[export] Instance toy_urllib : UrlLib := { nfkc s := s; ip_version _ := None }.

(** An integer part and one digit. *)
#[export] Instance toy_float_repr : FloatRepr := λ q,
  int_str (Qnum q / Zpos (Qden q)) ++ u "." ++ int_str (10 * Qnum q / Zpos (Qden q) mod 10).

(** ** The environment *)

Definition toy_now : datetime := DateTime 2026 1 2 3 4 5.

(** Faults at the given actions, answers by the given table. *)
Definition toy_env (faults : nat → fault) (answer : str → http_result) : Env := {|
  env_fault := faults;
  env_short_write _ := 0%nat;
  env_http _ url := answer url;
  env_connection _ _ := ConnectionFailed;
  env_time_ns _ := 1700000000000000000;
  env_time _ := Finite 1700000000 (u "1700000000.0");
  env_monotonic n := inject_Z (Z.of_nat n);
  env_now _ := toy_now;
  env_euid := 501;
  env_pid := 4242;
  env_token _ := u "0123456789abcdef01234567"
|}.

Lemma toy_env_laws faults answer : EnvLaws (H := toy_env faults answer).
Proof.
  split.
  - intros n q t [= <- _]. by vm_compute.
  - intros n. by vm_compute.
Qed.

(** A world with the given files in which nothing has happened yet. *)
Definition toy_world {Mem} (m : Mem) (fs : list (path * file)) : world Mem :=
  World (list_to_map fs) m 0 [].

(** The identity whose seed is [n] and zeros. *)
Definition toy_seed (n : Z) : bytes := toy_fit 32 [n].
