(* ===== verification/Prompt.v ===== *)
(** [controller.py], the dialogue with [/usr/bin/security]: a fixed secret is
    typed at two fixed prompts of a pseudo-terminal, and nowhere else.

    The child process and its terminal are the environment's: the class
    [Terminal].  The session object is what the computation keeps in memory,
    with a record of what was shown, typed and killed.  The process is stopped
    when the fuel is used up. *)

From S2P Require Import Prelude Errors Text Crypto Effects.

Definition KEYCHAIN_PASSWORD_PROMPTS : list bytes :=
  [u "password data for new item:"; u "retype password for new item:"].
Definition KEYCHAIN_PROMPT_TIMEOUT_SECONDS : Q := 15.
Definition KEYCHAIN_PROMPT_BUFFER_BYTES : nat := 512.

(** ** The terminal *)

Inductive read_result : Type :=
  | ReadBytes (b : bytes)
  | ReadEIO                 (* the child has closed its side *)
  | ReadFailed.

(** What the system calls give at the current count; [None] is an [OSError] or
    a [termios.error]. *)
Class Terminal := {
  term_fork : nat → bool;
  term_ready : nat → option bool;          (* select *)
  term_read : nat → read_result;           (* os.read *)
  term_echo_off : nat → bool;              (* tcgetattr, tcsetattr *)
  term_write : nat → option Z;             (* os.write *)
  term_wait : nat → option (option Z);     (* waitpid: the status of a child that has ended *)
  term_kill : nat → bool                   (* os.kill, waitpid: no error but "no such process" *)
}.

(** What happened at the terminal. *)
Inductive term_event : Type :=
  | Shown (b : bytes)
  | EchoOff
  | Typed (b : bytes)
  | Killed.

(** [_KeychainPromptSession]; the child and its descriptor have no name here. *)
Record session := MkSession {
  s_secret_line : bytes;
  s_prompt_index : nat;
  s_wait_status : option Z;
  s_prompt_buffer : bytes;
  s_log : list term_event
}.

Definition set_secret_line (b : bytes) (s : session) : session :=
  MkSession b (s_prompt_index s) (s_wait_status s) (s_prompt_buffer s) (s_log s).
Definition set_prompt_index (n : nat) (s : session) : session :=
  MkSession (s_secret_line s) n (s_wait_status s) (s_prompt_buffer s) (s_log s).
Definition set_wait_status (w : option Z) (s : session) : session :=
  MkSession (s_secret_line s) (s_prompt_index s) w (s_prompt_buffer s) (s_log s).
Definition set_prompt_buffer (b : bytes) (s : session) : session :=
  MkSession (s_secret_line s) (s_prompt_index s) (s_wait_status s) b (s_log s).
Definition logged (ev : term_event) (s : session) : session :=
  MkSession (s_secret_line s) (s_prompt_index s) (s_wait_status s) (s_prompt_buffer s) (s_log s ++ [ev]).

(** [p in s] *)
Fixpoint contains (p s : bytes) : bool :=
  startswith p s || match s with [] => false | _ :: s' => contains p s' end.

(** [os.waitstatus_to_exitcode]; a child that is only stopped is not waited
    for. *)
Definition exitcode (status : Z) : Z :=
  let signal := Z.land status 127 in
  if signal =? 0 then Z.land (Z.shiftr status 8) 255 else - signal.

(** The last bytes of a buffer that has grown too long. *)
Definition keep_last (n : nat) (b : bytes) : bytes := drop (length b - n) b.

Section prompt.
Context `{Env} `{Terminal}.
Abbreviation PM := (M session).

Definition modify (f : session → session) : PM unit := s ← get_mem; put_mem (f s).

Definition _keychain_prompt_ready : PM bool :=
  n ← next_tick;
  match term_ready n with
  | Some readable => mret readable
  | None => raise (ControllerError "controller Keychain prompt failed")
  end.

Definition _read_keychain_prompt : PM bytes :=
  n ← next_tick;
  match term_read n with
  | ReadBytes b => let chunk := take 1024 b in modify (logged (Shown chunk));; mret chunk
  | ReadEIO => mret []
  | ReadFailed => raise (ControllerError "cannot read the Keychain prompt")
  end.

Definition _poll_child : PM (option Z) :=
  n ← next_tick;
  match term_wait n with
  | Some waited => mret waited
  | None => raise (ControllerError "cannot monitor the Keychain prompt")
  end.

Definition _disable_terminal_echo : PM unit :=
  n ← next_tick;
  if term_echo_off n then modify (logged EchoOff)
  else raise (ControllerError "cannot disable Keychain prompt echo").

(** [while remaining]: a write takes at least one byte. *)
Fixpoint _write_all (fuel : nat) (remaining : bytes) : PM unit :=
  match remaining, fuel with
  | [], _ => mret tt
  | _, O => crash
  | _, S fuel =>
      n ← next_tick;
      match term_write n with
      | Some written =>
          let written := written `min` length remaining in
          check (written <=? 0) (ControllerError "cannot answer the Keychain prompt");;
          modify (logged (Typed (take (Z.to_nat written) remaining)));;
          _write_all fuel (drop (Z.to_nat written) remaining)
      | None => raise (ControllerError "cannot answer the Keychain prompt")
      end
  end.

Definition _respond_to_prompt (chunk : bytes) : PM unit :=
  match chunk with
  | [] => mret tt
  | _ =>
      modify (λ s, set_prompt_buffer (keep_last KEYCHAIN_PROMPT_BUFFER_BYTES (s_prompt_buffer s ++ chunk)) s);;
      s ← get_mem;
      match KEYCHAIN_PASSWORD_PROMPTS !! s_prompt_index s with
      | None => mret tt
      | Some prompt =>
          if negb (contains prompt (s_prompt_buffer s)) then mret tt
          else
            _disable_terminal_echo;;
            _write_all (length (s_secret_line s)) (s_secret_line s);;
            modify (set_prompt_index (s_prompt_index s + 1));;
            modify (set_prompt_buffer [])
      end
  end.

Definition _step (deadline : Q) : PM unit :=
  now ← time_monotonic;
  check (Qle_bool (deadline - now) 0) (ControllerError "controller Keychain prompt timed out");;
  readable ← _keychain_prompt_ready;
  (if (readable : bool) then chunk ← _read_keychain_prompt; _respond_to_prompt chunk else mret tt);;
  waited ← _poll_child;
  match waited with
  | Some status => modify (set_wait_status (Some status))
  | None => mret tt
  end.

(** [_KeychainPromptSession.run] *)
Fixpoint session_run (fuel : nat) (deadline : Q) : PM unit :=
  s ← get_mem;
  match s_wait_status s, fuel with
  | Some status, _ =>
      check (negb (exitcode status =? 0) || negb (s_prompt_index s =? length KEYCHAIN_PASSWORD_PROMPTS)%nat)
        (ControllerError "cannot create the controller Keychain item")
  | None, O => crash
  | None, S fuel => _step deadline;; session_run fuel deadline
  end.

Definition _spawn_keychain_prompt : PM unit :=
  n ← next_tick;
  if term_fork n then mret tt else raise (ControllerError "cannot create a private Keychain prompt").

Definition _terminate_child : PM unit :=
  n ← next_tick;
  modify (logged Killed);;
  if term_kill n then mret tt else raise OSError.

(** [bytearray(secret, "ascii")] *)
Definition encode_ascii (s : str) : res bytes := if is_ascii s then Ok s else Err UnicodeEncodeError.

(** Nothing is left of a session that was never made. *)
Definition new_session (secret_line : bytes) (s : session) : session := MkSession secret_line 0 None [] (s_log s).

(** The [finally]: the secret and the buffer are wiped, the terminal closed. *)
Definition wipe_session : PM unit :=
  modify (λ s, set_prompt_buffer [] (set_secret_line [] s));; next_tick;; mret tt.

Definition _run_hidden_keychain_prompt (fuel : nat) (secret : str) (timeout : Q) : PM unit :=
  secret ← lift (encode_ascii secret);
  let secret_line := secret ++ [10] in
  try_finally
    (_spawn_keychain_prompt;;
     start ← time_monotonic;
     modify (new_session secret_line);;
     on_raise (session_run fuel (start + timeout)%Q)
       (s ← get_mem;
        match s_wait_status s with None => _terminate_child | Some _ => mret tt end))
    wipe_session.
End prompt.
