(* ===== verification/PromptFacts.v ===== *)
(** What the dialogue with the Keychain command guarantees: the secret is typed
    with the echo off, at the expected prompts, at most twice; and the dialogue
    ends. *)

From Stdlib Require Import Lqa.
From S2P Require Import Prelude Errors Text Crypto Url Effects Protocol Toy Prompt.

(** ** The protocol of the dialogue *)

(** Waiting for a prompt with what was shown since the last answer, typing an
    answer of which this much is left, or over. *)
Inductive phase : Type := Waiting (shown : bytes) | Answering (rest : bytes) | Dead.
Record monitor := Monitor { m_answers : nat; m_phase : phase }.

Definition watch (line : bytes) (m : monitor) (ev : term_event) : option monitor :=
  match m_phase m, ev with
  | Waiting shown, Shown b => Some (Monitor (m_answers m) (Waiting (shown ++ b)))
  | Waiting shown, EchoOff =>
      match KEYCHAIN_PASSWORD_PROMPTS !! m_answers m with
      | Some prompt => if contains prompt shown then Some (Monitor (m_answers m) (Answering line)) else None
      | None => None
      end
  | Answering rest, Typed b =>
      if startswith b rest && (b != []) then
        Some (match drop (length b) rest with
              | [] => Monitor (S (m_answers m)) (Waiting [])
              | rest' => Monitor (m_answers m) (Answering rest')
              end)
      else None
  | Waiting _, Killed | Answering _, Killed => Some (Monitor (m_answers m) Dead)
  | _, _ => None
  end.

(** The protocol is followed. *)
Definition follows (line : bytes) (evs : list term_event) (m : monitor) : Prop :=
  foldl (λ o ev, o ≫= λ m, watch line m ev) (Some (Monitor 0 (Waiting []))) evs = Some m.

Lemma follows_snoc line evs m ev m' :
  follows line evs m → watch line m ev = Some m' → follows line (evs ++ [ev]) m'.
Proof. unfold follows. intros H1 H2. rewrite foldl_app, H1. exact H2. Qed.

(** ** Substrings *)

Lemma startswith_self p s : startswith p (p ++ s) = true.
Proof. unfold startswith. apply bool_decide_eq_true. by rewrite take_app_length. Qed.

Lemma contains_prefix p s t : contains p s = true → contains p (t ++ s) = true.
Proof.
  induction t as [|c t IH]; intros H; [done|]. cbn. by rewrite IH, orb_true_r.
Qed.

Lemma keep_last_suffix n b : ∃ a, b = a ++ keep_last n b.
Proof. exists (take (length b - n) b). unfold keep_last. by rewrite take_drop. Qed.

Lemma keep_last_length n b : (length (keep_last n b) ≤ n)%nat.
Proof. unfold keep_last. rewrite length_drop. lia. Qed.

(** ** The dialogue follows it *)

Section dialogue.
Context `{Env} `{Terminal}.
Implicit Types (s : session) (w : world session).
Set Default Proof Using "Type".

(** The log since [log], between two steps of the session. *)
Record between (log : list term_event) (line : bytes) (s : session) : Prop := {
  bt_line : s_secret_line s = line;
  bt_buffer : (length (s_prompt_buffer s) ≤ KEYCHAIN_PROMPT_BUFFER_BYTES)%nat;
  bt_log : ∃ evs a, s_log s = log ++ evs ∧
             follows line evs (Monitor (s_prompt_index s) (Waiting (a ++ s_prompt_buffer s)))
}.

(** The log when the session has failed: the protocol was followed so far. *)
Record broken (log : list term_event) (line : bytes) (s : session) : Prop := {
  bk_log : ∃ evs m, s_log s = log ++ evs ∧ follows line evs m ∧ m_phase m ≠ Dead
}.

Lemma between_broken log line s : between log line s → broken log line s.
Proof. intros [_ _ (evs&a&?&?)]. split. eauto 6. Qed.

Lemma wp_modify f (Φ : outcome unit → world session → Prop) w :
  Φ (Ret tt) (World (w_fs w) (f (w_mem w)) (w_tick w) (w_trace w)) → wp (modify f) Φ w.
Proof. done. Qed.

Lemma wp_tick {A} (f : nat → M session A) (Φ : outcome A → world session → Prop) w :
  wp (f (w_tick w)) Φ (ticked w) → wp (next_tick ≫= f) Φ w.
Proof. done. Qed.

(** An answer is typed until it is complete, or something fails. *)
Lemma wp_write_all log line evs fuel rest (Φ : outcome unit → world session → Prop) w :
  rest ≠ [] → (length rest ≤ fuel)%nat → follows line evs (Monitor (s_prompt_index (w_mem w)) (Answering rest)) →
  s_log (w_mem w) = log ++ evs → s_secret_line (w_mem w) = line →
  (∀ w' evs', follows line evs' (Monitor (S (s_prompt_index (w_mem w))) (Waiting [])) →
     s_log (w_mem w') = log ++ evs' → s_secret_line (w_mem w') = line →
     s_prompt_index (w_mem w') = s_prompt_index (w_mem w) →
     s_wait_status (w_mem w') = s_wait_status (w_mem w) → Φ (Ret tt) w') →
  (∀ e w', broken log line (w_mem w') → s_wait_status (w_mem w') = s_wait_status (w_mem w) → Φ (Raise e) w') →
  wp (_write_all fuel rest) Φ w.
Proof.
  revert rest w evs. induction fuel as [|fuel IH]; intros rest w evs Hne Hlen Hf Hl Hs HR HE.
  { destruct rest; [done|]. cbn in Hlen. lia. }
  destruct rest as [|c rest]; [done|]. set (r := c :: rest) in *. change (_write_all (S fuel) r) with
    (n ← next_tick;
      match term_write n with
      | Some written =>
          check (written `min` length r <=? 0) (ControllerError "cannot answer the Keychain prompt");;
          modify (logged (Typed (take (Z.to_nat (written `min` length r)) r)));;
          _write_all fuel (drop (Z.to_nat (written `min` length r)) r)
      | None => raise (ControllerError "cannot answer the Keychain prompt")
      end).
  assert (broken log line (w_mem w)) as Hbk
    by (split; exists evs, (Monitor (s_prompt_index (w_mem w)) (Answering r)); split_and!; done).
  apply wp_tick. destruct (term_write _) as [k|]; [|by apply wp_raise, HE].
  set (k' := k `min` length r). apply wp_bind, wp_lift. destruct (Z.leb_spec k' 0) as [|Hk]; cbn [raise_if].
  { by apply HE. }
  apply wp_bind, wp_modify. cbn. set (b := take (Z.to_nat k') r). set (r' := drop (Z.to_nat k') r).
  assert (length b = Z.to_nat k') as Hb by (subst b; rewrite length_take; lia).
  assert (r = b ++ r') as Hr by (subst b r'; by rewrite take_drop).
  assert (b ≠ []) as Hb0 by (intros E; rewrite E in Hb; cbn in Hb; lia).
  assert (watch line (Monitor (s_prompt_index (w_mem w)) (Answering r)) (Typed b)
    = Some (match r' with [] => Monitor (S (s_prompt_index (w_mem w))) (Waiting [])
            | r'' => Monitor (s_prompt_index (w_mem w)) (Answering r'') end)) as Hw.
  { clearbody b r' r. subst r. unfold watch. cbn [m_phase m_answers]. rewrite startswith_self, drop_app_length.
    rewrite bool_decide_eq_false_2 by done. by destruct r'. }
  pose proof (follows_snoc _ _ _ _ _ Hf Hw) as Hf'.
  destruct r' as [|c' r''] eqn:Er.
  { assert (∀ n w', wp (_write_all n []) Φ w' ↔ Φ (Ret tt) w') as Hnil by (by intros []).
    apply Hnil. eapply HR; [exact Hf'|..]; cbn; try done. by rewrite Hl, <- app_assoc. }
  eapply IH; [done| |exact Hf'|..]; cbn; try done.
  - rewrite Hr, length_app in Hlen. cbn in Hlen. lia.
  - by rewrite Hl, <- app_assoc.
Qed.

(** The last bytes shown, after another chunk. *)
Lemma shown_suffix a b chunk : ∃ a', (a ++ b) ++ chunk = a' ++ keep_last KEYCHAIN_PROMPT_BUFFER_BYTES (b ++ chunk).
Proof.
  destruct (keep_last_suffix KEYCHAIN_PROMPT_BUFFER_BYTES (b ++ chunk)) as [a' E].
  exists (a ++ a'). by rewrite <- (assoc_L (++) a a'), <- E, (assoc_L (++)).
Qed.

(** How a part of a step ends: between two steps, or broken off. *)
Definition step_ends (log : list term_event) (line : bytes) (status : option Z) (o : outcome unit)
    (w' : world session) : Prop :=
  s_wait_status (w_mem w') = status ∧
  match o with
  | Ret _ => between log line (w_mem w')
  | Raise _ => broken log line (w_mem w')
  | Crashed => False
  end.

Lemma wp_respond log line a chunk evs w :
  line ≠ [] → s_secret_line (w_mem w) = line → s_log (w_mem w) = log ++ evs →
  (length (s_prompt_buffer (w_mem w)) ≤ KEYCHAIN_PROMPT_BUFFER_BYTES)%nat →
  follows line evs (Monitor (s_prompt_index (w_mem w)) (Waiting ((a ++ s_prompt_buffer (w_mem w)) ++ chunk))) →
  wp (_respond_to_prompt chunk) (step_ends log line (s_wait_status (w_mem w))) w.
Proof.
  intros Hline Hs Hl Hb Hf. destruct chunk as [|c chunk].
  { apply wp_ret. split; [done|]. split; [done..|]. rewrite app_nil_r in Hf. eauto. }
  set (chunk' := c :: chunk) in *. destruct (shown_suffix a (s_prompt_buffer (w_mem w)) chunk') as [a' Ea].
  rewrite Ea in Hf. set (buffer := keep_last _ _) in *.
  assert (length buffer ≤ KEYCHAIN_PROMPT_BUFFER_BYTES)%nat as Hb' by apply keep_last_length.
  change (_respond_to_prompt chunk') with (
    modify (λ s, set_prompt_buffer (keep_last KEYCHAIN_PROMPT_BUFFER_BYTES (s_prompt_buffer s ++ chunk')) s);;
    s ← get_mem;
    match KEYCHAIN_PASSWORD_PROMPTS !! s_prompt_index s with
    | None => mret tt
    | Some prompt =>
        if negb (contains prompt (s_prompt_buffer s)) then mret tt
        else
          _disable_terminal_echo;;
          _write_all (length (s_secret_line s)) (s_secret_line s);;
          modify (set_prompt_index (s_prompt_index s + 1));;
          modify (set_prompt_buffer [])
    end).
  apply wp_bind, wp_modify. fold buffer. set (w1 := World _ _ _ _).
  assert (between log line (w_mem w1)) as Hbt by (split; cbn; eauto).
  change (wp (match KEYCHAIN_PASSWORD_PROMPTS !! s_prompt_index (w_mem w) with
    | None => mret tt
    | Some prompt =>
        if negb (contains prompt buffer) then mret tt
        else
          _disable_terminal_echo;;
          _write_all (length (s_secret_line (w_mem w))) (s_secret_line (w_mem w));;
          modify (set_prompt_index (s_prompt_index (w_mem w) + 1));;
          modify (set_prompt_buffer [])
    end) (step_ends log line (s_wait_status (w_mem w))) w1).
  destruct (KEYCHAIN_PASSWORD_PROMPTS !! _) as [prompt|] eqn:Ep; [|by split].
  destruct (contains prompt buffer) eqn:Ec; cbn [negb]; [|by split].
  apply wp_bind. unfold _disable_terminal_echo. apply wp_tick.
  destruct (term_echo_off _); [|split; [done|by apply between_broken]].
  apply wp_modify. cbn. rewrite Hs.
  assert (follows line (evs ++ [EchoOff]) (Monitor (s_prompt_index (w_mem w)) (Answering line))) as Hf'.
  { eapply follows_snoc; [exact Hf|]. cbn. by rewrite Ep, (contains_prefix prompt buffer a' Ec). }
  apply wp_bind. eapply (wp_write_all log line); [done|lia|exact Hf'|cbn; by rewrite Hl, <- app_assoc|done|..].
  - intros w' evs' Hf2 Hl2 Hs2 Hi2 Hw2. cbn in *. split; [done|]. split; cbn; [done|apply Nat.le_0_l|].
    exists evs', []. split; [done|]. by rewrite Nat.add_1_r.
  - intros e w' Hbk Hw2. by split.
Qed.

(** One step; only polling the child sets the status. *)
Lemma wp_step log line deadline w :
  line ≠ [] → between log line (w_mem w) → s_wait_status (w_mem w) = None →
  wp (_step deadline) (λ o w', match o with
    | Ret _ => between log line (w_mem w')
    | Raise _ => broken log line (w_mem w') ∧ s_wait_status (w_mem w') = None
    | Crashed => False
    end) w.
Proof.
  intros Hline [Hs Hb (evs&a&Hl&Hf)] Hn. assert (between log line (w_mem w)) as Hbt by (split; eauto).
  pose proof (between_broken _ _ _ Hbt) as Hbk. unfold _step. apply wp_bind, wp_tick, wp_ret.
  apply wp_bind, wp_lift. destruct (Qle_bool _ _); [by split|]. cbn [raise_if].
  apply wp_bind, wp_tick. destruct (term_ready _) as [ready|]; [|by split].
  apply wp_ret.
  assert (∀ w', between log line (w_mem w') → s_wait_status (w_mem w') = None →
    wp (waited ← _poll_child; match waited with Some status => modify (set_wait_status (Some status)) | None => mret tt end)
       (λ o w', match o with
    | Ret _ => between log line (w_mem w')
    | Raise _ => broken log line (w_mem w') ∧ s_wait_status (w_mem w') = None
    | Crashed => False
    end) w') as Hpoll.
  { intros w' Hb' Hn'. apply wp_bind, wp_tick. destruct (term_wait _) as [waited|].
    - apply wp_ret. destruct waited; [|done]. apply wp_modify. by destruct Hb'.
    - split; [by apply between_broken|done]. }
  apply wp_bind. destruct ready; [|by apply Hpoll].
  apply wp_bind, wp_tick. destruct (term_read _) as [b| |]; [|..|by split].
  - apply wp_bind, wp_modify. cbn. set (chunk := take 1024 b).
    eapply wp_mono; [eapply (wp_respond log line a chunk (evs ++ [Shown chunk])); [done|exact Hs| |exact Hb|]|].
    + cbn. by rewrite Hl, <- app_assoc.
    + eapply follows_snoc; [exact Hf|done].
    + intros [[]|e|] w' [Hn' Hw']; cbn in *; [|by rewrite Hn' in *; split|done]. apply Hpoll; [done|congruence].
  - apply wp_ret, wp_ret. by apply Hpoll.
Qed.

(** The loop, unfolded once. *)
Lemma wp_session_run_eq fuel deadline (Φ : outcome unit → world session → Prop) w :
  wp (session_run fuel deadline) Φ w ↔
  match s_wait_status (w_mem w) with
  | Some status =>
      wp (check (negb (exitcode status =? 0) || negb (s_prompt_index (w_mem w) =? 2)%nat)
            (ControllerError "cannot create the controller Keychain item")) Φ w
  | None => match fuel with O => Φ Crashed w | S fuel => wp (_step deadline;; session_run fuel deadline) Φ w end
  end.
Proof.
  destruct fuel; cbn [session_run]; rewrite wp_bind; unfold wp at 1; cbn [get_mem fst snd];
    by destruct (s_wait_status (w_mem w)).
Qed.

Lemma wp_session_run log line fuel deadline w :
  line ≠ [] → between log line (w_mem w) →
  wp (session_run fuel deadline) (λ o w', match o with
    | Ret _ => between log line (w_mem w') ∧ s_prompt_index (w_mem w') = 2%nat ∧
               ∃ status, s_wait_status (w_mem w') = Some status ∧ exitcode status = 0
    | _ => broken log line (w_mem w')
    end) w.
Proof.
  intros Hline. revert w. induction fuel as [|fuel IH]; intros w Hb.
  all: pose proof (between_broken _ _ _ Hb) as Hbk.
  all: apply wp_session_run_eq; destruct (s_wait_status (w_mem w)) as [status|] eqn:Hn.
  1,3: apply wp_lift; destruct (negb _ || negb _) eqn:E; cbn [raise_if]; [done|];
    apply orb_false_iff in E as [E1%negb_false_iff%Z.eqb_eq E2%negb_false_iff%Nat.eqb_eq]; eauto.
  - done.
  - apply wp_bind. eapply wp_mono; [by apply wp_step|]. intros [[]|e|] w' Hw'; [by apply IH|by apply Hw'|done].
Qed.
End dialogue.

(** ** What is typed *)

Definition typed (evs : list term_event) : bytes :=
  concat (map (λ ev, match ev with Typed b => b | _ => [] end) evs).

Lemma typed_snoc evs ev : typed (evs ++ [ev]) = typed evs ++ match ev with Typed b => b | _ => [] end.
Proof. unfold typed. by rewrite map_app, concat_app; cbn; rewrite app_nil_r. Qed.

(** Whole lines, and the beginning of another. *)
Definition typed_ok (line : bytes) (typed : bytes) (m : monitor) : Prop :=
  (m_answers m ≤ 2)%nat ∧
  match m_phase m with
  | Waiting _ => typed = concat (replicate (m_answers m) line)
  | Answering rest => (m_answers m < 2)%nat ∧ typed ++ rest = concat (replicate (S (m_answers m)) line)
  | Dead => ∃ rest, typed ++ rest = line ++ line
  end.

Lemma concat_replicate_prefix (line : bytes) n : (n ≤ 2)%nat → ∃ rest, concat (replicate n line) ++ rest = line ++ line.
Proof.
  intros Hn. destruct n as [|[|[|]]]; [|..|lia]; cbn; rewrite ?app_nil_r; [by eexists..|].
  exists []. by rewrite app_nil_r.
Qed.

Lemma typed_ok_prefix line t m : typed_ok line t m → ∃ rest, t ++ rest = line ++ line.
Proof.
  intros [Ha Hp]. destruct (m_phase m); [|destruct Hp as [Hlt Hp]|done].
  - subst. by apply concat_replicate_prefix.
  - destruct (concat_replicate_prefix line (S (m_answers m))) as [r Hr]; [lia|].
    exists (rest ++ r). by rewrite (assoc_L (++)), Hp.
Qed.

Lemma answers_bound (n : nat) prompt : KEYCHAIN_PASSWORD_PROMPTS !! n = Some prompt → (n < 2)%nat.
Proof. apply lookup_lt_Some. Qed.

Lemma concat_replicate_snoc (line : bytes) n : concat (replicate (S n) line) = concat (replicate n line) ++ line.
Proof. rewrite replicate_S_end, concat_app. cbn. by rewrite app_nil_r. Qed.

Lemma watch_typed line t m ev m' :
  typed_ok line t m → watch line m ev = Some m' →
  typed_ok line (t ++ match ev with Typed b => b | _ => [] end) m'.
Proof.
  intros Hok Hw. pose proof (typed_ok_prefix _ _ _ Hok) as Hpre. destruct Hok as [Ha Hp], m as [a p].
  unfold watch in Hw. cbn [m_phase m_answers] in *.
  destruct p as [shown|rest|], ev as [b| |b|]; try done; rewrite ?app_nil_r.
  - injection Hw as <-. by split.
  - destruct (KEYCHAIN_PASSWORD_PROMPTS !! a) as [prompt|] eqn:E; [|done].
    destruct (contains prompt shown); [|done]. injection Hw as <-. apply answers_bound in E.
    split; [done|]. cbn [m_phase m_answers]. split; [done|]. by rewrite concat_replicate_snoc, Hp.
  - injection Hw as <-. by split.
  - destruct (startswith b rest && _) eqn:E; [|done]. apply andb_true_iff in E as [E _].
    apply bool_decide_eq_true in E. destruct Hp as [Hlt Hp]. rewrite <- (take_drop (length b) rest), E in Hp.
    destruct (drop (length b) rest) as [|c r]; injection Hw as <-; (split; cbn [m_phase m_answers]; [lia|]).
    + by rewrite app_nil_r in Hp.
    + split; [done|]. by rewrite <- (assoc_L (++)).
  - injection Hw as <-. by split.
Qed.

Lemma follows_typed line evs m : follows line evs m → typed_ok line (typed evs) m.
Proof.
  revert m. induction evs as [|ev evs IH] using rev_ind; intros m Hf.
  - injection Hf as <-. split; cbn; [lia|done].
  - unfold follows in Hf. rewrite foldl_app in Hf. cbn in Hf. apply bind_Some in Hf as (m1&H1&H2).
    rewrite typed_snoc. eapply watch_typed; [by apply IH|done].
Qed.

(** ** The whole dialogue *)

(** How it ends. *)
Record dialogue_ends (log : list term_event) (line : bytes) (o : outcome unit) (w' : world session) : Prop := {
  de_protocol : ∃ evs m, s_log (w_mem w') = log ++ evs ∧ follows line evs m ∧
    (∃ rest, typed evs ++ rest = line ++ line) ∧ (o = Ret tt → typed evs = line ++ line) ∧
    (∀ e, o = Raise e → evs = [] ∨ m_phase m = Dead ∨ is_Some (s_wait_status (w_mem w')));
  de_exit : o = Ret tt → ∃ status, s_wait_status (w_mem w') = Some status ∧ exitcode status = 0
}.

Section theorems.
Context `{Env} `{Terminal}.
Set Default Proof Using "Type".

Lemma wp_finally {A} (m : M session A) h (Φ : outcome A → world session → Prop) w :
  wp m (λ o w', match o with
    | Ret a => wp (h;; mret a) Φ w'
    | Raise e => wp (h;; raise e) Φ w'
    | Crashed => Φ Crashed w'
    end) w → wp (try_finally m h) Φ w.
Proof.
  intros Hm. apply wp_bind, wp_on_raise. eapply wp_mono; [exact Hm|]. intros [a|e|] w' Hw'; [done| |done].
  apply wp_bind. apply wp_bind in Hw'. eapply wp_mono; [exact Hw'|].
  intros [[]|e'|] w2 H2; [|done..]. apply wp_raise. by apply wp_raise in H2.
Qed.

Lemma wp_wipe {A} (m : M session A) (Φ : outcome A → world session → Prop) w :
  wp m Φ (ticked (World (w_fs w) (set_prompt_buffer [] (set_secret_line [] (w_mem w))) (w_tick w) (w_trace w))) →
  wp (wipe_session;; m) Φ w.
Proof. done. Qed.

(** After a failure the child is killed, unless it was seen to end. *)
Lemma wp_session log line fuel deadline w :
  line ≠ [] → between log line (w_mem w) →
  wp (on_raise (session_run fuel deadline)
       (s ← get_mem; match s_wait_status s with None => _terminate_child | Some _ => mret tt end))
     (λ o w', dialogue_ends log line o w') w.
Proof.
  intros Hline Hb. apply wp_on_raise. eapply wp_mono; [by apply (wp_session_run log line)|].
  intros [[]|e|] w'.
  - intros ([_ _ (evs&a&Hl&Hf)]&Hi&st&Hst&Hx). rewrite Hi in Hf. pose proof (follows_typed _ _ _ Hf) as Ht. split.
    + exists evs, (Monitor 2 (Waiting (a ++ s_prompt_buffer (w_mem w')))).
      split; [done|]. split; [done|]. split; [by eapply typed_ok_prefix|]. split; [|done].
      intros _. destruct Ht as [_ ->]. cbn. by rewrite app_nil_r.
    + eauto.
  - intros [(evs&m&Hl&Hf&Hd)]. apply wp_bind, wp_bind. unfold wp at 1. cbn [get_mem fst snd].
    pose proof (typed_ok_prefix _ _ _ (follows_typed _ _ _ Hf)) as Hp.
    destruct (s_wait_status (w_mem w')) as [st|] eqn:Hst.
    { apply wp_ret, wp_raise. split; [|done]. exists evs, m. repeat (split; [done|]). intros ? _. rewrite Hst. eauto. }
    assert (follows line (evs ++ [Killed]) (Monitor (m_answers m) Dead)) as Hf'.
    { eapply follows_snoc; [exact Hf|]. destruct m as [a []]; done. }
    unfold _terminate_child. apply wp_tick, wp_bind, wp_modify.
    assert (∀ e w2, s_log (w_mem w2) = log ++ evs ++ [Killed] → dialogue_ends log line (Raise e) w2) as Hk.
    { intros e' w2 Hl2. split; [|done]. exists (evs ++ [Killed]), (Monitor (m_answers m) Dead).
      split; [done|]. split; [done|]. split; [by eapply typed_ok_prefix, follows_typed|]. split; [done|]. by right; left. }
    destruct (term_kill _); [apply wp_ret|]; apply wp_raise, Hk; cbn; by rewrite Hl, <- (assoc_L (++)).
  - intros [(evs&m&Hl&Hf&Hd)]. split; [|done]. exists evs, m. split; [done|]. split; [done|].
    split; [by eapply typed_ok_prefix, follows_typed|]. done.
Qed.

(** The session is wiped; the dialogue is not changed by it. *)
Lemma dialogue_wiped log line o w w' :
  dialogue_ends log line o w → s_log (w_mem w') = s_log (w_mem w) →
  s_wait_status (w_mem w') = s_wait_status (w_mem w) → dialogue_ends log line o w'.
Proof. intros [H1 H2] El Ew. split; by rewrite ?El, ?Ew. Qed.

Lemma wp_dialogue fuel secret timeout log w :
  w_mem w = MkSession [] 0 None [] log →
  wp (_run_hidden_keychain_prompt fuel secret timeout)
     (λ o w', dialogue_ends log (secret ++ [10]) o w' ∧
              (o ≠ Crashed → s_secret_line (w_mem w') = [] ∧ s_prompt_buffer (w_mem w') = [])) w.
Proof.
  intros Hw. unfold _run_hidden_keychain_prompt. assert (secret ++ [10] ≠ []) as Hline by (by destruct secret).
  assert (∀ e w', s_log (w_mem w') = log → dialogue_ends log (secret ++ [10]) (Raise e) w') as Hearly.
  { intros e w' Hl. split; [|done]. exists [], (Monitor 0 (Waiting [])). split; [by rewrite app_nil_r|].
    split; [done|]. split; [by eexists|]. split; [done|]. by left. }
  apply wp_bind, wp_lift. unfold encode_ascii. destruct (is_ascii secret).
  2:{ split; [apply Hearly|]; by rewrite Hw. }
  apply wp_finally, wp_bind. unfold _spawn_keychain_prompt. apply wp_tick.
  destruct (term_fork _); [|by apply wp_raise, wp_wipe, wp_raise; split; [apply Hearly; cbn; rewrite Hw|]].
  apply wp_ret, wp_bind, wp_tick, wp_ret, wp_bind, wp_modify.
  eapply wp_mono; [apply (wp_session log (secret ++ [10])); [done|]|].
  { split; cbn; [done|lia|]. rewrite Hw. cbn. exists [], []. by rewrite app_nil_r. }
  intros [[]|e|] w' Hd; [apply wp_wipe, wp_ret|apply wp_wipe, wp_raise|by split].
  all: split; [by eapply dialogue_wiped|done].
Qed.

End theorems.

(** ** What the dialogue leaves alone, and that it ends *)

(** The disk and the traffic are as they were; time does not go back. *)
Definition off_disk (w w' : world session) : Prop :=
  w_fs w' = w_fs w ∧ w_trace w' = w_trace w ∧ (w_tick w ≤ w_tick w')%nat.

#[export] Instance off_disk_preorder : PreOrder off_disk.
Proof.
  split; [done|]. intros w1 w2 w3 (?&?&?) (?&?&?). split; [congruence|]. split; [congruence|lia].
Qed.

Section endings.
Context `{Env} `{Terminal}.
Set Default Proof Using "Type".

Lemma off_disk_tick : Steps off_disk (next_tick (Mem := session)).
Proof. intros w. split; [done|]. split; [done|]. cbn. lia. Qed.
Lemma off_disk_modify f : Steps off_disk (modify f).
Proof. by intros w. Qed.

Ltac off_disk :=
  repeat first
    [ assumption | apply keeps_ret; apply _ | apply keeps_raise; apply _ | apply keeps_crash; apply _
    | apply keeps_lift; apply _ | apply keeps_check; apply _ | apply keeps_get_mem; apply _
    | apply off_disk_tick | apply off_disk_modify
    | apply keeps_bind; [apply _| |intros ?] | apply keeps_on_raise; [apply _| | ]
    | apply keeps_finally; [apply _| | ] | progress intros | case_match ].

Lemma off_disk_write_all fuel rest : Steps off_disk (_write_all fuel rest).
Proof.
  revert rest. induction fuel as [|fuel IH]; intros rest; cbn; [|pose proof IH]; off_disk. apply IH.
Qed.

Lemma off_disk_step deadline : Steps off_disk (_step deadline).
Proof.
  unfold _step, time_monotonic, _keychain_prompt_ready, _read_keychain_prompt, _respond_to_prompt,
    _disable_terminal_echo, _poll_child. off_disk. apply off_disk_write_all.
Qed.

Lemma off_disk_run fuel deadline : Steps off_disk (session_run fuel deadline).
Proof.
  pose proof (off_disk_step deadline). induction fuel as [|fuel IH]; cbn; off_disk.
Qed.

Lemma off_disk_dialogue fuel secret timeout : Steps off_disk (_run_hidden_keychain_prompt fuel secret timeout).
Proof.
  unfold _run_hidden_keychain_prompt, _spawn_keychain_prompt, time_monotonic, _terminate_child, wipe_session.
  pose proof (off_disk_run fuel). off_disk. apply off_disk_run.
Qed.

(** The computation is never cut short. *)
Definition finishes {A} (m : M session A) : Prop := ∀ w, (m w).1 ≠ Crashed.

Lemma finishes_bind {A B} (m : M session A) (f : A → M session B) :
  finishes m → (∀ a, finishes (f a)) → finishes (m ≫= f).
Proof.
  intros Hm Hf w. specialize (Hm w). unfold mbind, M_bind. destruct (m w) as [[a|e|] w']; [apply Hf|done|done].
Qed.

Lemma finishes_check b e : finishes (check b e).
Proof. intros w. by destruct b. Qed.

Lemma finishes_write_all fuel rest : (length rest ≤ fuel)%nat → finishes (_write_all fuel rest).
Proof.
  revert rest. induction fuel as [|fuel IH]; intros [|c rest] Hlen w; try done; [cbn in Hlen; lia|].
  set (r := c :: rest) in *.
  assert (wp (_write_all (S fuel) r) (λ o _, o ≠ Crashed) w) as Hwp; [|exact Hwp]. cbn [_write_all]. subst r.
  set (r := c :: rest) in *. apply wp_tick. destruct (term_write _) as [k|]; [|done].
  apply wp_bind, wp_lift. destruct (Z.leb_spec (k `min` length r) 0); [done|]. cbn [raise_if].
  apply wp_bind, wp_modify. apply IH. rewrite length_drop. cbn in *. lia.
Qed.

Lemma finishes_respond chunk : finishes (_respond_to_prompt chunk).
Proof.
  destruct chunk as [|c chunk]; [done|]. unfold _respond_to_prompt.
  apply finishes_bind; [done|]. intros _. apply finishes_bind; [done|]. intros s.
  destruct (KEYCHAIN_PASSWORD_PROMPTS !! _); [|done]. destruct (negb _); [done|].
  apply finishes_bind. { intros w. unfold _disable_terminal_echo, mbind, M_bind. cbn. by destruct (term_echo_off _). }
  intros _. apply finishes_bind; [by apply finishes_write_all|]. by intros [] w.
Qed.

(** A step after the deadline fails; every step takes time. *)
Lemma step_after deadline w :
  wp (_step deadline) (λ o w', o ≠ Crashed ∧
     (o = Ret tt → Qle_bool (deadline - env_monotonic (w_tick w)) 0 = false ∧ (w_tick w < w_tick w')%nat)) w.
Proof.
  unfold _step. apply wp_bind, wp_tick, wp_ret, wp_bind, wp_lift.
  destruct (Qle_bool _ _) eqn:Hq; [by split|]. cbn [raise_if].
  assert (∀ (m : M session unit), finishes m → Steps off_disk m →
    wp m (λ o w', o ≠ Crashed ∧ (o = Ret tt → false = false ∧ (w_tick w < w_tick w')%nat)) (ticked w)) as Hm.
  { intros m Hf Hs. split; [apply Hf|]. intros _. destruct (Hs (ticked w)) as (_&_&Ht). split; [done|]. cbn in Ht. lia. }
  apply Hm.
  - apply finishes_bind. { intros w'. unfold _keychain_prompt_ready, mbind, M_bind. cbn. by destruct (term_ready _). }
    intros ready. apply finishes_bind.
    + destruct ready; [|done]. apply finishes_bind; [|apply finishes_respond].
      intros w'. unfold _read_keychain_prompt, mbind, M_bind. cbn. by destruct (term_read _).
    + intros _. apply finishes_bind.
      { intros w'. unfold _poll_child, mbind, M_bind. cbn. by destruct (term_wait _). }
      by intros [].
  - unfold _keychain_prompt_ready, _read_keychain_prompt, _respond_to_prompt, _disable_terminal_echo, _poll_child.
    off_disk. apply off_disk_write_all.
Qed.

(** [late] is a count from which on the deadline has passed. *)
Lemma session_run_finishes deadline late fuel w :
  (∀ n, (late ≤ n)%nat → (deadline <= env_monotonic n)%Q) → (late ≤ fuel + w_tick w)%nat →
  (session_run (S fuel) deadline w).1 ≠ Crashed.
Proof.
  intros Hlate. revert w. induction fuel as [|fuel IH]; intros w Hf.
  all: apply (wp_session_run_eq _ _ (λ o _, o ≠ Crashed)).
  all: destruct (s_wait_status (w_mem w)) as [status|]; [apply finishes_check|].
  all: apply wp_bind; eapply wp_mono; [apply step_after|]; intros [[]|e|] w' [Hc Hs]; [|done|done].
  all: destruct (Hs eq_refl) as [Hq Ht].
  - exfalso. specialize (Hlate (w_tick w)). apply not_true_iff_false in Hq. apply Hq, Qle_bool_iff.
    assert (deadline <= env_monotonic (w_tick w))%Q by (apply Hlate; lia). lra.
  - apply IH. lia.
Qed.

(** The monotonic clock passes every time. *)
Definition clock_advances : Prop := ∀ q : Q, ∃ late, ∀ n, (late ≤ n)%nat → (q <= env_monotonic n)%Q.
End endings.

(** C35: whatever the child process and the terminal do, and whenever the
    computation is stopped, the secret line is typed only while the echo is off,
    only after the prompt that is due was shown since the last answer, and at most
    once per prompt: what was typed is a beginning of the line twice.  The command
    counts as successful only when both answers were typed in full and the child
    exited with code zero.  When it fails the child has ended or is killed, and
    the secret and the buffer are wiped in any case.  No file is touched and no
    request is made. *)
Theorem keychain_dialogue_follows_protocol `{Env} `{Terminal} (fuel : nat) (secret : str) (timeout : Q)
    (fs : files) (log : list term_event) (tick : nat) (trace : list event) :
  let '(o, w') := _run_hidden_keychain_prompt fuel secret timeout (World fs (MkSession [] 0 None [] log) tick trace) in
  dialogue_ends log (secret ++ [10]) o w' ∧
  (o ≠ Crashed → s_secret_line (w_mem w') = [] ∧ s_prompt_buffer (w_mem w') = []) ∧
  w_fs w' = fs ∧ w_trace w' = trace.
Proof.
  set (w := World _ _ _ _). pose proof (wp_dialogue fuel secret timeout log w eq_refl) as Hd.
  destruct (off_disk_dialogue fuel secret timeout w) as (Hfs&Htr&_). unfold wp in Hd.
  destruct (_run_hidden_keychain_prompt fuel secret timeout w) as [o w'].
  destruct Hd as [Hd Hwipe]. by split_and!.
Qed.

(** C36: the dialogue with the Keychain command ends: if the monotonic clock passes
    every time, then from some number of steps on the loop that waits for the
    prompts has returned or failed, however the child behaves. *)
Theorem keychain_dialogue_terminates `{Env} `{Terminal} (Hclock : clock_advances) (secret : str) (timeout : Q)
    (w : world session) :
  ∃ enough, ∀ fuel, (enough ≤ fuel)%nat → (_run_hidden_keychain_prompt fuel secret timeout w).1 ≠ Crashed.
Proof.
  destruct (Hclock (env_monotonic (S (w_tick w)) + timeout)%Q) as [late Hlate].
  exists (S late). intros fuel Hfuel. destruct fuel as [|fuel]; [lia|].
  change (wp (_run_hidden_keychain_prompt (S fuel) secret timeout) (λ o _, o ≠ Crashed) w).
  unfold _run_hidden_keychain_prompt. apply wp_bind, wp_lift. destruct (encode_ascii secret) as [s|e]; [|done].
  apply wp_finally, wp_bind. unfold _spawn_keychain_prompt. apply wp_tick. destruct (term_fork _); [|done].
  apply wp_ret, wp_bind, wp_tick, wp_ret, wp_bind, wp_modify, wp_on_raise.
  eapply wp_mono with (Φ := λ o _, o ≠ Crashed); [eapply (session_run_finishes _ late); [exact Hlate|cbn; lia]|].
  intros [[]|e|] w' Hw'; [done| |done].
  apply wp_bind, wp_bind. unfold wp at 1. cbn [get_mem fst snd].
  destruct (s_wait_status (w_mem w')); [done|]. unfold _terminate_child.
  apply wp_tick, wp_bind, wp_modify. by destruct (term_kill _).
Qed.

(** A child that asks twice and accepts. *)
Definition toy_terminal : Terminal := {|
  term_fork _ := true;
  term_ready _ := Some true;
  term_read n := ReadBytes (if (n <? 6)%nat then u "password data for new item: " else u "retype password for new item: ");
  term_echo_off _ := true;
  term_write _ := Some 40;
  term_wait n := Some (if (n <? 12)%nat then None else Some 0);
  term_kill _ := true
|}.
Definition toy_dialogue (fuel : nat) : outcome unit * world session :=
  let E := toy_env (λ _, NoFault) (λ _, HttpFailed) in let T := toy_terminal in
  _run_hidden_keychain_prompt fuel (replicate 64 97) 15 (World ∅ (MkSession [] 0 None [] []) 0 []).

Example toy_dialogue_succeeds :
  let '(o, w') := toy_dialogue 5 in
  o = Ret tt ∧ length (s_log (w_mem w')) = 8%nat ∧ typed (s_log (w_mem w')) = replicate 64 97 ++ [10] ++ replicate 64 97 ++ [10].
Proof. by vm_compute. Qed.

Lemma toy_clock_advances faults answer : clock_advances (H := toy_env faults answer).
Proof.
  intros [a b]. exists (Z.to_nat (Z.abs a)). intros n Hn. cbn. unfold Qle. cbn. nia.
Qed.

Lemma keychain_dialogue_terminates_witness :
  let E := toy_env (λ _, NoFault) (λ _, HttpFailed) in let T := toy_terminal in
  ∃ enough, ∀ fuel, (enough ≤ fuel)%nat →
    (_run_hidden_keychain_prompt fuel (replicate 64 97) 15 (World ∅ (MkSession [] 0 None [] []) 0 [])).1 ≠ Crashed.
Proof. intros E T. apply (keychain_dialogue_terminates (toy_clock_advances _ _)). Defined.
