(* ===== verification/Sealed.v ===== *)
(** Sealed records: the objects [{"payload": ..., "payload_sha256": ...,
    "signature": ...}] that receipts and audit entries are, written with sorted
    keys and read back. *)

From S2P Require Import Prelude Errors Text Regex Sha256 Json Crypto.

(** ** Order of keys *)

Lemma dict_get_perm {A} k (l l' : list (str * A)) :
  NoDup l.*1 → l ≡ₚ l' → dict_get k l = dict_get k l'.
Proof.
  intros Hd Hp. assert (NoDup l'.*1) as Hd' by by rewrite <- Hp.
  destruct (dict_get k l) as [v|] eqn:E.
  - symmetry. apply dict_get_In; [done|]. rewrite <- Hp. by apply dict_get_elem.
  - destruct (dict_get k l') as [v|] eqn:E'; [|done]. apply dict_get_elem in E'.
    rewrite <- Hp in E'. by rewrite (dict_get_In _ _ _ Hd E') in E.
Qed.

Lemma jget_sort_keys k kvs : NoDup kvs.*1 → jget k (sort_keys kvs) = jget k kvs.
Proof.
  intros Hd. unfold jget. f_equal. symmetry. apply dict_get_perm; [done|]. symmetry. apply sort_keys_perm.
Qed.

Lemma has_exact_keys_perm {A} (l l' : list (str * A)) keys :
  l ≡ₚ l' → has_exact_keys l keys = has_exact_keys l' keys.
Proof.
  intros Hp. assert (l.*1 ≡ₚ l'.*1) as Hk by by rewrite Hp.
  unfold has_exact_keys. f_equal; apply eq_true_iff_eq; rewrite !forallb_Forall_true, !Forall_forall.
  - by setoid_rewrite Hk.
  - split; intros H x Hx; specialize (H x Hx); breflect; [by rewrite <- Hk|by rewrite Hk].
Qed.

Lemma sort_keys_twice {A} (l : list (str * A)) : NoDup l.*1 → sort_keys (sort_keys l) = sort_keys l.
Proof. intros. by apply sort_keys_id, sort_keys_sorted. Qed.

Lemma dumps_sort_keys kvs :
  NoDup kvs.*1 → dumps true (JDict (sort_keys kvs)) = dumps true (JDict kvs).
Proof.
  intros Hd. cbn [dumps]. fold (map_vals (dumps true) kvs) (map_vals (dumps true) (sort_keys kvs)).
  by rewrite !sort_keys_map_vals, sort_keys_twice.
Qed.

(** The order of the keys does not show in the canonical text. *)
Lemma dumps_norm j : json_ok j → dumps true (norm true j) = dumps true j.
Proof.
  induction j as [| | | | |l IH|kvs IH] using json_nested_ind; try done.
  - intros Hl%json_ok_JList. cbn [norm dumps]. rewrite map_map. do 3 f_equal. apply map_ext_Forall.
    rewrite Forall_forall in *. auto.
  - intros [Hd Hv]%json_ok_JDict. cbn [norm dumps].
    fold (map_vals (norm true) kvs) (map_vals (dumps true) kvs)
      (map_vals (dumps true) (sort_keys (map_vals (norm true) kvs))).
    rewrite !sort_keys_map_vals, sort_keys_twice by done.
    do 4 f_equal. unfold map_vals. rewrite map_map. apply map_ext_Forall.
    rewrite Forall_forall in *. intros kv Hkv. rewrite sort_keys_perm in Hkv. cbn. f_equal.
    apply IH; [done|]. by apply Hv.
Qed.

(** ** Flat objects *)

Definition scalar (j : json) : bool := match j with JList _ | JDict _ => false | _ => true end.

Lemma norm_scalar sort j : scalar j = true → norm sort j = j.
Proof. by destruct j. Qed.

Lemma norm_flat kvs : forallb (λ kv, scalar kv.2) kvs = true → norm true (JDict kvs) = JDict (sort_keys kvs).
Proof.
  intros Hf. cbn [norm]. do 2 f_equal. rewrite <- (map_id kvs) at 2. apply map_ext_Forall.
  apply forallb_Forall_true in Hf. eapply Forall_impl; [exact Hf|]. intros [k v] Hv. cbn in *.
  by rewrite norm_scalar.
Qed.

(** ** Sealed records *)

Definition sealed (payload : list (str * json)) (digest signature : str) : list (str * json) :=
  [(u "payload", JDict payload); (u "payload_sha256", JStr digest); (u "signature", JStr signature)].

Definition ascii_str (s : str) : Prop := Forall (λ c, is_scalar c = true) s.

Lemma json_ok_sealed payload digest signature :
  json_ok (JDict payload) → ascii_str digest → ascii_str signature →
  json_ok (JDict (sealed payload digest signature)).
Proof. intros. by json_ok_fields. Qed.

(** The text of a sealed record gives the record back, its payload sorted. *)
Lemma loads_sealed L payload digest signature tail :
  keeps_distinct L → json_ok (JDict (sealed payload digest signature)) →
  forallb (λ kv, scalar kv.2) payload = true → tail ∈ [[]; [10]] →
  loads_with L (dumps true (JDict (sealed payload digest signature)) ++ tail)
  = Ok (JDict (sealed (sort_keys payload) digest signature)).
Proof.
  intros HL Hok Hf Ht.
  assert (norm true (JDict (sealed payload digest signature))
          = JDict (sealed (sort_keys payload) digest signature)) as <-.
  { change (norm true (JDict (sealed payload digest signature)))
      with (JDict (sort_keys [(u "payload", norm true (JDict payload)); (u "payload_sha256", JStr digest);
                              (u "signature", JStr signature)])).
    by rewrite norm_flat. }
  apply elem_of_cons in Ht as [->|Ht]; [|apply list_elem_of_singleton in Ht as ->].
  - rewrite app_nil_r. by apply loads_dumps.
  - by apply loads_dumps_line.
Qed.

Lemma dumps_sealed_sorted payload digest signature :
  NoDup payload.*1 →
  dumps true (JDict (sealed (sort_keys payload) digest signature))
  = dumps true (JDict (sealed payload digest signature)).
Proof.
  intros Hd. pose proof (dumps_sort_keys payload Hd) as E. cbn [dumps] in E.
  cbn [dumps sealed map snd fst]. by rewrite E.
Qed.

(** A digest is 64 lower-case hexadecimal digits. *)
Lemma sha256_hex_pattern m : fullmatch (rpow (RClass [r09; raf]) 64) (sha256_hex m) = true.
Proof.
  apply fullmatch_spec, Match_rpow_class. split; [apply sha256_hex_length|].
  eapply Forall_impl; [apply sha256_hex_lower|]. intros c. unfold lower_hex, in_ranges, r09, raf. cbn.
  by rewrite orb_false_r.
Qed.

(** Every member of an object is found under its key. *)
Lemma jget_members kvs : NoDup kvs.*1 → Forall (λ kv, jget kv.1 kvs = kv.2) kvs.
Proof.
  intros Hd. apply Forall_forall. intros [k v] Hin. cbn [fst snd]. unfold jget.
  by rewrite (dict_get_In k kvs v).
Qed.

(** One equation per member of an object with literal keys. *)
Ltac name_members H :=
  repeat (let E := fresh "E" in apply Forall_cons in H as [E H]; cbn [fst snd] in E); clear H.

(** ** Texts and numbers that can be printed *)

(** Every text the pattern accepts is made of scalar values. *)
Fixpoint regex_scalar (r : regex) : bool :=
  match r with
  | REmpty | REps => true
  | RClass rs => forallb (λ ab : Z * Z, (0 <=? ab.1) && (ab.2 <=? 0xD7FF) ||
                                        (0xE000 <=? ab.1) && (ab.2 <=? 0x10FFFF)) rs
  | RSeq r1 r2 | RAlt r1 r2 => regex_scalar r1 && regex_scalar r2
  | RStar r => regex_scalar r
  end.

Lemma regex_scalar_str r s : regex_scalar r = true → fullmatch r s = true → ascii_str s.
Proof.
  intros Hr Hs. eapply fullmatch_forall; [|exact Hs]. clear s Hs. induction r as [| |rs|r1 IH1 r2 IH2|r1 IH1 r2 IH2|r IH];
    cbn [rforall regex_scalar] in *; try (apply andb_true_iff in Hr as [??]); auto.
  intros c Hc. unfold in_ranges in Hc. apply existsb_exists in Hc as ([a b]&Hin&Hab).
  rewrite forallb_forall in Hr. specialize (Hr _ Hin). cbn in *. unfold is_scalar, is_surrogate. breflect. lia.
Qed.

Lemma in_list_scalar (l : list str) s : forallb (forallb is_scalar) l = true → s ∈ l → ascii_str s.
Proof.
  rewrite forallb_Forall_true. intros Hl Hs. apply (Forall_elem _ _ _ Hl) in Hs. by apply forallb_Forall_true.
Qed.

Lemma small_int_ok z n : 0 ≤ z ≤ n → n < 10 ^ MAX_STR_DIGITS → json_ok (JInt z).
Proof. intros Hz Hn. cbn. lia. Qed.
