(* ===== verification/CryptoFacts.v ===== *)
(** What [crypto.py] guarantees: the identities, the signatures and the texts
    that are signed. *)

From S2P Require Import Prelude Errors Text Regex Json Crypto Url Effects Protocol Toy.

(** Every seed has a DID of the accepted shape, the DID names the public key
    of the seed, every payload can be signed with it, and every signature made is
    accepted under that DID. *)
Theorem identity_signs_for_its_did `{Ed25519Laws} (seed : bytes) :
  ∃ did, did_from_private_key seed = Ok did ∧ validate_did did = Ok did ∧
    public_key_from_did did = Ok (ed_public seed) ∧
    ∀ payload, ∃ sig, sign_detached seed payload = Ok sig ∧
      verify_detached_signature did payload sig = true.
Proof.
  destruct (did_from_private_key_total seed) as (did&Hdid&Hp&_). exists did. split; [done|].
  split; [by apply validate_did_Ok|]. split; [by apply public_key_of_own_did|]. intros payload.
  destruct (sign_detached_total seed payload) as (sig&Hsig&_). exists sig.
  split; [done|]. by apply (verify_own_signature seed).
Qed.

Lemma identity_signs_for_its_did_witness :
  ∃ did, did_from_private_key (toy_seed 1) = Ok did ∧ validate_did did = Ok did ∧
    public_key_from_did did = Ok (ed_public (toy_seed 1)) ∧
    ∀ payload, ∃ sig, sign_detached (toy_seed 1) payload = Ok sig ∧
      verify_detached_signature did payload sig = true.
Proof. apply identity_signs_for_its_did. Defined.

(** A signature is over one message only: two messages that are signed as
    the same bytes are for the same room, have the same nonce and the same text. *)
Theorem signed_bytes_injective `{Ed25519} (key1 key2 : bytes) (room1 room2 : str) (n1 n2 : json)
    (text1 text2 swept1 swept2 sig1 sig2 nonce1 nonce2 : str) (signed : bytes) :
  sign_room_message key1 room1 n1 text1 = Ok (swept1, sig1) →
  sign_room_message key2 room2 n2 text2 = Ok (swept2, sig2) →
  validate_nonce n1 = Ok nonce1 → validate_nonce n2 = Ok nonce2 →
  utf8_encode (canonical_message room1 nonce1 swept1) = Ok signed →
  utf8_encode (canonical_message room2 nonce2 swept2) = Ok signed →
  room1 = room2 ∧ nonce1 = nonce2 ∧ swept1 = swept2.
Proof.
  unfold sign_room_message. intros H1 H2 Hn1%validate_nonce_digits Hn2%validate_nonce_digits E1 E2.
  apply res_bind_Ok in H1 as (r1&[-> Hr1]%validate_room_Ok&_).
  apply res_bind_Ok in H2 as (r2&[-> Hr2]%validate_room_Ok&_).
  apply canonical_message_inj_valid; [done..|]. by eapply utf8_encode_inj.
Qed.

Lemma signed_bytes_injective_witness :
  ∃ sig1 sig2, sign_room_message (toy_seed 1) (u "lobby") (JInt 7) (u " hi ") = Ok (u "hi", sig1) ∧
    sign_room_message (toy_seed 2) (u "lobby") (JStr (u "7")) (u "hi") = Ok (u "hi", sig2) ∧
    u "lobby" = u "lobby" ∧ u "7" = u "7" ∧ u "hi" = u "hi".
Proof.
  do 2 eexists. split; [vm_compute; reflexivity|]. split; [vm_compute; reflexivity|].
  eapply (signed_bytes_injective (toy_seed 1) (toy_seed 2) (u "lobby") (u "lobby") (JInt 7) (JStr (u "7"))
    (u " hi ") (u "hi") (u "hi") (u "hi")); by vm_compute.
Defined.

(** C13: what the sweep returns has only visible characters and no surrounding
    white space, is within the limit, is its own sweep, and can be encoded as
    UTF-8 if the text it came from holds code points. *)
Theorem sweep_text_canonical (text : str) (limit : Z) (swept : str) :
  sweep_text text limit = Ok swept →
  Forall (λ c, invisible c = false) swept ∧ swept ≠ [] ∧ length swept ≤ limit ∧ strip swept = swept ∧
  sweep_text swept limit = Ok swept ∧
  (Forall (λ c, is_code_point c = true) text → ∃ b, utf8_encode swept = Ok b).
Proof.
  intros Hs. pose proof (sweep_text_visible _ _ _ Hs) as (Hv&Hne&Hl&Hst).
  do 4 (split; [done|]). split; [by apply sweep_text_fixpoint|].
  intros Hcp. by eapply swept_encodable.
Qed.

Lemma sweep_text_canonical_witness :
  ∃ swept, sweep_text (u " /pr" ++ [9] ++ u "x ") 10 = Ok swept ∧ sweep_text swept 10 = Ok swept.
Proof.
  eexists. split; [vm_compute; reflexivity|].
  eapply (sweep_text_canonical (u " /pr" ++ [9] ++ u "x ") 10). by vm_compute.
Defined.

(** Base 58 is read back as what was written, leading zero bytes included. *)
Theorem base58_round_trip (data : bytes) :
  Forall (λ b, is_byte b = true) data → data ≠ [] →
  _base58btc_decode (_base58btc_encode data) = Ok data.
Proof. apply base58_roundtrip. Qed.

Lemma base58_round_trip_witness : _base58btc_decode (_base58btc_encode [0; 0; 255; 1]) = Ok [0; 0; 255; 1].
Proof. apply base58_round_trip; [|done]. repeat constructor. Defined.
