(* ===== verification/Requests.v ===== *)
(** What the two calls of the Technocore client ask of the server: each makes at
    most one request, the one its arguments determine. *)

From S2P Require Import Prelude Errors Text Json Crypto Url Clock Effects State Quiet Protocol.

Section requests.
Context {Mem : Type} `{Env} `{FloatRepr}.
Implicit Types w : world Mem.
Set Default Proof Using "Type".

(** What follows a request leaves the world alone. *)
Lemma asked_bind {A B} (m : M Mem A) (f : A → M Mem B) url w :
  asked url w (m w).2 → (∀ a, Steps eq (f a)) → asked url w ((m ≫= f) w).2.
Proof.
  intros Hm Hf. unfold mbind, M_bind. destruct (m w) as [[a|e|] w']; try done. cbn.
  rewrite <- (Hf a w'). exact Hm.
Qed.

Lemma request_json_asked url w : asked url w (_request_json url w).2.
Proof. unfold _request_json. apply asked_bind; [apply http_get_asked|]. intros r. quiet. Qed.

(** The requests [m] may make: none, or one that [P] admits. *)
Definition sends_one {A} (P : str → Prop) (m : M Mem A) : Prop :=
  ∀ w, w_fs (m w).2 = w_fs w ∧ w_mem (m w).2 = w_mem w ∧
       (w_trace (m w).2 = w_trace w ∨ ∃ url, P url ∧ w_trace (m w).2 = w_trace w ++ [EvHttp url]).

Lemma sends_one_lift {A B} P (m : res A) (f : A → M Mem B) :
  (∀ x, m = Ok x → sends_one P (f x)) → sends_one P (lift m ≫= f).
Proof. intros Hf w. destruct m as [x|e] eqn:E; [by apply (Hf x)|]. cbn. auto. Qed.

Lemma sends_one_request {A} P url (f : list (str * json) → M Mem A) :
  P url → (∀ a, Steps eq (f a)) → sends_one P (_request_json url ≫= f).
Proof.
  intros HP Hf w. destruct (asked_bind (_request_json url) f url w) as (E1&E2&E3); [apply request_json_asked|done|].
  split; [done|]. split; [done|]. destruct E3 as [->|E3]; eauto.
Qed.

Lemma read_room_request client room since wait limit cb q :
  wait = Finite q (u "0") →
  sends_one (λ url, url = read_url client room since q limit cb) (read_room client room since wait limit cb).
Proof.
  intros ->. unfold read_room, check. apply sends_one_lift. intros r [-> _]%validate_room_Ok.
  apply sends_one_lift. intros ? _. apply sends_one_lift. intros q' Hq.
  assert (q' = q) as -> by (unfold _bounded_float in Hq; by apply res_bind_Ok in Hq as (?&_&[= ->])).
  do 3 (apply sends_one_lift; intros ? _). apply sends_one_request; [done|]. intros a. quiet.
Qed.

(** Whatever wait is asked for. *)
Lemma read_room_asks client room since wait limit cb :
  sends_one (λ url, ∃ q, url = read_url client room since q limit cb)
    (read_room client room since wait limit cb).
Proof.
  unfold read_room, check. apply sends_one_lift. intros r [-> _]%validate_room_Ok.
  apply sends_one_lift. intros ? _. apply sends_one_lift. intros q' _.
  do 3 (apply sends_one_lift; intros ? _). apply sends_one_request; [by exists q'|]. intros a. quiet.
Qed.

Lemma request_json_heard url kvs w w' :
  _request_json url w = (Ret kvs, w') → w_trace w' = w_trace w ++ [EvHttp url].
Proof.
  unfold _request_json. intros (a&w1&Hg%http_get_heard&Hr)%bind_Ret. rewrite <- Hg.
  destruct a; try by apply raise_Ret in Hr.
  apply bind_Ret in Hr as (?&?&[_ ->]%check_Ret&Hr). apply bind_Ret in Hr as (v&?&[_ ->]%lift_Ret&Hr).
  destruct v; try by apply raise_Ret in Hr. by apply ret_Ret in Hr as [_ ->].
Qed.

(** A snapshot that came back was asked for. *)
Lemma read_room_heard client room since q limit cb snapshot w w' :
  read_room client room since (Finite q (u "0")) limit cb w = (Ret snapshot, w') →
  w_trace w' = w_trace w ++ [EvHttp (read_url client room since q limit cb)].
Proof.
  unfold read_room. intros (r&w1&[[-> _]%validate_room_Ok ->]%lift_Ret&Hr)%bind_Ret.
  apply bind_Ret in Hr as (?&w2&[_ ->]%check_Ret&Hr). apply bind_Ret in Hr as (q'&w3&[Hq ->]%lift_Ret&Hr).
  assert (q' = q) as -> by (unfold _bounded_float in Hq; by apply res_bind_Ok in Hq as (?&_&[= ->])).
  do 3 apply bind_Ret in Hr as (?&?&[_ ->]%check_Ret&Hr).
  by apply bind_Ret in Hr as (p&w4&Hq4%request_json_heard&[_ ->]%lift_Ret).
Qed.

Lemma send_request client room did sig nonce text :
  sends_one (λ url, ∃ n, validate_nonce nonce = Ok n ∧ send_url client room did sig n text = Ok url)
    (send_signed_message client room did sig nonce text).
Proof.
  unfold send_signed_message, check. apply sends_one_lift. intros r [-> _]%validate_room_Ok.
  apply sends_one_lift. intros d [-> _]%validate_did_Ok. apply sends_one_lift. intros n Hn.
  apply sends_one_lift. intros ? _. apply sends_one_lift. intros url Hu.
  apply sends_one_lift. intros ? _. apply sends_one_lift. intros ? _.
  apply sends_one_request; [by exists n|]. intros a. quiet.
Qed.
(** A message that was acknowledged was sent. *)
Lemma send_heard client room did sig nonce text posted w w' :
  send_signed_message client room did sig nonce text w = (Ret posted, w') →
  ∃ n url, validate_nonce nonce = Ok n ∧ send_url client room did sig n text = Ok url ∧
           w_trace w' = w_trace w ++ [EvHttp url] ∧ w_mem w' = w_mem w.
Proof.
  intros Hs. destruct (send_request client room did sig nonce text w) as (_&Hm&_). rewrite Hs in Hm.
  cbn in Hm. revert Hs. unfold send_signed_message. intros (r&w1&[[-> _]%validate_room_Ok ->]%lift_Ret&Hs)%bind_Ret.
  apply bind_Ret in Hs as (d&w1&[[-> _]%validate_did_Ok ->]%lift_Ret&Hs).
  apply bind_Ret in Hs as (n&w1&[Hn ->]%lift_Ret&Hs). apply bind_Ret in Hs as (?&?&[_ ->]%check_Ret&Hs).
  apply bind_Ret in Hs as (url&?&[Hu ->]%lift_Ret&Hs). apply bind_Ret in Hs as (?&?&[_ ->]%lift_Ret&Hs).
  apply bind_Ret in Hs as (?&?&[_ ->]%check_Ret&Hs). apply bind_Ret in Hs as (p&w2&Hr%request_json_heard&Hs).
  apply bind_Ret in Hs as (?&?&[_ ->]%lift_Ret&Hs). apply bind_Ret in Hs as (?&?&[_ ->]%lift_Ret&Hs).
  apply bind_Ret in Hs as (?&?&[_ ->]%check_Ret&[_ ->]%ret_Ret). by exists n, url.
Qed.

End requests.
