(* ===== verification/WorkVerifier.v ===== *)
(** [work_receipt_verifier.py]: the offline check of work receipts, the
    countersignatures included. *)

From S2P Require Import Prelude Errors Text Regex Sha256 Json Crypto Clock.

Definition WORK_RECEIPT_SCHEMA : str := u "work-receipt-v1".
Definition WORK_RECEIPT_ENVELOPE_SCHEMA : str := u "work-receipt-envelope-v1".
Definition WORK_COUNTERSIGNATURE_SCHEMA : str := u "work-receipt-countersignature-v1".
Definition MAX_COMMAND_ARGUMENTS : Z := 64.
Definition MAX_COMMAND_ARGUMENT_BYTES : Z := 4096.
Definition MAX_COMMAND_BYTES : Z := 16 * 1024.
Definition MAX_OUTPUT_BYTES : Z := 16 * 1024 * 1024.
Definition MAX_RECEIPT_BYTES : Z := 128 * 1024.
Definition MAX_COUNTERSIGNATURES : Z := 16.
Definition SHA256_PATTERN : regex := rpow (RClass [r09; raf]) 64.
Definition GIT_SHA_PATTERN : regex := rpow (RClass [r09; raf]) 40.
Definition OWNER_PATTERN : regex :=
  RSeq (RClass [rAZ; raz; r09])
    (ropt (RSeq (rrep (RClass [rAZ; raz; r09; rc 45]) 0 37) (RClass [rAZ; raz; r09]))).
Definition REPOSITORY_PATTERN : regex := rrep (RClass [rAZ; raz; r09; rc 95; rc 46; rc 45]) 1 100.

Definition WORK_PAYLOAD_KEYS : list str :=
  [u "schema"; u "issuer"; u "repository"; u "commit"; u "command"; u "timeout_ms"; u "result";
   u "exit_code"; u "stdout_sha256"; u "stdout_bytes"; u "stderr_sha256"; u "stderr_bytes";
   u "started_at"; u "completed_at"; u "duration_ms"].
Definition EXECUTION_KEYS : list str :=
  [u "repository"; u "commit"; u "command"; u "timeout_ms"; u "result"; u "exit_code";
   u "stdout_sha256"; u "stdout_bytes"; u "stderr_sha256"; u "stderr_bytes"].
Definition COUNTERSIGNATURE_PAYLOAD_KEYS : list str :=
  [u "schema"; u "verifier"; u "receipt_payload_sha256"; u "execution_sha256"; u "observed_at"].
Definition SIGNED_WRAPPER_KEYS : list str := [u "payload"; u "payload_sha256"; u "signature"].
Definition ENVELOPE_KEYS : list str := [u "schema"; u "receipt"; u "countersignatures"].

Record WorkReceiptSummary := MkWorkReceiptSummary {
  ws_payload : list (str * json);
  ws_countersignatures : Z;
  matching_countersignatures : Z
}.

(** The message of a check on a field names the field. *)
Definition invalid (label : string) : exn :=
  WorkReceiptError ("work receipt contains an invalid " ++ label).

Definition _canonical_json (value : list (str * json)) : bytes := canonical_json (JDict value).

(** ** Checks on fields *)

Definition _parse_timestamp (value : json) (label : string) : res datetime :=
  match value with
  | JStr s =>
      raise_if (negb (fullmatch TIMESTAMP_PATTERN s)) (invalid label);;
      raise_if (negb (fromisoformat_ok s)) (invalid label);;
      Ok (timestamp_fields s)
  | _ => Err (invalid label)
  end.

Definition _require_sha256 (value : json) (label : string) : res str :=
  match value with
  | JStr s => raise_if (negb (fullmatch SHA256_PATTERN s)) (invalid label);; Ok s
  | _ => Err (invalid label)
  end.

Definition _require_nonnegative_int (value : json) (label : string) (maximum : Z) : res Z :=
  match value with
  | JInt z => raise_if ((z <? 0) || (maximum <? z)) (invalid label);; Ok z
  | _ => Err (invalid label)
  end.

Definition _validate_repository (value : json) : res str :=
  match value with
  | JStr s =>
      raise_if (negb (count_char 47 s =? 1)) (invalid "repository");;
      let '(owner, repository) := partition 47 s in
      let repository := default [] repository in
      raise_if (negb (fullmatch OWNER_PATTERN owner) || negb (fullmatch REPOSITORY_PATTERN repository) ||
                (repository in? [u "."; u ".."]) || endswith (u ".git") repository)
        (invalid "repository");;
      Ok s
  | _ => Err (invalid "repository")
  end.

(** One argument of the command, and the bytes counted so far. *)
Definition command_argument (index : nat) (total : Z) (argument : json) : res (str * Z) :=
  match argument with
  | JStr s =>
      raise_if (bool_decide (0 ∈ s)) (WorkReceiptError "command arguments must be safe strings");;
      raw ← res_catch (utf8_encode s) is_ValueError
        (λ _, Err (WorkReceiptError "command arguments must be valid UTF-8"));
      let size := Z.of_nat (length raw) in
      raise_if ((MAX_COMMAND_ARGUMENT_BYTES <? size) || ((Z.of_nat index =? 0) && (size =? 0)))
        (WorkReceiptError "command contains an invalid argument");;
      Ok (s, total + size)
  | _ => Err (WorkReceiptError "command arguments must be safe strings")
  end.

Fixpoint command_arguments (index : nat) (total : Z) (l : list json) : res (list str * Z) :=
  match l with
  | [] => Ok ([], total)
  | argument :: l' =>
      '(s, total) ← command_argument index total argument;
      '(rest, total) ← command_arguments (S index) total l';
      Ok (s :: rest, total)
  end.

Definition _validate_command (command : json) : res (list str) :=
  match command with
  | JList normalized =>
      raise_if ((normalized == []) || (MAX_COMMAND_ARGUMENTS <? length normalized))
        (WorkReceiptError "command must contain 1-64 arguments");;
      '(arguments, total) ← command_arguments 0 0 normalized;
      raise_if (MAX_COMMAND_BYTES <? total)
        (WorkReceiptError "command exceeds the work receipt size limit");;
      Ok arguments
  | _ => Err (WorkReceiptError "command must be an argv sequence")
  end.

(** [v == 0] in Python: the integer, [False], a zero float. *)
Definition py_zero (v : json) : bool :=
  match v with
  | JInt z => z =? 0
  | JBool b => negb b
  | JFloat (Finite q _) => Qeq_bool q 0
  | _ => false
  end.

Definition _validate_result (result exit_code : json) : res unit :=
  if result == JStr (u "passed") then
    raise_if (negb (py_zero exit_code)) (WorkReceiptError "passed work receipt must have exit code zero")
  else if result == JStr (u "failed") then
    match exit_code with
    | JInt z =>
        raise_if (z =? 0) (WorkReceiptError "failed work receipt must have a nonzero exit code");;
        raise_if (negb ((-255 <=? z) && (z <=? 255)))
          (WorkReceiptError "failed work receipt exit code is outside bounds")
    | _ => Err (WorkReceiptError "failed work receipt must have a nonzero exit code")
    end
  else if result == JStr (u "timed_out") then
    raise_if (exit_code != JNull) (WorkReceiptError "timed-out work receipt must not claim an exit code")
  else Err (WorkReceiptError "work receipt contains an invalid result").

(** [validate_did] of a value, its errors turned into this module's. *)
Definition require_did (value : json) (e : exn) : res str :=
  res_catch (validate_did_value value) (λ x, is_ProtocolValueError x || is_TypeError x) (λ _, Err e).

Definition _validate_work_payload (payload : list (str * json)) : res unit :=
  raise_if (negb (has_exact_keys payload WORK_PAYLOAD_KEYS) ||
            (jget (u "schema") payload != JStr WORK_RECEIPT_SCHEMA))
    (WorkReceiptError "work receipt payload uses an unsupported schema");;
  require_did (jget (u "issuer") payload) (WorkReceiptError "work receipt contains an invalid issuer DID");;
  _validate_repository (jget (u "repository") payload);;
  raise_if (match jget (u "commit") payload with
            | JStr s => negb (fullmatch GIT_SHA_PATTERN s)
            | _ => true
            end) (WorkReceiptError "work receipt contains an invalid commit SHA");;
  _validate_command (jget (u "command") payload);;
  timeout_ms ← _require_nonnegative_int (jget (u "timeout_ms") payload) "timeout" 3600000;
  raise_if (timeout_ms =? 0) (WorkReceiptError "work receipt timeout must be positive");;
  _validate_result (jget (u "result") payload) (jget (u "exit_code") payload);;
  _require_sha256 (jget (u "stdout_sha256") payload) "stdout hash";;
  _require_sha256 (jget (u "stderr_sha256") payload) "stderr hash";;
  _require_nonnegative_int (jget (u "stdout_bytes") payload) "stdout byte count" MAX_OUTPUT_BYTES;;
  _require_nonnegative_int (jget (u "stderr_bytes") payload) "stderr byte count" MAX_OUTPUT_BYTES;;
  started ← _parse_timestamp (jget (u "started_at") payload) "start timestamp";
  completed ← _parse_timestamp (jget (u "completed_at") payload) "completion timestamp";
  raise_if (datetime_ltb completed started) (WorkReceiptError "work receipt completes before it starts");;
  _require_nonnegative_int (jget (u "duration_ms") payload) "duration" 3700000;;
  Ok tt.

Definition _validate_countersignature_payload (payload : list (str * json)) : res unit :=
  raise_if (negb (has_exact_keys payload COUNTERSIGNATURE_PAYLOAD_KEYS) ||
            (jget (u "schema") payload != JStr WORK_COUNTERSIGNATURE_SCHEMA))
    (WorkReceiptError "countersignature payload uses an unsupported schema");;
  require_did (jget (u "verifier") payload)
    (WorkReceiptError "countersignature contains an invalid verifier DID");;
  _require_sha256 (jget (u "receipt_payload_sha256") payload) "receipt reference";;
  _require_sha256 (jget (u "execution_sha256") payload) "execution reference";;
  _parse_timestamp (jget (u "observed_at") payload) "countersignature timestamp";;
  Ok tt.

(** ** The claim two executions must agree on *)

Definition _execution_claim (payload : list (str * json)) : list (str * json) :=
  map (λ key, (key, jget key payload)) EXECUTION_KEYS.

Definition _execution_sha256 (payload : list (str * json)) : str :=
  sha256_hex (_canonical_json (_execution_claim payload)).

(** ** Signatures *)

Section verifier.
Context `{Ed25519}.

(** [verify_detached_signature] of the two JSON values; it takes no signature
    that is not a text. *)
Definition signed_by (signer : json) (canonical : bytes) (signature : json) : bool :=
  match signer, signature with
  | JStr did, JStr s => verify_detached_signature did canonical s
  | _, _ => false
  end.

Definition _verify_signed_wrapper (value : json) (signer_key : str) : res (list (str * json)) :=
  wrapper ← of_option (WorkReceiptError "signed work receipt wrapper has unexpected fields")
    (match value with JDict kvs => Some kvs | _ => None end);
  raise_if (negb (has_exact_keys wrapper SIGNED_WRAPPER_KEYS))
    (WorkReceiptError "signed work receipt wrapper has unexpected fields");;
  payload ← of_option (WorkReceiptError "signed work receipt payload must be an object")
    (match jget (u "payload") wrapper with JDict kvs => Some kvs | _ => None end);
  let canonical := _canonical_json payload in
  let expected_hash := sha256_hex canonical in
  raise_if (jget (u "payload_sha256") wrapper != JStr expected_hash)
    (WorkReceiptError "work receipt payload hash does not match");;
  let signer := jget signer_key payload in
  require_did signer (WorkReceiptError "signed work receipt contains an invalid DID");;
  raise_if (negb (signed_by signer canonical (jget (u "signature") wrapper)))
    (WorkReceiptError "work receipt signature does not match its signer");;
  Ok payload.

(** One turn of the loop over the countersignatures: the verifiers seen before,
    the verifiers seen so far. *)
Definition _verify_countersignature (payload : list (str * json)) (expected_receipt_hash : json)
    (completed_at : datetime) (verifiers : list json) (signed_counter : json) : res (list json) :=
  counter_payload ← _verify_signed_wrapper signed_counter (u "verifier");
  _validate_countersignature_payload counter_payload;;
  let verifier := jget (u "verifier") counter_payload in
  raise_if (verifier == jget (u "issuer") payload)
    (WorkReceiptError "worker cannot countersign its own receipt");;
  raise_if (verifier in? verifiers)
    (WorkReceiptError "work receipt contains a duplicate countersigner");;
  raise_if (jget (u "receipt_payload_sha256") counter_payload != expected_receipt_hash)
    (WorkReceiptError "countersignature refers to a different receipt");;
  raise_if (jget (u "execution_sha256") counter_payload != JStr (_execution_sha256 payload))
    (WorkReceiptError "countersignature refers to different execution evidence");;
  observed_at ← _parse_timestamp (jget (u "observed_at") counter_payload) "countersignature timestamp";
  raise_if (datetime_ltb observed_at completed_at)
    (WorkReceiptError "countersignature predates the primary execution");;
  Ok (verifier :: verifiers).

(** [_verify_and_decode] of a decoded envelope. *)
Definition _verify_envelope (decoded : json) : res (WorkReceiptSummary * list (str * json)) :=
  envelope ← of_option (WorkReceiptError "work receipt must contain a JSON object")
    (match decoded with JDict kvs => Some kvs | _ => None end);
  raise_if (negb (has_exact_keys envelope ENVELOPE_KEYS) ||
            (jget (u "schema") envelope != JStr WORK_RECEIPT_ENVELOPE_SCHEMA))
    (WorkReceiptError "work receipt envelope uses an unsupported schema");;
  let signed_receipt := jget (u "receipt") envelope in
  payload ← _verify_signed_wrapper signed_receipt (u "issuer");
  _validate_work_payload payload;;
  countersignatures ← of_option (WorkReceiptError "work receipt contains invalid countersignatures")
    (match jget (u "countersignatures") envelope with JList l => Some l | _ => None end);
  raise_if (MAX_COUNTERSIGNATURES <? length countersignatures)
    (WorkReceiptError "work receipt contains invalid countersignatures");;
  let expected_receipt_hash :=
    match signed_receipt with JDict kvs => jget (u "payload_sha256") kvs | _ => JNull end in
  completed_at ← _parse_timestamp (jget (u "completed_at") payload) "completion timestamp";
  foldM_res (_verify_countersignature payload expected_receipt_hash completed_at) [] countersignatures;;
  Ok (MkWorkReceiptSummary payload (length countersignatures) (length countersignatures), envelope).

(** [_decode] of a text. *)
Definition _decode (receipt : str) : res json :=
  raw ← utf8_encode receipt;
  raise_if (MAX_RECEIPT_BYTES <? length raw) (WorkReceiptError "work receipt exceeds the artifact size limit");;
  res_catch (loads receipt) is_ValueError (λ _, Err (WorkReceiptError "work receipt is not valid JSON")).

Definition _verify_and_decode (receipt : str) : res (WorkReceiptSummary * list (str * json)) :=
  decoded ← _decode receipt; _verify_envelope decoded.

Definition verify_work_receipt (decoded : json) : res WorkReceiptSummary :=
  '(summary, _) ← _verify_envelope decoded; Ok summary.

(** What is rendered is the envelope as it was given. *)
Definition render_work_receipt (decoded : json) : res str :=
  '(_, envelope) ← _verify_envelope decoded;
  let rendered := dumps true (JDict envelope) in
  raise_if (MAX_RECEIPT_BYTES <? length rendered)
    (WorkReceiptError "work receipt exceeds the artifact size limit");;
  Ok rendered.
End verifier.
