(* ===== verification/Capabilities.v ===== *)
(** [capabilities.py]: the capability policy file, its grants and the
    persistent rate limiter. *)

From S2P Require Import Prelude Errors Text Regex Json Crypto Effects State Memory.

Definition CAPABILITY_SCHEMA : str := u "technocore-safe-agent-capabilities-v1".
Definition MAX_POLICY_BYTES : Z := 64 * 1024.
Definition MAX_PRINCIPALS : nat := 128.
Definition MAX_REQUESTS_PER_HOUR : Z := 1000.
Definition WINDOW_SECONDS : Z := 3600.
Definition SUPPORTED_COMMANDS : list str := [u "/ping"; u "/status"; u "/about"; u "/help"; u "/pr"].
Definition POLICY_KEYS : list str := [u "schema"; u "principals"].
Definition GRANT_KEYS : list str :=
  [u "enabled"; u "commands"; u "repositories"; u "max_requests_per_hour"].

(** [[A-Za-z0-9](?:[A-Za-z0-9-]{0,37}[A-Za-z0-9])?\Z] *)
Definition alnum : list (Z * Z) := [rAZ; raz; r09].
Definition OWNER_PATTERN : regex :=
  RSeq (RClass alnum) (ropt (RSeq (rrep (RClass (alnum ++ [rc 45])) 0 37) (RClass alnum))).
Definition REPOSITORY_PATTERN : regex := rrep (RClass (alnum ++ [rc 95; rc 46; rc 45])) 1 100.

Record CapabilityGrant := MkCapabilityGrant {
  enabled : bool;
  commands : list str;
  repositories : list str;
  max_requests_per_hour : Z
}.

#[export] Instance CapabilityGrant_eq_dec : EqDecision CapabilityGrant.
Proof. solve_decision. Defined.

Definition allows_repository (full_name : str) (grant : CapabilityGrant) : bool :=
  let candidate := casefold full_name in
  existsb (λ scope,
    if endswith (u "/*") scope
    then startswith (take (length scope - 1) scope) candidate && (count_char 47 candidate =? 1)
    else candidate == scope) (repositories grant).

(** ** Parsing a policy *)

Definition _commands (value : json) : res (list str) :=
  match value with
  | JList l =>
      foldM_res (λ checked command,
        match command with
        | JStr c =>
            raise_if (negb (c in? SUPPORTED_COMMANDS))
              (CapabilityError "capability grant contains an unsupported command");;
            raise_if (c in? checked) (CapabilityError "capability grant contains a duplicate command");;
            Ok (checked ++ [c])
        | _ => Err (CapabilityError "capability grant contains an unsupported command")
        end) [] l
  | _ => Err (CapabilityError "capability commands must be an array")
  end.

Definition valid_repository_name (repository : str) : bool :=
  fullmatch REPOSITORY_PATTERN repository and
  negb (repository in? [u "."; u ".."]) and negb (endswith (u ".git") repository).

Definition _repository_scope (value : json) : res str :=
  match value with
  | JStr v =>
      raise_if ((v != strip v) || negb (count_char 47 v =? 1))
        (CapabilityError "capability repository scope is invalid");;
      let '(owner, repository) := partition 47 v in
      let repository := default [] repository in
      raise_if (negb (fullmatch OWNER_PATTERN owner))
        (CapabilityError "capability repository owner is invalid");;
      raise_if ((repository != u "*") and negb (valid_repository_name repository))
        (CapabilityError "capability repository name is invalid");;
      Ok (casefold (owner ++ u "/" ++ repository))
  | _ => Err (CapabilityError "capability repository scope is invalid")
  end.

Definition _repository_scopes (value : json) : res (list str) :=
  match value with
  | JList l =>
      foldM_res (λ checked raw_scope,
        scope ← _repository_scope raw_scope;
        raise_if (scope in? checked) (CapabilityError "capability grant contains a duplicate repository");;
        Ok (checked ++ [scope])) [] l
  | _ => Err (CapabilityError "capability repositories must be an array")
  end.

Definition _parse_grant (payload : json) : res CapabilityGrant :=
  match payload with
  | JDict kvs =>
      raise_if (negb (has_exact_keys kvs GRANT_KEYS))
        (CapabilityError "capability grant has unexpected fields");;
      enabled ← (match jget (u "enabled") kvs with
                 | JBool b => Ok b
                 | _ => Err (CapabilityError "capability grant enabled flag must be boolean")
                 end);
      commands ← _commands (jget (u "commands") kvs);
      repositories ← _repository_scopes (jget (u "repositories") kvs);
      raise_if (enabled and (commands == []))
        (CapabilityError "enabled capability grant must contain a command");;
      raise_if ((u "/pr" in? commands) and enabled and (repositories == []))
        (CapabilityError "an enabled /pr grant requires a repository scope");;
      raise_if (negb (u "/pr" in? commands) and (repositories != []))
        (CapabilityError "repository scopes require the /pr command");;
      rate ← (match jget (u "max_requests_per_hour") kvs with
              | JInt z =>
                  raise_if (negb ((1 <=? z) && (z <=? MAX_REQUESTS_PER_HOUR)))
                    (CapabilityError "max_requests_per_hour must be between 1 and 1000");;
                  Ok z
              | _ => Err (CapabilityError "max_requests_per_hour must be between 1 and 1000")
              end);
      Ok (MkCapabilityGrant enabled commands repositories rate)
  | _ => Err (CapabilityError "capability grant has unexpected fields")
  end.

Abbreviation CapabilityPolicy := (gmap str CapabilityGrant) (only parsing).

Definition _parse_policy (payload : json) : res CapabilityPolicy :=
  match payload with
  | JDict kvs =>
      raise_if (negb (has_exact_keys kvs POLICY_KEYS))
        (CapabilityError "capability policy has unexpected top-level fields");;
      raise_if (jget (u "schema") kvs != JStr CAPABILITY_SCHEMA)
        (CapabilityError "capability policy has an unsupported schema");;
      raw_principals ← (match jget (u "principals") kvs with
                        | JDict p => Ok p
                        | _ => Err (CapabilityError "capability policy principals must be an object")
                        end);
      raise_if (MAX_PRINCIPALS <? length raw_principals)%nat
        (CapabilityError "capability policy contains too many principals");;
      foldM_res (λ principals raw,
        did ← res_catch (validate_did raw.1) is_ProtocolValueError
          (λ _, Err (CapabilityError "capability policy contains an invalid DID"));
        grant ← _parse_grant raw.2;
        Ok (<[did := grant]> principals)) ∅ raw_principals
  | _ => Err (CapabilityError "capability policy has unexpected top-level fields")
  end.

Definition _decode_json (raw : bytes) : res json :=
  res_catch
    (loads_bytes_with
       (Loader (reject_duplicates (CapabilityError "capability policy contains a duplicate JSON key"))
          (λ t, Ok (JFloat (NonFinite t)))) raw)
    (λ e, is_UnicodeDecodeError e || is_JSONDecodeError e)
    (λ _, Err (CapabilityError "capability policy is not valid JSON")).

(** The chunked reading stops at the limit; what it returns is the file, or an
    error when the file is longer. *)
Definition _read_bounded (raw : bytes) : res bytes :=
  raise_if (MAX_POLICY_BYTES <? length raw) (CapabilityError "capability policy exceeds the 64 KiB limit");;
  Ok raw.

(** ** The policy file and the rate limiter *)

Section capabilities.
Context `{Env}.

(** [CapabilityPolicyFile.load] *)
Definition load_policy (p : path) : IO CapabilityPolicy :=
  payload ← os_errors (CapabilityError "cannot access capability policy")
    (metadata ← open_nofollow p;
     check (negb (bool_decide (f_kind metadata = Regular)))
       (CapabilityError "capability policy must be a regular file");;
     check (negb (Z.land (f_mode metadata) MODE_GROUP_OTHER =? 0))
       (CapabilityError "capability policy permissions must not allow group or other access");;
     check (negb (f_uid metadata =? env_euid))
       (CapabilityError "capability policy must be owned by the current user");;
     raw ← os_errors (CapabilityError "cannot read capability policy")
       (action;; lift (_read_bounded (f_data metadata)));
     lift (_decode_json raw));
  lift (_parse_policy payload).

Record CapabilityRateLimiter := MkCapabilityRateLimiter {
  limiter_state_path : path;
  consume : bool
}.

(** [int(raw_now)] of a finite non-negative [float] is its floor. *)
Definition allow (did : str) (limit : Z) (limiter : CapabilityRateLimiter) : IO bool :=
  valid_did ← lift (res_catch (validate_did did) is_ProtocolValueError
                      (λ _, Err (CapabilityError "rate-limit principal DID is invalid")));
  check (negb ((1 <=? limit) && (limit <=? MAX_REQUESTS_PER_HOUR)))
    (CapabilityError "rate limit is outside the supported range");;
  raw_now ← time_time;
  now ← lift (match raw_now with
              | Finite q _ =>
                  if Qle_bool 0 q then Ok (Qnum q / Zpos (Qden q))
                  else Err (CapabilityError "rate-limit clock returned an invalid timestamp")
              | NonFinite _ => Err (CapabilityError "rate-limit clock returned an invalid timestamp")
              end);
  count ← ask_state (capability_request_count valid_did now WINDOW_SECONDS);
  if limit <=? count then mret false
  else
    (if consume limiter then
       modify_state (reserve_capability_request valid_did now WINDOW_SECONDS);;
       save_state (limiter_state_path limiter)
     else mret tt);;
    mret true.
End capabilities.

(** ** What the limiter does to the world *)

Section limiter_steps.
Context `{HEnv : Env} {HLaws : EnvLaws}.
Set Default Proof Using "All".

Lemma floor_printable n q t :
  env_time n = Finite q t → Qnum q / Zpos (Qden q) < 10 ^ MAX_STR_DIGITS.
Proof.
  intros Hq%env_time_range. unfold Qlt, inject_Z in Hq. cbn [Qnum Qden] in Hq.
  assert (2 ^ 1024 ≤ 10 ^ MAX_STR_DIGITS) by (apply Z.leb_le; by vm_compute).
  eapply Z.lt_le_trans; [|eassumption]. apply Z.div_lt_upper_bound; [done|].
  set (x := 2 ^ 1024) in *. clearbody x. lia.
Qed.

Lemma reserve_cursors d now window s s' :
  reserve_capability_request d now window s = Ok s' → cursors s' = cursors s.
Proof.
  unfold reserve_capability_request. intros H. apply res_bind_Ok in H as (?&_&H).
  apply res_bind_Ok in H as (?&_&H). apply res_bind_Ok in H as (?&_&H). by apply Ok_inj in H as <-.
Qed.

Lemma time_time_Ret x (w w' : world memory) :
  time_time w = (Ret x, w') → x = env_time (w_tick w) ∧ w' = ticked w.
Proof using Type. by intros [= <- <-]. Qed.

Lemma steps_allow did limit limiter :
  is_temp (limiter_state_path limiter) = false →
  Steps (state_step (limiter_state_path limiter)) (allow did limit limiter).
Proof.
  intros Hsp w0. set (sp := limiter_state_path limiter). unfold allow.
  apply (steps_bind_at (state_step sp)); [apply keeps_lift; apply _|]. intros d w1 [Hd ->]%lift_Ret.
  apply res_catch_Ok in Hd as [[-> Hd]%validate_did_Ok|(?&_&_&?)]; [|done].
  apply (steps_bind_at (state_step sp)); [apply keeps_check; apply _|].
  intros [] w1 [Hl%negb_false_iff ->]%check_Ret. apply andb_true_iff in Hl as [_ Hl%Z.leb_le].
  apply (steps_bind_at (state_step sp)); [apply keeps_state_step, keeps_time_time; apply _|].
  intros raw w1 [-> ->]%time_time_Ret.
  apply (steps_bind_at (state_step sp)); [apply keeps_lift; apply _|]. intros now w2 [Hnow ->]%lift_Ret.
  assert (now < 10 ^ MAX_STR_DIGITS) as Hb.
  { destruct (env_time _) as [q t|] eqn:Et; [|done]. destruct (Qle_bool 0 q); [|done].
    apply Ok_inj in Hnow as <-. by eapply floor_printable. }
  clear Hnow. generalize (ticked w0) as w1. clear w0. intros w1.
  apply (steps_bind_at (state_step sp)); [apply keeps_state_step, keeps_ask_state; apply _|].
  intros n w2 Hn. unfold ask_state in Hn. apply bind_Ret in Hn as (s&w3&[= <- <-]&[Hn ->]%lift_Ret).
  destruct (Z.leb_spec limit n); [reflexivity|]. destruct (consume limiter); [|reflexivity].
  change (wp ((modify_state (reserve_capability_request did now WINDOW_SECONDS);; save_state sp);; mret true)
            (λ _ w', state_step sp w1 w') w1).
  apply wp_bind, wp_bind, wp_modify_state.
  destruct (reserve_capability_request _ _ _ _) as [s'|e] eqn:Er; [|reflexivity].
  assert (state_step sp w1 (with_state s' w1)) as Hs.
  { apply steps_with_state; [by eapply reserve_cursors|]. intros Hwf.
    eapply reserve_wf; [exact Hn| |exact Er|done..].
    unfold MAX_REQUESTS_PER_HOUR, MAX_CAPABILITY_HISTORY in *. lia. }
  eapply wp_mono with (Φ := λ _ w', state_step sp w1 w').
  - unfold wp. etrans; [exact Hs|]. by apply steps_save_state.
  - intros [[]|e|] w' H'; done.
Qed.
End limiter_steps.

Section policy_steps.
Context `{HEnv : Env}.

Lemma keeps_load_policy P p : Keeps P same_state (load_policy p).
Proof. unfold load_policy, os_errors. keeps. Qed.
End policy_steps.
#[export] Hint Resolve keeps_load_policy : keeps.
