(* ===== verification/StateFacts.v ===== *)
(** What [state.py] and the rate limiter of [capabilities.py] guarantee. *)

From S2P Require Import Prelude Errors Text Regex Json Crypto Url Effects State Memory Protocol.
From S2P Require Import Toy Capabilities.

(** ** Files *)

Section raw_errors.
Context {Mem : Type} `{Env}.
Implicit Types w : world Mem.
Set Default Proof Using "Type".

(** The action failed with an [OSError]. *)
Definition refused (n : nat) : Prop := env_fault n = OsFault ∨ env_fault n = BlockFault.

(** The two ways in which a save may fail with a bare [OSError]: the directory
    could not be made, which was the first action; or the temporary file could not
    be removed again, which was the last one, and then it is still there and the
    target is as it was. *)
Definition no_directory w w' : Prop := refused (w_tick w) ∧ w' = ticked w.
Definition temporary_left (p : path) w w' : Prop :=
  refused (pred (w_tick w')) ∧ w_fs w' !! p = w_fs w !! p ∧ is_Some (w_fs w' !! Temp (S (w_tick w))).

(** A step that fails leaves the temporary file where it is. *)
Lemma wp_rename_fails n p data w :
  is_Some (w_fs w !! Temp n) →
  wp (chmod (Temp n) MODE_0600;; write_bytes (Temp n) data;; fsync (Temp n);; mret tt;; replace (Temp n) p)
    (λ o w', o ≠ Ret tt → is_Some (w_fs w' !! Temp n) ∧ ∀ q, q ≠ Temp n → w_fs w' !! q = w_fs w !! q) w.
Proof.
  intros [x Hx].
  apply wp_bind, wp_update_file; cbn; [|by split; [eexists|]..].
  apply wp_bind, wp_update_file; cbn; rewrite ?lookup_alter_eq, ?Hx; cbn;
    [|by split; [eexists|intros q Hq; by rewrite lookup_alter_ne]..].
  apply wp_bind, wp_plain_action; cbn; rewrite ?lookup_alter_eq, ?Hx; cbn;
    [|by split; [eexists|intros q Hq; by rewrite !lookup_alter_ne]..].
  apply wp_bind, wp_ret. eapply wp_replace; cbn; rewrite ?lookup_alter_eq, ?Hx; cbn; [done|done|..];
    intros _; by split; [eexists|intros q Hq; by rewrite !lookup_alter_ne].
Qed.

Lemma unlink_quiet_raises p e w w' : unlink_quiet p w = (Raise e, w') → refused (w_tick w) ∧ w' = ticked w.
Proof.
  unfold unlink_quiet, unlink, try_except, mbind, M_bind, action, mbind, M_bind, refused, raise. cbn.
  destruct (env_fault (w_tick w)); cbn; [|by intros [= _ <-]; auto..|done].
  destruct (w_fs w !! p); cbn; by intros [=].
Qed.

Lemma os_errors_not_raw {A} err (m : M Mem A) w w' : is_OSError err = false → os_errors err m w ≠ (Raise OSError, w').
Proof.
  intros He. unfold os_errors, try_except, raise. destruct (m w) as [[a|e|] w1]; try done.
  destruct (is_OSError e) eqn:E; intros [=]; by subst.
Qed.

Lemma write_temporary_raw err p data w w' :
  is_OSError err = false → is_temp p = false → write_temporary err p data w = (Raise OSError, w') →
  refused (pred (w_tick w')) ∧ w_fs w' !! p = w_fs w !! p ∧ is_Some (w_fs w' !! Temp (w_tick w)).
Proof.
  intros He Hp. unfold write_temporary, write_temporary_checked, write_temporary_via. unfold mbind at 1, M_bind at 1.
  destruct (os_errors err mkstemp w) as [[t|e|] w1] eqn:E1; [|intros [= -> <-]; by apply os_errors_not_raw in E1|done].
  assert (t = Temp (w_tick w) ∧ is_Some (w_fs w1 !! t) ∧ ∀ q, q ≠ t → w_fs w1 !! q = w_fs w !! q) as (->&Ht&Hq).
  { apply os_errors_Ret in E1. unfold mkstemp in E1. apply bind_Ret in E1 as (n&w2&En&E1).
    unfold action, mbind, M_bind in En. cbn in En. destruct (env_fault (w_tick w)); try done. injection En as <- <-.
    injection E1 as <- <-. cbn. rewrite lookup_insert_eq. split; [done|]. split; [by eexists|].
    intros q Hq. by rewrite lookup_insert_ne. }
  unfold on_raise. destruct (os_errors err _ w1) as [o w2] eqn:E2. destruct o as [[]|e|]; [done| |done].
  assert (e ≠ OSError) as Hne by (intros ->; by apply os_errors_not_raw in E2).
  assert (is_Some (w_fs w2 !! Temp (w_tick w)) ∧ ∀ q, q ≠ Temp (w_tick w) → w_fs w2 !! q = w_fs w1 !! q) as [Ht2 Hq2].
  { pose proof (wp_rename_fails (w_tick w) p data w1 Ht) as Hb. unfold wp in Hb. unfold os_errors, try_except in E2.
    destruct ((chmod _ _;; _) w1) as [[[]|e'|] w3]; cbn in Hb; [done| |done].
    assert (w3 = w2) as -> by (destruct (is_OSError e'); by injection E2). by apply Hb. }
  intros Hr. unfold mbind, M_bind in Hr. destruct (unlink_quiet _ w2) as [[?|e'|] w3] eqn:E3; [|injection Hr as -> ->|done].
  - unfold raise in Hr. by injection Hr.
  - apply unlink_quiet_raises in E3 as [Hf ->]. cbn. split; [done|]. split; [|done].
    assert (p ≠ Temp (w_tick w)) by (by intros ->). by rewrite Hq2, Hq.
Qed.

Lemma save_raw s p w w' :
  is_temp p = false → save s p w = (Raise OSError, w') → no_directory w w' ∨ temporary_left p w w'.
Proof.
  intros Hp. unfold save, mkdir_parents. unfold mbind at 1, M_bind at 1.
  destruct ((action;; mret tt) w) as [[[]|e|] w1] eqn:E1; [| |done].
  - assert (w1 = ticked w) as ->.
    { apply bind_Ret in E1 as (n&w2&->%action_Ret&E1). by injection E1. }
    unfold mbind, M_bind. destruct (write_temporary _ _ _ _) as [[[]|e|] w2] eqn:E2; [| |done].
    + intros E. by apply os_errors_not_raw in E.
    + intros [= -> <-]. right. by apply write_temporary_raw in E2.
  - intros [= -> <-]. left. unfold mbind, M_bind, action, mbind, M_bind in E1. cbn in E1. unfold no_directory, refused.
    destruct (env_fault (w_tick w)); cbn in E1; try done; injection E1 as <-; auto.
Qed.
End raw_errors.

(** C5: a save is atomic.  Whatever fails, and wherever the process dies, the
    state file is the old one or the complete new one, private to this user, and
    no other file changes but temporary ones; when the save returns it is the new
    one.  When it fails it raises a [StateError], but for two cases in which it is
    a bare [OSError]: the directory could not be made, and nothing happened, or the
    temporary file could not be removed, and then that file is left over and the
    state file is the old one. *)
Theorem save_atomic {Mem} `{Env} (s : AgentState) (p : path) (w : world Mem) :
  is_temp p = false →
  let '(o, w') := save s p w in
  (w_fs w' !! p = w_fs w !! p ∨ w_fs w' !! p = Some (private_file (state_bytes s))) ∧
  (o = Ret tt → w_fs w' !! p = Some (private_file (state_bytes s))) ∧
  (o = Ret tt ∨ failed (StateError "cannot write state file") o) ∧
  (o = Raise OSError → no_directory w w' ∨ temporary_left p w w') ∧
  (∀ q, q ≠ p → is_temp q = false → w_fs w' !! q = w_fs w !! q) ∧
  w_mem w' = w_mem w ∧ deliveries (w_trace w') = deliveries (w_trace w).
Proof.
  intros Hp. destruct (save s p w) as [o w'] eqn:E.
  assert (save_ends (StateError "cannot write state file") p (state_bytes s) w o w') as [[F M T] Ho Hf].
  { pose proof (wp_save s p (λ o w', save_ends (StateError "cannot write state file") p (state_bytes s) w o w') w
      Hp (λ _ _ H, H)) as Hw. unfold wp in Hw. by rewrite E in Hw. }
  split; [by destruct Hf as [?|[_ ?]]; [right|left]|].
  split; [intros ->; by destruct Hf as [?|[? _]]|]. split; [done|].
  split; [intros ->; by eapply save_raw|]. split; [auto|]. done.
Qed.

(** A save whose rename and whose cleanup fail. *)
Lemma save_atomic_witness :
  let E := toy_env (λ n, if (4 <? Z.of_nat n) then OsFault else NoFault) (λ _, HttpFailed) in
  let w := toy_world tt [(Path (u "/s"), private_file (u "old"))] in
  let '(o, w') := save empty_state (Path (u "/s")) w in
  o = Raise OSError ∧ temporary_left (Path (u "/s")) w w'.
Proof.
  intros E w. pose proof (save_atomic empty_state (Path (u "/s")) w eq_refl) as Ha.
  assert ((save empty_state (Path (u "/s")) w).1 = Raise OSError) as Ho by (vm_compute; reflexivity).
  destruct (save empty_state (Path (u "/s")) w) as [o w']. cbn [fst] in Ho. subst o. split; [done|].
  destruct Ha as (_&_&_&Hr&_). destruct (Hr eq_refl) as [[Hn _]|Hl]; [|done].
  exfalso. destruct Hn as [Hn|Hn]; vm_compute in Hn; discriminate Hn.
Defined.

(** C6: a well-formed state that was saved loads as itself, if it has histories of
    at most 128 principals; otherwise the file this program wrote is refused. *)
Theorem saved_state_loads (s : AgentState) :
  state_wf s →
  loads_text (state_bytes s) ≫= parse_state
  = if (size (capability_requests s) <=? 128)%nat then Ok s
    else Err (StateError "state capability_requests must be a bounded object").
Proof. apply load_saved_bytes. Qed.

Definition sample_state : AgentState :=
  MkAgentState {[ u "lobby" := 41 ]} {[ u "lobby" := 1700000000000000000 ]} {[ u "lobby" := 2 ]} ∅.

Lemma sample_state_wf : state_wf sample_state.
Proof.
  assert (∀ z, printable_nat z → int_map_ok {[ u "lobby" := z ]}) as Hm.
  { intros z Hz. apply map_Forall_singleton. split; [|done]. split; [done|].
    apply Forall_forall. intros c Hc. repeat (apply elem_of_cons in Hc as [->|Hc]; [done|]).
    by apply elem_of_nil in Hc. }
  assert (∀ z, 0 ≤ z → z <= NONCE_LIMIT → printable_nat z) as Hp
    by (intros z ? Hz%NONCE_LIMIT_printable; by split).
  split; [apply Hm, Hp; done..|apply map_Forall_empty].
Qed.

Lemma saved_state_loads_witness :
  loads_text (state_bytes sample_state) ≫= parse_state
  = if (size (capability_requests sample_state) <=? 128)%nat then Ok sample_state
    else Err (StateError "state capability_requests must be a bounded object").
Proof. apply saved_state_loads, sample_state_wf. Defined.

(** ** Nonces *)

(** The nonces a process draws for a room while its clock shows [clocks]. *)
Fixpoint draw_nonces (room : str) (clocks : list Z) (s : AgentState) : res (list Z * AgentState) :=
  match clocks with
  | [] => Ok ([], s)
  | clock :: clocks' =>
      '(n, s) ← next_nonce room clock s;
      '(ns, s) ← draw_nonces room clocks' s;
      Ok (n :: ns, s)
  end.

Lemma draw_nonces_above room clocks s ns s' :
  draw_nonces room clocks s = Ok (ns, s') →
  strictly_sorted ns = true ∧ Forall (λ n, default 0 (nonces s !! room) < n ∧ 0 ≤ n ≤ NONCE_LIMIT) ns ∧
  Forall2 (λ c n, c ≤ n) clocks ns.
Proof.
  revert s ns. induction clocks as [|c clocks IH]; intros s ns Hd.
  - injection Hd as <- <-. by repeat constructor.
  - cbn in Hd. apply res_bind_Ok in Hd as ([n s1]&Hn&Hd). apply res_bind_Ok in Hd as ([ns' s2]&Hd&[= <- <-]).
    apply next_nonce_Ok in Hn as (Hc&->&Hlim&->). destruct (IH _ _ Hd) as (Hs&Hf&H2).
    unfold set_nonces in Hf. cbn in Hf. rewrite lookup_insert_eq in Hf. cbn in Hf. split; [|split].
    + destruct ns' as [|m ns']; [done|]. apply Forall_cons in Hf as [[Hm _] _].
      apply andb_true_iff. split; [by apply Z.ltb_lt|exact Hs].
    + constructor; [lia|]. eapply Forall_impl; [exact Hf|]. intros m. cbn. lia.
    + constructor; [lia|done].
Qed.

(** C7: the nonces of a room only go up, whatever the clock does: each is above
    every nonce the state has recorded for the room and above the ones drawn
    before it, is not below the clock, and has at most 19 digits. *)
Theorem nonces_increase (room : str) (clocks : list Z) (s : AgentState) (ns : list Z) (s' : AgentState) :
  draw_nonces room clocks s = Ok (ns, s') →
  strictly_sorted ns = true ∧
  Forall (λ n, default 0 (nonces s !! room) < n ∧ (length (int_str n) ≤ 19)%nat) ns ∧
  Forall2 (λ c n, c ≤ n) clocks ns.
Proof.
  intros (Hs&Hf&H2)%draw_nonces_above. split; [done|]. split; [|done].
  eapply Forall_impl; [exact Hf|]. intros n [Hlo [Hn Hhi]]. split; [done|].
  apply int_str_length; [done| |lia]. unfold NONCE_LIMIT in Hhi. lia.
Qed.

Lemma nonces_increase_witness :
  ∃ s', draw_nonces (u "lobby") [5; 3; 9] (set_nonces <[u "lobby" := 4]> empty_state) = Ok ([5; 6; 9], s') ∧
        strictly_sorted [5; 6; 9] = true.
Proof.
  eexists. split; [vm_compute; reflexivity|].
  eapply (nonces_increase (u "lobby") [5; 3; 9] (set_nonces <[u "lobby" := 4]> empty_state)).
  vm_compute. reflexivity.
Defined.

(** ** The rate limit *)

(** A request: who asks, with which limit, at which second. *)
Definition request : Type := str * Z * Z.

(** What [allow] does to the shared state when it consumes. *)
Definition limiter_step (q : request) (s : AgentState) : res (bool * AgentState) :=
  let '(did, limit, now) := q in
  count ← capability_request_count did now WINDOW_SECONDS s;
  if limit <=? count then Ok (false, s)
  else s' ← reserve_capability_request did now WINDOW_SECONDS s; Ok (true, s').

(** The requests granted, in order. *)
Fixpoint granted (qs : list request) (s : AgentState) : res (list (str * Z)) :=
  match qs with
  | [] => Ok []
  | q :: qs' =>
      '(ok, s') ← limiter_step q s;
      gs ← granted qs' s';
      Ok (if ok : bool then (q.1.1, q.2) :: gs else gs)
  end.

(** How many requests of [did] were granted in the window that ends at [t]. *)
Definition in_window (did : str) (t : Z) (gs : list (str * Z)) : list (str * Z) :=
  filter (λ g, g.1 = did ∧ t - WINDOW_SECONDS < g.2 ≤ t) gs.

Definition history (did : str) (s : AgentState) : list Z := default [] (capability_requests s !! did).

(** The times at which [did] was granted something. *)
Definition grant_times (did : str) (gs : list (str * Z)) : list Z := (filter (λ g, g.1 = did) gs).*2.

(** The state remembers what was granted in the window that ends at [now]. *)
Record remembers (now : Z) (gs : list (str * Z)) (s : AgentState) : Prop := {
  rem_times did : Forall (λ t, t ≤ now) (history did s);
  rem_grants : Forall (λ g, g.2 ≤ now) gs;
  rem_recent did : recent (now - WINDOW_SECONDS) (history did s)
                   = recent (now - WINDOW_SECONDS) (grant_times did gs)
}.

Lemma effective_time_past now l : Forall (λ t, t ≤ now) l → effective_time now l = now.
Proof.
  intros Hl. unfold effective_time. destruct (last l) as [t|] eqn:E; [|done].
  apply last_Some_elem_of in E. pose proof (Forall_elem _ _ _ Hl E). cbn in *. lia.
Qed.

Lemma recent_past now cutoff l : Forall (λ t, t ≤ now) l → Forall (λ t, t ≤ now) (recent cutoff l).
Proof. intros Hl. apply Forall_forall. intros t [Ht _]%recent_elem. by apply (Forall_elem _ _ _ Hl Ht). Qed.

Lemma remembers_later now now' gs s : now ≤ now' → remembers now gs s → remembers now' gs s.
Proof.
  intros Hle [H1 H2 H3]. split.
  - intros did. eapply Forall_impl; [apply H1|]. cbn. lia.
  - eapply Forall_impl; [exact H2|]. cbn. lia.
  - intros did. rewrite <- (recent_recent (now - WINDOW_SECONDS)), H3, recent_recent; [done|lia..].
Qed.

(** The history of a principal after a reservation. *)
Lemma history_reserved did now s s' d :
  (∀ d, Forall (λ t, t ≤ now) (history d s)) →
  reserve_capability_request did now WINDOW_SECONDS s = Ok s' →
  history d s' = recent (now - WINDOW_SECONDS) (history d s) ++ (if decide (d = did) then [now] else []).
Proof.
  intros Hpast Hr. unfold reserve_capability_request in Hr.
  do 3 (apply res_bind_Ok in Hr as (?&_&Hr)). apply Ok_inj in Hr as <-. rewrite prune_lookup.
  change (default [] (capability_requests s !! did)) with (history did s).
  rewrite effective_time_past, recent_recent by (by apply recent_past || lia).
  unfold history at 1, set_capability_requests. cbn [capability_requests].
  destruct (decide (d = did)) as [->|].
  - by rewrite lookup_insert_eq.
  - rewrite lookup_insert_ne by done. rewrite prune_lookup. by rewrite app_nil_r.
Qed.

Lemma grant_times_snoc did gs d t :
  grant_times did (gs ++ [(d, t)]) = grant_times did gs ++ (if decide (did = d) then [t] else []).
Proof.
  unfold grant_times. rewrite filter_app, fmap_app. f_equal. rewrite filter_cons, filter_nil. cbn.
  destruct (decide (d = did)), (decide (did = d)); congruence || done.
Qed.

Lemma remembers_granted now did gs s s' :
  remembers now gs s → reserve_capability_request did now WINDOW_SECONDS s = Ok s' →
  remembers now (gs ++ [(did, now)]) s'.
Proof.
  intros [H1 H2 H3] Hr. split.
  - intros d. rewrite (history_reserved did now s s' d H1 Hr). apply Forall_app. split; [by apply recent_past|].
    destruct (decide _); by repeat constructor.
  - apply Forall_app. split; [done|]. by repeat constructor.
  - intros d. rewrite (history_reserved did now s s' d H1 Hr), grant_times_snoc.
    unfold recent at 1 3. rewrite !List.filter_app. f_equal. fold (recent (now - WINDOW_SECONDS)).
    fold (recent (now - WINDOW_SECONDS) (recent (now - WINDOW_SECONDS) (history d s))).
    rewrite recent_recent by lia. apply H3.
Qed.

Lemma in_window_snoc did t gs d now :
  length (in_window did t (gs ++ [(d, now)]))
  = (length (in_window did t gs) + (if decide (d = did ∧ (t - WINDOW_SECONDS < now ≤ t)%Z) then 1 else 0))%nat.
Proof.
  unfold in_window. rewrite filter_app, length_app. f_equal. rewrite filter_cons, filter_nil. cbn.
  by destruct (decide _).
Qed.

Lemma in_window_recent did t now gs :
  now ≤ t → (length (in_window did t gs) ≤ length (recent (now - WINDOW_SECONDS) (grant_times did gs)))%nat.
Proof.
  intros Hle. induction gs as [|[d g] gs IH]; [done|]. unfold in_window, grant_times. rewrite !filter_cons. cbn.
  fold (in_window did t gs) in *. fold (grant_times did gs) in *.
  destruct (decide (d = did)) as [->|].
  - change (recent (now - WINDOW_SECONDS) ((did, g) :: filter (λ g0, g0.1 = did) gs).*2)
      with (if now - WINDOW_SECONDS <? g then g :: recent (now - WINDOW_SECONDS) (grant_times did gs)
            else recent (now - WINDOW_SECONDS) (grant_times did gs)).
    fold (in_window did t gs). case_decide as Hd; destruct (Z.ltb_spec (now - WINDOW_SECONDS) g); cbn [length snd] in *;
      try (destruct Hd as [_ Hd]; cbn in Hd); lia.
  - rewrite decide_False by naive_solver. done.
Qed.

(** The limits of the requests of [did]. *)
Definition limited (did : str) (limit : Z) (qs : list request) : Prop :=
  Forall (λ q : request, q.1.1 = did → q.1.2 ≤ limit) qs.

(** The clock of the requests does not go back. *)
Definition clock_from (now : Z) (qs : list request) : Prop := weakly_sorted (now :: map snd qs) = true.

Lemma granted_window did limit qs now gs s gs' :
  0 ≤ limit → limited did limit qs → clock_from now qs → remembers now gs s →
  (∀ t, length (in_window did t gs) ≤ limit) → granted qs s = Ok gs' →
  ∀ t, length (in_window did t (gs ++ gs')) ≤ limit.
Proof.
  intros H0 Hlim. revert now gs s gs'. induction Hlim as [|[[d l] now'] qs Hl _ IH];
    intros now gs s gs' Hclock Hrem Hgs Hg.
  - injection Hg as <-. by rewrite app_nil_r.
  - cbn [granted] in Hg. apply res_bind_Ok in Hg as ([ok s1]&Hstep&Hg). apply res_bind_Ok in Hg as (gs1&Hg&[= <-]).
    apply andb_true_iff in Hclock as [Hle%Z.leb_le Hclock]. cbn in Hle.
    apply (remembers_later _ now') in Hrem; [|done].
    unfold limiter_step in Hstep. apply res_bind_Ok in Hstep as (n&Hn&Hstep).
    apply count_Ok in Hn as (_&_&Hn). fold (history d s) in Hn.
    rewrite effective_time_past in Hn by apply Hrem. rewrite (rem_recent _ _ _ Hrem) in Hn.
    destruct (Z.leb_spec l n); [injection Hstep as <- <-; by apply (IH now' gs s)|].
    apply res_bind_Ok in Hstep as (s2&Hr&[= <- <-]). cbn [fst snd] in *.
    change (gs ++ (d, now') :: gs1) with (gs ++ [(d, now')] ++ gs1). rewrite app_assoc.
    apply (IH now' _ s2); [done|by apply (remembers_granted _ _ _ s)| |done].
    intros t. rewrite in_window_snoc. specialize (Hgs t).
    destruct (decide (d = did ∧ t - WINDOW_SECONDS < now' ≤ t)) as [[-> Ht]|]; [|lia].
    pose proof (in_window_recent did t now' gs ltac:(lia)). specialize (Hl eq_refl). lia.
Qed.

(** C8: the rate limit holds in every window.  As long as the clock does not go
    back, from an empty state, and whatever the other principals ask, no
    principal whose requests carry limits up to [limit] is granted more than
    [limit] requests in any 3600 seconds. *)
Theorem rate_limit_in_every_window (did : str) (limit : Z) (qs : list request) (gs : list (str * Z)) (t : Z) :
  0 ≤ limit → limited did limit qs → clock_from 0 qs → granted qs empty_state = Ok gs →
  length (in_window did t gs) ≤ limit.
Proof.
  intros H0 Hlim Hclock Hg. apply (granted_window did limit qs 0 [] empty_state gs); try done.
Qed.

Definition sample_did (n : Z) : str :=
  match did_from_private_key (toy_seed n) with Ok did => did | Err _ => [] end.

Lemma rate_limit_in_every_window_witness :
  let qs := [(sample_did 1, 2, 10); (sample_did 1, 2, 20); (sample_did 2, 1, 20); (sample_did 1, 2, 30);
             (sample_did 1, 2, 3611)] in
  granted qs empty_state
    = Ok [(sample_did 1, 10); (sample_did 1, 20); (sample_did 2, 20); (sample_did 1, 3611)] ∧
  length (in_window (sample_did 1) 3615
    [(sample_did 1, 10); (sample_did 1, 20); (sample_did 2, 20); (sample_did 1, 3611)]) ≤ 2.
Proof.
  split; [by vm_compute|].
  eapply (rate_limit_in_every_window (sample_did 1) 2
    [(sample_did 1, 2, 10); (sample_did 1, 2, 20); (sample_did 2, 1, 20); (sample_did 1, 2, 30);
     (sample_did 1, 2, 3611)]); [lia| |by vm_compute|by vm_compute].
  repeat (constructor; [cbn; by first [intros _; lia|intros [=]]|]). constructor.
Defined.

Lemma save_Ret {Mem} `{Env} s p (w w' : world Mem) :
  is_temp p = false → save s p w = (Ret tt, w') →
  w_fs w' !! p = Some (private_file (state_bytes s)) ∧ w_mem w' = w_mem w.
Proof.
  intros Hp E. pose proof (wp_save s p (λ o w', save_ends (StateError "cannot write state file") p (state_bytes s) w o w') w
    Hp (λ _ _ H, H)) as Hw. unfold wp in Hw. rewrite E in Hw. destruct Hw as [[_ M _] _ [?|[[] _]]]; done.
Qed.

Lemma ask_state_Ret {A} (f : AgentState → res A) a w w' :
  ask_state f w = (Ret a, w') → f (m_state (w_mem w)) = Ok a ∧ w' = w.
Proof. intros (s&w1&[= <- <-]&Hf)%bind_Ret. by apply lift_Ret in Hf. Qed.

Lemma modify_state_Ret f x w w' :
  modify_state f w = (Ret x, w') → ∃ s, f (m_state (w_mem w)) = Ok s ∧ w' = with_state s w.
Proof.
  intros (s&w1&[= <- <-]&Hf)%bind_Ret. apply bind_Ret in Hf as (s'&w1&[Hf ->]%lift_Ret&[= _ <-]). eauto.
Qed.

(** A request is granted only after its reservation is on disk.  When
    [allow] returns with a limiter that consumes, the shared state has made the
    step of the limit at the second the clock showed; if the request is granted
    the state file holds the new state, and if not nothing was written. *)
Theorem allow_reserves_on_disk `{Env} (did : str) (limit : Z) (limiter : CapabilityRateLimiter) (ok : bool)
    (w w' : world memory) :
  consume limiter = true → is_temp (limiter_state_path limiter) = false →
  allow did limit limiter w = (Ret ok, w') →
  ∃ q t, env_time (w_tick w) = Finite q t ∧ (0 <= q)%Q ∧ 1 ≤ limit ≤ 1000 ∧
    limiter_step (did, limit, Qnum q / Zpos (Qden q)) (m_state (w_mem w)) = Ok (ok, m_state (w_mem w')) ∧
    (if ok then w_fs w' !! limiter_state_path limiter
                = Some (private_file (state_bytes (m_state (w_mem w'))))
     else w_fs w' = w_fs w).
Proof.
  intros Hc Hp. unfold allow. rewrite Hc.
  intros (d&w1&[Hd ->]%lift_Ret&Ha)%bind_Ret.
  apply res_catch_Ok in Hd as [[-> _]%validate_did_Ok|(?&_&_&?)]; [|done].
  apply bind_Ret in Ha as (?&w1&[Hl ->]%check_Ret&Ha). apply negb_false_iff in Hl.
  apply andb_true_iff in Hl as [H1%Z.leb_le H2%Z.leb_le].
  apply bind_Ret in Ha as (raw&w1&[-> ->]%time_time_Ret&Ha).
  apply bind_Ret in Ha as (now&w1&[Hnow ->]%lift_Ret&Ha).
  destruct (env_time (w_tick w)) as [q t|]; [|done]. exists q, t.
  destruct (Qle_bool 0 q) eqn:Hq; [|done]. injection Hnow as <-. apply Qle_bool_iff in Hq.
  split; [done|]. split; [done|]. split; [done|].
  apply bind_Ret in Ha as (n&w1&[Hn ->]%ask_state_Ret&Ha). unfold limiter_step.
  change (m_state (w_mem (ticked w))) with (m_state (w_mem w)) in *. rewrite Hn. cbn [mbind res_bind].
  destruct (limit <=? n); [by apply ret_Ret in Ha as [-> ->]|].
  apply bind_Ret in Ha as ([]&w2&Hr&[-> ->]%ret_Ret).
  apply bind_Ret in Hr as (?&w3&(s&Hs&->)%modify_state_Ret&Hsave).
  change (m_state (w_mem (ticked w))) with (m_state (w_mem w)) in Hs. rewrite Hs. cbn [mbind res_bind].
  apply bind_Ret in Hsave as (s'&w4&[= <- <-]&Hsave). apply save_Ret in Hsave as [Hf ->]; [|done]. done.
Qed.

Definition sample_limiter : CapabilityRateLimiter := MkCapabilityRateLimiter (Path (u "/s")) true.

Lemma allow_reserves_on_disk_witness :
  let E := toy_env (λ _, NoFault) (λ _, HttpFailed) in
  let w := toy_world empty_memory [] in
  let w' := (@allow E (sample_did 1) 2 sample_limiter w).2 in
  ∃ q t, env_time (w_tick w) = Finite q t ∧ (0 <= q)%Q ∧ 1 ≤ 2 ≤ 1000 ∧
    limiter_step (sample_did 1, 2, Qnum q / Zpos (Qden q)) (m_state (w_mem w)) = Ok (true, m_state (w_mem w')) ∧
    w_fs w' !! Path (u "/s") = Some (private_file (state_bytes (m_state (w_mem w')))).
Proof.
  apply (@allow_reserves_on_disk (toy_env (λ _, NoFault) (λ _, HttpFailed)) (sample_did 1) 2 sample_limiter true);
    [done|done|]. vm_compute. reflexivity.
Defined.

(** The history of a principal is pruned by the clock of whoever asks: when the
    clock was ahead for one request and goes back, another principal is granted
    a second request within the hour although its limit is one. *)
Lemma window_forgotten_when_clock_goes_back :
  granted [(sample_did 1, 1, 1000); (sample_did 2, 1, 10000); (sample_did 1, 1, 1001)] empty_state
  = Ok [(sample_did 1, 1000); (sample_did 2, 10000); (sample_did 1, 1001)].
Proof. vm_compute. reflexivity. Qed.
