(* ===== verification/Receipt.v ===== *)
(** [receipt.py]: signed receipts for what the public GitHub API said about a
    pull request. *)

From S2P Require Import Prelude Errors Text Regex Sha256 Json Crypto Clock Url Effects Protocol.
From S2P Require Import Memory Capabilities.

Definition GITHUB_API_HOST : str := u "api.github.com".
Definition GITHUB_API_VERSION : str := u "2026-03-10".
Definition MAX_GITHUB_RESPONSE_BYTES : Z := 2 * 1024 * 1024.
Definition RECEIPT_SCHEMA : str := u "technocore-github-pr-receipt-v1".
Definition RECEIPT_SOURCE : str := u "github-public-rest".
Definition MAX_PULL_NUMBER : Z := 2147483647.
Definition RECEIPT_LIMIT : Z := 4096.

(** [[A-Za-z0-9](?:[A-Za-z0-9-]{0,98}[A-Za-z0-9])?(?:\[bot\])?\Z] *)
Definition AUTHOR_PATTERN : regex :=
  RSeq (RClass alnum)
    (RSeq (ropt (RSeq (rrep (RClass (alnum ++ [rc 45])) 0 98) (RClass alnum))) (ropt (rlit (u "[bot]")))).
Definition SHA_PATTERN : regex := rpow (RClass [r09; raf]) 40.
Definition NUMBER_PATTERN : regex := RSeq (RClass [(49, 57)]) (RStar (RClass [r09])).

Definition CHECK_STATUSES : list str :=
  [u "queued"; u "in_progress"; u "requested"; u "waiting"; u "pending"; u "completed"].
Definition CHECK_FAILURES : list str :=
  [u "action_required"; u "cancelled"; u "failure"; u "stale"; u "startup_failure"; u "timed_out"].
Definition CHECK_NON_FAILURES : list str := [u "neutral"; u "skipped"; u "success"].
Definition COMBINED_STATUS_STATES : list str := [u "error"; u "failure"; u "pending"; u "success"].
Definition CI_STATES : list str := [u "failure"; u "no_signals"; u "partial"; u "pending"; u "success"].
Definition RECEIPT_PAYLOAD_KEYS : list str :=
  [u "schema"; u "issuer"; u "source"; u "api_version"; u "repository"; u "pull_number"; u "url";
   u "author"; u "state"; u "merged"; u "draft"; u "head_sha"; u "base_sha"; u "merge_commit_sha";
   u "ci"; u "ci_data_complete"; u "checks_observed"; u "checks_total"; u "statuses_observed";
   u "statuses_total"; u "source_updated_at"; u "observed_at"].
Definition RECEIPT_KEYS : list str := [u "payload"; u "payload_sha256"; u "signature"].

(** [GitHubReceiptError(msg, code=code)] *)
Definition receipt_error (msg : string) (code : string) : exn := GitHubReceiptError msg (u code) None None.
Definition bad_response (msg : string) : exn := receipt_error msg "invalid_github_response".
Definition bad_receipt (msg : string) : exn := receipt_error msg "invalid_receipt".
Definition bad_url (msg : string) : exn := receipt_error msg "invalid_pull_request_url".

(** ** Pull-request references *)

Record GitHubPullRequestRef := MkPullRequestRef { owner : str; repository : str; number : Z }.

Definition full_name (r : GitHubPullRequestRef) : str := owner r ++ u "/" ++ repository r.
Definition url (r : GitHubPullRequestRef) : str :=
  u "https://github.com/" ++ full_name r ++ u "/pull/" ++ int_str (number r).

Definition _valid_repository (value : str) : bool := valid_repository_name value.

(** The groups of the path pattern: two non-empty segments, "pull", a number. *)
Definition match_pull_path (path : str) : option (str * str * str) :=
  match split_char 47 path with
  | [[]; owner; repository; pull; number] =>
      if (owner != []) and (repository != []) and (pull == u "pull") and fullmatch NUMBER_PATTERN number
      then Some (owner, repository, number) else None
  | _ => None
  end.

(** The argument is a JSON value where it comes from a response or a receipt. *)
Definition parse_github_pull_request_url `{UrlLib} (value : json) : res GitHubPullRequestRef :=
  url ← (match value with
         | JStr s => raise_if (s != strip s)
                       (bad_url "pull request URL must not contain surrounding whitespace");; Ok s
         | _ => Err (bad_url "pull request URL must not contain surrounding whitespace")
         end);
  parsed ← urlsplit url;
  raise_if ((scheme parsed != u "https") || (netloc parsed != u "github.com") ||
            (query parsed != []) || (fragment parsed != []))
    (bad_url "only canonical https://github.com/OWNER/REPO/pull/NUMBER URLs are allowed");;
  '(owner, repository, number_text) ←
    of_option (bad_url "pull request URL must end exactly with /pull/NUMBER")
      (match_pull_path (url_path parsed));
  raise_if (negb (fullmatch OWNER_PATTERN owner) || negb (_valid_repository repository))
    (bad_url "pull request URL contains an invalid owner or repository");;
  number ← int_of_digits number_text;
  raise_if (MAX_PULL_NUMBER <? number) (bad_url "pull request number is outside the supported range");;
  Ok (MkPullRequestRef owner repository number).

(** ** Checks on values *)

Definition _parse_repository (value : json) : res str :=
  match value with
  | JStr v =>
      raise_if (negb (count_char 47 v =? 1)) (bad_response "GitHub returned an invalid repository name");;
      let '(owner, repository) := split_once 47 v in
      raise_if (negb (fullmatch OWNER_PATTERN owner) || negb (_valid_repository repository))
        (bad_response "GitHub returned an unsafe repository name");;
      Ok v
  | _ => Err (bad_response "GitHub returned an invalid repository name")
  end.

Definition _require_sha (value : json) : res str :=
  match value with
  | JStr s => raise_if (negb (fullmatch SHA_PATTERN s)) (bad_response "GitHub returned an invalid SHA");; Ok s
  | _ => Err (bad_response "GitHub returned an invalid SHA")
  end.

Definition _require_count (value : json) : res Z :=
  nonnegative_field value (bad_response "GitHub returned an invalid count").

Definition _require_timestamp (value : json) : res str :=
  match value with
  | JStr s =>
      raise_if (negb (fullmatch TIMESTAMP_PATTERN s)) (bad_response "GitHub returned an invalid time");;
      raise_if (negb (fromisoformat_ok s)) (bad_response "GitHub returned an invalid time");;
      Ok s
  | _ => Err (bad_response "GitHub returned an invalid time")
  end.

Definition _mapping (value : json) : res (list (str * json)) :=
  match value with JDict kvs => Ok kvs | _ => Err (bad_response "GitHub returned an invalid object") end.

Definition _list (value : json) : res (list json) :=
  match value with JList l => Ok l | _ => Err (bad_response "GitHub returned an invalid list") end.

Definition require_bool (value : json) (e : exn) : res bool :=
  match value with JBool b => Ok b | _ => Err e end.

Definition require_author (value : json) (e : exn) : res str :=
  match value with
  | JStr s => raise_if (negb (fullmatch AUTHOR_PATTERN s)) e;; Ok s
  | _ => Err e
  end.

(** ** Parsing the responses *)

Record PullDetails := MkPullDetails {
  d_repository : str; d_number : Z; d_url : str; d_author : str; d_state : str;
  d_merged : bool; d_draft : bool; d_head_sha : str; d_base_sha : str;
  d_merge_commit_sha : option str; d_source_updated_at : str
}.
Record CheckSummary := MkCheckSummary {
  c_observed : Z; c_total : Z; c_complete : bool; c_has_failure : bool; c_has_pending : bool
}.
Record StatusSummary := MkStatusSummary {
  s_observed : Z; s_total : Z; s_complete : bool; s_state : str
}.

Definition text_of (value : json) : str := match value with JStr s => s | _ => [] end.

Definition _parse_pull `{UrlLib} (payload : list (str * json)) (reference : GitHubPullRequestRef)
  : res PullDetails :=
  num ← _require_count (jget (u "number") payload);
  raise_if (negb (num =? number reference) || (num =? 0))
    (bad_response "GitHub returned a different pull request number");;
  base ← _mapping (jget (u "base") payload);
  base_repo ← _mapping (jget (u "repo") base);
  raise_if (jget (u "private") base_repo != JBool false)
    (receipt_error "only public base repositories can receive receipts" "private_repository_rejected");;
  repository ← _parse_repository (jget (u "full_name") base_repo);
  raise_if (casefold repository != casefold (full_name reference))
    (bad_response "GitHub returned a different base repository");;
  canonical_reference ← parse_github_pull_request_url
    (JStr (u "https://github.com/" ++ repository ++ u "/pull/" ++ int_str num));
  html_reference ← parse_github_pull_request_url (jget (u "html_url") payload);
  raise_if ((casefold (full_name html_reference) != casefold (full_name canonical_reference)) ||
            negb (number html_reference =? num))
    (bad_response "GitHub returned an inconsistent pull request URL");;
  user ← _mapping (jget (u "user") payload);
  author ← require_author (jget (u "login") user) (bad_response "GitHub returned an unsafe author login");
  known_state ← in_set (jget (u "state") payload) [u "open"; u "closed"];
  raise_if (negb known_state) (bad_response "GitHub returned an invalid pull request state");;
  merged ← require_bool (jget (u "merged") payload) (bad_response "GitHub returned invalid pull request flags");
  draft ← require_bool (jget (u "draft") payload) (bad_response "GitHub returned invalid pull request flags");
  head ← _mapping (jget (u "head") payload);
  head_sha ← _require_sha (jget (u "sha") head);
  base_sha ← _require_sha (jget (u "sha") base);
  let raw_merge_sha := jget (u "merge_commit_sha") payload in
  merge_commit_sha ← (if merged and (raw_merge_sha != JNull)
                      then Some <$> _require_sha raw_merge_sha else Ok None);
  updated ← _require_timestamp (jget (u "updated_at") payload);
  Ok (MkPullDetails repository num (url canonical_reference) author (text_of (jget (u "state") payload))
        merged draft head_sha base_sha merge_commit_sha updated).

(** One check-run of the loop: the flags so far and after it. *)
Definition check_run (expected_sha : str) (flags : bool * bool) (raw_run : json) : res (bool * bool) :=
  let '(has_failure, has_pending) := flags in
  run ← _mapping raw_run;
  head_sha ← _require_sha (jget (u "head_sha") run);
  raise_if (head_sha != expected_sha) (bad_response "GitHub returned a check-run for a different commit");;
  known_status ← in_set (jget (u "status") run) CHECK_STATUSES;
  raise_if (negb known_status) (bad_response "GitHub returned an unknown check-run status");;
  if jget (u "status") run != JStr (u "completed") then Ok (has_failure, true)
  else
    failed ← in_set (jget (u "conclusion") run) CHECK_FAILURES;
    if (failed : bool) then Ok (true, has_pending)
    else
      passed ← in_set (jget (u "conclusion") run) CHECK_NON_FAILURES;
      raise_if (negb passed) (bad_response "GitHub returned an unknown check-run conclusion");;
      Ok (has_failure, has_pending).

Definition _parse_checks (payload : list (str * json)) (expected_sha : str) : res CheckSummary :=
  total ← _require_count (jget (u "total_count") payload);
  runs ← _list (jget (u "check_runs") payload);
  raise_if ((total <? length runs) || (100 <? length runs))
    (bad_response "GitHub returned inconsistent check-run counts");;
  '(has_failure, has_pending) ← foldM_res (check_run expected_sha) (false, false) runs;
  Ok (MkCheckSummary (length runs) total (length runs =? total) has_failure has_pending).

Definition _parse_statuses (payload : list (str * json)) (expected_sha : str) : res StatusSummary :=
  sha ← _require_sha (jget (u "sha") payload);
  raise_if (sha != expected_sha) (bad_response "GitHub returned statuses for a different commit");;
  known_state ← in_set (jget (u "state") payload) COMBINED_STATUS_STATES;
  raise_if (negb known_state) (bad_response "GitHub returned an unknown combined-status state");;
  total ← _require_count (jget (u "total_count") payload);
  statuses ← _list (jget (u "statuses") payload);
  raise_if ((total <? length statuses) || (100 <? length statuses))
    (bad_response "GitHub returned inconsistent status counts");;
  Ok (MkStatusSummary (length statuses) total (length statuses =? total)
        (text_of (jget (u "state") payload))).

Record PullRequestEvidence := MkEvidence {
  ev_repository : str; ev_number : Z; ev_url : str; ev_author : str; ev_state : str;
  ev_merged : bool; ev_draft : bool; ev_head_sha : str; ev_base_sha : str;
  ev_merge_commit_sha : option str; ev_ci : str; ev_ci_data_complete : bool;
  ev_checks_observed : Z; ev_checks_total : Z; ev_statuses_observed : Z; ev_statuses_total : Z;
  ev_source_updated_at : str
}.

(** The classification at the end of [inspect]. *)
Definition ci_of (checks : CheckSummary) (statuses : StatusSummary) : str :=
  let complete := c_complete checks && s_complete statuses in
  if c_has_failure checks || (s_state statuses in? [u "error"; u "failure"]) then u "failure"
  else if negb complete then u "partial"
  else if c_total checks + s_total statuses =? 0 then u "no_signals"
  else if c_has_pending checks || (s_state statuses == u "pending") then u "pending"
  else u "success".

Definition evidence_of (details : PullDetails) (checks : CheckSummary) (statuses : StatusSummary)
  : PullRequestEvidence :=
  MkEvidence (d_repository details) (d_number details) (d_url details) (d_author details)
    (d_state details) (d_merged details) (d_draft details) (d_head_sha details) (d_base_sha details)
    (d_merge_commit_sha details) (ci_of checks statuses) (c_complete checks && s_complete statuses)
    (c_observed checks) (c_total checks) (s_observed statuses) (s_total statuses)
    (d_source_updated_at details).

(** ** The client *)

Fixpoint contains (p s : str) : bool :=
  startswith p s || match s with [] => false | _ :: s' => contains p s' end.

(** [headers.get(name)] where later headers win. *)
Definition header (name : str) (headers : list (str * str)) : option str :=
  dict_get name (dict_of_pairs headers).

(** Both clients parse the header in the same way. *)
Definition _retry_after (headers : list (str * str)) : option pyfloat :=
  Protocol._retry_after (header (u "retry-after") headers).

(** The exception for a response that is not a 200. *)
Definition http_error (status : Z) (headers : list (str * str)) : exn :=
  let rate_limited := (status =? 429) ||
    ((status =? 403) && bool_decide (header (u "x-ratelimit-remaining") headers = Some (u "0"))) in
  let code := if rate_limited then u "github_rate_limited" else u "github_http_" ++ int_str status in
  GitHubReceiptError "GitHub returned an HTTP error" code (Some status)
    (_retry_after headers).

Section client.
Context `{Env} `{UrlLib}.

Definition transport_request (path : str) : IO (Z * list (str * str) * bytes) :=
  r ← connection_get GITHUB_API_HOST path;
  match r with
  | ConnectionFailed => raise (receipt_error "GitHub request failed" "github_transport_error")
  | Response status headers body => mret (status, headers, take (Z.to_nat (MAX_GITHUB_RESPONSE_BYTES + 1)) body)
  end.

Definition _request_object (path : str) : IO (list (str * json)) :=
  check (negb (startswith (u "/repos/") path) || contains (u "//") path)
    (receipt_error "refusing an unsafe GitHub API path" "unsafe_github_path");;
  '(status, headers, body) ← transport_request path;
  check (MAX_GITHUB_RESPONSE_BYTES <? length body)
    (receipt_error "GitHub response exceeded the 2 MiB safety limit" "github_response_too_large");;
  check (negb (status =? 200)) (http_error status headers);;
  payload ← lift (res_catch (loads_bytes body) (λ e, is_UnicodeDecodeError e || is_JSONDecodeError e)
                    (λ _, Err (bad_response "GitHub returned invalid JSON")));
  match payload with
  | JDict kvs => mret kvs
  | _ => raise (bad_response "GitHub response must be a JSON object")
  end.

Definition inspect (reference : GitHubPullRequestRef) : IO PullRequestEvidence :=
  let base_path := u "/repos/" ++ owner reference ++ u "/" ++ repository reference in
  pull ← _request_object (base_path ++ u "/pulls/" ++ int_str (number reference));
  details ← lift (_parse_pull pull reference);
  check_runs ← _request_object
    (base_path ++ u "/commits/" ++ d_head_sha details ++ u "/check-runs?per_page=100&filter=latest");
  checks ← lift (_parse_checks check_runs (d_head_sha details));
  combined ← _request_object
    (base_path ++ u "/commits/" ++ d_head_sha details ++ u "/status?per_page=100");
  statuses ← lift (_parse_statuses combined (d_head_sha details));
  mret (evidence_of details checks statuses).
End client.

(** ** Validation of a receipt *)

Definition _validate_receipt_header (payload : list (str * json)) : res unit :=
  raise_if ((jget (u "schema") payload != JStr RECEIPT_SCHEMA) ||
            (jget (u "source") payload != JStr RECEIPT_SOURCE) ||
            (jget (u "api_version") payload != JStr GITHUB_API_VERSION))
    (bad_receipt "receipt payload uses an unsupported schema or source");;
  res_catch (validate_did_value (jget (u "issuer") payload);; Ok tt)
    (λ e, is_ProtocolValueError e || is_TypeError e)
    (λ _, Err (bad_receipt "receipt contains an invalid issuer DID")).

Definition _validate_receipt_subject `{UrlLib} (payload : list (str * json)) : res unit :=
  repository ← _parse_repository (jget (u "repository") payload);
  num ← _require_count (jget (u "pull_number") payload);
  raise_if (num =? 0) (bad_receipt "receipt pull number must be positive");;
  reference ← parse_github_pull_request_url (jget (u "url") payload);
  raise_if ((full_name reference != repository) || negb (number reference =? num))
    (bad_receipt "receipt URL does not match its repository and number");;
  require_author (jget (u "author") payload) (bad_receipt "receipt contains an invalid author");;
  known_state ← in_set (jget (u "state") payload) [u "open"; u "closed"];
  raise_if (negb known_state) (bad_receipt "receipt contains an invalid pull request state");;
  require_bool (jget (u "merged") payload) (bad_receipt "receipt contains invalid pull request flags");;
  require_bool (jget (u "draft") payload) (bad_receipt "receipt contains invalid pull request flags");;
  Ok tt.

Definition _validate_receipt_commits (payload : list (str * json)) : res unit :=
  _require_sha (jget (u "head_sha") payload);;
  _require_sha (jget (u "base_sha") payload);;
  let merge_sha := jget (u "merge_commit_sha") payload in
  if (jget (u "merged") payload == JBool true) and (merge_sha != JNull)
  then _require_sha merge_sha;; Ok tt
  else raise_if (merge_sha != JNull) (bad_receipt "unmerged receipt must not claim a merge commit").

(** The counts, once they have been checked: the number of signals and whether
    all were observed. *)
Definition _validate_receipt_ci_counts (payload : list (str * json)) : res (Z * bool) :=
  checks_observed ← _require_count (jget (u "checks_observed") payload);
  checks_total ← _require_count (jget (u "checks_total") payload);
  statuses_observed ← _require_count (jget (u "statuses_observed") payload);
  statuses_total ← _require_count (jget (u "statuses_total") payload);
  raise_if ((checks_total <? checks_observed) || (statuses_total <? statuses_observed))
    (bad_receipt "receipt contains inconsistent CI counts");;
  let counts_complete := (checks_observed =? checks_total) && (statuses_observed =? statuses_total) in
  raise_if (jget (u "ci_data_complete") payload != JBool counts_complete)
    (bad_receipt "receipt CI completeness does not match its counts");;
  Ok (checks_total + statuses_total, counts_complete).

Definition _validate_receipt_ci (payload : list (str * json)) : res unit :=
  let ci := jget (u "ci") payload in
  known ← in_set ci CI_STATES;
  raise_if (negb known) (bad_receipt "receipt contains an invalid CI summary");;
  require_bool (jget (u "ci_data_complete") payload) (bad_receipt "receipt contains an invalid CI summary");;
  '(signals, counts_complete) ← _validate_receipt_ci_counts payload;
  raise_if ((ci == JStr (u "no_signals")) and negb (signals =? 0))
    (bad_receipt "no-signals receipt contains CI records");;
  raise_if ((ci != JStr (u "no_signals")) and (signals =? 0))
    (bad_receipt "receipt claims a CI state without CI records");;
  raise_if ((ci == JStr (u "partial")) and counts_complete)
    (bad_receipt "partial CI cannot claim complete data");;
  raise_if (((ci == JStr (u "pending")) || (ci == JStr (u "success"))) and negb counts_complete)
    (bad_receipt "incomplete CI cannot be reported as pending or successful").

Definition _validate_receipt_payload `{UrlLib} (payload : list (str * json)) : res unit :=
  raise_if (negb (has_exact_keys payload RECEIPT_PAYLOAD_KEYS))
    (bad_receipt "receipt payload has unexpected fields");;
  _validate_receipt_header payload;;
  _validate_receipt_subject payload;;
  _validate_receipt_commits payload;;
  _validate_receipt_ci payload;;
  _require_timestamp (jget (u "source_updated_at") payload);;
  _require_timestamp (jget (u "observed_at") payload);;
  Ok tt.

(** ** Building and verifying *)

Section receipts.
Context `{UrlLib} `{Ed25519}.

Definition receipt_payload (evidence : PullRequestEvidence) (issuer_did observed_at : str)
  : list (str * json) :=
  [(u "schema", JStr RECEIPT_SCHEMA); (u "issuer", JStr issuer_did); (u "source", JStr RECEIPT_SOURCE);
   (u "api_version", JStr GITHUB_API_VERSION); (u "repository", JStr (ev_repository evidence));
   (u "pull_number", JInt (ev_number evidence)); (u "url", JStr (ev_url evidence));
   (u "author", JStr (ev_author evidence)); (u "state", JStr (ev_state evidence));
   (u "merged", JBool (ev_merged evidence)); (u "draft", JBool (ev_draft evidence));
   (u "head_sha", JStr (ev_head_sha evidence)); (u "base_sha", JStr (ev_base_sha evidence));
   (u "merge_commit_sha", match ev_merge_commit_sha evidence with Some s => JStr s | None => JNull end);
   (u "ci", JStr (ev_ci evidence)); (u "ci_data_complete", JBool (ev_ci_data_complete evidence));
   (u "checks_observed", JInt (ev_checks_observed evidence));
   (u "checks_total", JInt (ev_checks_total evidence));
   (u "statuses_observed", JInt (ev_statuses_observed evidence));
   (u "statuses_total", JInt (ev_statuses_total evidence));
   (u "source_updated_at", JStr (ev_source_updated_at evidence)); (u "observed_at", JStr observed_at)].

Definition build_signed_receipt (evidence : PullRequestEvidence) (issuer_did : str) (private_key : bytes)
    (observed_at : datetime) : res (list (str * json)) :=
  validate_did issuer_did;;
  own_did ← did_from_private_key private_key;
  raise_if (own_did != issuer_did)
    (receipt_error "receipt signing key does not match its issuer DID" "receipt_issuer_mismatch");;
  let payload := receipt_payload evidence issuer_did (format_timestamp observed_at) in
  _validate_receipt_payload payload;;
  let canonical := canonical_json (JDict payload) in
  signature ← sign_detached private_key canonical;
  Ok [(u "payload", JDict payload); (u "payload_sha256", JStr (sha256_hex canonical));
      (u "signature", JStr signature)].

Definition verify_signature_value (did payload : json) (canonical : bytes) : bool :=
  match did, payload with
  | JStr did, JStr signature => verify_detached_signature did canonical signature
  | _, _ => false
  end.

(** [verify_signed_receipt] of a decoded value. *)
Definition verify_signed_receipt (decoded : json) : res (list (str * json)) :=
  wrapper ← of_option (bad_receipt "receipt wrapper has unexpected fields")
    (match decoded with JDict kvs => Some kvs | _ => None end);
  raise_if (negb (has_exact_keys wrapper RECEIPT_KEYS)) (bad_receipt "receipt wrapper has unexpected fields");;
  payload ← of_option (bad_receipt "receipt payload must be a JSON object")
    (match jget (u "payload") wrapper with JDict kvs => Some kvs | _ => None end);
  _validate_receipt_payload payload;;
  let canonical := canonical_json (JDict payload) in
  raise_if (jget (u "payload_sha256") wrapper != JStr (sha256_hex canonical))
    (bad_receipt "receipt payload hash does not match");;
  raise_if (negb (verify_signature_value (jget (u "issuer") payload) (jget (u "signature") wrapper) canonical))
    (bad_receipt "receipt signature does not match its issuer");;
  Ok payload.

(** [verify_signed_receipt] of a text. *)
Definition verify_signed_receipt_text (receipt : str) : res (list (str * json)) :=
  decoded ← res_catch (loads receipt) is_ValueError (λ _, Err (bad_receipt "receipt is not valid JSON"));
  verify_signed_receipt decoded.

Definition render_signed_receipt (receipt : list (str * json)) : res str :=
  verify_signed_receipt (JDict receipt);;
  let rendered := dumps true (JDict receipt) in
  raise_if (RECEIPT_LIMIT <? length rendered)
    (receipt_error "signed receipt exceeds the Technocore message limit" "receipt_too_large");;
  Ok rendered.
End receipts.

(** ** The service *)

Record ContributionReceiptService := MkReceiptService {
  issuer_did : str;
  issuer_key : bytes;
  min_interval_seconds : Q
}.

Definition Qmax (x y : Q) : Q := if Qle_bool x y then y else x.

Section service.
Context `{Env} `{UrlLib} `{Ed25519} `{FloatRepr}.

(** Floats are exact rationals here: the subtraction is not rounded. *)
Definition cooldown (service : ContributionReceiptService) (now : Q) (last : option Q) : res unit :=
  match last with
  | None => Ok tt
  | Some last =>
      let elapsed := (now - last)%Q in
      if Qle_bool (min_interval_seconds service) elapsed then Ok tt
      else
        let retry_after := (min_interval_seconds service - Qmax elapsed 0)%Q in
        Err (GitHubReceiptError "GitHub receipt cooldown is active" (u "local_receipt_rate_limited") None
               (Some (Finite retry_after (float_repr retry_after))))
  end.

Definition issue (service : ContributionReceiptService) (target : str) : IO str :=
  reference ← lift (parse_github_pull_request_url (JStr target));
  now ← time_monotonic;
  last ← get_last_attempt;
  lift (cooldown service now last);;
  put_last_attempt (Some now);;
  evidence ← inspect reference;
  observed_at ← now_utc;
  receipt ← lift (build_signed_receipt evidence (issuer_did service) (issuer_key service) observed_at);
  lift (render_signed_receipt receipt).
End service.

(** ** What the service does to the world *)

Section receipt_steps.
Context `{HEnv : Env} `{UrlLib} `{Ed25519} `{FloatRepr}.

Lemma keeps_request_object P path : Keeps P same_state (_request_object path).
Proof. unfold _request_object, transport_request. keeps. Qed.

Lemma keeps_inspect P r : Keeps P same_state (inspect r).
Proof. unfold inspect. keeps; apply keeps_request_object. Qed.

Lemma keeps_issue P service target : Keeps P same_state (issue service target).
Proof. unfold issue. keeps; apply keeps_inspect. Qed.
End receipt_steps.
#[export] Hint Resolve keeps_request_object keeps_inspect keeps_issue : keeps.
