(* ===== verification/UrlFacts.v ===== *)
(** Pull-request URLs: what the parser of [receipt.py] accepts, and that it reads
    back the canonical URL it makes. *)

From S2P Require Import Prelude Errors Text Regex Json Crypto Url Effects State Memory Protocol.
From S2P Require Import Toy Capabilities Receipt.

(** ** Texts and separators *)

Lemma split_char_nonnil c s : split_char c s ≠ [].
Proof. induction s as [|x s IH]; cbn; [done|]. destruct (split_char c s); [done|]. by destruct (x =? c). Qed.

Lemma split_char_app c a s : c ∉ a → split_char c (a ++ c :: s) = a :: split_char c s.
Proof.
  induction a as [|x a IH]; intros Ha; cbn.
  - pose proof (split_char_nonnil c s). destruct (split_char c s); [done|]. by rewrite Z.eqb_refl.
  - apply not_elem_of_cons in Ha as [Hx Ha]. rewrite (IH Ha).
    destruct (Z.eqb_spec x c); [congruence|done].
Qed.

Lemma split_char_none c s : c ∉ s → split_char c s = [s].
Proof.
  induction s as [|x s IH]; cbn; [done|]. intros [Hx Hs]%not_elem_of_cons. rewrite (IH Hs).
  destruct (Z.eqb_spec x c); [congruence|done].
Qed.

Lemma partition_none c s : c ∉ s → partition c s = (s, None).
Proof.
  induction s as [|x s IH]; cbn; [done|]. intros [Hx Hs]%not_elem_of_cons.
  destruct (Z.eqb_spec x c); [congruence|]. by rewrite (IH Hs).
Qed.

Lemma filter_all {A} (f : A → bool) l : Forall (λ x, f x = true) l → List.filter f l = l.
Proof. induction 1 as [|x l Hx _ IH]; [done|]. cbn. by rewrite Hx, IH. Qed.

(** ** References *)

(** A character of a name or of a path of names. *)
Definition name_char (c : Z) : bool := in_ranges (alnum ++ [rc 95; rc 46; rc 45]) c.
Definition path_char (c : Z) : bool := name_char c || (c =? 47).

Record ref_ok (r : GitHubPullRequestRef) : Prop := {
  ref_owner : fullmatch OWNER_PATTERN (owner r) = true;
  ref_repository : valid_repository_name (repository r) = true;
  ref_number : 0 < number r ≤ MAX_PULL_NUMBER
}.

Lemma owner_chars s : fullmatch OWNER_PATTERN s = true → Forall (λ c, name_char c = true) s ∧ s ≠ [].
Proof.
  intros Hs. split; [|by intros ->].
  assert (∀ c, in_ranges alnum c = true ∨ in_ranges (alnum ++ [rc 45]) c = true → name_char c = true) as Hc.
  { intros c. unfold name_char, in_ranges. rewrite !existsb_app. intros [->|H]; [done|].
    apply orb_true_iff in H as [->|H]; [done|]. cbn in *. rewrite !orb_false_r in *. rewrite H. by rewrite !orb_true_r. }
  eapply fullmatch_forall; [|exact Hs]. unfold OWNER_PATTERN, ropt. cbn [rforall].
  split; [auto|]. split; [done|]. split; [|auto]. apply rforall_rrep. cbn [rforall]. auto.
Qed.

Lemma repository_chars s : valid_repository_name s = true → Forall (λ c, name_char c = true) s ∧ s ≠ [].
Proof.
  unfold valid_repository_name. intros [Hs _]%andb_true_iff. split; [|by intros ->].
  eapply fullmatch_forall; [|exact Hs]. apply rforall_rrep. cbn [rforall]. auto.
Qed.

(** The path of a canonical URL. *)
Definition canonical_path (r : GitHubPullRequestRef) : str :=
  47 :: owner r ++ 47 :: repository r ++ 47 :: u "pull" ++ 47 :: int_str (number r).

Lemma url_path_of r : url r = u "https://github.com" ++ canonical_path r.
Proof. unfold url, full_name, canonical_path. by rewrite <- !app_assoc. Qed.

Lemma path_chars r : ref_ok r → Forall (λ c, path_char c = true) (canonical_path r).
Proof.
  intros [[Ho _]%owner_chars [Hr _]%repository_chars [Hn _]].
  assert (∀ s, Forall (λ c, name_char c = true) s → Forall (λ c, path_char c = true) s) as Hp.
  { intros s Hs. eapply Forall_impl; [exact Hs|]. intros c Hc. unfold path_char. cbv beta in Hc. by rewrite Hc. }
  unfold canonical_path. constructor; [done|]. apply Forall_app. split; [by apply Hp|].
  constructor; [done|]. apply Forall_app. split; [by apply Hp|]. constructor; [done|].
  apply Forall_app. split; [by repeat constructor|]. constructor; [done|].
  eapply Forall_impl; [by apply int_str_digits, Z.lt_le_incl|]. intros c Hc. cbv beta in Hc.
  unfold path_char, name_char, in_ranges. rewrite existsb_app. cbn. unfold ascii_digit in Hc.
  rewrite Hc. by rewrite !orb_true_r.
Qed.

(** What a path character is not. *)
Lemma path_char_safe c :
  path_char c = true →
  is_space c = false ∧ mem c [9; 10; 13] = false ∧ c ≠ 35 ∧ c ≠ 63.
Proof.
  intros Hc. assert (45 ≤ c ≤ 122 ∧ c ≠ 63) as [Hr H63].
  { unfold path_char, name_char, in_ranges in Hc. cbn in Hc. lia. }
  assert (Forall (λ c, is_space c = false ∧ mem c [9; 10; 13] = false) (seqZ 45 78)) as Hall
    by (apply (bool_decide_unpack _); by vm_compute).
  destruct (Forall_elem _ _ c Hall) as [H1 H2]; [apply elem_of_seqZ; lia|]. repeat split; [done..|lia|lia].
Qed.

Lemma NUMBER_int_str n : 0 < n → fullmatch NUMBER_PATTERN (int_str n) = true.
Proof.
  intros Hn. pose proof (int_str_digits n ltac:(lia)) as Hd. rewrite int_str_nonneg in * by done.
  destruct (to_digits_head 10 ltac:(lia) n Hn) as (d&ds&E&Hd0). rewrite E in *. cbn [map] in *.
  apply Forall_cons in Hd as [Hd Hds]. apply fullmatch_spec. unfold NUMBER_PATTERN. apply Match_seq.
  exists [zero_char + d], (map (Z.add zero_char) ds). split; [done|]. split.
  - apply Match_class. exists (zero_char + d). split; [done|]. unfold ascii_digit, zero_char in *. cbn. lia.
  - clear -Hds. induction Hds as [|c s Hc _ IH]; [constructor|].
    apply (MStarCons _ [c] s); [|done]. constructor.
    unfold ascii_digit in Hc. cbn. by rewrite Hc.
Qed.

Lemma NUMBER_digits s : fullmatch NUMBER_PATTERN s = true → of_digits 10 (map (λ c, c - zero_char) s) > 0.
Proof.
  intros (s1&s2&->&(c&->&Hc)%Match_class&H2)%fullmatch_spec%Match_seq.
  assert (Forall (λ c, ascii_digit c = true) s2) as Hd.
  { eapply rforall_Match; [|exact H2]. cbn [rforall]. intros d Hd. unfold ascii_digit. cbn in Hd. lia. }
  assert (∀ acc, acc > 0 → fold_left (λ a d, a * 10 + d) (map (λ c, c - zero_char) s2) acc > 0) as Hfold.
  { clear H2. induction Hd as [|d s2 Hd _ IH]; [done|]. intros acc Ha. cbn. apply IH.
    unfold ascii_digit, zero_char in *. lia. }
  unfold of_digits. cbn. apply Hfold. cbn in Hc. unfold zero_char. lia.
Qed.

(** ** The round trip *)

Section url_round_trip.
Context `{UrlLib}.

(** What [urlsplit] makes of a path on the host. *)
Lemma urlsplit_path p :
  Forall (λ c, path_char c = true) p → head p = Some 47 →
  urlsplit (u "https://github.com" ++ p) = Ok (SplitResult (u "https") (u "github.com") p [] []).
Proof.
  intros Hp Hh. destruct p as [|c p]; [done|]. injection Hh as ->.
  assert (List.filter (λ c, negb (mem c [9; 10; 13])) (47 :: p) = 47 :: p) as Hf.
  { apply filter_all. eapply Forall_impl; [exact Hp|]. cbn beta. intros c (_&->&_)%path_char_safe. done. }
  assert (35 ∉ 47 :: p ∧ 63 ∉ 47 :: p) as [H35 H63].
  { split; intros Hin; apply (Forall_elem _ _ _ Hp), path_char_safe in Hin as (_&_&?&?); done. }
  unfold urlsplit.
  assert (dropwhile (λ c, (0 <=? c) && (c <=? 32)) (u "https://github.com" ++ 47 :: p)
          = u "https://github.com" ++ 47 :: p) as -> by done.
  rewrite List.filter_app, Hf.
  change (List.filter _ (u "https://github.com")) with (u "https://github.com").
  change (split_scheme (u "https://github.com" ++ 47 :: p)) with (u "https", u "//github.com" ++ 47 :: p).
  cbv beta iota zeta.
  change (startswith (u "//") (u "//github.com" ++ 47 :: p)) with true.
  change (span (λ c, negb (netloc_stop c)) (drop 2 (u "//github.com" ++ 47 :: p)))
    with (u "github.com", 47 :: p).
  cbv beta iota zeta.
  change (mem 91 (u "github.com")) with false. change (mem 93 (u "github.com")) with false.
  cbn -[u partition split_once _checknetloc mem]. unfold split_once.
  rewrite (partition_none _ _ H35). cbn [default from_option id]. by rewrite (partition_none _ _ H63).
Qed.

Lemma match_canonical_path r :
  ref_ok r → match_pull_path (canonical_path r) = Some (owner r, repository r, int_str (number r)).
Proof.
  intros Hr. pose proof Hr as [Ho HR [Hn _]].
  apply owner_chars in Ho as [Ho Ho0]. apply repository_chars in HR as [HR HR0].
  assert (∀ s, Forall (λ c, name_char c = true) s → 47 ∉ s) as Hno.
  { intros s Hs Hin. apply (Forall_elem _ _ _ Hs) in Hin. done. }
  assert (47 ∉ int_str (number r)) as Hnn.
  { intros Hin. by apply (Forall_elem _ _ _ (int_str_digits _ (Z.lt_le_incl _ _ Hn))) in Hin. }
  unfold match_pull_path, canonical_path.
  change (47 :: owner r ++ ?t) with ([] ++ 47 :: owner r ++ t).
  rewrite split_char_app by apply not_elem_of_nil. rewrite split_char_app by auto.
  rewrite split_char_app by auto. rewrite split_char_app by (apply Hno; repeat constructor).
  rewrite split_char_none by done. rewrite NUMBER_int_str by done.
  rewrite !bool_decide_eq_false_2 by done. by rewrite bool_decide_eq_true_2.
Qed.

Lemma strip_no_space s : Forall (λ c, is_space c = false) s → strip s = s.
Proof.
  intros Hs. apply strip_id; intros c s' ->.
  - by apply Forall_cons in Hs as [? _].
  - by apply Forall_app in Hs as [_ [? _]%Forall_cons].
Qed.

(** The canonical URL of a well-formed reference is read back. *)
Lemma parse_url_of r : ref_ok r → parse_github_pull_request_url (JStr (url r)) = Ok r.
Proof.
  intros Hr. unfold parse_github_pull_request_url. cbn [mbind res_bind].
  pose proof (path_chars r Hr) as Hp.
  assert (strip (url r) = url r) as ->.
  { rewrite url_path_of. apply strip_no_space, Forall_app. split; [by repeat constructor|].
    eapply Forall_impl; [exact Hp|]. cbn beta. by intros c (?&_)%path_char_safe. }
  rewrite bool_decide_eq_true_2 by done. cbn [negb raise_if mbind res_bind].
  rewrite url_path_of, urlsplit_path by done. cbn [mbind res_bind scheme netloc url_path query fragment].
  cbn [negb orb raise_if]. rewrite !bool_decide_eq_true_2 by done.
  cbn [negb orb raise_if mbind res_bind]. rewrite match_canonical_path by done.
  cbn [of_option mbind res_bind]. destruct Hr as [Ho HR Hn].
  rewrite Ho. unfold _valid_repository. rewrite HR. cbn [negb orb raise_if mbind res_bind].
  rewrite int_of_int_str; [|lia|].
  - cbn [mbind res_bind]. destruct (Z.ltb_spec MAX_PULL_NUMBER (number r)); [lia|]. by destruct r.
  - assert (2147483647 < 10 ^ 10) by lia. unfold MAX_PULL_NUMBER in Hn.
    pose proof (Z.pow_le_mono_r 10 10 MAX_STR_DIGITS ltac:(lia) ltac:(unfold MAX_STR_DIGITS; lia)). lia.
Qed.

(** Whatever was accepted is well-formed. *)
Lemma parse_url_ok v r : parse_github_pull_request_url v = Ok r → ref_ok r.
Proof.
  unfold parse_github_pull_request_url. intros H0. res_inv H0.
  repeat match goal with x : _ * _ |- _ => destruct x end.
  res_inv H0. apply of_option_Ok in H4.
  assert (fullmatch NUMBER_PATTERN l = true) as HN.
  { unfold match_pull_path in H4. repeat case_match; try discriminate.
    injection H4 as -> -> ->. breflect. naive_solver. }
  unfold int_of_digits in H6. res_inv H6. apply orb_false_iff in H5 as [Ho HR].
  apply negb_false_iff in Ho, HR. split; cbn; [done..|].
  pose proof (NUMBER_digits _ HN). lia.
Qed.
End url_round_trip.

(** ** What is accepted besides canonical URLs *)

(** A tab inside the URL, an upper-case scheme, a control character in front
    and an empty query are all read as the canonical URL. *)
Lemma accepts_sloppy_urls :
  let r := MkPullRequestRef (u "octo") (u "repo") 7 in
  Forall (λ s, parse_github_pull_request_url (JStr s) = Ok r)
    [u "https://github.com/octo/re" ++ 9 :: u "po/pull/7"; u "HTTPS://github.com/octo/repo/pull/7";
     1 :: u "https://github.com/octo/repo/pull/7"; u "https://github.com/octo/repo/pull/7?"].
Proof. cbv zeta. repeat constructor; by vm_compute. Qed.

(** The [ValueError] of [urlsplit] is not turned into a [GitHubReceiptError]. *)
Lemma bracket_escapes `{UrlLib} :
  parse_github_pull_request_url (JStr (u "https://[")) = Err (ValueError "Invalid IPv6 URL").
Proof. reflexivity. Qed.

(** A URL that is accepted names one pull request: the reference read from
    it is well-formed (an owner and a repository of the allowed shape, a number
    from 1 to 2147483647), and its canonical URL is read back as itself. *)
Theorem pull_request_url_canonical `{UrlLib} (value : json) (r : GitHubPullRequestRef) :
  parse_github_pull_request_url value = Ok r →
  ref_ok r ∧ parse_github_pull_request_url (JStr (url r)) = Ok r.
Proof. intros Hr%parse_url_ok. split; [done|by apply parse_url_of]. Qed.

Lemma pull_request_url_canonical_witness :
  let r := MkPullRequestRef (u "octo") (u "repo") 7 in
  ref_ok r ∧ parse_github_pull_request_url (JStr (u "https://github.com/octo/repo/pull/7")) = Ok r.
Proof. apply (pull_request_url_canonical (JStr (u "HTTPS://github.com/octo/repo/pull/7?"))). by vm_compute. Defined.
