(* ===== verification/ReceiptFacts.v ===== *)
(** What a signed receipt is worth: what is fetched can be signed, what is
    signed verifies, what verifies was signed, and what it says of the checks. *)

From S2P Require Import Prelude Errors Text Regex Sha256 Json Crypto Clock Url Effects Protocol.
From S2P Require Import Toy Sealed Capabilities Receipt UrlFacts.

(** ** Repository names *)

Lemma partition_spec c s :
  match partition c s with
  | (a, Some b) => s = a ++ c :: b ∧ c ∉ a
  | (a, None) => s = a ∧ c ∉ a
  end.
Proof.
  induction s as [|x s IH]; cbn; [by split; [|apply not_elem_of_nil]|].
  destruct (Z.eqb_spec x c) as [->|Hx]; [by split; [|apply not_elem_of_nil]|].
  destruct (partition c s) as [a [b|]], IH as [-> Hc]; split; try done;
    by apply not_elem_of_cons.
Qed.

Lemma count_char_none c s : c ∉ s → count_char c s = 0.
Proof.
  unfold count_char. induction s as [|x s IH]; [done|]. intros [Hx Hs]%not_elem_of_cons. cbn.
  destruct (Z.eqb_spec c x); [done|auto].
Qed.

Lemma count_char_app c s t : count_char c (s ++ t) = count_char c s + count_char c t.
Proof. unfold count_char. rewrite List.filter_app, length_app. lia. Qed.

Lemma parse_repository_Ok v s :
  _parse_repository v = Ok s →
  ∃ o n, v = JStr s ∧ s = o ++ 47 :: n ∧ fullmatch OWNER_PATTERN o = true ∧ valid_repository_name n = true.
Proof.
  destruct v as [| | | |t| |]; try done. unfold _parse_repository, split_once. intros H. res_inv H.
  pose proof (partition_spec 47 t) as Hp. destruct (partition 47 t) as [a [b|]].
  - res_inv H. destruct Hp as [-> _]. apply orb_false_iff in H1 as [Ho Hn].
    exists a, b. apply negb_false_iff in Ho, Hn. done.
  - destruct Hp as [-> Ha]. rewrite (count_char_none _ _ Ha) in H0. done.
Qed.

Lemma name_char_no_slash s : Forall (λ c, name_char c = true) s → 47 ∉ s.
Proof. intros Hs Hin. by apply (Forall_elem _ _ _ Hs) in Hin. Qed.

Lemma parse_repository_full_name r :
  ref_ok r → _parse_repository (JStr (full_name r)) = Ok (full_name r).
Proof.
  intros [Ho HR _]. pose proof (owner_chars _ Ho) as [Hoc%name_char_no_slash _].
  pose proof (repository_chars _ HR) as [HRc%name_char_no_slash _].
  assert (full_name r = owner r ++ 47 :: repository r) as E by done.
  unfold _parse_repository, split_once. rewrite E, count_char_app, (count_char_none _ _ Hoc).
  change (47 :: repository r) with ([47] ++ repository r). rewrite count_char_app, (count_char_none _ _ HRc).
  cbn [count_char List.filter]. change (count_char 47 [47]) with 1. cbn [raise_if mbind res_bind].
  change ([47] ++ repository r) with (47 :: repository r).
  assert (partition 47 (owner r ++ 47 :: repository r) = (owner r, Some (repository r))) as ->.
  { clear -Hoc. induction (owner r) as [|x o IH]; [done|]. apply not_elem_of_cons in Hoc as [Hx Ho].
    cbn [app partition]. rewrite (IH Ho). destruct (Z.eqb_spec x 47); [congruence|done]. }
  cbn [default from_option id]. unfold _valid_repository. by rewrite Ho, HR.
Qed.

(** ** Evidence that can be signed *)

Record evidence_ok (ev : PullRequestEvidence) : Prop := {
  ok_subject : ∃ r, ref_ok r ∧ ev_repository ev = full_name r ∧ ev_number ev = number r ∧ ev_url ev = url r;
  ok_author : fullmatch AUTHOR_PATTERN (ev_author ev) = true;
  ok_state : ev_state ev ∈ [u "open"; u "closed"];
  ok_head : fullmatch SHA_PATTERN (ev_head_sha ev) = true;
  ok_base : fullmatch SHA_PATTERN (ev_base_sha ev) = true;
  ok_merge : ∀ s, ev_merge_commit_sha ev = Some s → ev_merged ev = true ∧ fullmatch SHA_PATTERN s = true;
  ok_checks : 0 ≤ ev_checks_observed ev ≤ ev_checks_total ev ∧ ev_checks_total ev < 10 ^ MAX_STR_DIGITS;
  ok_statuses : 0 ≤ ev_statuses_observed ev ≤ ev_statuses_total ev ∧ ev_statuses_total ev < 10 ^ MAX_STR_DIGITS;
  ok_complete : ev_ci_data_complete ev = (ev_checks_observed ev =? ev_checks_total ev) &&
                                         (ev_statuses_observed ev =? ev_statuses_total ev);
  ok_ci : ev_ci ev ∈ CI_STATES;
  ok_no_signals : ev_ci ev = u "no_signals" ↔ ev_checks_total ev + ev_statuses_total ev = 0;
  ok_partial : ev_ci ev = u "partial" → ev_ci_data_complete ev = false;
  ok_known : ev_ci ev = u "pending" ∨ ev_ci ev = u "success" → ev_ci_data_complete ev = true;
  ok_updated : fullmatch TIMESTAMP_PATTERN (ev_source_updated_at ev) = true;
  ok_updated_date : fromisoformat_ok (ev_source_updated_at ev) = true
}.

Lemma require_sha_ok s : fullmatch SHA_PATTERN s = true → _require_sha (JStr s) = Ok s.
Proof. intros H. unfold _require_sha. by rewrite H. Qed.

Lemma require_count_ok z : 0 ≤ z → _require_count (JInt z) = Ok z.
Proof. intros H. unfold _require_count, nonnegative_field. by destruct (Z.ltb_spec z 0); [lia|]. Qed.

Lemma require_timestamp_ok s :
  fullmatch TIMESTAMP_PATTERN s = true → fromisoformat_ok s = true → _require_timestamp (JStr s) = Ok s.
Proof. intros H1 H2. unfold _require_timestamp. by rewrite H1, H2. Qed.

Lemma receipt_keys_distinct ev did at_ : NoDup (receipt_payload ev did at_).*1.
Proof. change ((receipt_payload ev did at_).*1) with RECEIPT_PAYLOAD_KEYS. decide_by_computing. Qed.

Lemma JStr_eqb a b : bool_decide (JStr a = JStr b) = bool_decide (a = b).
Proof. apply bool_decide_ext. naive_solver. Qed.

(** The members of the payload, in whatever order, pass the validation. *)
Lemma evidence_valid `{UrlLib} ev did at_ P :
  evidence_ok ev → fullmatch DID_PATTERN did = true → valid_datetime at_ = true →
  P ≡ₚ receipt_payload ev did (format_timestamp at_) → _validate_receipt_payload P = Ok tt.
Proof.
  intros Hev Hdid Hat HP.
  assert (has_exact_keys P RECEIPT_PAYLOAD_KEYS = true) as HK
    by (rewrite (has_exact_keys_perm _ _ _ HP); by vm_compute).
  assert (NoDup P.*1) as Hd by (rewrite HP; apply receipt_keys_distinct).
  assert (Forall (λ kv, jget kv.1 P = kv.2) (receipt_payload ev did (format_timestamp at_))) as Hm
    by (rewrite <- HP; by apply jget_members).
  name_members Hm.
  clear HP Hd. destruct Hev as [(r&Hr&Er&En&Eu)].
  unfold _validate_receipt_payload. rewrite HK. cbn [negb raise_if mbind res_bind].
  assert (_validate_receipt_header P = Ok tt) as ->.
  { unfold _validate_receipt_header. rewrite E, E1, E2, E0. rewrite !bool_decide_eq_true_2 by done.
    cbn [negb orb raise_if mbind res_bind]. unfold validate_did_value, validate_did. by rewrite Hdid. }
  assert (_validate_receipt_subject P = Ok tt) as ->.
  { unfold _validate_receipt_subject. rewrite E3, E4, E5, E6, E7, E8, E9, Er, En, Eu.
    rewrite parse_repository_full_name, require_count_ok by first [done | apply ref_number in Hr; lia].
    cbn [mbind res_bind]. destruct (Z.eqb_spec (number r) 0); [apply ref_number in Hr; lia|].
    cbn [raise_if mbind res_bind]. rewrite parse_url_of by done. cbn [mbind res_bind].
    rewrite bool_decide_eq_true_2, Z.eqb_refl by done. cbn [negb orb raise_if mbind res_bind].
    unfold require_author. rewrite ok_author0. cbn [negb raise_if mbind res_bind in_set].
    by rewrite bool_decide_eq_true_2. }
  assert (_validate_receipt_commits P = Ok tt) as ->.
  { unfold _validate_receipt_commits. rewrite E10, E11, E12, E8, !require_sha_ok by done.
    cbn [mbind res_bind]. destruct (ev_merge_commit_sha ev) as [s|] eqn:Em.
    - destruct (ok_merge0 s eq_refl) as [-> Hs]. by rewrite require_sha_ok.
    - by destruct (ev_merged ev). }
  assert (_validate_receipt_ci P = Ok tt) as ->.
  { unfold _validate_receipt_ci, _validate_receipt_ci_counts.
    rewrite E13, E14, E15, E16, E17, E18, !require_count_ok by lia. cbn [in_set mbind res_bind].
    rewrite (bool_decide_eq_true_2 (ev_ci ev ∈ CI_STATES)) by done.
    cbn [negb raise_if mbind res_bind require_bool].
    destruct (Z.ltb_spec (ev_checks_total ev) (ev_checks_observed ev)); [lia|].
    destruct (Z.ltb_spec (ev_statuses_total ev) (ev_statuses_observed ev)); [lia|].
    rewrite <- ok_complete0, (bool_decide_eq_true_2 (JBool _ = JBool _)) by done.
    cbn [negb orb raise_if mbind res_bind].
    rewrite !JStr_eqb. clear -ok_no_signals0 ok_partial0 ok_known0.
    destruct (Z.eqb_spec (ev_checks_total ev + ev_statuses_total ev) 0) as [Ht|Ht];
      repeat case_bool_decide; destruct (ev_ci_data_complete ev); cbn; try done; exfalso; naive_solver. }
  cbn [mbind res_bind]. rewrite E19, E20, !require_timestamp_ok; auto using format_timestamp_pattern, fromisoformat_format.
Qed.

(** ** The texts of a receipt can be printed *)

Lemma path_char_scalar c : path_char c = true → is_scalar c = true.
Proof.
  intros Hc. assert (45 ≤ c ≤ 122) by (unfold path_char, name_char, in_ranges in Hc; cbn in Hc; lia).
  unfold is_scalar, is_surrogate. breflect. lia.
Qed.

Lemma full_name_scalar r : ref_ok r → ascii_str (full_name r).
Proof.
  intros [[Ho _]%owner_chars [Hr _]%repository_chars _].
  assert (∀ s, Forall (λ c, name_char c = true) s → ascii_str s) as Hs.
  { intros s Hs. eapply Forall_impl; [exact Hs|]. intros c Hc. apply path_char_scalar. unfold path_char.
    cbv beta in Hc. by rewrite Hc. }
  apply Forall_app. split; [by apply Hs|]. constructor; [done|]. by apply Hs.
Qed.

Lemma url_scalar r : ref_ok r → ascii_str (url r).
Proof.
  intros Hr. rewrite url_path_of. apply Forall_app. split; [by repeat constructor|].
  eapply Forall_impl; [by apply path_chars|]. intros c. apply path_char_scalar.
Qed.

Lemma MAX_PULL_NUMBER_small : MAX_PULL_NUMBER < 10 ^ MAX_STR_DIGITS.
Proof.
  assert (MAX_PULL_NUMBER < 10 ^ 10) by done.
  pose proof (Z.pow_le_mono_r 10 10 MAX_STR_DIGITS ltac:(lia) ltac:(unfold MAX_STR_DIGITS; lia)). lia.
Qed.

Lemma receipt_payload_ok ev did at_ :
  evidence_ok ev → fullmatch DID_PATTERN did = true → valid_datetime at_ = true →
  json_ok (JDict (receipt_payload ev did (format_timestamp at_))).
Proof.
  intros [] Hdid Hat. destruct ok_subject0 as (r&Hr&Er&En&Eu).
  assert (∀ r s, regex_scalar r = true → fullmatch r s = true → json_ok (JStr s)) as Hre
    by (intros; by eapply regex_scalar_str).
  assert (∀ l s, forallb (forallb is_scalar) l = true → s ∈ l → json_ok (JStr s)) as Hl
    by (intros; by eapply in_list_scalar).
  unfold receipt_payload. json_ok_fields; try exact I.
  - by apply (Hl [RECEIPT_SCHEMA]); [|left].
  - by apply (Hre DID_PATTERN).
  - by apply (Hl [RECEIPT_SOURCE]); [|left].
  - by apply (Hl [GITHUB_API_VERSION]); [|left].
  - rewrite Er. by apply full_name_scalar.
  - rewrite En. apply ref_number in Hr. eapply small_int_ok; [|apply MAX_PULL_NUMBER_small]. lia.
  - rewrite Eu. by apply url_scalar.
  - by apply (Hre AUTHOR_PATTERN).
  - by apply (Hl [u "open"; u "closed"]).
  - by apply (Hre SHA_PATTERN).
  - by apply (Hre SHA_PATTERN).
  - destruct (ev_merge_commit_sha ev) as [s|]; [|done]. destruct (ok_merge0 s eq_refl). by apply (Hre SHA_PATTERN).
  - by apply (Hl CI_STATES).
  - eapply small_int_ok; apply ok_checks0.
  - eapply small_int_ok; [|apply ok_checks0]. lia.
  - eapply small_int_ok; apply ok_statuses0.
  - eapply small_int_ok; [|apply ok_statuses0]. lia.
  - by apply (Hre TIMESTAMP_PATTERN).
  - by apply (Hre TIMESTAMP_PATTERN); [|apply format_timestamp_pattern].
Qed.

(** ** What the responses say *)

Lemma require_sha_Ok v s : _require_sha v = Ok s → v = JStr s ∧ fullmatch SHA_PATTERN s = true.
Proof.
  destruct v; try done. unfold _require_sha. intros H. res_inv H. by apply negb_false_iff in H0.
Qed.

Lemma require_count_Ok v z : _require_count v = Ok z → v = JInt z ∧ 0 ≤ z.
Proof. destruct v; try done. unfold _require_count, nonnegative_field. intros H. res_inv H. split; [done|lia]. Qed.

Lemma require_timestamp_Ok v s :
  _require_timestamp v = Ok s → fullmatch TIMESTAMP_PATTERN s = true ∧ fromisoformat_ok s = true.
Proof.
  destruct v; try done. unfold _require_timestamp. intros H. res_inv H.
  apply negb_false_iff in H0, H1. done.
Qed.

Lemma require_author_Ok v e s : require_author v e = Ok s → fullmatch AUTHOR_PATTERN s = true.
Proof. destruct v; try done. unfold require_author. intros H. res_inv H. by apply negb_false_iff in H0. Qed.

Lemma known_text v l b :
  in_set v l = Ok b → raise_if (negb b) (bad_response "GitHub returned an invalid pull request state") = Ok tt →
  text_of v ∈ l.
Proof.
  intros Hv Hb. apply raise_if_Ok, negb_false_iff in Hb as ->.
  by apply in_set_Ok in Hv as (s&->&Hs).
Qed.

(** The details of a pull request that was asked for by a well-formed reference. *)
Record details_ok (reference : GitHubPullRequestRef) (d : PullDetails) : Prop := {
  do_subject : ∃ r, ref_ok r ∧ d_repository d = full_name r ∧ d_number d = number r ∧ d_url d = url r;
  do_number : d_number d = number reference;
  do_repository : casefold (d_repository d) = casefold (full_name reference);
  do_author : fullmatch AUTHOR_PATTERN (d_author d) = true;
  do_state : d_state d ∈ [u "open"; u "closed"];
  do_head : fullmatch SHA_PATTERN (d_head_sha d) = true;
  do_base : fullmatch SHA_PATTERN (d_base_sha d) = true;
  do_merge : ∀ s, d_merge_commit_sha d = Some s → d_merged d = true ∧ fullmatch SHA_PATTERN s = true;
  do_updated : fullmatch TIMESTAMP_PATTERN (d_source_updated_at d) = true;
  do_updated_date : fromisoformat_ok (d_source_updated_at d) = true
}.

Lemma merge_sha_Ok (merged : bool) v o :
  (if merged and (v != JNull) then Some <$> _require_sha v else Ok None) = Ok o →
  ∀ s, o = Some s → merged = true ∧ fullmatch SHA_PATTERN s = true.
Proof.
  destruct (merged && (v != JNull)) eqn:E; [|by intros [= <-]].
  intros (s'&[_ Hs]%require_sha_Ok&->)%res_fmap_Ok s [= <-]. by apply andb_true_iff in E as [-> _].
Qed.

Lemma parse_pull_Ok `{UrlLib} payload reference d :
  ref_ok reference → _parse_pull payload reference = Ok d → details_ok reference d.
Proof.
  intros Href H0. unfold _parse_pull in H0. res_inv H0.
  apply orb_false_iff in H2 as [Hn Hz]. apply negb_false_iff, Z.eqb_eq in Hn.
  apply parse_repository_Ok in H6 as (o&n&_&Ex2&Ho&HR).
  apply require_sha_Ok in H18 as [_ H18], H19 as [_ H19].
  apply require_timestamp_Ok in H21 as [HT HD]. apply require_author_Ok in H12.
  apply negb_false_iff, bool_decide_eq_true in H7.
  assert (x3 = MkPullRequestRef o n x) as ->.
  { pose proof (parse_url_of (MkPullRequestRef o n x)) as E.
    assert (ref_ok (MkPullRequestRef o n x)) as Hr0
      by (split; cbn; [done..|]; destruct Href as [_ _ ?]; lia).
    specialize (E Hr0). rewrite url_path_of in E. rewrite Ex2 in H8.
    assert (u "https://github.com/" ++ (o ++ 47 :: n) ++ u "/pull/" ++ int_str x
            = u "https://github.com" ++ canonical_path (MkPullRequestRef o n x)) as E2
      by (unfold canonical_path; cbn [owner repository number]; by rewrite <- !app_assoc).
    rewrite E2, E in H8. by injection H8 as <-. }
  apply parse_url_ok in H8. split; cbn; try done.
  - exists (MkPullRequestRef o n x). by rewrite Ex2.
  - eapply known_text; [exact H13|]. by rewrite H14.
  - by eapply merge_sha_Ok.
Qed.

Lemma parse_checks_Ok payload sha c :
  _parse_checks payload sha = Ok c → Forall member_printable payload →
  0 ≤ c_observed c ≤ c_total c ∧ c_total c < 10 ^ MAX_STR_DIGITS ∧ c_complete c = (c_observed c =? c_total c).
Proof.
  unfold _parse_checks. intros H0 Hp. res_inv H0. destruct x1 as [hf hp]. res_inv H0. cbn.
  apply require_count_Ok in H1 as [E Hx]. apply orb_false_iff in H3 as [H3 _].
  pose proof (jget_printable (u "total_count") payload Hp) as Ht. rewrite E in Ht. cbn in Ht.
  lia.
Qed.

Lemma parse_statuses_Ok payload sha s :
  _parse_statuses payload sha = Ok s → Forall member_printable payload →
  0 ≤ s_observed s ≤ s_total s ∧ s_total s < 10 ^ MAX_STR_DIGITS ∧ s_complete s = (s_observed s =? s_total s).
Proof.
  unfold _parse_statuses. intros H0 Hp. res_inv H0. cbn.
  apply require_count_Ok in H5 as [E Hx]. apply orb_false_iff in H7 as [H7 _].
  pose proof (jget_printable (u "total_count") payload Hp) as Ht. rewrite E in Ht. cbn in Ht. lia.
Qed.

(** GitHub may report a failed combined status without any record of it. *)
Definition unexplained_failure (checks : CheckSummary) (statuses : StatusSummary) : bool :=
  (c_total checks + s_total statuses =? 0) && (s_state statuses in? [u "error"; u "failure"]).

Definition ci_fields_ok (checks : CheckSummary) (statuses : StatusSummary) : Prop :=
  let ci := ci_of checks statuses in
  let complete := c_complete checks && s_complete statuses in
  ci ∈ CI_STATES ∧ (ci = u "no_signals" ↔ c_total checks + s_total statuses = 0) ∧
  (ci = u "partial" → complete = false) ∧ (ci = u "pending" ∨ ci = u "success" → complete = true).

Lemma ci_of_ok checks statuses :
  0 ≤ c_observed checks ≤ c_total checks → 0 ≤ s_observed statuses ≤ s_total statuses →
  c_complete checks = (c_observed checks =? c_total checks) →
  s_complete statuses = (s_observed statuses =? s_total statuses) →
  (c_has_failure checks = true → 0 < c_total checks) →
  unexplained_failure checks statuses = false → ci_fields_ok checks statuses.
Proof.
  unfold ci_fields_ok, ci_of, unexplained_failure. intros Hc Hs -> -> Hf Hu.
  destruct (c_has_failure checks), (s_state statuses in? [u "error"; u "failure"]) eqn:?,
    (Z.eqb_spec (c_observed checks) (c_total checks)), (Z.eqb_spec (s_observed statuses) (s_total statuses)),
    (Z.eqb_spec (c_total checks + s_total statuses) 0), (c_has_pending checks || (s_state statuses == u "pending"));
    cbn in *; try discriminate; try specialize (Hf eq_refl); try lia.
  all: split; [decide_by_computing|].
  all: split; [split; [try done; try (by intros ?%(f_equal head)) | try done; try lia]|].
  all: split; try done; try (by intros [?|?]).
Qed.

(** ** What the check-runs say *)

(** A run of the commit that is over without a failure. *)
Definition run_passed (sha : str) (raw_run : json) : Prop :=
  ∃ run conclusion, raw_run = JDict run ∧ jget (u "head_sha") run = JStr sha ∧
    jget (u "status") run = JStr (u "completed") ∧
    jget (u "conclusion") run = JStr conclusion ∧ conclusion ∈ CHECK_NON_FAILURES.

Lemma failures_disjoint s : s ∈ CHECK_NON_FAILURES → s ∉ CHECK_FAILURES.
Proof.
  assert (Forall (λ s, s ∉ CHECK_FAILURES) CHECK_NON_FAILURES) as H by decide_by_computing.
  apply (Forall_elem _ _ _ H).
Qed.

(** One run: the flags only go up, and stay exactly when the run passed. *)
Lemma check_run_Ok sha hf hp raw hf' hp' :
  check_run sha (hf, hp) raw = Ok (hf', hp') →
  (hf = true → hf' = true) ∧ (hp = true → hp' = true) ∧
  (run_passed sha raw → hf' = hf ∧ hp' = hp) ∧
  (hf' = false → hp' = false → run_passed sha raw).
Proof.
  unfold check_run. intros H0. res_inv H0. apply negb_false_iff, bool_decide_eq_true in H3 as ->.
  destruct raw as [| | | | | |run]; try discriminate. injection H1 as <-.
  apply require_sha_Ok in H2 as [Hsha _].
  destruct (jget (u "status") run != JStr (u "completed")) eqn:Es.
  - injection H0 as <- <-. apply negb_true_iff, bool_decide_eq_false in Es.
    split; [done|]. split; [done|]. split; [|done].
    intros (run'&c&[= <-]&_&?&_). done.
  - apply negb_false_iff, bool_decide_eq_true in Es.
    apply res_bind_Ok in H0 as (failed&Hf&H0). destruct failed.
    + injection H0 as <- <-. split; [done|]. split; [done|]. split; [|done].
      intros (run'&c&[= <-]&_&_&Ec&Hc). rewrite Ec in Hf. cbn in Hf. injection Hf as Hf.
      apply bool_decide_eq_true in Hf. by destruct (failures_disjoint c Hc).
    + res_inv H0. apply negb_false_iff in H2. subst.
      split; [done|]. split; [done|]. split; [done|]. intros _ _. apply in_set_Ok in H1 as (c&Ec&Hc); [|done]. exists run, c. done.
Qed.

Lemma check_runs_Ok sha runs hf hp hf' hp' :
  foldM_res (check_run sha) (hf, hp) runs = Ok (hf', hp') →
  (hf = true → hf' = true) ∧ (hp = true → hp' = true) ∧
  (Forall (run_passed sha) runs → hf' = hf ∧ hp' = hp) ∧
  (hf' = false → hp' = false → Forall (run_passed sha) runs).
Proof.
  revert hf hp. induction runs as [|raw runs IH]; intros hf hp; cbn [foldM_res].
  - intros [= <- <-]. done.
  - intros ([hf1 hp1]&H1%check_run_Ok&H2%IH)%res_bind_Ok.
    destruct H1 as (F1&P1&K1&R1), H2 as (F2&P2&K2&R2). split; [auto|]. split; [auto|]. split.
    + intros [H1 H2]%Forall_cons. destruct (K1 H1) as [-> ->]. auto.
    + intros Hf Hp. assert (hf1 = false) by (destruct hf1; [rewrite F2 in Hf; done|done]).
      assert (hp1 = false) by (destruct hp1; [rewrite P2 in Hp; done|done]). constructor; auto.
Qed.

Lemma ci_of_success checks statuses :
  s_state statuses ∈ COMBINED_STATUS_STATES →
  ci_of checks statuses = u "success" ↔
  c_has_failure checks = false ∧ c_has_pending checks = false ∧ c_complete checks = true ∧
  s_complete statuses = true ∧ c_total checks + s_total statuses ≠ 0 ∧ s_state statuses = u "success".
Proof.
  unfold COMBINED_STATUS_STATES. rewrite !elem_of_cons, elem_of_nil. unfold ci_of.
  intros [-> | [-> | [-> | [-> | []]]]];
    destruct (c_has_failure checks), (c_has_pending checks), (c_complete checks), (s_complete statuses),
      (Z.eqb_spec (c_total checks + s_total statuses) 0); cbn;
    (split; [try discriminate; intros _; done | intros (?&?&?&?&?&?); done]).
Qed.

(** C15: a receipt says "success" exactly when every check-run of the commit is
    over without a failure, all runs and all statuses were observed, there is at
    least one signal, and the combined status is a success.  So it does not say
    "success", but "pending", when every check-run has passed and there is no
    status at all, since the combined state of no statuses is reported as
    "pending"; docs/receipt-threat-model.md:60-61 describes that case as "success":
    the two disagree, and this is what the code does. *)
Theorem ci_success_means_success (checks_payload statuses_payload : list (str * json)) (sha : str)
    (checks : CheckSummary) (statuses : StatusSummary) :
  _parse_checks checks_payload sha = Ok checks → _parse_statuses statuses_payload sha = Ok statuses →
  (ci_of checks statuses = u "success" ↔
   ∃ runs records, jget (u "check_runs") checks_payload = JList runs ∧
     jget (u "total_count") checks_payload = JInt (length runs) ∧ Forall (run_passed sha) runs ∧
     jget (u "statuses") statuses_payload = JList records ∧
     jget (u "total_count") statuses_payload = JInt (length records) ∧
     jget (u "sha") statuses_payload = JStr sha ∧
     jget (u "state") statuses_payload = JStr (u "success") ∧ 0 < length runs + length records) ∧
  (∀ runs, jget (u "check_runs") checks_payload = JList runs → runs ≠ [] →
     jget (u "total_count") checks_payload = JInt (length runs) → Forall (run_passed sha) runs →
     jget (u "statuses") statuses_payload = JList [] → jget (u "total_count") statuses_payload = JInt 0 →
     jget (u "state") statuses_payload = JStr (u "pending") → ci_of checks statuses = u "pending").
Proof.
  unfold _parse_checks, _parse_statuses. intros H0 H5. res_inv H0. destruct x1 as [hf hp]. res_inv H0. res_inv H5.
  apply require_count_Ok in H1 as [Et _], H9 as [Et' _].
  apply orb_false_iff in H3 as [H3 _], H11 as [H11 _]. apply require_sha_Ok in H0 as [Esha _].
  apply negb_false_iff, bool_decide_eq_true in H6 as ->. apply negb_false_iff in H8 as ->.
  apply in_set_Ok in H7 as (state&Es&Hin); [|done]. apply check_runs_Ok in H4 as (_&_&K&R).
  destruct (jget (u "check_runs") checks_payload) as [| | | | |runs|] eqn:Er; try discriminate.
  destruct (jget (u "statuses") statuses_payload) as [| | | | |records|] eqn:Ec; try discriminate.
  injection H2 as <-. injection H10 as <-. rewrite Es, Et, Et', Esha. split; [rewrite ci_of_success by done; cbn; split|].
  - intros (->&->&H1&H2&H4&->). exists runs, records. apply Z.eqb_eq in H1, H2. subst.
    repeat (split; [by auto|]). lia.
  - intros (runs'&records'&[= <-]&[= ->]&Hp&[= <-]&[= ->]&_&[= ->]&Hl).
    destruct (K Hp) as [-> ->]. rewrite !Z.eqb_refl. repeat (split; [done|]). split; [lia|done].
  - intros runs' [= <-] Hne [= ->] Hp [= ->] [= ->] [= ->]. destruct (K Hp) as [-> ->].
    unfold ci_of. cbn. rewrite Z.eqb_refl, Z.add_0_r. cbn. destruct runs; [done|]. by vm_compute.
Qed.

(** ** From the responses to the receipt *)

Lemma inspected_evidence_ok `{UrlLib} reference pull checks_payload statuses_payload d checks statuses :
  ref_ok reference → Forall member_printable checks_payload → Forall member_printable statuses_payload →
  _parse_pull pull reference = Ok d → _parse_checks checks_payload (d_head_sha d) = Ok checks →
  _parse_statuses statuses_payload (d_head_sha d) = Ok statuses →
  unexplained_failure checks statuses = false → evidence_ok (evidence_of d checks statuses).
Proof.
  intros Href Hcp Hsp Hd Hc Hs Hu. pose proof Hc as Hc'. apply parse_pull_Ok in Hd; [|done]. destruct Hd.
  apply parse_checks_Ok in Hc as (Hc1&Hc2&Hc3); [|done]. apply parse_statuses_Ok in Hs as (Hs1&Hs2&Hs3); [|done].
  destruct (ci_of_ok checks statuses) as (H1&H2&H3&H4); try done.
  { intros Hf. unfold _parse_checks in Hc'. res_inv Hc'. destruct x1. res_inv Hc'. cbn in *.
    destruct x0; [|cbn in *; lia]. cbn in *. congruence. }
  split; cbn; try done. by rewrite Hc3, Hs3.
Qed.

Lemma verify_sealed `{UrlLib} `{Ed25519Laws} payload seed did sig :
  _validate_receipt_payload payload = Ok tt → jget (u "issuer") payload = JStr did →
  did_from_private_key seed = Ok did → sign_detached seed (canonical_json (JDict payload)) = Ok sig →
  verify_signed_receipt (JDict (sealed payload (sha256_hex (canonical_json (JDict payload))) sig)) = Ok payload.
Proof.
  intros Hv Hi Hdid Hsig. unfold verify_signed_receipt. cbn [of_option mbind res_bind].
  set (w := sealed payload _ sig).
  assert (has_exact_keys w RECEIPT_KEYS = true) as -> by by vm_compute.
  assert (jget (u "payload") w = JDict payload) as -> by done.
  cbn [negb raise_if of_option mbind res_bind]. rewrite Hv. cbn [mbind res_bind].
  assert (jget (u "payload_sha256") w = JStr (sha256_hex (canonical_json (JDict payload)))) as -> by done.
  assert (jget (u "signature") w = JStr sig) as -> by done. clear w.
  rewrite bool_decide_eq_true_2, Hi by done. cbn [negb raise_if mbind res_bind verify_signature_value].
  by rewrite (verify_own_signature seed).
Qed.

(** C16: what was inspected can be signed, and what was signed verifies.  For a
    pull request that was asked for by a well-formed reference and whose
    responses were accepted (no failure without a record), the receipt is built;
    if it fits into a message it is rendered, and the text verifies as exactly
    the payload that was built, its members in the order of their keys. *)
Theorem receipt_round_trip `{UrlLib} `{Ed25519Laws} (reference : GitHubPullRequestRef)
    (pull checks_payload statuses_payload : list (str * json)) (d : PullDetails) (checks : CheckSummary)
    (statuses : StatusSummary) (seed : bytes) (did : str) (at_ : datetime) :
  ref_ok reference → Forall member_printable checks_payload → Forall member_printable statuses_payload →
  _parse_pull pull reference = Ok d → _parse_checks checks_payload (d_head_sha d) = Ok checks →
  _parse_statuses statuses_payload (d_head_sha d) = Ok statuses →
  unexplained_failure checks statuses = false →
  did_from_private_key seed = Ok did → valid_datetime at_ = true →
  ∃ receipt, build_signed_receipt (evidence_of d checks statuses) did seed at_ = Ok receipt ∧
    (length (dumps true (JDict receipt)) ≤ RECEIPT_LIMIT →
     ∃ text, render_signed_receipt receipt = Ok text ∧
       verify_signed_receipt_text text
       = Ok (sort_keys (receipt_payload (evidence_of d checks statuses) did (format_timestamp at_)))).
Proof.
  intros Href Hcp Hsp Hd Hc Hs Hu Hdid Hat.
  pose proof (inspected_evidence_ok _ _ _ _ _ _ _ Href Hcp Hsp Hd Hc Hs Hu) as Hev.
  destruct (did_from_private_key_total seed) as (did'&E&Hp&_). rewrite Hdid in E. injection E as <-.
  set (P := receipt_payload _ _ _). destruct (sign_detached_total seed (canonical_json (JDict P))) as (sig&Hsig&Hsp'&_).
  pose proof (evidence_valid _ _ _ _ Hev Hp Hat (reflexivity P)) as HvP.
  pose proof (evidence_valid _ _ _ (sort_keys P) Hev Hp Hat (sort_keys_perm P)) as HvS.
  assert (NoDup P.*1) as HnP by apply receipt_keys_distinct.
  assert (canonical_json (JDict (sort_keys P)) = canonical_json (JDict P)) as Ec by by apply dumps_sort_keys.
  exists (sealed P (sha256_hex (canonical_json (JDict P))) sig). split.
  { unfold build_signed_receipt. rewrite (proj2 (validate_did_Ok did did)), Hdid by done. cbn [mbind res_bind]. rewrite bool_decide_eq_true_2 by done.
    cbn [negb raise_if mbind res_bind]. fold P. rewrite HvP. cbn [mbind res_bind]. by rewrite Hsig. }
  intros Hlen. eexists. split.
  { unfold render_signed_receipt. rewrite (verify_sealed P seed did) by done. cbn [mbind res_bind].
    apply Z.ltb_ge in Hlen. by rewrite Hlen. }
  unfold verify_signed_receipt_text, loads.
  rewrite <- (app_nil_r (dumps _ _)), loads_sealed.
  - cbn [res_catch mbind res_bind]. rewrite <- Ec. by apply (verify_sealed _ seed did).
  - apply keeps_distinct_default.
  - apply json_ok_sealed; [by apply receipt_payload_ok| |].
    + eapply Forall_impl; [apply sha256_hex_lower|]. intros c. unfold lower_hex, is_scalar, is_surrogate. cbv beta. breflect. lia.
    + by eapply (regex_scalar_str SIGNATURE_PATTERN).
  - subst P. cbn. by destruct (d_merge_commit_sha d).
  - by left.
Qed.

Lemma verify_signature_inv `{Ed25519Laws} did signature canonical :
  verify_signature_value did signature canonical = true →
  ∃ d pk sig raw, did = JStr d ∧ public_key_from_did d = Ok pk ∧ urlsafe_b64decode sig = Some raw ∧
    ed_verify pk raw canonical = true.
Proof.
  destruct did as [| | | |d| |], signature as [| | | |sig| |]; try done. cbn.
  intros (pk&raw&Hpk&Hraw&_&Hv)%verify_detached_inv. by exists d, pk, sig, raw.
Qed.

Lemma valid_subject `{UrlLib} payload x :
  _validate_receipt_subject payload = Ok x →
  ∃ r, ref_ok r ∧ jget (u "repository") payload = JStr (full_name r) ∧
    jget (u "pull_number") payload = JInt (number r).
Proof.
  unfold _validate_receipt_subject. intros H1. res_inv H1.
  apply parse_repository_Ok in H0 as (o&n&Er&_). apply require_count_Ok in H2 as [En _].
  apply orb_false_iff in H5 as [H5 H5']. apply negb_false_iff, bool_decide_eq_true in H5.
  apply negb_false_iff, Z.eqb_eq in H5'. subst. eexists. split; [by eapply parse_url_ok|done].
Qed.

Lemma valid_success payload x :
  _validate_receipt_ci payload = Ok x → jget (u "ci") payload = JStr (u "success") →
  ∃ c s, jget (u "checks_observed") payload = JInt c ∧ jget (u "checks_total") payload = JInt c ∧
    jget (u "statuses_observed") payload = JInt s ∧ jget (u "statuses_total") payload = JInt s ∧
    0 ≤ c ∧ 0 ≤ s ∧ 0 < c + s.
Proof.
  unfold _validate_receipt_ci, _validate_receipt_ci_counts. intros H1 Hci. rewrite Hci in H1. res_inv H1.
  apply require_count_Ok in H5 as [E1 Hc], H6 as [E2 Ht], H7 as [E3 Hs], H8 as [E4 Hst].
  change (negb ((x3 =? x4) && (x5 =? x6)) = false) in H1. change ((x4 + x6 =? 0) = false) in H11.
  apply negb_false_iff, andb_true_iff in H1 as [->%Z.eqb_eq ->%Z.eqb_eq].
  exists x4, x6. repeat (split; [done|]). lia.
Qed.

(** C17: what verifies was signed by the issuer it names, over the whole payload;
    it is about one well-formed pull request, and if it says "success" then it
    says that all of at least one check or status was observed. *)
Theorem verified_receipt_sound `{UrlLib} `{Ed25519Laws} (text : str) (payload : list (str * json)) :
  verify_signed_receipt_text text = Ok payload →
  (∃ did pk sig raw, jget (u "issuer") payload = JStr did ∧ public_key_from_did did = Ok pk ∧
     urlsafe_b64decode sig = Some raw ∧ ed_verify pk raw (canonical_json (JDict payload)) = true) ∧
  (∃ r, ref_ok r ∧ jget (u "repository") payload = JStr (full_name r) ∧
     jget (u "pull_number") payload = JInt (number r)) ∧
  (jget (u "ci") payload = JStr (u "success") →
   ∃ c s, jget (u "checks_observed") payload = JInt c ∧ jget (u "checks_total") payload = JInt c ∧
     jget (u "statuses_observed") payload = JInt s ∧ jget (u "statuses_total") payload = JInt s ∧
     0 ≤ c ∧ 0 ≤ s ∧ 0 < c + s).
Proof.
  unfold verify_signed_receipt_text, verify_signed_receipt, _validate_receipt_payload. intros H2.
  res_inv H2. apply valid_subject in H10. apply negb_false_iff, verify_signature_inv in H15.
  split; [|split; [done|by eapply valid_success]]. destruct H15 as (did&pk&sig&raw&?). by exists did, pk, sig, raw.
Qed.

(** ** A concrete receipt *)

Definition sample_ref : GitHubPullRequestRef := MkPullRequestRef (u "octo") (u "repo") 7.
Definition sample_sha : str := repeat 97 40.
Definition sample_pull : list (str * json) :=
  [(u "number", JInt 7); (u "html_url", JStr (u "https://github.com/octo/repo/pull/7"));
   (u "base", JDict [(u "repo", JDict [(u "private", JBool false); (u "full_name", JStr (u "octo/repo"))]);
                     (u "sha", JStr sample_sha)]);
   (u "user", JDict [(u "login", JStr (u "mona"))]); (u "state", JStr (u "closed"));
   (u "merged", JBool true); (u "draft", JBool false); (u "head", JDict [(u "sha", JStr sample_sha)]);
   (u "merge_commit_sha", JStr sample_sha); (u "updated_at", JStr (u "2026-01-02T03:04:05Z"))].
Definition sample_run : json :=
  JDict [(u "head_sha", JStr sample_sha); (u "status", JStr (u "completed")); (u "conclusion", JStr (u "success"))].
Definition sample_checks : list (str * json) :=
  [(u "total_count", JInt 1); (u "check_runs", JList [sample_run])].
Definition sample_statuses : list (str * json) :=
  [(u "sha", JStr sample_sha); (u "state", JStr (u "success")); (u "total_count", JInt 0); (u "statuses", JList [])].
Definition sample_details : PullDetails :=
  MkPullDetails (u "octo/repo") 7 (u "https://github.com/octo/repo/pull/7") (u "mona") (u "closed") true false
    sample_sha sample_sha (Some sample_sha) (u "2026-01-02T03:04:05Z").
Definition sample_check_summary : CheckSummary := MkCheckSummary 1 1 true false false.
Definition sample_status_summary : StatusSummary := MkStatusSummary 0 0 true (u "success").
Definition sample_did : str :=
  match did_from_private_key (toy_seed 1) with Ok did => did | Err _ => [] end.

Lemma ci_success_means_success_witness : ci_of sample_check_summary sample_status_summary = u "success".
Proof.
  apply (proj1 (ci_success_means_success sample_checks sample_statuses sample_sha sample_check_summary
    sample_status_summary ltac:(by vm_compute) ltac:(by vm_compute))).
  exists [sample_run], []. repeat (split; [by vm_compute|]). split.
  - constructor; [|constructor]. eexists _, (u "success"). split; [done|]. repeat (split; [by vm_compute|]).
    apply (bool_decide_unpack _). by vm_compute.
  - repeat (split; [by vm_compute|]). by vm_compute.
Defined.

Lemma receipt_round_trip_witness :
  ∃ receipt, build_signed_receipt (evidence_of sample_details sample_check_summary sample_status_summary)
               sample_did (toy_seed 1) toy_now = Ok receipt ∧
    (length (dumps true (JDict receipt)) ≤ RECEIPT_LIMIT →
     ∃ text, render_signed_receipt receipt = Ok text ∧
       verify_signed_receipt_text text
       = Ok (sort_keys (receipt_payload (evidence_of sample_details sample_check_summary sample_status_summary)
                          sample_did (format_timestamp toy_now)))).
Proof.
  apply (receipt_round_trip sample_ref sample_pull sample_checks sample_statuses); [|..|by vm_compute].
  - by split; vm_compute.
  - by repeat constructor.
  - by repeat constructor.
  - by vm_compute.
  - by vm_compute.
  - by vm_compute.
  - by vm_compute.
  - by vm_compute.
Defined.

Definition ok_or {A} (d : A) (m : res A) : A := match m with Ok a => a | Err _ => d end.
Definition sample_text : str :=
  Eval vm_compute in
    dumps true (JDict (ok_or []
      (build_signed_receipt (evidence_of sample_details sample_check_summary sample_status_summary)
         sample_did (toy_seed 1) toy_now))).
Definition sample_payload : list (str * json) :=
  Eval vm_compute in ok_or [] (verify_signed_receipt_text sample_text).

Lemma verified_receipt_sound_witness :
  ∃ c s, jget (u "checks_observed") sample_payload = JInt c ∧ jget (u "checks_total") sample_payload = JInt c ∧
    jget (u "statuses_observed") sample_payload = JInt s ∧ jget (u "statuses_total") sample_payload = JInt s ∧
    0 ≤ c ∧ 0 ≤ s ∧ 0 < c + s.
Proof. apply (verified_receipt_sound sample_text sample_payload); by vm_compute. Defined.
