(* ===== verification/Policy.v ===== *)
(** [policy.py]: which room messages are answered, and how. *)

From S2P Require Import Prelude Errors Text Json Crypto Url Effects State Memory Protocol.
From S2P Require Import Capabilities Receipt.

Inductive action : Type := Ignore | Reply | IssueReceipt.
#[export] Instance action_eq_dec : EqDecision action.
Proof. solve_decision. Defined.

(** The text of [Decision.action]. *)
Definition action_str (a : action) : str :=
  match a with Ignore => u "ignore" | Reply => u "reply" | IssueReceipt => u "receipt" end.

Record Decision := MkDecision {
  d_action : action;
  d_reason : str;
  d_reply : option str;
  d_target : option str
}.

Definition ignore (reason : string) : Decision := MkDecision Ignore (u reason) None None.

Record ParsedCommand := MkParsedCommand {
  p_name : str;
  p_decision : Decision;
  p_repository : option str
}.

Record CommandPolicy := MkCommandPolicy {
  own_did : str;
  allowed_dids : list str;
  allow_any_signed : bool;
  capabilities : option path;
  rate_limiter : option CapabilityRateLimiter
}.

(** [__post_init__] *)
Definition policy_init (p : CommandPolicy) : res CommandPolicy :=
  raise_if (bool_decide (is_Some (capabilities p)) && (bool_decide (allowed_dids p ≠ []) || allow_any_signed p))
    (CapabilityError "capability policy cannot be combined with legacy sender flags");;
  raise_if (negb (Bool.eqb (bool_decide (is_Some (capabilities p))) (bool_decide (is_Some (rate_limiter p)))))
    (CapabilityError "capability policy and its rate limiter must be configured together");;
  Ok p.

Definition REPLIES : list (str * str) :=
  [(u "/ping", u "pong");
   (u "/help", u "Commands: /ping, /status, /about, /help, /pr <public GitHub PR URL>");
   (u "/status",
    u "Technocore Safe Agent is online. It reads public GitHub PR metadata only and executes no room-supplied tools.");
   (u "/about",
    u "Keychain-backed Technocore responder. Signed commands only; fixed GitHub PR reads only; no shell, file, general URL, or arbitrary prompt execution.")].

Definition _command_name (text : str) : option str :=
  if text in? REPLIES.*1 then Some text
  else if (text == u "/pr") || startswith (u "/pr ") text then Some (u "/pr")
  else None.

(** A [ValueError] of [urlsplit] or [int] is not caught. *)
Definition _parse_command `{UrlLib} (name text : str) : res ParsedCommand :=
  match dict_get name REPLIES with
  | Some reply => Ok (MkParsedCommand name (MkDecision Reply (u "allowed_command") (Some reply) None) None)
  | None =>
      let raw_url := removeprefix (u "/pr ") text in
      match parse_github_pull_request_url (JStr raw_url) with
      | Ok reference =>
          Ok (MkParsedCommand name
                (MkDecision IssueReceipt (u "allowed_public_pull_request") None (Some (url reference)))
                (Some (full_name reference)))
      | Err e =>
          if is_GitHubReceiptError e
          then Ok (MkParsedCommand name (ignore "invalid_pull_request_url") None)
          else Err e
      end
  end.

Section policy.
Context `{Env} `{UrlLib}.

Definition _grant_for (did : str) (policy : CommandPolicy) : IO (option CapabilityGrant) :=
  match capabilities policy with
  | None => mret None
  | Some file => p ← load_policy file; mret (p !! did)
  end.

Definition _authorize_sender (message : RoomMessage) (policy : CommandPolicy)
  : IO (option Decision * option CapabilityGrant) :=
  if sender message == own_did policy then mret (Some (ignore "own_message"), None)
  else if negb (is_signed message) then mret (Some (ignore "unsigned_sender"), None)
  else
    grant ← _grant_for (sender message) policy;
    match capabilities policy, grant with
    | None, _ =>
        if negb (allow_any_signed policy) and negb (sender message in? allowed_dids policy)
        then mret (Some (ignore "sender_not_allowlisted"), None)
        else mret (None, grant)
    | Some _, None => mret (Some (ignore "principal_not_granted"), None)
    | Some _, Some g =>
        if negb (enabled g) then mret (Some (ignore "principal_revoked"), None)
        else mret (None, grant)
    end.

Definition _decide_authorized_command (message : RoomMessage) (grant : option CapabilityGrant)
    (policy : CommandPolicy) : IO Decision :=
  match _command_name (text message) with
  | None => mret (ignore "unsupported_command")
  | Some command_name =>
      if match grant with Some g => negb (command_name in? commands g) | None => false end
      then mret (ignore "command_not_granted")
      else
        parsed ← lift (_parse_command command_name (text message));
        if d_action (p_decision parsed) == Ignore then mret (p_decision parsed)
        else if match grant, p_repository parsed with
                | Some g, Some r => negb (allows_repository r g)
                | _, _ => false
                end
        then mret (ignore "repository_not_granted")
        else
          match grant with
          | None => mret (p_decision parsed)
          | Some g =>
              match rate_limiter policy with
              | None => raise (CapabilityError "capability rate limiter is not configured")
              | Some limiter =>
                  allowed ← allow (sender message) (max_requests_per_hour g) limiter;
                  if negb allowed then mret (ignore "rate_limited") else mret (p_decision parsed)
              end
          end
  end.

Definition decide (message : RoomMessage) (policy : CommandPolicy) : IO Decision :=
  '(denial, grant) ← _authorize_sender message policy;
  match denial with
  | Some d => mret d
  | None => _decide_authorized_command message grant policy
  end.
End policy.

(** ** What a decision does to the world *)

Section decide_steps.
Context `{HEnv : Env} {HLaws : EnvLaws} `{UrlLib}.
Set Default Proof Using "All".

(** The limiter saves the state where the responder does. *)
Definition limiter_at (sp : path) (p : CommandPolicy) : Prop :=
  ∀ l, rate_limiter p = Some l → limiter_state_path l = sp.

Lemma keeps_authorize_sender P message p : Keeps P same_state (_authorize_sender message p).
Proof. unfold _authorize_sender, _grant_for. keeps. Qed.

Lemma steps_decide sp message p :
  is_temp sp = false → limiter_at sp p → Steps (state_step sp) (decide message p).
Proof.
  intros Hsp Hl. unfold decide. apply keeps_bind; [apply _| |].
  - by apply keeps_state_step, keeps_authorize_sender.
  - intros [[d|] grant]; [apply keeps_ret; apply _|].
    unfold _decide_authorized_command.
    repeat (first [apply keeps_ret; apply _ | apply keeps_raise; apply _
                  | apply keeps_bind; [apply _|apply keeps_lift; apply _|intros ?] | case_match]).
    all: apply keeps_bind; [apply _| |intros []; apply keeps_ret; apply _].
    all: match goal with E : rate_limiter _ = Some _ |- _ => pose proof (Hl _ E) as El end.
    all: rewrite <- El; apply steps_allow; by rewrite El.
Qed.
End decide_steps.
