(* ===== verification/PolicyFacts.v ===== *)
(** What [policy.py] answers: only signed messages of authorised senders, only
    from its table of replies or with a receipt for a well-formed pull request. *)

From S2P Require Import Prelude Errors Text Regex Json Crypto Clock Url Effects State Memory.
From S2P Require Import Protocol Toy Capabilities Receipt UrlFacts Policy.

Section policy_facts.
Context `{Env} `{UrlLib}.

(** The sender may give commands; [grant] is what the policy file, read at that
    moment, grants it. *)
Definition authorized (message : RoomMessage) (policy : CommandPolicy) (grant : option CapabilityGrant)
    (w w1 : world memory) : Prop :=
  sender message ≠ own_did policy ∧ is_signed message = true ∧
  match capabilities policy with
  | None => grant = None ∧ w1 = w ∧ (allow_any_signed policy = true ∨ sender message ∈ allowed_dids policy)
  | Some file => ∃ p g, load_policy file w = (Ret p, w1) ∧ p !! sender message = Some g ∧
                        grant = Some g ∧ enabled g = true
  end.

Lemma authorize_sender_None message policy grant w w1 :
  _authorize_sender message policy w = (Ret (None, grant), w1) → authorized message policy grant w w1.
Proof.
  unfold _authorize_sender, _grant_for, authorized. intros E.
  destruct (sender message == own_did policy) eqn:Eo; [by apply ret_Ret in E as [? _]|].
  destruct (is_signed message) eqn:Es; cbn [negb] in E; [|by apply ret_Ret in E as [? _]].
  apply bool_decide_eq_false in Eo. split; [done|]. split; [done|].
  apply bind_Ret in E as (g&w0&E1&E). destruct (capabilities policy) as [file|].
  - apply bind_Ret in E1 as (p&w2&E1&[-> ->]%ret_Ret).
    destruct (p !! sender message) as [g|] eqn:Eg; [|by apply ret_Ret in E as [? _]].
    destruct (enabled g) eqn:Ee; cbn [negb] in E; apply ret_Ret in E as [[=] ->]. subst. eauto 10.
  - apply ret_Ret in E1 as [-> ->]. 
    destruct (negb (allow_any_signed policy) and negb (sender message in? allowed_dids policy)) eqn:Ea;
      apply ret_Ret in E as [[=] ->]. subst. split; [done|]. split; [done|].
    apply andb_false_iff in Ea as [Ea|Ea]; apply negb_false_iff in Ea; [by left|right].
    by apply bool_decide_eq_true in Ea.
Qed.

Lemma authorize_sender_Some message policy d grant w w1 :
  _authorize_sender message policy w = (Ret (Some d, grant), w1) → d_action d = Ignore.
Proof.
  unfold _authorize_sender, _grant_for. intros E.
  destruct (sender message == own_did policy); [by apply ret_Ret in E as [[= ->] _]|].
  destruct (negb (is_signed message)); [by apply ret_Ret in E as [[= ->] _]|].
  apply bind_Ret in E as (g&w0&_&E). destruct (capabilities policy) as [file|], g as [g|].
  - destruct (negb (enabled g)); apply ret_Ret in E as [[=] _]. by subst.
  - by apply ret_Ret in E as [[= ->] _].
  - case_match; apply ret_Ret in E as [[=] _]; by subst.
  - case_match; apply ret_Ret in E as [[=] _]; by subst.
Qed.

(** What a command asks for, without the message's own words. *)
Inductive answer : str → Decision → option str → Prop :=
  | AnswerReply text reply :
      dict_get text REPLIES = Some reply →
      answer text (MkDecision Reply (u "allowed_command") (Some reply) None) None
  | AnswerReceipt text r :
      ref_ok r → parse_github_pull_request_url (JStr (removeprefix (u "/pr ") text)) = Ok r →
      answer text (MkDecision IssueReceipt (u "allowed_public_pull_request") None (Some (url r)))
        (Some (full_name r)).

Lemma command_name_cases text name :
  _command_name text = Some name → (name = text ∧ is_Some (dict_get text REPLIES)) ∨ name = u "/pr".
Proof.
  unfold _command_name. destruct (text in? REPLIES.*1) eqn:E.
  - intros [= <-]. left. split; [done|]. apply bool_decide_eq_true in E.
    cbn in E. rewrite !elem_of_cons, elem_of_nil in E. by destruct E as [-> | [-> | [-> | [-> | []]]]]; vm_compute; eexists.
  - destruct ((text == u "/pr") || startswith (u "/pr ") text); [|done]. intros [= <-]. by right.
Qed.

Lemma parse_command_answer text name parsed :
  _command_name text = Some name → _parse_command name text = Ok parsed →
  d_action (p_decision parsed) ≠ Ignore → answer text (p_decision parsed) (p_repository parsed).
Proof.
  unfold _parse_command. intros [[-> [reply Er]]| ->]%command_name_cases.
  - rewrite Er. intros [= <-] _. by constructor.
  - change (dict_get (u "/pr") REPLIES) with (@None str).
    destruct (parse_github_pull_request_url _) as [r|e] eqn:E.
    + intros [= <-] _. econstructor; [by eapply parse_url_ok|done].
    + destruct (is_GitHubReceiptError e); [|done]. by intros [= <-] [].
Qed.
End policy_facts.

(** C18: the agent acts on a message only if it is signed, is not its own, and its
    sender is authorised: by the flags, or by a grant that is enabled, that the
    policy file read for this very message contains, that lists the command and
    covers the repository, and whose rate limit has just let it pass.  What it
    then does is one of the four fixed replies or a receipt for the pull request
    whose canonical URL is built from the parsed reference. *)
Theorem acts_only_when_authorized `{Env} `{UrlLib} (message : RoomMessage) (policy : CommandPolicy) (d : Decision)
    (w w' : world memory) :
  decide message policy w = (Ret d, w') → d_action d ≠ Ignore →
  ∃ grant w1 repo name, authorized message policy grant w w1 ∧ answer (text message) d repo ∧
    _command_name (text message) = Some name ∧
    match grant with
    | None => w' = w1
    | Some g => name ∈ commands g ∧ (∀ r, repo = Some r → allows_repository r g = true) ∧
        ∃ limiter, rate_limiter policy = Some limiter ∧
          allow (sender message) (max_requests_per_hour g) limiter w1 = (Ret true, w')
    end.
Proof.
  unfold decide. intros ([denial grant]&w1&E1&E)%bind_Ret Hd. destruct denial as [d0|].
  { apply ret_Ret in E as [-> ->]. by apply authorize_sender_Some in E1. }
  apply authorize_sender_None in E1 as Hauth. unfold _decide_authorized_command in E.
  destruct (_command_name (text message)) as [name|] eqn:En; [|by apply ret_Ret in E as [-> _]].
  destruct (match grant with Some g => negb (name in? commands g) | None => false end) eqn:Ec;
    [by apply ret_Ret in E as [-> _]|].
  apply bind_Ret in E as (parsed&w2&[Ep ->]%lift_Ret&E).
  destruct (d_action (p_decision parsed) == Ignore) eqn:Ei; [by apply ret_Ret in E as [-> ->]; apply bool_decide_eq_true in Ei|].
  apply bool_decide_eq_false in Ei. pose proof (parse_command_answer _ _ _ En Ep Ei) as Hans.
  destruct (match grant, p_repository parsed with
            | Some g, Some r => negb (allows_repository r g) | _, _ => false end) eqn:Er;
    [by apply ret_Ret in E as [-> _]|].
  destruct grant as [g|].
  - destruct (rate_limiter policy) as [limiter|] eqn:El; [|by apply raise_Ret in E].
    apply bind_Ret in E as (ok&w3&Ea&E). destruct ok; cbn [negb] in E; apply ret_Ret in E as [-> ->]; [|done].
    apply negb_false_iff, bool_decide_eq_true in Ec.
    exists (Some g), w1, (p_repository parsed), name. repeat (split; [done|]). split; [|eauto].
    intros r Hr. rewrite Hr in Er. by apply negb_false_iff in Er.
  - apply ret_Ret in E as [-> ->]. by exists None, w1, (p_repository parsed), name.
Qed.

(** ** A concrete decision *)

Definition sample_sender : str :=
  match did_from_private_key (toy_seed 2) with Ok did => did | Err _ => [] end.
Definition sample_message (text : str) : RoomMessage := MkRoomMessage 5 sample_sender text (Some (u "17")).
Definition sample_policy : CommandPolicy := MkCommandPolicy (u "did:key:own") [sample_sender] false None None.
Definition quiet_env : Env := toy_env (λ _, NoFault) (λ _, HttpFailed).

Lemma acts_only_when_authorized_witness :
  ∃ grant w1 repo name, authorized (H := quiet_env) (sample_message (u "/ping")) sample_policy grant (toy_world empty_memory []) w1 ∧
    answer (u "/ping") (MkDecision Reply (u "allowed_command") (Some (u "pong")) None) repo ∧
    _command_name (u "/ping") = Some name ∧
    match grant with
    | None => toy_world empty_memory [] = w1
    | Some g => name ∈ commands g ∧ (∀ r, repo = Some r → allows_repository r g = true) ∧
        ∃ limiter, rate_limiter sample_policy = Some limiter ∧
          allow (H := quiet_env) sample_sender (max_requests_per_hour g) limiter w1 = (Ret true, toy_world empty_memory [])
    end.
Proof.
  apply (acts_only_when_authorized (H := quiet_env) (sample_message (u "/ping")) sample_policy _ (toy_world empty_memory [])).
  - by vm_compute.
  - done.
Defined.
