(* ===== verification/Delivery.v ===== *)
(** [delivery.py]: the journal of the one signed message in flight. *)

From S2P Require Import Prelude Errors Text Regex Sha256 Json Crypto Effects State Memory Protocol.

Definition DELIVERY_SCHEMA : str := u "technocore-safe-agent-delivery-v1".
Definition SHA256_PATTERN : regex := rpow (RClass [r09; raf]) 64.
Definition DELIVERY_KEYS : list str :=
  [u "schema"; u "status"; u "room_sha256"; u "input_sequence"; u "did"; u "nonce"; u "text";
   u "text_sha256"; u "signature"; u "reply_sequence"].

Inductive delivery_status : Type := Pending | Acknowledged.
#[export] Instance delivery_status_eq_dec : EqDecision delivery_status.
Proof. solve_decision. Defined.

Definition status_str (s : delivery_status) : str :=
  match s with Pending => u "pending" | Acknowledged => u "acknowledged" end.

Record DeliveryRecord := MkDeliveryRecord {
  status : delivery_status;
  room_sha256 : str;
  input_sequence : Z;
  did : str;
  r_nonce : Z;
  r_text : str;
  text_sha256 : str;
  signature : str;
  reply_sequence : option Z
}.

#[export] Instance DeliveryRecord_eq_dec : EqDecision DeliveryRecord.
Proof. solve_decision. Defined.

(** The message the record is about. *)
Definition record_envelope (r : DeliveryRecord) : envelope := (r_nonce r, r_text r, signature r).

(** ** Checks on fields *)

Definition _sha256 (value : str) : res str := b ← utf8_encode value; Ok (sha256_hex b).

Definition _positive_int (value : json) : res Z :=
  match value with
  | JInt z => raise_if (z <=? 0) (DeliveryError "must be a positive integer");; Ok z
  | _ => Err (DeliveryError "must be a positive integer")
  end.

Definition _did (value : json) : res str :=
  res_catch (validate_did_value value) is_ProtocolValueError
    (λ _, Err (DeliveryError "delivery DID is invalid")).

(** [int(rendered)] of the text of an integer is that integer. *)
Definition _nonce_as_int (value : json) : res Z :=
  match value with
  | JInt z =>
      res_catch (validate_nonce (JInt z);; Ok z) is_ProtocolValueError
        (λ _, Err (DeliveryError "delivery nonce is invalid"))
  | _ => Err (DeliveryError "delivery nonce must be a non-negative integer")
  end.

Definition _exact_swept_text (value : json) : res str :=
  match value with
  | JStr t =>
      swept ← res_catch (sweep_text t 4096) is_ProtocolValueError
        (λ _, Err (DeliveryError "delivery text is invalid"));
      raise_if (swept != t) (DeliveryError "delivery text is not in canonical swept form");;
      Ok swept
  | _ => Err (DeliveryError "delivery text is invalid")
  end.

Definition _signature (value : json) : res str :=
  match value with
  | JStr s => raise_if (negb (fullmatch SIGNATURE_PATTERN s)) (DeliveryError "delivery signature is invalid");; Ok s
  | _ => Err (DeliveryError "delivery signature is invalid")
  end.

Definition digest (value : json) (e : exn) : res str :=
  match value with
  | JStr s => raise_if (negb (fullmatch SHA256_PATTERN s)) e;; Ok s
  | _ => Err e
  end.

(** ** Records *)

Section records.
Context `{Ed25519}.

Definition verify_for_room (room : str) (r : DeliveryRecord) : res unit :=
  valid_room ← validate_room room;
  room_digest ← _sha256 valid_room;
  raise_if (room_digest != room_sha256 r) (DeliveryError "delivery journal belongs to a different room");;
  canonical ← utf8_encode (canonical_message valid_room (int_str (r_nonce r)) (r_text r));
  raise_if (negb (verify_detached_signature (did r) canonical (signature r)))
    (DeliveryError "delivery signature is invalid for this room").

Definition create (room : str) (input_sequence : Z) (did : str) (nonce : Z) (text signature : str)
  : res DeliveryRecord :=
  valid_room ← validate_room room;
  room_sha256 ← _sha256 valid_room;
  input_sequence ← _positive_int (JInt input_sequence);
  did ← validate_did did;
  nonce ← _nonce_as_int (JInt nonce);
  swept ← _exact_swept_text (JStr text);
  text_sha256 ← _sha256 text;
  signature ← _signature (JStr signature);
  let record := MkDeliveryRecord Pending room_sha256 input_sequence did nonce swept text_sha256
                  signature None in
  verify_for_room valid_room record;;
  Ok record.
End records.

Definition from_payload (payload : json) : res DeliveryRecord :=
  kvs ← of_option (DeliveryError "delivery journal has an unsupported schema")
    (match payload with JDict kvs => Some kvs | _ => None end);
  raise_if (jget (u "schema") kvs != JStr DELIVERY_SCHEMA)
    (DeliveryError "delivery journal has an unsupported schema");;
  raise_if (negb (has_exact_keys kvs DELIVERY_KEYS)) (DeliveryError "delivery journal contains unexpected fields");;
  known ← in_set (jget (u "status") kvs) [u "pending"; u "acknowledged"];
  raise_if (negb known) (DeliveryError "delivery status must be pending or acknowledged");;
  let status := if jget (u "status") kvs == JStr (u "pending") then Pending else Acknowledged in
  room_digest ← digest (jget (u "room_sha256") kvs) (DeliveryError "delivery room digest is invalid");
  text_digest ← digest (jget (u "text_sha256") kvs) (DeliveryError "delivery text digest is invalid");
  text ← _exact_swept_text (jget (u "text") kvs);
  observed_digest ← _sha256 text;
  raise_if (observed_digest != text_digest) (DeliveryError "delivery text digest does not match its payload");;
  let raw_reply := jget (u "reply_sequence") kvs in
  reply_sequence ←
    (match status with
     | Pending =>
         raise_if (raw_reply != JNull) (DeliveryError "pending delivery must not have a reply sequence");; Ok None
     | Acknowledged => Some <$> _positive_int raw_reply
     end);
  input_sequence ← _positive_int (jget (u "input_sequence") kvs);
  did ← _did (jget (u "did") kvs);
  nonce ← _nonce_as_int (jget (u "nonce") kvs);
  signature ← _signature (jget (u "signature") kvs);
  raise_if (match reply_sequence with Some s => s <=? input_sequence | None => false end)
    (DeliveryError "reply sequence must follow the triggering input");;
  Ok (MkDeliveryRecord status room_digest input_sequence did nonce text text_digest signature reply_sequence).

Definition to_payload (r : DeliveryRecord) : json :=
  JDict [(u "schema", JStr DELIVERY_SCHEMA); (u "status", JStr (status_str (status r)));
         (u "room_sha256", JStr (room_sha256 r)); (u "input_sequence", JInt (input_sequence r));
         (u "did", JStr (did r)); (u "nonce", JInt (r_nonce r)); (u "text", JStr (r_text r));
         (u "text_sha256", JStr (text_sha256 r)); (u "signature", JStr (signature r));
         (u "reply_sequence", match reply_sequence r with Some s => JInt s | None => JNull end)].

Definition acknowledge_record (reply : Z) (r : DeliveryRecord) : res DeliveryRecord :=
  sequence ← _positive_int (JInt reply);
  raise_if (sequence <=? input_sequence r) (DeliveryError "reply sequence must follow the triggering input");;
  match status r with
  | Acknowledged =>
      raise_if (negb (bool_decide (reply_sequence r = Some sequence)))
        (DeliveryError "delivery already has a different acknowledgement");;
      Ok r
  | Pending =>
      Ok (MkDeliveryRecord Acknowledged (room_sha256 r) (input_sequence r) (did r) (r_nonce r) (r_text r)
            (text_sha256 r) (signature r) (Some sequence))
  end.

Definition matches (r : DeliveryRecord) (message : RoomMessage) : bool :=
  (sender message == did r) and (nonce message == Some (int_str (r_nonce r))) and (text message == r_text r).

(** ** The journal *)

Definition record_bytes (r : DeliveryRecord) : bytes := dumps false (to_payload r) ++ [10].

Section journal.
Context {Mem : Type} `{Env}.

Definition sync_directory (p : path) : M Mem unit :=
  os_errors (DeliveryError "cannot sync delivery directory") (fsync_directory p).

(** [DeliveryJournal.load] *)
Definition load_journal (p : path) : M Mem (option DeliveryRecord) :=
  exists_ ← path_exists p;
  if negb exists_ then mret None
  else
    payload ← try_except
      (f ← path_file p;
       check (negb (Z.land (f_mode f) MODE_GROUP_OTHER =? 0))
         (DeliveryError "delivery journal permissions must not allow group or other access");;
       read_json_text p)
      (λ e, is_OSError e || is_JSONDecodeError e)
      (λ _, raise (DeliveryError "cannot read delivery journal"));
    r ← lift (from_payload payload); mret (Some r).

Definition require_empty (p : path) : M Mem unit :=
  r ← load_journal p;
  check (bool_decide (is_Some r))
    (DeliveryError "a pending delivery requires recover-delivery before live sending").

Definition _write (record : DeliveryRecord) (p : path) : M Mem unit :=
  mkdir_parents p;;
  write_temporary (DeliveryError "cannot write delivery journal") p (record_bytes record);;
  os_errors (DeliveryError "cannot write delivery journal") (chmod p MODE_0600;; sync_directory p).

Definition prepare (record : DeliveryRecord) (p : path) : M Mem unit :=
  exists_ ← path_exists p;
  check exists_ (DeliveryError "a pending delivery already exists; run recover-delivery first");;
  _write record p.

Definition acknowledge (reply : Z) (p : path) : M Mem DeliveryRecord :=
  r ← load_journal p;
  match r with
  | None => raise (DeliveryError "cannot acknowledge a missing delivery journal")
  | Some record =>
      acknowledged ← lift (acknowledge_record reply record);
      _write acknowledged p;;
      mret acknowledged
  end.

Definition clear (p : path) : M Mem unit :=
  removed ← os_errors (DeliveryError "cannot clear delivery journal")
    (try_except (unlink p;; mret true) is_FileNotFoundError (λ _, mret false));
  if (removed : bool) then sync_directory p else mret tt.
End journal.

(** ** Well-formed records *)

Definition reply_wf (r : DeliveryRecord) : Prop :=
  match status r, reply_sequence r with
  | Pending, None => True
  | Acknowledged, Some q => input_sequence r < q < 10 ^ MAX_STR_DIGITS
  | _, _ => False
  end.

(** The records [create] and [acknowledge] make, and [from_payload] accepts. *)
Record record_wf (r : DeliveryRecord) : Prop := {
  wf_room : fullmatch SHA256_PATTERN (room_sha256 r) = true;
  wf_digest : _sha256 (r_text r) = Ok (text_sha256 r);
  wf_digest_shape : fullmatch SHA256_PATTERN (text_sha256 r) = true;
  wf_text : _exact_swept_text (JStr (r_text r)) = Ok (r_text r);
  wf_input : 0 < input_sequence r < 10 ^ MAX_STR_DIGITS;
  wf_did : fullmatch DID_PATTERN (did r) = true;
  wf_nonce : 0 ≤ r_nonce r ≤ NONCE_LIMIT;
  wf_signature : fullmatch SIGNATURE_PATTERN (signature r) = true;
  wf_reply : reply_wf r
}.

Lemma positive_int_Ok z x : _positive_int (JInt z) = Ok x ↔ 0 < z ∧ x = z.
Proof. unfold _positive_int. destruct (Z.leb_spec z 0); cbn; naive_solver lia. Qed.

Lemma nonce_as_int_ok z : 0 ≤ z ≤ NONCE_LIMIT → _nonce_as_int (JInt z) = Ok z.
Proof.
  intros Hz. unfold _nonce_as_int, NONCE_LIMIT in *. rewrite validate_nonce_int by lia. done.
Qed.

Lemma nonce_as_int_Ok z x : _nonce_as_int (JInt z) = Ok x → x = z ∧ fullmatch NONCE_PATTERN (int_str z) = true.
Proof.
  unfold _nonce_as_int. intros [H|(?&_&_&?)]%res_catch_Ok; [|done].
  apply res_bind_Ok in H as (s&H&[= <-]). split; [done|].
  unfold validate_nonce in H. apply res_bind_Ok in H as (?&_&H). by destruct (fullmatch _ _).
Qed.

Lemma int_str_negative z : z < 0 → fullmatch NONCE_PATTERN (int_str z) = false.
Proof.
  intros Hz. apply not_true_is_false. intros [_ H]%NONCE_PATTERN_spec.
  unfold int_str in H. destruct (Z.eqb_spec z 0); [lia|]. destruct (Z.ltb_spec z 0); [|lia].
  apply Forall_cons in H as [H _]. done.
Qed.

Lemma int_str_19_digits z : 0 ≤ z → (length (int_str z) ≤ 19)%nat → z ≤ NONCE_LIMIT.
Proof.
  intros Hz Hl. pose proof (int_str_digits z Hz) as Hd%ascii_digit_in_base.
  pose proof (of_digits_bounds 10 ltac:(lia) _ Hd) as Hb. rewrite int_str_value, length_map in Hb by done.
  assert (10 ^ length (int_str z) ≤ 10 ^ 19) by (apply Z.pow_le_mono_r; lia).
  unfold NONCE_LIMIT. lia.
Qed.

Lemma nonce_bounds z : fullmatch NONCE_PATTERN (int_str z) = true → 0 ≤ z ≤ NONCE_LIMIT.
Proof.
  intros H. destruct (Z_lt_le_dec z 0) as [Hz|Hz]; [by rewrite int_str_negative in H|].
  apply NONCE_PATTERN_spec in H as [[_ Hl] _]. split; [done|]. by apply int_str_19_digits.
Qed.

Lemma sha256_Ok s d : _sha256 s = Ok d → fullmatch SHA256_PATTERN d = true ∧ Forall (λ c, is_scalar c = true) s.
Proof.
  unfold _sha256. intros (b&Hb&[= <-])%res_bind_Ok. split.
  - apply fullmatch_spec, Match_rpow_class. split; [apply sha256_hex_length|].
    eapply Forall_impl; [apply sha256_hex_lower|]. intros c.
    unfold lower_hex. cbn. by rewrite orb_false_r.
  - unfold utf8_encode in Hb. apply res_bind_Ok in Hb as (?&Hs%raise_if_Ok&_).
    apply negb_false_iff in Hs. by apply forallb_Forall_true.
Qed.

Lemma exact_swept_Ok t t' : _exact_swept_text (JStr t) = Ok t' → t' = t ∧ sweep_text t 4096 = Ok t.
Proof.
  unfold _exact_swept_text. intros (s&[H|(?&_&_&?)]%res_catch_Ok&H')%res_bind_Ok; [|done].
  apply res_bind_Ok in H' as (?&He%raise_if_Ok&[= <-]). breflect. by subst.
Qed.

Lemma exact_swept_ok t : sweep_text t 4096 = Ok t → _exact_swept_text (JStr t) = Ok t.
Proof.
  intros H. unfold _exact_swept_text. rewrite H. cbn [res_catch mbind res_bind].
  by rewrite bool_decide_eq_true_2.
Qed.

Lemma from_payload_roundtrip r : record_wf r → from_payload (to_payload r) = Ok r.
Proof.
  intros [Hr Hd Hds Ht Hi Hdid Hn Hs Hrep]. destruct r as [st room q d n t td sg rep].
  cbn [status room_sha256 input_sequence did r_nonce r_text text_sha256 signature reply_sequence] in * |-.
  unfold from_payload, to_payload. cbn [of_option mbind res_bind].
  set (kvs := [_; _; _; _; _; _; _; _; _; _]).
  assert (jget (u "schema") kvs = JStr DELIVERY_SCHEMA) as -> by done.
  assert (has_exact_keys kvs DELIVERY_KEYS = true) as -> by done.
  assert (jget (u "status") kvs = JStr (status_str st)) as -> by done.
  assert (jget (u "room_sha256") kvs = JStr room) as -> by done.
  assert (jget (u "text_sha256") kvs = JStr td) as -> by done.
  assert (jget (u "text") kvs = JStr t) as -> by done.
  assert (jget (u "input_sequence") kvs = JInt q) as -> by done.
  assert (jget (u "did") kvs = JStr d) as -> by done.
  assert (jget (u "nonce") kvs = JInt n) as -> by done.
  assert (jget (u "signature") kvs = JStr sg) as -> by done.
  assert (jget (u "reply_sequence") kvs = match rep with Some s => JInt s | None => JNull end) as -> by done.
  clearbody kvs. rewrite (bool_decide_eq_true_2 (JStr DELIVERY_SCHEMA = _)) by done. cbn [negb raise_if mbind res_bind].
  assert (in_set (JStr (status_str st)) [u "pending"; u "acknowledged"] = Ok true) as -> by by destruct st.
  assert ((if JStr (status_str st) == JStr (u "pending") then Pending else Acknowledged) = st) as ->
    by by destruct st.
  cbn [negb raise_if mbind res_bind digest]. rewrite Hr, Hds. cbn [negb raise_if mbind res_bind].
  rewrite Ht. cbn [mbind res_bind]. rewrite Hd. cbn [mbind res_bind].
  rewrite (bool_decide_eq_true_2 (td = _)) by done. cbn [negb raise_if mbind res_bind].
  assert (_positive_int (JInt q) = Ok q) as -> by (apply positive_int_Ok; lia).
  unfold _did, validate_did_value, validate_did. rewrite Hdid.
  rewrite (nonce_as_int_ok n Hn). unfold _signature. rewrite Hs.
  unfold reply_wf in Hrep. cbn [status room_sha256 input_sequence did r_nonce r_text text_sha256 signature reply_sequence] in Hrep.
  destruct st, rep as [q'|]; try done; cbn [raise_if mbind res_bind res_catch negb fmap res_fmap];
    try (rewrite bool_decide_eq_true_2 by done; done).
  assert (_positive_int (JInt q') = Ok q') as -> by (apply positive_int_Ok; lia). cbn.
  destruct (Z.leb_spec q' q); [lia|done].
Qed.

Lemma text_scalar (s : str) : is_ascii s = true → Forall (λ c, is_scalar c = true) s.
Proof.
  intros H%forallb_Forall_true. eapply Forall_impl; [exact H|]. intros c Hc. cbn in Hc. breflect.
  unfold is_scalar, is_surrogate. breflect. lia.
Qed.

Lemma pattern_scalar r s :
  rforall (λ c, 0 ≤ c < 128) r → fullmatch r s = true → Forall (λ c, is_scalar c = true) s.
Proof.
  intros Hr Hs. apply text_scalar, forallb_Forall_true.
  eapply Forall_impl; [by eapply fullmatch_forall|]. intros c Hc. cbn in Hc |- *. breflect. lia.
Qed.

Lemma SHA256_scalar s : fullmatch SHA256_PATTERN s = true → Forall (λ c, is_scalar c = true) s.
Proof.
  intros [_ H]%fullmatch_spec%Match_rpow_class. eapply Forall_impl; [exact H|].
  intros c. cbn. unfold is_scalar, is_surrogate. breflect. lia.
Qed.

Lemma SIGNATURE_scalar s : fullmatch SIGNATURE_PATTERN s = true → Forall (λ c, is_scalar c = true) s.
Proof.
  intros [_ H]%fullmatch_spec%Match_rpow_class. eapply Forall_impl; [exact H|].
  intros c. cbn. unfold is_scalar, is_surrogate. breflect. lia.
Qed.

Lemma record_json_ok r : record_wf r → json_ok (to_payload r).
Proof.
  intros [Hr Hd Hds Ht Hi Hdid Hn Hs Hrep]. apply sha256_Ok in Hd as [_ Hd].
  unfold to_payload. json_ok_fields.
  - apply text_scalar. by vm_compute.
  - apply text_scalar. by destruct (status r).
  - by apply SHA256_scalar.
  - cbn. rewrite Z.abs_eq by lia. by destruct Hi.
  - by apply did_scalar.
  - cbn. rewrite Z.abs_eq by lia. apply NONCE_LIMIT_printable, Hn.
  - done.
  - by apply SHA256_scalar.
  - by apply SIGNATURE_scalar.
  - unfold reply_wf in Hrep. destruct (reply_sequence r) as [q|]; [|done].
    destruct (status r); [done|]. cbn. rewrite Z.abs_eq by lia. by destruct Hrep.
Qed.

(** ** Creating and acknowledging *)

Lemma create_Ok `{Ed25519} room q d n t sg r :
  create room q d n t sg = Ok r → q < 10 ^ MAX_STR_DIGITS →
  record_wf r ∧ input_sequence r = q ∧ r_nonce r = n ∧ status r = Pending ∧ r_text r = t ∧
  did r = d ∧ signature r = sg ∧ verify_for_room room r = Ok tt.
Proof.
  intros Hc Hq. unfold create in Hc.
  apply res_bind_Ok in Hc as (vr&[-> _]%validate_room_Ok&Hc).
  apply res_bind_Ok in Hc as (rd&[Hrd _]%sha256_Ok&Hc).
  apply res_bind_Ok in Hc as (q'&[Hq' ->]%positive_int_Ok&Hc).
  apply res_bind_Ok in Hc as (d'&[-> Hd]%validate_did_Ok&Hc).
  apply res_bind_Ok in Hc as (n'&[-> Hn]%nonce_as_int_Ok&Hc).
  apply res_bind_Ok in Hc as (t'&[-> Ht]%exact_swept_Ok&Hc).
  apply res_bind_Ok in Hc as (td&Htd&Hc). pose proof (sha256_Ok _ _ Htd) as [Hts _].
  apply res_bind_Ok in Hc as (sg'&Hsg&Hc). apply res_bind_Ok in Hc as ([]&Hv&Hc).
  apply Ok_inj in Hc as <-. unfold _signature in Hsg.
  apply res_bind_Ok in Hsg as (?&Hs%raise_if_Ok&[= <-]). apply negb_false_iff in Hs.
  split; [|done]. split; try done. by apply exact_swept_ok. by apply nonce_bounds.
Qed.

Lemma acknowledge_record_Ok q r r' :
  acknowledge_record q r = Ok r' → record_wf r → q < 10 ^ MAX_STR_DIGITS →
  record_wf r' ∧ input_sequence r' = input_sequence r ∧ record_envelope r' = record_envelope r ∧
  room_sha256 r' = room_sha256 r ∧ status r' = Acknowledged ∧ reply_sequence r' = Some q ∧
  input_sequence r < q.
Proof.
  unfold acknowledge_record. intros H [] Hq.
  apply res_bind_Ok in H as (q'&[Hpos ->]%positive_int_Ok&H).
  apply res_bind_Ok in H as (?&Hlt%raise_if_Ok&H). apply Z.leb_gt in Hlt.
  destruct (status r) eqn:Es.
  - apply Ok_inj in H as <-. split; [|done]. by split.
  - apply res_bind_Ok in H as (?&Heq%raise_if_Ok&H). apply Ok_inj in H as <-.
    apply negb_false_iff, bool_decide_eq_true in Heq. split; [by split|done].
Qed.

(** ** The journal file *)

Section journal_lemmas.
Context {Mem : Type} `{HEnv : Env}.
Implicit Types w : world Mem.
Set Default Proof Using "All".

(** The journal holds [r]; there is no journal. *)
Definition journal_holds (j : path) (r : DeliveryRecord) (w : world Mem) : Prop :=
  w_fs w !! j = Some (private_file (record_bytes r)).
Definition no_journal (j : path) (w : world Mem) : Prop := w_fs w !! j = None.

(** The journal is absent or the work of this program. *)
Definition journal_wf (j : path) (w : world Mem) : Prop :=
  no_journal j w ∨ ∃ r, record_wf r ∧ journal_holds j r w.

Lemma load_journal_Ret j o w w' :
  load_journal j w = (Ret o, w') →
  (no_journal j w → o = None) ∧ (∀ r, record_wf r → journal_holds j r w → o = Some r) ∧
  (o = None → no_journal j w).
Proof.
  unfold load_journal. intros (b&w1&[-> ->]%path_exists_Ret&H)%bind_Ret.
  unfold no_journal, journal_holds.
  destruct (w_fs w !! j) as [f|] eqn:Ef.
  - rewrite bool_decide_eq_true_2 in H by eauto. cbn [negb] in H.
    apply bind_Ret in H as (p&w2&Hp&H). apply bind_Ret in H as (r&w3&[Hr ->]%lift_Ret&[-> _]%ret_Ret).
    split; [done|]. split; [|done]. intros r' Hwf [= ->]. f_equal.
    apply try_Ret in Hp as [Hp|(?&?&_&_&[]%raise_Ret)].
    apply bind_Ret in Hp as (f&w4&[-> Hf]%path_file_Ret&Hp).
    apply bind_Ret in Hp as (?&w5&[_ ->]%check_Ret&Hp).
    apply read_json_text_Ret in Hp as (_&f'&Hf'&Hl).
    change (w_fs (ticked (ticked w)) !! j) with (w_fs w !! j) in Hf'.
    rewrite Ef in Hf'. injection Hf' as <-. change (f_data (private_file ?x)) with x in Hl.
    unfold record_bytes in Hl. rewrite loads_text_line in Hl by by apply record_json_ok.
    injection Hl as <-. rewrite from_payload_roundtrip in Hr by done. congruence.
  - rewrite bool_decide_eq_false_2 in H by (by intros []). apply ret_Ret in H as [-> _]. done.
Qed.

Lemma require_empty_Ret j w w' : require_empty j w = (Ret tt, w') → no_journal j w.
Proof.
  unfold require_empty. intros (o&w1&H%load_journal_Ret&[Hb _]%check_Ret)%bind_Ret.
  apply H. destruct o; [|done]. by rewrite bool_decide_eq_true_2 in Hb by eauto.
Qed.

Lemma keeps_load_journal P Q `{!PreOrder Q} j : Keeps P Q (load_journal (Mem := Mem) j).
Proof. unfold load_journal, read_json_text. keeps. Qed.

Lemma keeps_require_empty P Q `{!PreOrder Q} j : Keeps P Q (require_empty (Mem := Mem) j).
Proof. unfold require_empty, load_journal, read_json_text. keeps. Qed.

(** How a write of the journal ends. *)
Record journal_write (r : DeliveryRecord) (j : path) (w : world Mem) (o : outcome unit) (w' : world Mem)
  : Prop := {
  jw_frame : frame (λ q, q ≠ j ∧ is_temp q = false) eq w w';
  jw_file : journal_holds j r w' ∨ (o ≠ Ret tt ∧ w_fs w' !! j = w_fs w !! j);
  jw_raise e : o = Raise e → is_DeliveryError e = true ∨ is_OSError e = true
}.

Lemma journal_write_failed r j w o w' :
  is_temp j = false → settled w w' → failed (DeliveryError "cannot write delivery journal") o →
  journal_write r j w o w'.
Proof.
  intros Hp Hs Hf. split; [by apply settled_frame| |].
  - right. split; [by destruct Hf as [->|[->| ->]]|]. by apply (frame_fs _ _ _ _ Hs).
  - intros e ->. destruct Hf as [[= ->]|[[= ->]|[=]]]; [by left|by right].
Qed.

Lemma wp__write r j (Φ : outcome unit → world Mem → Prop) w :
  is_temp j = false → (∀ o w', journal_write r j w o w' → Φ o w') → wp (_write r j) Φ w.
Proof.
  intros Hp HΦ. assert (settled w (ticked w)) as Ht by by apply settled_ticked.
  unfold _write, mkdir_parents. apply wp_bind, wp_plain_action; cbn -[write_temporary os_errors].
  2,3: apply HΦ, journal_write_failed; [done..|]; unfold failed; auto.
  apply wp_bind, wp_write_temporary; [done|..].
  - intros w' Hf Hd.
    assert (frame (λ q, q ≠ j ∧ is_temp q = false) eq w w') as Hfr
      by (etrans; [by apply settled_frame, Ht|done]).
    assert (∀ w2, frame (λ q, q ≠ j ∧ is_temp q = false) eq w' w2 → w_fs w2 !! j = w_fs w' !! j →
      ∀ o, (∀ e, o = Raise e → is_DeliveryError e = true ∨ is_OSError e = true) → Φ o w2) as Hk.
    { intros w2 Hf2 Hj2 o Ho. apply HΦ. split; [by etrans| |done].
      left. unfold journal_holds. by rewrite Hj2. }
    apply wp_try, wp_bind, wp_update_file; cbn -[sync_directory].
    2,3: apply Hk; [by apply frame_ticked|done|]; intros e [= <-]; auto.
    set (w2 := World _ _ _ _).
    assert (frame (λ q, q ≠ j ∧ is_temp q = false) eq w' w2 ∧ w_fs w2 !! j = w_fs w' !! j) as [Hf2 Hj2].
    { split; [split; cbn; try done|cbn; by rewrite lookup_alter_eq, Hd].
      intros q [Hq _]. by apply lookup_alter_ne. }
    unfold sync_directory. apply wp_try. unfold fsync_directory. apply wp_plain_action; cbn;
      apply Hk; try (by apply frame_ticked); try done; intros e [= <-]; auto.
  - intros o w' Hs Hf. assert (settled w w') as Hs' by (unfold settled in *; by etrans).
    assert (failed (DeliveryError "cannot write delivery journal") (A := unit) o) by done.
    destruct o as [[]|e|]; [by destruct Hf as [?|[?|?]]|by apply HΦ, journal_write_failed..].
Qed.

(** The journal during [acknowledge]: the record stays, pending or
    acknowledged. *)
Lemma wp_acknowledge reply j r (Φ : outcome DeliveryRecord → world Mem → Prop) w :
  is_temp j = false → record_wf r → journal_holds j r w → reply < 10 ^ MAX_STR_DIGITS →
  (∀ o w' r', frame (λ q, q ≠ j ∧ is_temp q = false) eq w w' →
     record_wf r' → input_sequence r' = input_sequence r → record_envelope r' = record_envelope r →
     journal_holds j r' w' → Φ o w') →
  wp (acknowledge reply j) Φ w.
Proof.
  intros Hj Hr Hh Hq HΦ. unfold acknowledge. apply wp_bind.
  apply (wp_steps (frame (λ _, True) eq)); [apply keeps_load_journal; apply _|].
  intros o w1 [F M T] Hl.
  assert (frame (λ q, q ≠ j ∧ is_temp q = false) eq w w1) as Hf by (split; auto).
  assert (journal_holds j r w1) as Hh1 by (unfold journal_holds; by rewrite F).
  destruct o as [o|e|]; [|by apply (HΦ _ _ r)..].
  apply load_journal_Ret in Hl as (_&Hl&_). rewrite (Hl r Hr Hh).
  apply wp_bind, wp_lift. destruct (acknowledge_record reply r) as [r'|e] eqn:Ea; [|by apply (HΦ _ _ r)].
  apply acknowledge_record_Ok in Ea as (Hr'&Hi&Hn&_); [|done..].
  apply wp_bind, wp__write; [done|]. intros o' w2 [Hf2 Hd _].
  assert (frame (λ q, q ≠ j ∧ is_temp q = false) eq w w2) as Hf' by by etrans.
  destruct Hd as [Hd|[Ho Hd]].
  - destruct o' as [[]|e|]; by apply (HΦ _ _ r').
  - assert (journal_holds j r w2) by (unfold journal_holds; by rewrite Hd).
    destruct o' as [[]|e|]; [done|by apply (HΦ _ _ r)..].
Qed.

(** The journal after [clear]: gone, or untouched when it raised. *)
Lemma wp_clear j (Φ : outcome unit → world Mem → Prop) w :
  (∀ o w', frame (λ q, q ≠ j) eq w w' →
     (no_journal j w' ∨ (o ≠ Ret tt ∧ w_fs w' !! j = w_fs w !! j)) →
     (∀ e, o = Raise e → is_DeliveryError e = true) → Φ o w') →
  wp (clear j) Φ w.
Proof.
  intros HΦ. unfold clear. apply wp_bind, wp_try, wp_try, wp_bind. unfold unlink.
  apply wp_bind, wp_action.
  - unfold wp, get_files, mbind, M_bind. cbn. destruct (w_fs w !! j) as [f|] eqn:Ef; cbn.
    + set (w2 := World _ _ _ _).
      assert (frame (λ q, q ≠ j) eq w w2) as Hf.
      { split; cbn; try done. intros q Hq. by apply lookup_delete_ne. }
      assert (no_journal j w2) as Hn by apply lookup_delete_eq. clearbody w2.
      change (wp (sync_directory j) Φ w2). unfold sync_directory. apply wp_try. unfold fsync_directory.
      apply wp_plain_action; cbn; apply HΦ; try (by apply frame_ticked); try (by left);
        try done; by intros e [= <-].
    + apply HΦ; [by apply frame_ticked|by left|done].
  - cbn. apply HΦ; [by apply frame_ticked|by right|by intros e [= <-]].
  - cbn. apply HΦ; [by apply frame_ticked|by right|done].
Qed.
End journal_lemmas.
#[export] Hint Resolve keeps_load_journal keeps_require_empty : keeps.
