(* ===== verification/Config.v ===== *)
(** [config.py]: the local configuration of one mailbox. *)

From S2P Require Import Prelude Errors Text Regex Json Crypto Url Effects State Protocol.

Definition CONFIG_SCHEMA : str := u "technocore-safe-agent-config-v1".
Definition NAME_PATTERN : regex :=
  RSeq (RClass [rAZ; raz; r09]) (rrep (RClass [rAZ; raz; r09; rc 95; rc 45]) 0 47).
Definition CONFIG_FIELDS : list str :=
  [u "schema"; u "name"; u "did"; u "fingerprint"; u "room"; u "base_url"; u "status"; u "created_at";
   u "provision_nonce"; u "provisioned_seq"].

(** The fields have no type of their own: [cls( **payload)] takes any value. *)
Record AgentConfig := MkAgentConfig {
  c_schema : json;
  c_name : json;
  c_did : json;
  c_fingerprint : json;
  c_room : json;
  c_base_url : json;
  c_status : json;
  created_at : json;
  provision_nonce : json;
  provisioned_seq : json
}.

(** [cls( **payload)]: only [provisioned_seq] has a default. *)
Definition config_of_payload (kvs : list (str * json)) : res AgentConfig :=
  raise_if (negb (forallb (λ k, k in? CONFIG_FIELDS) kvs.*1) ||
            negb (forallb (λ k, k in? kvs.*1) (take 9 CONFIG_FIELDS)))
    (ConfigError "agent config fields do not match the supported schema");;
  let field name := jget (u name) kvs in
  Ok (MkAgentConfig (field "schema") (field "name") (field "did") (field "fingerprint") (field "room")
        (field "base_url") (field "status") (field "created_at") (field "provision_nonce")
        (field "provisioned_seq")).

Section config.
Context `{UrlLib}.

Definition validate_base_url_value (v : json) : res str :=
  match v with
  | JStr s => validate_base_url s
  | _ => Err (ProtocolValueError "base URL must not contain surrounding whitespace")
  end.

Definition validate_config (c : AgentConfig) : res unit :=
  raise_if (c_schema c != JStr CONFIG_SCHEMA) (ConfigError "agent config has an unsupported schema");;
  raise_if (match c_name c with JStr s => negb (fullmatch NAME_PATTERN s) | _ => true end)
    (ConfigError "agent config has an invalid name");;
  did ← validate_did_value (c_did c);
  validate_room_value (c_room c);;
  validate_base_url_value (c_base_url c);;
  known ← in_set (c_status c) [u "pending"; u "active"];
  raise_if (negb known) (ConfigError "agent config has an invalid status");;
  fingerprint ← fingerprint_of_did did;
  raise_if (c_fingerprint c != JStr fingerprint)
    (ConfigError "agent config fingerprint does not match its DID");;
  raise_if (match created_at c with JStr (_ :: _) => false | _ => true end)
    (ConfigError "agent config is missing created_at");;
  res_catch (validate_nonce (provision_nonce c)) is_ValueError
    (λ _, Err (ConfigError "agent config has an invalid provision nonce"));;
  raise_if (match provisioned_seq c with JNull => false | JInt z => z <=? 0 | _ => true end)
    (ConfigError "agent config has an invalid provisioned sequence");;
  raise_if ((c_status c == JStr (u "active")) and (provisioned_seq c == JNull))
    (ConfigError "active agent config is missing the provisioned sequence").

Definition parse_config (payload : json) : res AgentConfig :=
  kvs ← of_option (ConfigError "agent config must contain a JSON object")
    (match payload with JDict kvs => Some kvs | _ => None end);
  config ← config_of_payload kvs;
  validate_config config;;
  Ok config.
End config.

(** [asdict(self)] *)
Definition config_payload (c : AgentConfig) : json :=
  JDict [(u "schema", c_schema c); (u "name", c_name c); (u "did", c_did c);
         (u "fingerprint", c_fingerprint c); (u "room", c_room c); (u "base_url", c_base_url c);
         (u "status", c_status c); (u "created_at", created_at c);
         (u "provision_nonce", provision_nonce c); (u "provisioned_seq", provisioned_seq c)].
Definition config_bytes (c : AgentConfig) : bytes := dumps false (config_payload c) ++ [10].

Section config_files.
Context {Mem : Type} `{Env}.

(** [AgentConfig.load] *)
Definition load_config `{UrlLib} (p : path) : M Mem AgentConfig :=
  payload ← try_except (read_json_text p)
    (λ e, is_OSError e || is_JSONDecodeError e)
    (λ _, raise (ConfigError "cannot read agent config"));
  lift (parse_config payload).

Definition WRITE_ERROR : exn := ConfigError "cannot write agent config".
Definition OVERWRITE_ERROR : exn := ConfigError "refusing to overwrite existing agent config".

Definition _atomic_json_write (p : path) (data : bytes) (replace_ : bool) : M Mem unit :=
  mkdir_parents p;;
  write_temporary_checked WRITE_ERROR p data
    (if replace_ then mret tt else exists_ ← path_exists p; check exists_ OVERWRITE_ERROR);;
  os_errors WRITE_ERROR (chmod p MODE_0600).

Definition save_new (c : AgentConfig) (p : path) : M Mem unit :=
  exists_ ← path_exists p;
  check exists_ OVERWRITE_ERROR;;
  _atomic_json_write p (config_bytes c) false.

Definition save_replacement (c : AgentConfig) (p : path) : M Mem unit :=
  exists_ ← path_exists p;
  check (negb exists_) (ConfigError "cannot activate missing agent config");;
  _atomic_json_write p (config_bytes c) true.
End config_files.

(** ** What a validated configuration is *)

Record config_wf (c : AgentConfig) : Prop := {
  cw_schema : c_schema c = JStr CONFIG_SCHEMA;
  cw_name : ∃ s, c_name c = JStr s ∧ fullmatch NAME_PATTERN s = true;
  cw_did : ∃ s, c_did c = JStr s ∧ fullmatch DID_PATTERN s = true ∧ fingerprint_of_did s = Ok (str_of (c_fingerprint c));
  cw_fingerprint : ∃ s, c_fingerprint c = JStr s;
  cw_room : ∃ s, c_room c = JStr s ∧ fullmatch ROOM_PATTERN s = true;
  cw_base_url : ∃ s, c_base_url c = JStr s;
  cw_status : c_status c = JStr (u "pending") ∨ (c_status c = JStr (u "active") ∧ provisioned_seq c ≠ JNull)
}.

Section config_lemmas.
Context `{UrlLib}.
Set Default Proof Using "All".

Lemma validate_config_wf c : validate_config c = Ok tt → config_wf c.
Proof.
  unfold validate_config. intros Hc.
  apply res_bind_Ok in Hc as (?&Hsch%raise_if_Ok&Hc).
  apply res_bind_Ok in Hc as (?&Hname%raise_if_Ok&Hc).
  apply res_bind_Ok in Hc as (d&Hd&Hc). apply res_bind_Ok in Hc as (ro&Hr&Hc).
  apply res_bind_Ok in Hc as (b&Hb&Hc). apply res_bind_Ok in Hc as (k&Hk&Hc).
  apply res_bind_Ok in Hc as (?&Hk'%raise_if_Ok&Hc). apply negb_false_iff in Hk'. subst k.
  apply res_bind_Ok in Hc as (f&Hf&Hc).
  apply res_bind_Ok in Hc as (?&Hf'%raise_if_Ok&Hc).
  apply res_bind_Ok in Hc as (?&_&Hc). apply res_bind_Ok in Hc as (?&_&Hc).
  apply res_bind_Ok in Hc as (?&_&Hact%raise_if_Ok). breflect.
  apply in_set_Ok in Hk as (st&Est&Hst); [|done].
  split.
  - done.
  - destruct (c_name c); try done. apply negb_false_iff in Hname. eauto.
  - destruct (c_did c); try done. apply validate_did_Ok in Hd as [-> Hd].
    exists s. split; [done|]. split; [done|]. rewrite Hf, Hf'. done.
  - eauto.
  - destruct (c_room c); try done. apply validate_room_Ok in Hr as [-> Hr]. eauto.
  - destruct (c_base_url c); try done. eauto.
  - rewrite Est in *. apply elem_of_cons in Hst as [->|Hst%list_elem_of_singleton]; [by left|right].
    subst st. split; [done|]. by destruct Hact.
Qed.

Lemma parse_config_wf payload c : parse_config payload = Ok c → config_wf c.
Proof.
  unfold parse_config. intros Hc. apply res_bind_Ok in Hc as (kvs&_&Hc).
  apply res_bind_Ok in Hc as (c'&_&Hc). apply res_bind_Ok in Hc as ([]&Hv&[= ->]).
  by apply validate_config_wf.
Qed.

Lemma load_config_Ret {Mem} `{Env} p c (w w' : world Mem) :
  load_config p w = (Ret c, w') → config_wf c.
Proof.
  unfold load_config. intros (j&w1&_&[Hj _]%lift_Ret)%bind_Ret. by eapply parse_config_wf.
Qed.
End config_lemmas.
