(* ===== verification/ConfigFacts.v ===== *)
(** What [config.py] guarantees of the file it keeps. *)

From S2P Require Import Prelude Errors Text Regex Json Crypto Url Effects State Protocol Quiet Toy Config.

(** ** Writing *)

Section writing.
Context {Mem : Type} `{Env}.
Implicit Types w : world Mem.
Set Default Proof Using "All".

Lemma quiet_save_new c p : Quiet (save_new (Mem := Mem) c p).
Proof. unfold save_new, _atomic_json_write, write_temporary_checked, write_temporary_via, os_errors. quiet. Qed.

Lemma quiet_save_replacement c p : Quiet (save_replacement (Mem := Mem) c p).
Proof. unfold save_replacement, _atomic_json_write, write_temporary_checked, write_temporary_via, os_errors. quiet. Qed.

(** A value that passed the check of [exists()] at the last moment. *)
Lemma wp_path_exists p (Φ : outcome bool → world Mem → Prop) w :
  Φ (Ret (bool_decide (is_Some (w_fs w !! p)))) (ticked w) → Φ (Raise OSError) (ticked w) →
  Φ Crashed (ticked w) → wp (path_exists p) Φ w.
Proof. intros H1 H2 H3. unfold path_exists. apply wp_bind, wp_action; [exact H1|exact H2|exact H3]. Qed.

(** The check of [exists()] before the rename. *)
Lemma harmless_exists p w :
  is_temp p = false → w_fs w !! p = None →
  harmless (exists_ ← path_exists p; check exists_ OVERWRITE_ERROR) w.
Proof.
  intros Hp Hn w' Hs. pose proof (settled_ticked _ _ Hs) as Ht.
  apply wp_bind, wp_path_exists; [|by auto..].
  rewrite (frame_fs _ _ _ _ Hs) by done. rewrite Hn, bool_decide_eq_false_2 by (by intros [? ?]).
  apply wp_lift. cbn. auto.
Qed.

Lemma wp_atomic_json_write p data replace_ (Φ : outcome unit → world Mem → Prop) w :
  is_temp p = false → replace_ = true ∨ w_fs w !! p = None →
  (∀ o w', save_ends WRITE_ERROR p data w o w' → Φ o w') →
  wp (_atomic_json_write p data replace_) Φ w.
Proof.
  intros Hp Hr HΦ. assert (settled w (ticked w)) as Ht by by apply settled_ticked.
  unfold _atomic_json_write, mkdir_parents. apply wp_bind, wp_plain_action; cbn.
  2,3: apply HΦ, save_ends_failed; [done..|]; unfold failed; auto.
  apply wp_bind, wp_write_temporary_checked; [done| |..].
  - destruct Hr as [->|Hn]; [apply harmless_ret|]. destruct replace_; [apply harmless_ret|].
    by apply harmless_exists.
  - intros w' Hf Hd. eapply (wp_save_chmod _ _ _ w); [|exact Hd|auto].
    etrans; [by apply settled_frame, Ht|done].
  - intros o w' Hs Hf. assert (settled w w') as Hs' by (unfold settled in *; by etrans).
    assert (failed WRITE_ERROR (A := unit) o) by done.
    destruct o as [[]|e|]; [by destruct Hf as [?|[?|?]]|by apply HΦ, save_ends_failed..].
Qed.

Lemma save_ends_later err p data w w1 (o : outcome unit) w' :
  settled w w1 → is_temp p = false → save_ends err p data w1 o w' → save_ends err p data w o w'.
Proof.
  intros Hs Hp [F O D]. split; [|done|].
  - etrans; [by apply settled_frame|done].
  - destruct D as [D|[D1 D2]]; [by left|right]. split; [done|]. rewrite D2. by apply (frame_fs _ _ _ _ Hs).
Qed.

(** [save_new] refuses to overwrite; otherwise it saves. *)
Lemma wp_save_new c p (Φ : outcome unit → world Mem → Prop) w :
  is_temp p = false →
  (∀ o w', settled w w' → o ≠ Ret tt → Φ o w') →
  (w_fs w !! p = None → ∀ o w', save_ends WRITE_ERROR p (config_bytes c) w o w' → Φ o w') →
  wp (save_new c p) Φ w.
Proof.
  intros Hp H1 H2. assert (settled w (ticked w)) as Ht by by apply settled_ticked.
  unfold save_new. apply wp_bind, wp_path_exists; [|by apply H1..].
  case_bool_decide as Hn; [by apply wp_bind, wp_lift; cbn; apply H1|].
  apply wp_bind, wp_lift. cbn. apply eq_None_not_Some in Hn.
  apply wp_atomic_json_write; [done|by right|]. intros o w' Hs. apply H2; [done|].
  by eapply save_ends_later.
Qed.

Lemma wp_save_replacement c p (Φ : outcome unit → world Mem → Prop) w :
  is_temp p = false →
  (∀ o w', settled w w' → o ≠ Ret tt → Φ o w') →
  (∀ o w', save_ends WRITE_ERROR p (config_bytes c) w o w' → Φ o w') →
  wp (save_replacement c p) Φ w.
Proof.
  intros Hp H1 H2. assert (settled w (ticked w)) as Ht by by apply settled_ticked.
  unfold save_replacement. apply wp_bind, wp_path_exists; [|by apply H1..].
  case_bool_decide as Hn; [|by apply wp_bind, wp_lift; cbn; apply H1].
  apply wp_bind, wp_lift. cbn. apply wp_atomic_json_write; [done|by left|]. intros o w' Hs. apply H2.
  by eapply save_ends_later.
Qed.
End writing.

(** C28: a new configuration never replaces one that is there, and is written
    whole: whatever fails and wherever the process dies, an existing file stays
    as it is and the call does not return; where there was none there is none
    still or the complete file, private to this user.  No other file changes. *)
Theorem new_config_never_overwrites {Mem} `{Env} (c : AgentConfig) (p : path) (w : world Mem) :
  is_temp p = false →
  let '(o, w') := save_new c p w in
  (is_Some (w_fs w !! p) → o ≠ Ret tt ∧ w_fs w' !! p = w_fs w !! p) ∧
  (w_fs w !! p = None → w_fs w' !! p = None ∨ w_fs w' !! p = Some (private_file (config_bytes c))) ∧
  (o = Ret tt → w_fs w' !! p = Some (private_file (config_bytes c))) ∧
  (∀ q, q ≠ p → is_temp q = false → w_fs w' !! q = w_fs w !! q).
Proof.
  intros Hp. apply wp_pair, wp_save_new; [done|..].
  - intros o2 w2 [F _ _] Ho. rewrite F by done. by repeat (split; [by auto|]); auto.
  - intros Hn o2 w2 [[F _ _] _ Hd]. rewrite Hn in *. split; [by intros [? ?]|].
    split; [intros _; destruct Hd as [?|[_ ?]]; auto|]. split; [|by auto]. intros ->. by destruct Hd as [?|[? _]].
Qed.

(** ** Reading back *)

Section round_trip.
Context `{UrlLib}.
Set Default Proof Using "All".

Lemma config_of_own_payload c kvs : config_payload c = JDict kvs → config_of_payload kvs = Ok c.
Proof. intros [= <-]. by destruct c. Qed.

Lemma parse_own_config c : validate_config c = Ok tt → parse_config (config_payload c) = Ok c.
Proof.
  intros Hv. unfold parse_config. destruct (config_payload c) eqn:E; try done.
  cbn [of_option mbind res_bind]. rewrite (config_of_own_payload c) by done. cbn [mbind res_bind]. by rewrite Hv.
Qed.

Lemma own_config_loads c :
  validate_config c = Ok tt → json_ok (config_payload c) → loads_text (config_bytes c) ≫= parse_config = Ok c.
Proof.
  intros Hv Hok. unfold config_bytes. rewrite loads_text_line by done. cbn [mbind res_bind].
  by apply parse_own_config.
Qed.
End round_trip.

(** A valid configuration of printable texts that was written is read back
    as itself, and is valid. *)
Theorem config_round_trip `{UrlLib} (c : AgentConfig) :
  validate_config c = Ok tt → json_ok (config_payload c) →
  loads_text (config_bytes c) ≫= parse_config = Ok c.
Proof. apply own_config_loads. Qed.

Definition sample_did : str :=
  Eval vm_compute in match did_from_private_key (toy_seed 1) with Ok did => did | Err _ => [] end.
Definition sample_config : AgentConfig :=
  Eval vm_compute in
    MkAgentConfig (JStr CONFIG_SCHEMA) (JStr (u "responder")) (JStr sample_did)
      (JStr (match fingerprint_of_did sample_did with Ok f => f | Err _ => [] end)) (JStr (u "mb-p-1"))
      (JStr (u "https://technocore.chat")) (JStr (u "pending")) (JStr (u "2026-01-02T03:04:05+00:00"))
      (JStr (u "1700000000000000000")) JNull.

Lemma sample_config_valid : validate_config sample_config = Ok tt.
Proof. by vm_compute. Qed.

Lemma config_round_trip_witness :
  loads_text (config_bytes sample_config) ≫= parse_config = Ok sample_config.
Proof. apply config_round_trip; [apply sample_config_valid|]. json_ok_fields; by decide_by_computing || done. Defined.

Lemma new_config_never_overwrites_witness :
  let E := toy_env (λ _, NoFault) (λ _, HttpFailed) in
  let old := File Regular MODE_0600 501 [1; 2; 3] in
  let '(o, w') := save_new sample_config (Path (u "/c")) (toy_world tt [(Path (u "/c"), old)]) in
  o ≠ Ret tt ∧ w_fs w' !! Path (u "/c") = Some old.
Proof.
  intros E old. pose proof (new_config_never_overwrites sample_config (Path (u "/c"))
    (toy_world tt [(Path (u "/c"), old)]) eq_refl) as Hw.
  destruct (save_new _ _ _) as [o w']. destruct Hw as [Hw _]. apply Hw. eexists. reflexivity.
Defined.
