(* ===== verification/Identity.v ===== *)
(** [identity.py]: the public identity and the key in the Keychain. *)

From S2P Require Import Prelude Errors Text Regex Json Crypto Effects State.

Record IdentityRecord := MkIdentityRecord {
  i_did : str;
  i_fingerprint : str;
  keychain_service : str;
  keychain_account : str
}.

Definition text_field (v : json) (e : exn) : res str :=
  match v with JStr (c :: s) => Ok (c :: s) | _ => Err e end.

Definition parse_identity (payload : json) : res IdentityRecord :=
  kvs ← of_option (IdentityError "public identity must contain a JSON object")
    (match payload with JDict kvs => Some kvs | _ => None end);
  custody ← of_option (IdentityError "public identity must use the macos-keychain custody backend")
    (match jget (u "custody") kvs with JDict c => Some c | _ => None end);
  raise_if (jget (u "backend") custody != JStr (u "macos-keychain"))
    (IdentityError "public identity must use the macos-keychain custody backend");;
  did ← validate_did_value (jget (u "did") kvs);
  fingerprint ← fingerprint_of_did did;
  raise_if (jget (u "fingerprint") kvs != JStr fingerprint)
    (IdentityError "public identity fingerprint does not match its DID");;
  service ← text_field (jget (u "service") custody)
    (IdentityError "public identity is missing the Keychain service");
  account ← text_field (jget (u "account") custody)
    (IdentityError "public identity is missing the Keychain account");
  Ok (MkIdentityRecord did fingerprint service account).

(** What [/usr/bin/security] does: print the secret, exit with an error, not
    exist, fail to start. *)
Inductive keychain_result : Type :=
  | SecretPrinted (stdout : str)
  | SecurityFailed
  | SecurityMissing
  | SecurityOSError.

Class Keychain := keychain_read : nat → str → str → keychain_result.

Section identity.
Context {Mem : Type} `{Env} `{Keychain} `{Ed25519}.

(** [IdentityRecord.load] *)
Definition load_identity_record (p : path) : M Mem IdentityRecord :=
  payload ← try_except (read_json_text p)
    (λ e, is_OSError e || is_JSONDecodeError e)
    (λ _, raise (IdentityError "cannot read public identity"));
  lift (parse_identity payload).

Definition load_seed (service account : str) : M Mem str :=
  n ← next_tick;
  match keychain_read n service account with
  | SecretPrinted stdout => mret (strip stdout)
  | SecurityFailed => raise (IdentityError "cannot read Keychain item")
  | SecurityMissing => raise (IdentityError "macOS security command is not available")
  | SecurityOSError => raise OSError
  end.

Definition load_verified_private_key (record : IdentityRecord) : M Mem bytes :=
  seed ← load_seed (keychain_service record) (keychain_account record);
  private_key ← lift (private_key_from_seed seed);
  derived_did ← lift (did_from_private_key private_key);
  check (derived_did != i_did record)
    (IdentityError "Keychain key does not match the configured public DID");;
  mret private_key.

(** [cli._load_identity] *)
Definition _load_identity (p : path) : M Mem (IdentityRecord * bytes) :=
  record ← load_identity_record p;
  private_key ← load_verified_private_key record;
  mret (record, private_key).
End identity.

Section identity_steps.
Context {Mem : Type} (P : path → Prop) (Q : Mem → Mem → Prop) `{!PreOrder Q} `{Env} `{Keychain} `{Ed25519}.
Set Default Proof Using "All".

Lemma keeps_load_identity_record p : Keeps P Q (load_identity_record (Mem := Mem) p).
Proof. unfold load_identity_record, read_json_text. keeps. Qed.

Lemma keeps_load_identity p : Keeps P Q (_load_identity (Mem := Mem) p).
Proof.
  unfold _load_identity, load_verified_private_key, load_seed, load_identity_record, read_json_text. keeps.
Qed.
End identity_steps.
#[export] Hint Resolve keeps_load_identity_record keeps_load_identity : keeps.
