(* ===== verification/Lock.v ===== *)
(** [process_lock.py]: the lock of the process that changes the state.

    Whether another process holds the lock is the environment's word; the
    runs of a history follow one another because of it. *)

From S2P Require Import Prelude Errors Text Effects State.

Section lock.
Context {Mem : Type} `{Env}.

(** Unlocking, then closing whatever happens. *)
Definition release : M Mem unit := try_finally (action;; mret tt) (action;; mret tt).

Definition acquire (p : path) : M Mem unit :=
  mkdir_parents p;;
  try_except (create_if_missing p MODE_0600;; chmod p MODE_0600;; lock_action;; mret tt) is_OSError
    (λ e, match e with
          | BlockingIOError =>
              raise (ProcessLockError "another live agent or recovery process is already running")
          | _ => raise (ProcessLockError "cannot acquire process lock")
          end);;
  try_except (write_bytes p [];; write_bytes p (int_str env_pid ++ [10]);; fsync p) is_OSError
    (λ _, release;; raise (ProcessLockError "cannot initialize process lock")).

(** [with AgentProcessLock(p): m] *)
Definition with_lock {A} (p : path) (m : M Mem A) : M Mem A :=
  acquire p;; try_finally m release.
End lock.

Section lock_steps.
Context {Mem : Type} (P : path → Prop) (Q : Mem → Mem → Prop) `{!PreOrder Q} `{Env}.
Set Default Proof Using "All".

Lemma keeps_release : Keeps P Q (release (Mem := Mem)).
Proof. unfold release. keeps. Qed.

Lemma keeps_acquire p : ¬ P p → Keeps P Q (acquire (Mem := Mem) p).
Proof.
  intros Hp. pose proof keeps_release. unfold acquire. keeps.
Qed.
End lock_steps.
