(* ===== verification/AuditLog.v ===== *)
(** [audit.py]: the signed, hash-chained log of decisions. *)

From S2P Require Import Prelude Errors Text Regex Sha256 Json Crypto Clock Effects.

Definition AUDIT_SCHEMA : str := u "technocore-safe-agent-audit-v1".
Definition GENESIS_HASH : str := replicate 64 48.
Definition MAX_AUDIT_BYTES : Z := 16 * 1024 * 1024.
Definition MAX_AUDIT_LINE_BYTES : Z := 16 * 1024.
Definition SHA256_PATTERN : regex := rpow (RClass [r09; raf]) 64.
Definition AUDIT_SIGNATURE_PATTERN : regex :=
  RSeq (rpow (RClass [rAZ; raz; r09; rc 95; rc 45]) 85) (RClass [rc 65; rc 81; rc 103; rc 119]).
Definition FINGERPRINT_PATTERN : regex := rpow (RClass [r09; raf]) 16.
Definition TOKEN_PATTERN : regex := RSeq (RClass [raz]) (rrep (RClass [raz; r09; rc 95]) 0 63).
Definition POLICY_DECISIONS : list str := [u "ignore"; u "reply"; u "receipt"].
Definition OUTCOMES : list str := [u "ignore"; u "sent"; u "receipt_failed"; u "sent_receipt"].
Definition PAYLOAD_KEYS : list str :=
  [u "schema"; u "audit_sequence"; u "issuer"; u "observed_at"; u "input_sequence";
   u "sender_fingerprint"; u "sender_authenticated"; u "policy_decision"; u "policy_reason";
   u "outcome"; u "receipt_sha256"; u "response_sequence"; u "previous_entry_sha256"].
Definition WRAPPER_KEYS : list str := [u "payload"; u "payload_sha256"; u "signature"].

Record AuditSummary := MkAuditSummary {
  entries : Z;
  issuer : option str;
  head_sha256 : str
}.

(** ** Checks on fields *)

Definition _audit_did (value : json) : res str :=
  res_catch (validate_did_value value) is_ProtocolValueError
    (λ _, Err (AuditError "audit issuer DID is invalid")).

Definition _audit_sha256 (value : json) : res str :=
  match value with
  | JStr s => raise_if (negb (fullmatch SHA256_PATTERN s)) (AuditError "audit hash is invalid");; Ok s
  | _ => Err (AuditError "audit hash is invalid")
  end.

Definition _audit_positive_int (value : json) : res Z :=
  match value with
  | JInt z => raise_if (z <=? 0) (AuditError "must be a positive integer");; Ok z
  | _ => Err (AuditError "must be a positive integer")
  end.

Definition _timestamp (value : json) : res str :=
  match value with
  | JStr s =>
      raise_if (negb (fullmatch TIMESTAMP_PATTERN s)) (AuditError "audit timestamp is invalid");;
      raise_if (negb (strptime_ok s)) (AuditError "audit timestamp is invalid");;
      Ok s
  | _ => Err (AuditError "audit timestamp is invalid")
  end.

Definition _validate_sender (payload : list (str * json)) : res unit :=
  match jget (u "sender_authenticated") payload with
  | JBool true =>
      match jget (u "sender_fingerprint") payload with
      | JStr f => raise_if (negb (fullmatch FINGERPRINT_PATTERN f))
                    (AuditError "authenticated sender fingerprint is invalid")
      | _ => Err (AuditError "authenticated sender fingerprint is invalid")
      end
  | JBool false =>
      raise_if (jget (u "sender_fingerprint") payload != JNull)
        (AuditError "unauthenticated sender must not have a DID fingerprint")
  | _ => Err (AuditError "sender_authenticated must be boolean")
  end.

(** The four rows of decisions, outcomes and the fields they carry. *)
Definition _validate_outcome (decision outcome : json) (receipt_hash response_sequence : json) : res unit :=
  let no_receipt := receipt_hash == JNull in
  let no_response := response_sequence == JNull in
  let valid :=
    ((decision == JStr (u "ignore")) and (outcome == JStr (u "ignore")) and no_receipt and no_response)
    || ((decision == JStr (u "reply")) and (outcome == JStr (u "sent")) and no_receipt and negb no_response)
    || ((decision == JStr (u "receipt")) and (outcome == JStr (u "receipt_failed")) and no_receipt and no_response)
    || ((decision == JStr (u "receipt")) and (outcome == JStr (u "sent_receipt")) and negb no_receipt and negb no_response)
  in
  raise_if (negb valid) (AuditError "audit decision and outcome fields are inconsistent").

Definition _validate_decision (payload : list (str * json)) : res unit :=
  let decision := jget (u "policy_decision") payload in
  let outcome := jget (u "outcome") payload in
  known_decision ← in_set decision POLICY_DECISIONS;
  raise_if (negb known_decision) (AuditError "audit policy decision is invalid");;
  (match jget (u "policy_reason") payload with
   | JStr r => raise_if (negb (fullmatch TOKEN_PATTERN r)) (AuditError "audit policy reason is invalid")
   | _ => Err (AuditError "audit policy reason is invalid")
   end);;
  known_outcome ← in_set outcome OUTCOMES;
  raise_if (negb known_outcome) (AuditError "audit outcome is invalid");;
  let receipt_hash := jget (u "receipt_sha256") payload in
  let response_sequence := jget (u "response_sequence") payload in
  (if receipt_hash == JNull then Ok tt else _audit_sha256 receipt_hash;; Ok tt);;
  (if response_sequence == JNull then Ok tt else _audit_positive_int response_sequence;; Ok tt);;
  _validate_outcome decision outcome receipt_hash response_sequence.

Definition _validate_payload (payload : list (str * json)) : res unit :=
  raise_if (negb (has_exact_keys payload PAYLOAD_KEYS) || (jget (u "schema") payload != JStr AUDIT_SCHEMA))
    (AuditError "audit payload has unexpected fields or schema");;
  _audit_positive_int (jget (u "audit_sequence") payload);;
  _audit_positive_int (jget (u "input_sequence") payload);;
  _audit_did (jget (u "issuer") payload);;
  _timestamp (jget (u "observed_at") payload);;
  _audit_sha256 (jget (u "previous_entry_sha256") payload);;
  _validate_sender payload;;
  _validate_decision payload.

Definition _entry_hash (wrapper : list (str * json)) : str := sha256_hex (canonical_json (JDict wrapper)).

(** [except ValueError] does not catch the hook's [AuditError]. *)
Definition _decode_json (raw : bytes) : res json :=
  res_catch
    (loads_bytes_with
       (Loader (reject_duplicates (AuditError "audit record contains a duplicate JSON key"))
          (λ t, Ok (JFloat (NonFinite t)))) raw)
    is_ValueError
    (λ _, Err (AuditError "audit record is not valid JSON")).

(** [bytes.splitlines]: line feed, carriage return, and the two together. *)
Fixpoint splitlines_aux (cur : bytes) (l : bytes) : list bytes :=
  match l with
  | [] => if cur == [] then [] else [rev cur]
  | c :: l' =>
      if c =? 10 then rev cur :: splitlines_aux [] l'
      else if c =? 13 then
        match l' with
        | 10 :: l'' => rev cur :: splitlines_aux [] l''
        | _ => rev cur :: splitlines_aux [] l'
        end
      else splitlines_aux (c :: cur) l'
  end.
Definition splitlines (l : bytes) : list bytes := splitlines_aux [] l.

Section audit.
Context `{Ed25519}.

Definition _verify_wrapper_signature (wrapper payload : list (str * json)) : res unit :=
  let canonical_payload := canonical_json (JDict payload) in
  raise_if (jget (u "payload_sha256") wrapper != JStr (sha256_hex canonical_payload))
    (AuditError "audit payload hash does not match");;
  signature ← (match jget (u "signature") wrapper with
               | JStr s => raise_if (negb (fullmatch AUDIT_SIGNATURE_PATTERN s))
                             (AuditError "audit signature is not canonical base64url");; Ok s
               | _ => Err (AuditError "audit signature is not canonical base64url")
               end);
  issuer ← _audit_did (jget (u "issuer") payload);
  raise_if (negb (verify_detached_signature issuer canonical_payload signature))
    (AuditError "audit signature does not match its issuer").

(** The issuer and the hash of one line. *)
Definition _verify_line (line : bytes) (expected_sequence : Z) (expected_previous_hash : str)
    (expected_issuer : option str) : res (str * str) :=
  raise_if ((line == []) || (MAX_AUDIT_LINE_BYTES <? length line))
    (AuditError "audit log contains an empty or oversized record");;
  decoded ← _decode_json line;
  wrapper ← of_option (AuditError "audit record wrapper has unexpected fields")
    (match decoded with JDict kvs => Some kvs | _ => None end);
  raise_if (negb (has_exact_keys wrapper WRAPPER_KEYS)) (AuditError "audit record wrapper has unexpected fields");;
  payload ← of_option (AuditError "audit record payload must be an object")
    (match jget (u "payload") wrapper with JDict kvs => Some kvs | _ => None end);
  _validate_payload payload;;
  raise_if (jget (u "audit_sequence") payload != JInt expected_sequence)
    (AuditError "audit sequence is not contiguous");;
  raise_if (jget (u "previous_entry_sha256") payload != JStr expected_previous_hash)
    (AuditError "audit previous-entry hash does not match");;
  issuer ← _audit_did (jget (u "issuer") payload);
  raise_if (match expected_issuer with Some i => issuer != i | None => false end)
    (AuditError "audit issuer changes inside one log");;
  _verify_wrapper_signature wrapper payload;;
  Ok (issuer, _entry_hash wrapper).

Fixpoint verify_lines (lines : list bytes) (sequence : Z) (issuer : option str) (previous_hash : str)
  : res (option str * str) :=
  match lines with
  | [] => Ok (issuer, previous_hash)
  | line :: lines' =>
      '(issuer', hash) ← _verify_line line sequence previous_hash issuer;
      verify_lines lines' (sequence + 1) (Some issuer') hash
  end.

Definition _verify_bytes (raw : bytes) : res AuditSummary :=
  if raw == [] then Ok (MkAuditSummary 0 None GENESIS_HASH)
  else
    raise_if (negb (endswith [10] raw)) (AuditError "audit log ends with a partial JSONL record");;
    let lines := splitlines raw in
    '(issuer, previous_hash) ← verify_lines lines 1 None GENESIS_HASH;
    Ok (MkAuditSummary (length lines) issuer previous_hash).

(** What the caller of [append] knows about the message it handled. *)
Record AuditFields := MkAuditFields {
  a_input_sequence : Z;
  a_sender_fingerprint : option str;
  a_sender_authenticated : bool;
  a_policy_decision : str;
  a_policy_reason : str;
  a_outcome : str;
  a_receipt_sha256 : option str;
  a_response_sequence : option Z
}.

Definition opt_str (o : option str) : json := match o with Some s => JStr s | None => JNull end.
Definition opt_int (o : option Z) : json := match o with Some z => JInt z | None => JNull end.

Definition audit_payload (issuer_did observed_at : str) (summary : AuditSummary) (f : AuditFields)
  : list (str * json) :=
  [(u "schema", JStr AUDIT_SCHEMA); (u "audit_sequence", JInt (entries summary + 1));
   (u "issuer", JStr issuer_did); (u "observed_at", JStr observed_at);
   (u "input_sequence", JInt (a_input_sequence f));
   (u "sender_fingerprint", opt_str (a_sender_fingerprint f));
   (u "sender_authenticated", JBool (a_sender_authenticated f));
   (u "policy_decision", JStr (a_policy_decision f)); (u "policy_reason", JStr (a_policy_reason f));
   (u "outcome", JStr (a_outcome f)); (u "receipt_sha256", opt_str (a_receipt_sha256 f));
   (u "response_sequence", opt_int (a_response_sequence f));
   (u "previous_entry_sha256", JStr (head_sha256 summary))].

(** The body of [append] between reading the log and writing to it: the new
    line and its hash. *)
Definition build_entry (raw : bytes) (issuer_did : str) (private_key : bytes) (observed_at : datetime)
    (f : AuditFields) : res (bytes * str) :=
  summary ← _verify_bytes raw;
  raise_if (match issuer summary with Some i => i != issuer_did | None => false end)
    (AuditError "audit log already belongs to a different issuer");;
  let payload := audit_payload issuer_did (format_timestamp observed_at) summary f in
  _validate_payload payload;;
  let canonical_payload := canonical_json (JDict payload) in
  signature ← sign_detached private_key canonical_payload;
  let wrapper := [(u "payload", JDict payload); (u "payload_sha256", JStr (sha256_hex canonical_payload));
                  (u "signature", JStr signature)] in
  let rendered := canonical_json (JDict wrapper) ++ [10] in
  raise_if (MAX_AUDIT_LINE_BYTES <? length rendered) (AuditError "audit entry exceeds the 16 KiB line limit");;
  raise_if (MAX_AUDIT_BYTES <? length raw + length rendered)
    (AuditError "audit log exceeds the 16 MiB safety limit");;
  Ok (rendered, _entry_hash wrapper).

Section log.
Context {Mem : Type} `{Env}.

(** [_read_bounded]: the chunks add up to the file, unless it is too long. *)
Definition _read_bounded (raw : bytes) : res bytes :=
  raise_if (MAX_AUDIT_BYTES <? length raw) (AuditError "audit log exceeds the 16 MiB safety limit");;
  Ok raw.

(** The checks of [_locked_descriptor] on the opened file, and the lock. *)
Definition check_descriptor (p : path) : M Mem file :=
  metadata ← open_nofollow p;
  check (negb (bool_decide (f_kind metadata = Regular))) (AuditError "audit path must be a regular file");;
  check (negb (Z.land (f_mode metadata) MODE_GROUP_OTHER =? 0))
    (AuditError "audit log permissions must not allow group or other access");;
  action;;
  mret metadata.

Definition audit_error : exn := AuditError "cannot access audit log".

(** [_write_all] may stop after a part of the line, with an exception or
    with the process. *)
Definition _write_all (p : path) (rendered : bytes) : M Mem unit :=
  let write data :=
    fs ← get_files;
    put_files (alter (λ f, File (f_kind f) (f_mode f) (f_uid f) (f_data f ++ data)) p fs) in
  n ← next_tick;
  match env_fault n with
  | NoFault => write rendered
  | CrashFault => write (take (env_short_write n) rendered);; crash
  | _ => write (take (env_short_write n) rendered);; raise (AuditError "cannot append audit record")
  end.

Definition append (p : path) (issuer_did : str) (private_key : bytes) (observed_at : datetime)
    (f : AuditFields) : M Mem str :=
  valid_issuer ← lift (_audit_did (JStr issuer_did));
  own_did ← lift (did_from_private_key private_key);
  check (own_did != valid_issuer) (AuditError "audit signing key does not match its issuer DID");;
  os_errors (AuditError "cannot create audit directory") (mkdir_parents p);;
  hash ← os_errors audit_error
    (create_if_missing p MODE_0600;;
     metadata ← check_descriptor p;
     raw ← os_errors (AuditError "cannot read audit log") (action;; lift (_read_bounded (f_data metadata)));
     '(rendered, hash) ← lift (build_entry raw valid_issuer private_key observed_at f);
     _write_all p rendered;;
     fsync p;;
     mret hash);
  os_errors (AuditError "cannot sync audit directory") (fsync_directory p);;
  mret hash.

(** [verify] without an expected head. *)
Definition verify_log (p : path) : M Mem AuditSummary :=
  exists_ ← path_exists p;
  check (negb exists_) (AuditError "audit log does not exist");;
  os_errors audit_error
    (metadata ← check_descriptor p;
     raw ← os_errors (AuditError "cannot read audit log") (action;; lift (_read_bounded (f_data metadata)));
     lift (_verify_bytes raw)).

Definition verify (p : path) (expected_head : option str) : M Mem AuditSummary :=
  summary ← verify_log p;
  match expected_head with
  | None => mret summary
  | Some head =>
      lift (_audit_sha256 (JStr head));;
      check (head_sha256 summary != head) (AuditError "audit head does not match the expected checkpoint");;
      mret summary
  end.
End log.
End audit.

(** ** What the log does to the world *)

Section append_steps.
Context {Mem : Type} `{Ed25519} `{HEnv : Env}.
Set Default Proof Using "All".

Lemma keeps_write_all (Q : Mem → Mem → Prop) `{!PreOrder Q} p data :
  Keeps (λ q, q ≠ p) Q (_write_all p data).
Proof.
  unfold _write_all. apply keeps_bind; [apply _|apply keeps_next_tick; apply _|]. intros n.
  assert (∀ d, Keeps (λ q, q ≠ p) Q
    (fs ← get_files;
     put_files (alter (λ f, File (f_kind f) (f_mode f) (f_uid f) (f_data f ++ d)) p fs))) as Hw.
  { intros d w. split; cbn; try done. intros q Hq. by apply lookup_alter_ne. }
  keeps.
Qed.

Lemma keeps_create_log (Q : Mem → Mem → Prop) `{!PreOrder Q} p mode :
  Keeps (λ q, q ≠ p) Q (create_if_missing p mode).
Proof. apply keeps_create_if_missing; [apply _|]. intros Hn. by apply Hn. Qed.

#[local] Hint Resolve keeps_create_log keeps_write_all : keeps.

Lemma keeps_append (Q : Mem → Mem → Prop) `{!PreOrder Q} p issuer_did key t f :
  Keeps (λ q, q ≠ p) Q (append p issuer_did key t f).
Proof. unfold append, check_descriptor, os_errors. keeps. Qed.

Lemma keeps_verify P (Q : Mem → Mem → Prop) `{!PreOrder Q} p head :
  Keeps P Q (verify (Mem := Mem) p head).
Proof. unfold verify, verify_log, check_descriptor, os_errors. keeps. Qed.
End append_steps.
#[export] Hint Resolve keeps_append keeps_verify : keeps.
