(* ===== verification/AuditFacts.v ===== *)
(** What the audit log guarantees: an entry that is appended extends a log that
    verifies, the head commits to the whole log, and a write that stops half way
    is noticed. *)

From S2P Require Import Prelude Errors Text Regex Sha256 Json Crypto Url Clock Effects Toy Sealed AuditLog.

(** ** Lines *)

Definition no_break (l : bytes) : Prop := Forall (λ c, c ≠ 10 ∧ c ≠ 13) l.

Lemma splitlines_aux_nobreak cur l m :
  no_break l → splitlines_aux cur (l ++ 10 :: m) = rev (rev l ++ cur) :: splitlines_aux [] m.
Proof.
  intros Hl. revert cur. induction Hl as [|c l [H10 H13] _ IH]; intros cur; [done|].
  cbn [app splitlines_aux]. apply Z.eqb_neq in H10, H13. rewrite H10, H13, IH. cbn [rev].
  by rewrite <- app_assoc.
Qed.

(** Lines that end with a line feed can be followed by more. *)
Lemma splitlines_aux_app n cur l m :
  (length l ≤ n)%nat → splitlines_aux cur (l ++ 10 :: m) = splitlines_aux cur (l ++ [10]) ++ splitlines_aux [] m.
Proof.
  revert cur l. induction n as [|n IH]; intros cur [|c l] Hn; try (cbn in Hn; lia); [done..|].
  cbn [length] in Hn. cbn [app splitlines_aux]. destruct (Z.eqb_spec c 10) as [_|Hc].
  { rewrite IH by lia. done. }
  destruct (Z.eqb_spec c 13) as [_|Hc']; [|apply IH; lia].
  destruct l as [|d l]; [done|]. cbn [app length] in *.
  destruct (Z.eqb_spec d 10) as [->|Hd]; [by rewrite IH by lia|].
  assert (∀ (x y : list bytes), match d with 10 => x | _ => y end = y) as Hm by (intros; repeat case_match; done).
  rewrite !Hm. change (d :: l ++ ?t) with ((d :: l) ++ t). rewrite (IH [] (d :: l)) by (cbn; lia). done.
Qed.

Lemma endswith_snoc c l : endswith [c] l = true → ∃ l', l = l' ++ [c].
Proof.
  unfold endswith. intros [Hl Hd%bool_decide_eq_true]%andb_true_iff.
  exists (take (length l - 1) l). cbn [length] in Hd. rewrite <- Hd. by rewrite take_drop.
Qed.

Lemma endswith_snoc_true c l : endswith [c] (l ++ [c]) = true.
Proof.
  unfold endswith. rewrite length_app. apply andb_true_iff. split; [apply Nat.leb_le; cbn; lia|].
  apply bool_decide_eq_true, drop_app_length'. cbn. lia.
Qed.

Lemma splitlines_app l line :
  endswith [10] l = true → no_break line →
  splitlines (l ++ line ++ [10]) = splitlines l ++ [line].
Proof.
  intros (l'&->)%endswith_snoc Hl. unfold splitlines. rewrite <- app_assoc. cbn [app].
  rewrite (splitlines_aux_app (length l')) by done. f_equal.
  rewrite splitlines_aux_nobreak by done. cbn. by rewrite app_nil_r, rev_involutive.
Qed.

Lemma splitlines_one line : no_break line → splitlines (line ++ [10]) = [line].
Proof.
  intros Hl. unfold splitlines. rewrite splitlines_aux_nobreak by done. cbn.
  by rewrite app_nil_r, rev_involutive.
Qed.

Lemma splitlines_aux_length n cur l :
  (length l ≤ n)%nat → (length (splitlines_aux cur l) ≤ length cur + length l)%nat.
Proof.
  revert cur l. induction n as [|n IH]; intros cur [|c l] Hn; try (cbn in Hn; lia).
  1,2: cbn; destruct cur; case_bool_decide; cbn; try done; lia.
  cbn [length] in *. cbn [splitlines_aux]. destruct (Z.eqb_spec c 10) as [_|Hc].
  { pose proof (IH [] l ltac:(lia)). cbn in *. lia. }
  destruct (Z.eqb_spec c 13) as [_|Hc']; [|pose proof (IH (c :: cur) l ltac:(lia)); cbn in *; lia].
  destruct l as [|d l]; [cbn; lia|]. cbn [length] in *.
  destruct (Z.eqb_spec d 10) as [->|Hd].
  { pose proof (IH [] l ltac:(lia)). cbn in *. lia. }
  assert (∀ (x y : list bytes), match d with 10 => x | _ => y end = y) as Hm by (intros; repeat case_match; done).
  rewrite Hm. pose proof (IH [] (d :: l) ltac:(cbn; lia)). cbn in *. lia.
Qed.

Lemma splitlines_length l : (length (splitlines l) ≤ length l)%nat.
Proof. apply (splitlines_aux_length (length l) []). done. Qed.

(** ** One entry *)

(** The numbers of an entry can be printed. *)
Definition fields_printable (f : AuditFields) : Prop :=
  json_ok (JInt (a_input_sequence f)) ∧ json_ok (opt_int (a_response_sequence f)).

Section entries.
Context `{Ed25519}.
Set Default Proof Using "Type".

Lemma audit_payload_keys issuer at_ s f : NoDup (audit_payload issuer at_ s f).*1.
Proof. by decide_by_computing. Qed.

Lemma validate_payload_sorted P : NoDup P.*1 → _validate_payload (sort_keys P) = _validate_payload P.
Proof.
  intros Hd. unfold _validate_payload, _validate_sender, _validate_decision.
  by rewrite !jget_sort_keys, (has_exact_keys_perm _ _ _ (sort_keys_perm P)).
Qed.

Lemma audit_sha256_Ok v s : _audit_sha256 v = Ok s → v = JStr s ∧ fullmatch SHA256_PATTERN s = true.
Proof. destruct v; try done. cbn. intros E. res_inv E. by apply negb_false_iff in E0. Qed.

Lemma audit_did_Ok v s : _audit_did v = Ok s → v = JStr s ∧ fullmatch DID_PATTERN s = true.
Proof.
  unfold _audit_did, res_catch. destruct (validate_did_value v) eqn:E; [|by case_match].
  intros [= ->]. destruct v; try done. cbn in E. by apply validate_did_Ok in E as [-> ?].
Qed.

Lemma timestamp_Ok v s : _timestamp v = Ok s → v = JStr s ∧ fullmatch TIMESTAMP_PATTERN s = true.
Proof. destruct v; try done. cbn. intros E. res_inv E. by apply negb_false_iff in E0. Qed.

Lemma audit_positive_int_Ok v n : _audit_positive_int v = Ok n → v = JInt n ∧ 0 < n.
Proof. destruct v; try done. cbn. intros E. res_inv E. breflect. split; [done|lia]. Qed.

(** What a valid entry says; the rows are those of [_validate_outcome]. *)
Inductive entry_outcome : json → json → json → json → Prop :=
  | entry_ignored : entry_outcome (JStr (u "ignore")) (JStr (u "ignore")) JNull JNull
  | entry_sent n : 0 < n → entry_outcome (JStr (u "reply")) (JStr (u "sent")) JNull (JInt n)
  | entry_failed : entry_outcome (JStr (u "receipt")) (JStr (u "receipt_failed")) JNull JNull
  | entry_receipt h n : fullmatch SHA256_PATTERN h = true → 0 < n →
      entry_outcome (JStr (u "receipt")) (JStr (u "sent_receipt")) (JStr h) (JInt n).

Record valid_entry (P : list (str * json)) : Prop := {
  ve_keys : has_exact_keys P PAYLOAD_KEYS = true;
  ve_schema : jget (u "schema") P = JStr AUDIT_SCHEMA;
  ve_sequence : ∃ n, jget (u "audit_sequence") P = JInt n ∧ 0 < n;
  ve_input : ∃ n, jget (u "input_sequence") P = JInt n ∧ 0 < n;
  ve_issuer : ∃ did, jget (u "issuer") P = JStr did ∧ fullmatch DID_PATTERN did = true;
  ve_time : ∃ t, jget (u "observed_at") P = JStr t ∧ fullmatch TIMESTAMP_PATTERN t = true;
  ve_previous : ∃ h, jget (u "previous_entry_sha256") P = JStr h ∧ fullmatch SHA256_PATTERN h = true;
  ve_sender : (jget (u "sender_authenticated") P = JBool false ∧ jget (u "sender_fingerprint") P = JNull) ∨
              (jget (u "sender_authenticated") P = JBool true ∧
               ∃ g, jget (u "sender_fingerprint") P = JStr g ∧ fullmatch FINGERPRINT_PATTERN g = true);
  ve_reason : ∃ r, jget (u "policy_reason") P = JStr r ∧ fullmatch TOKEN_PATTERN r = true;
  ve_outcome : entry_outcome (jget (u "policy_decision") P) (jget (u "outcome") P)
                 (jget (u "receipt_sha256") P) (jget (u "response_sequence") P)
}.

Lemma validate_sender_Ok P x : _validate_sender P = Ok x →
  (jget (u "sender_authenticated") P = JBool false ∧ jget (u "sender_fingerprint") P = JNull) ∨
  (jget (u "sender_authenticated") P = JBool true ∧
   ∃ g, jget (u "sender_fingerprint") P = JStr g ∧ fullmatch FINGERPRINT_PATTERN g = true).
Proof.
  unfold _validate_sender. destruct (jget (u "sender_authenticated") P) as [|[]| | | | |]; try done.
  - destruct (jget (u "sender_fingerprint") P); try done. intros E%raise_if_Ok.
    apply negb_false_iff in E. eauto.
  - intros E%raise_if_Ok. apply negb_false_iff, bool_decide_eq_true in E. auto.
Qed.

Lemma validate_outcome_Ok d o h r x :
  _validate_outcome d o h r = Ok x → (h ≠ JNull → ∃ s, h = JStr s ∧ fullmatch SHA256_PATTERN s = true) →
  (r ≠ JNull → ∃ n, r = JInt n ∧ 0 < n) → entry_outcome d o h r.
Proof.
  unfold _validate_outcome. intros E%raise_if_Ok Hh Hr. apply negb_false_iff in E.
  rewrite !orb_true_iff, !andb_true_iff, !negb_true_iff, !bool_decide_eq_true, !bool_decide_eq_false in E.
  destruct E as [[[E|E]|E]|E]; destruct_and!; subst; try constructor.
  - destruct Hr as (n&->&Hn); [done|]. by constructor.
  - destruct Hr as (n&->&Hn), Hh as (s&->&Hs); [done..|]. by constructor.
Qed.
Lemma validate_decision_Ok P x : _validate_decision P = Ok x →
  (∃ r, jget (u "policy_reason") P = JStr r ∧ fullmatch TOKEN_PATTERN r = true) ∧
  entry_outcome (jget (u "policy_decision") P) (jget (u "outcome") P)
    (jget (u "receipt_sha256") P) (jget (u "response_sequence") P).
Proof.
  unfold _validate_decision. intros (?&_&E)%res_bind_Ok. apply res_bind_Ok in E as (?&_&E).
  apply res_bind_Ok in E as (?&Er&E). apply res_bind_Ok in E as (?&_&E). apply res_bind_Ok in E as (?&_&E).
  apply res_bind_Ok in E as (?&Eh&E). apply res_bind_Ok in E as (?&En&E). split.
  - destruct (jget (u "policy_reason") P); try done. apply raise_if_Ok, negb_false_iff in Er. eauto.
  - eapply validate_outcome_Ok; [exact E| |]; intros Hn.
    + rewrite bool_decide_eq_false_2 in Eh by done. apply res_bind_Ok in Eh as (h&[-> Hs]%audit_sha256_Ok&_). eauto.
    + rewrite bool_decide_eq_false_2 in En by done. apply res_bind_Ok in En as (n&[-> Hs]%audit_positive_int_Ok&_). eauto.
Qed.

Lemma validate_payload_Ok P x : _validate_payload P = Ok x → valid_entry P.
Proof.
  unfold _validate_payload. intros (?&[Hk Hs]%raise_if_Ok%orb_false_iff&E)%res_bind_Ok.
  apply res_bind_Ok in E as (n&[En ?]%audit_positive_int_Ok&E).
  apply res_bind_Ok in E as (m&[Em ?]%audit_positive_int_Ok&E).
  apply res_bind_Ok in E as (did&[Ed ?]%audit_did_Ok&E).
  apply res_bind_Ok in E as (t&[Et ?]%timestamp_Ok&E).
  apply res_bind_Ok in E as (h&[Eh ?]%audit_sha256_Ok&E).
  apply res_bind_Ok in E as (?&Hsend%validate_sender_Ok&[Hr Ho]%validate_decision_Ok).
  apply negb_false_iff in Hk. apply negb_false_iff, bool_decide_eq_true in Hs. split; eauto.
Qed.

(** A valid payload can be printed. *)
Lemma audit_payload_ok issuer at_ s f :
  valid_entry (audit_payload issuer at_ s f) → fields_printable f → json_ok (JInt (entries s + 1)) →
  json_ok (JDict (audit_payload issuer at_ s f)).
Proof.
  intros [_ _ _ _ (?&[= <-]&Hdid) (?&[= <-]&Ht) (?&[= <-]&Hprev) Hsend (?&[= <-]&Hreason) Ho] [Hin Hresp] He.
  assert (∀ r s, regex_scalar r = true → fullmatch r s = true → json_ok (JStr s)) as Hre
    by (intros; by eapply regex_scalar_str).
  unfold audit_payload. json_ok_fields; try exact I; try done.
  - by apply (in_list_scalar [AUDIT_SCHEMA]); [|left].
  - by apply (Hre DID_PATTERN).
  - by apply (Hre TIMESTAMP_PATTERN).
  - change (json_ok (jget (u "sender_fingerprint") (audit_payload issuer at_ s f))).
    destruct Hsend as [[_ ->]|(_&g&->&Hg)]; [exact I|by apply (Hre FINGERPRINT_PATTERN)].
  - change (json_ok (jget (u "policy_decision") (audit_payload issuer at_ s f))).
    by destruct Ho; apply (in_list_scalar POLICY_DECISIONS); decide_by_computing.
  - by apply (Hre TOKEN_PATTERN).
  - change (json_ok (jget (u "outcome") (audit_payload issuer at_ s f))).
    by destruct Ho; apply (in_list_scalar OUTCOMES); decide_by_computing.
  - change (json_ok (jget (u "receipt_sha256") (audit_payload issuer at_ s f))).
    destruct Ho; try exact I. by apply (Hre SHA256_PATTERN).
  - by apply (Hre SHA256_PATTERN).
Qed.
End entries.

(** ** Appending *)

Lemma verify_lines_app `{Ed25519} l1 l2 n i h :
  verify_lines (l1 ++ l2) n i h =
  ('(i', h') ← verify_lines l1 n i h; verify_lines l2 (n + length l1) i' h').
Proof.
  revert n i h. induction l1 as [|line l1 IH]; intros n i h.
  - cbn. by rewrite Z.add_0_r.
  - cbn [app verify_lines length]. destruct (_verify_line line n h i) as [[i' h']|]; [|done].
    cbn [mbind res_bind]. rewrite IH. by replace (n + 1 + length l1) with (n + S (length l1)) by lia.
Qed.

Lemma no_break_printable l : Forall (λ c, printable_ascii c = true) l → no_break l.
Proof. intros Hl. eapply Forall_impl; [exact Hl|]. unfold printable_ascii. intros c Hc. breflect. lia. Qed.

(** The bytes of a log as the writer sees them: nothing, or whole lines. *)
Lemma verify_bytes_lines `{Ed25519} raw s :
  _verify_bytes raw = Ok s →
  (raw = [] ∨ endswith [10] raw = true) ∧ entries s = length (splitlines raw) ∧
  verify_lines (splitlines raw) 1 None GENESIS_HASH = Ok (issuer s, head_sha256 s).
Proof.
  unfold _verify_bytes. case_bool_decide as E; [intros [= <-]; subst; auto|].
  intros (?&Hn%raise_if_Ok%negb_false_iff&Hl)%res_bind_Ok. apply res_bind_Ok in Hl as ([i h]&Hl&[= <-]). auto.
Qed.

Lemma verify_bytes_append `{Ed25519} raw s line i h :
  _verify_bytes raw = Ok s → no_break line → _verify_line line (entries s + 1) (head_sha256 s) (issuer s) = Ok (i, h) →
  _verify_bytes (raw ++ line ++ [10]) = Ok (MkAuditSummary (entries s + 1) (Some i) h).
Proof.
  intros (Hraw&He&Hl)%verify_bytes_lines Hline Hv. unfold _verify_bytes.
  rewrite bool_decide_eq_false_2 by (intros E%(f_equal length); rewrite !length_app in E; cbn in E; lia).
  rewrite app_assoc, endswith_snoc_true, <- app_assoc. cbn [negb raise_if mbind res_bind].
  assert (splitlines (raw ++ line ++ [10]) = splitlines raw ++ [line]) as ->.
  { destruct Hraw as [->|Hn]; [by apply splitlines_one|by apply splitlines_app]. }
  rewrite verify_lines_app, Hl. cbn [mbind res_bind verify_lines].
  rewrite <- He, Z.add_comm, Hv. cbn [mbind res_bind]. rewrite length_app. cbn [length].
  do 2 f_equal. lia.
Qed.

Section own_entries.
Context `{Ed25519Laws}.
Set Default Proof Using "All".

Lemma wrapper_fields payload digest sig :
  let w := sealed payload digest sig in
  has_exact_keys w WRAPPER_KEYS = true ∧ jget (u "payload") w = JDict payload ∧
  jget (u "payload_sha256") w = JStr digest ∧ jget (u "signature") w = JStr sig.
Proof. done. Qed.

(** An entry as it is written: the signed payload, in the order of its keys. *)
Definition entry_line (P : list (str * json)) (sig : str) : bytes :=
  canonical_json (JDict (sealed P (sha256_hex (canonical_json (JDict P))) sig)).

Lemma entry_json_ok P key sig :
  json_ok (JDict P) → sign_detached key (canonical_json (JDict P)) = Ok sig →
  json_ok (JDict (sealed P (sha256_hex (canonical_json (JDict P))) sig)).
Proof.
  intros HP Hsig. destruct (sign_detached_total key (canonical_json (JDict P))) as (sig'&E&Hsp&_).
  rewrite Hsig in E. injection E as <-. apply json_ok_sealed; [done| |by eapply (regex_scalar_str SIGNATURE_PATTERN)].
  eapply (regex_scalar_str SHA256_PATTERN); [done|]. apply sha256_hex_pattern.
Qed.

Lemma entry_line_decodes P key sig :
  json_ok (JDict P) → sign_detached key (canonical_json (JDict P)) = Ok sig →
  forallb (λ kv, scalar kv.2) P = true →
  no_break (entry_line P sig) ∧
  _decode_json (entry_line P sig)
  = Ok (JDict (sealed (sort_keys P) (sha256_hex (canonical_json (JDict P))) sig)).
Proof.
  intros HP Hsig Hf. pose proof (entry_json_ok P key sig HP Hsig) as Hok.
  pose proof (dumps_printable true _ Hok) as Hpr. split; [by apply no_break_printable|].
  unfold _decode_json, loads_bytes_with. rewrite (proj2 (decode_json_ascii (entry_line P sig) Hpr)).
  cbn [mbind res_bind]. unfold entry_line, canonical_json.
  rewrite <- (app_nil_r (dumps true (JDict (sealed _ _ _)))), loads_sealed;
    [done|apply keeps_distinct_reject|done|done|by left].
Qed.

Lemma audit_did_own key did : did_from_private_key key = Ok did → _audit_did (JStr did) = Ok did.
Proof.
  intros Hkey. destruct (did_from_private_key_total key) as (d&E&Hp&_). rewrite Hkey in E. injection E as <-.
  unfold _audit_did. cbn [validate_did_value]. by rewrite (proj2 (validate_did_Ok did did)).
Qed.

Lemma own_wrapper_signature P key did sig :
  NoDup P.*1 → jget (u "issuer") P = JStr did → did_from_private_key key = Ok did →
  sign_detached key (canonical_json (JDict P)) = Ok sig →
  _verify_wrapper_signature (sealed (sort_keys P) (sha256_hex (canonical_json (JDict P))) sig) (sort_keys P)
  = Ok tt.
Proof.
  intros HnP Ei Hkey Hsig. destruct (sign_detached_canonical key (canonical_json (JDict P))) as (sig'&E&_&_&Hcanon).
  rewrite Hsig in E. injection E as <-. unfold _verify_wrapper_signature. rewrite jget_sort_keys, Ei by done.
  assert (canonical_json (JDict (sort_keys P)) = canonical_json (JDict P)) as -> by by apply dumps_sort_keys.
  destruct (wrapper_fields (sort_keys P) (sha256_hex (canonical_json (JDict P))) sig) as (_&_&->&->).
  rewrite bool_decide_eq_true_2 by done. cbn [negb raise_if mbind res_bind].
  change AUDIT_SIGNATURE_PATTERN
    with (RSeq (rpow (RClass [rAZ; raz; r09; rc 95; rc 45]) 85) (RClass CANONICAL_END)).
  rewrite Hcanon. cbn [negb raise_if mbind res_bind]. rewrite (audit_did_own key) by done.
  cbn [mbind res_bind]. by rewrite (verify_own_signature key).
Qed.

Lemma entry_hash_sealed P digest sig :
  NoDup P.*1 →
  _entry_hash (sealed (sort_keys P) digest sig) = sha256_hex (canonical_json (JDict (sealed P digest sig))).
Proof. intros HP. unfold _entry_hash, canonical_json. by rewrite dumps_sealed_sorted. Qed.

(** The line of an entry that was signed for its issuer. *)
Lemma own_line_verifies P n prev i issuer_did key sig :
  NoDup P.*1 → forallb (λ kv, scalar kv.2) P = true → json_ok (JDict P) → _validate_payload P = Ok tt →
  jget (u "audit_sequence") P = JInt n → jget (u "previous_entry_sha256") P = JStr prev →
  jget (u "issuer") P = JStr issuer_did → (∀ i', i = Some i' → i' = issuer_did) →
  did_from_private_key key = Ok issuer_did → sign_detached key (canonical_json (JDict P)) = Ok sig →
  length (entry_line P sig) ≤ MAX_AUDIT_LINE_BYTES →
  no_break (entry_line P sig) ∧
  _verify_line (entry_line P sig) n prev i = Ok (issuer_did, sha256_hex (entry_line P sig)).
Proof.
  intros HnP Hflat HP Hv Hn Hprev Ei Hi Hkey Hsig Hlen.
  destruct (entry_line_decodes P key sig) as [Hnb Hdec]; [done..|]. split; [done|].
  assert (entry_line P sig ≠ []) as Hne by done.
  unfold _verify_line. rewrite (bool_decide_eq_false_2 (entry_line P sig = [])) by done.
  apply Z.ltb_ge in Hlen. rewrite Hlen.
  cbn [orb raise_if mbind res_bind]. rewrite Hdec. cbn [mbind res_bind of_option].
  destruct (wrapper_fields (sort_keys P) (sha256_hex (canonical_json (JDict P))) sig) as (->&->&_&_).
  cbn [negb raise_if mbind res_bind of_option]. rewrite validate_payload_sorted, Hv, !jget_sort_keys by done.
  cbn [mbind res_bind]. rewrite Hn, Hprev, Ei.
  rewrite !bool_decide_eq_true_2 by done. cbn [negb raise_if mbind res_bind].
  rewrite (audit_did_own key) by done. cbn [mbind res_bind].
  assert (match i with Some i => issuer_did != i | None => false end = false) as ->.
  { destruct i as [i|]; [|done]. rewrite (Hi i eq_refl). by rewrite bool_decide_eq_true_2. }
  cbn [raise_if mbind res_bind]. rewrite (own_wrapper_signature P key issuer_did) by done.
  cbn [mbind res_bind]. by rewrite entry_hash_sealed.
Qed.
End own_entries.

(** The line that [append] writes is that of an entry which verifies. *)
Lemma build_entry_line `{Ed25519Laws} raw issuer_did key t f rendered hash :
  did_from_private_key key = Ok issuer_did → fields_printable f →
  build_entry raw issuer_did key t f = Ok (rendered, hash) →
  ∃ s line, _verify_bytes raw = Ok s ∧ rendered = line ++ [10] ∧ no_break line ∧ hash = sha256_hex line ∧
    _verify_line line (entries s + 1) (head_sha256 s) (issuer s) = Ok (issuer_did, hash).
Proof.
  intros Hkey Hf E. unfold build_entry in E. apply res_bind_Ok in E as (s&Hs&E).
  apply res_bind_Ok in E as (?&Hi%raise_if_Ok&E). cbv zeta in E. set (P := audit_payload _ _ s f) in *.
  apply res_bind_Ok in E as ([]&Hv&E). apply res_bind_Ok in E as (sig&Hsig&E).
  change (canonical_json (JDict [(u "payload", JDict P); _; _])) with (entry_line P sig) in E.
  apply res_bind_Ok in E as (?&Hlen%raise_if_Ok%Z.ltb_ge&E). apply res_bind_Ok in E as (?&Hmax%raise_if_Ok%Z.ltb_ge&E).
  injection E as <- <-. pose proof (verify_bytes_lines _ _ Hs) as (_&He&_).
  assert (length raw ≤ MAX_AUDIT_BYTES) as Hraw by lia. rewrite length_app in Hlen. cbn [length] in Hlen.
  pose proof (splitlines_length raw) as Hn.
  assert (json_ok (JDict P)) as HP.
  { apply audit_payload_ok; [by eapply validate_payload_Ok|done|].
    apply (small_int_ok _ (MAX_AUDIT_BYTES + 1)); [lia|].
    assert (MAX_AUDIT_BYTES + 1 < 10 ^ 10) by done.
    pose proof (Z.pow_le_mono_r 10 10 MAX_STR_DIGITS ltac:(lia) ltac:(unfold MAX_STR_DIGITS; lia)). lia. }
  exists s, (entry_line P sig).
  destruct (own_line_verifies P (entries s + 1) (head_sha256 s) (issuer s) issuer_did key sig) as [Hnb Hl];
    try done; try lia.
  { apply audit_payload_keys. }
  { subst P. cbn. by destruct (a_sender_fingerprint f), (a_receipt_sha256 f), (a_response_sequence f). }
  { intros i E. rewrite E in Hi. by apply negb_false_iff, bool_decide_eq_true in Hi. }
Qed.

(** ** Appending to the file *)

Definition PARTIAL_RECORD : exn := AuditError "audit log ends with a partial JSONL record".

(** A part of a line that is not the whole line is noticed. *)
Lemma partial_line_noticed `{Ed25519} d line k :
  no_break line → (0 < k ≤ length line)%nat → _verify_bytes (d ++ take k (line ++ [10])) = Err PARTIAL_RECORD.
Proof.
  intros Hl Hk. rewrite take_app_le by lia.
  assert (length (take k line) = k) as Hlen by (rewrite length_take; lia).
  destruct (take k line) as [|c t _] eqn:E using rev_ind; [cbn in Hlen; lia|].
  unfold _verify_bytes. rewrite bool_decide_eq_false_2.
  2:{ intros E'%(f_equal length). rewrite !length_app in E'. cbn in E'. lia. }
  destruct (endswith [10] (d ++ t ++ [c])) eqn:Ee; [|done]. exfalso.
  apply endswith_snoc in Ee as (l'&E'). rewrite app_assoc in E'. apply app_inj_2 in E' as [_ [= ->]]; [|done].
  assert (10 ∈ line) as Hin.
  { rewrite <- (take_drop k line), E. apply elem_of_app. left. apply elem_of_app. right. by left. }
  by apply (Forall_elem _ _ _ Hl) in Hin as [? _].
Qed.

(** What has become of the log [d] when [append] ends with [o]. *)
Inductive appended `{Ed25519} (issuer_did : str) (d : bytes) : outcome str → bytes → Prop :=
  | append_nothing o : (∀ h, o ≠ Ret h) → appended issuer_did d o d
  | append_entry o s line : _verify_bytes d = Ok s →
      _verify_bytes (d ++ line) = Ok (MkAuditSummary (entries s + 1) (Some issuer_did) (sha256_hex (removelast line))) →
      (∀ h, o = Ret h → h = sha256_hex (removelast line)) → appended issuer_did d o (d ++ line)
  | append_part o line : (∀ h, o ≠ Ret h) → _verify_bytes (d ++ line) = Err PARTIAL_RECORD →
      appended issuer_did d o (d ++ line).

Section append.
Context {Mem : Type} `{Env} `{Ed25519Laws} (p : path).
Implicit Types w : world Mem.
Set Default Proof Using "Type".

Definition log_data w : bytes := match w_fs w !! p with Some f => f_data f | None => [] end.
Definition same_log w w' : Prop := log_data w' = log_data w.

#[local] Instance same_log_preorder : PreOrder same_log.
Proof. split; [done|]. intros w1 w2 w3. unfold same_log. congruence. Qed.

Lemma same_log_keeps {A} (m : M Mem A) : Keeps (λ q, q = p) (λ _ _, True) m → Steps same_log m.
Proof. intros Hm w. destruct (Hm w) as [F _ _]. unfold same_log, log_data. by rewrite F. Qed.

#[local] Instance any_preorder : PreOrder (λ _ _ : Mem, True).
Proof. by split. Qed.

Lemma same_log_create mode : Steps same_log (create_if_missing p mode).
Proof.
  unfold create_if_missing. apply keeps_bind; [apply _|apply same_log_keeps; keeps|]. intros _ w.
  unfold mbind, M_bind, same_log, log_data. cbn.
  destruct (w_fs w !! p) eqn:E; cbn; [by rewrite E|]. by rewrite lookup_insert_eq.
Qed.

Lemma same_log_check : Steps same_log (check_descriptor p).
Proof. apply same_log_keeps. unfold check_descriptor. keeps. Qed.

Lemma frame_lookup {A} (m : M Mem A) w :
  Keeps (λ q, q = p) (λ _ _, True) m → w_fs (m w).2 !! p = w_fs w !! p.
Proof. intros Hm. by apply (Hm w). Qed.

Lemma check_descriptor_Ret f w w' : check_descriptor p w = (Ret f, w') → w_fs w' !! p = Some f.
Proof.
  intros E. assert (Keeps (λ q, q = p) (λ _ _, True) (check_descriptor (Mem := Mem) p)) as Hk
    by (unfold check_descriptor; keeps).
  pose proof (frame_lookup _ w Hk) as Hs. rewrite E in Hs. cbn in Hs. rewrite Hs. clear Hs Hk.
  unfold check_descriptor in E. apply bind_Ret in E as (g&w1&Hg&E).
  apply bind_Ret in E as (?&w2&_&E). apply bind_Ret in E as (?&w3&_&E). apply bind_Ret in E as (?&w4&_&E).
  apply ret_Ret in E as [-> _]. unfold open_nofollow in Hg. apply bind_Ret in Hg as (h&w5&Hh&Hg).
  case_decide; [by apply raise_Ret in Hg|]. apply ret_Ret in Hg as [-> _].
  unfold path_file in Hh. apply bind_Ret in Hh as (?&w6&Ha&Hh). apply bind_Ret in Hh as (fs&w7&[= <- <-]&Hh).
  assert (Keeps (λ q, q = p) (λ _ _, True) (action (Mem := Mem))) as Hk by keeps.
  destruct (w_fs w6 !! p) eqn:E; [|by apply raise_Ret in Hh]. apply ret_Ret in Hh as [-> _].
  pose proof (frame_lookup _ w Hk) as Hs. rewrite Ha in Hs. cbn in Hs. by rewrite <- Hs.
Qed.

(** The write may stop anywhere; it returns after the whole line. *)
Lemma write_all_data data w :
  is_Some (w_fs w !! p) →
  let '(o, w') := _write_all p data w in
  ∃ k, log_data w' = log_data w ++ take k data ∧ (o = Ret tt → (length data ≤ k)%nat).
Proof.
  intros [f Hf]. unfold _write_all, mbind, M_bind. cbn.
  destruct (env_fault (w_tick w)) eqn:Ef; cbn; unfold log_data; cbn; rewrite lookup_alter_eq, Hf; cbn.
  - exists (length data). by rewrite firstn_all.
  - by exists (env_short_write (w_tick w)).
  - by exists (env_short_write (w_tick w)).
  - by exists (env_short_write (w_tick w)).
Qed.

(** As long as the log is not written to. *)
Lemma wp_same_bind {A B} (m : M Mem A) (f : A → M Mem B) (Φ : outcome B → world Mem → Prop) w :
  Steps same_log m → (∀ w', same_log w w' → (∀ e, Φ (Raise e) w') ∧ Φ Crashed w') →
  (∀ a w', same_log w w' → m w = (Ret a, w') → wp (f a) Φ w') → wp (m ≫= f) Φ w.
Proof.
  intros Hm HΦ Hf. apply wp_bind, (wp_steps same_log); [done|]. intros [a|e|] w' Hs E; [by apply Hf| |];
    by apply HΦ.
Qed.

Lemma wp_os_errors {A} err (m : M Mem A) (Φ : outcome A → world Mem → Prop) w :
  (∀ e e' w', Φ (Raise e) w' → Φ (Raise e') w') → wp m Φ w → wp (os_errors err m) Φ w.
Proof.
  intros HΦ Hm. apply wp_try. eapply wp_mono; [exact Hm|]. intros [a|e|] w' Hw; try done.
  case_match; [|done]. eapply HΦ, Hw.
Qed.

Lemma appended_raise issuer_did d e e' data :
  appended issuer_did d (Raise e) data → appended issuer_did d (Raise e') data.
Proof. inversion 1; subst; by econstructor. Qed.

Lemma appended_kept issuer_did d w' o :
  log_data w' = d → (∀ h, o ≠ Ret h) → appended issuer_did d o (log_data w').
Proof. intros ->. apply append_nothing. Qed.

(** From the checked file to the written line. *)
Lemma wp_append_line issuer_did key t f d rendered hash w :
  did_from_private_key key = Ok issuer_did → fields_printable f →
  build_entry d issuer_did key t f = Ok (rendered, hash) → is_Some (w_fs w !! p) → log_data w = d →
  wp (_write_all p rendered;; fsync p;; mret hash) (λ o w', appended issuer_did d o (log_data w')) w.
Proof using All.
  intros Hkey Hf (s&line&Hs&->&Hnb&->&Hl)%build_entry_line Hp Hd; [|done..].
  assert (_verify_bytes (d ++ line ++ [10])
          = Ok (MkAuditSummary (entries s + 1) (Some issuer_did) (sha256_hex (removelast (line ++ [10]))))) as Hv.
  { rewrite removelast_last. by apply (verify_bytes_append d s line). }
  pose proof (write_all_data (line ++ [10]) w Hp) as Hw. apply wp_bind. unfold wp.
  destruct (_write_all p (line ++ [10]) w) as [o w'] eqn:Eo. destruct Hw as (k&Hk&Hret). cbn [fst snd].
  rewrite length_app in Hret. cbn [length] in Hret.
  assert (∀ o2 : outcome str, (∀ h, o2 = Ret h → h = sha256_hex line) → (o = Ret tt ∨ ∀ h, o2 ≠ Ret h) →
    ∀ w2, log_data w2 = log_data w' → appended issuer_did d o2 (log_data w2)) as Happ.
  { intros o2 Hh Ho w2 ->. rewrite Hk, Hd. destruct (decide (length line < k)%nat) as [Hfull|Hpart].
    - rewrite take_ge by (rewrite length_app; cbn; lia). eapply append_entry; [done|done|].
      by rewrite removelast_last.
    - assert (∀ h, o2 ≠ Ret h) as Hn by (destruct Ho as [->|?]; [specialize (Hret eq_refl); lia|done]).
      destruct (decide (k = 0)%nat) as [->|]; [rewrite app_nil_r; by apply append_nothing|].
      apply append_part; [done|]. apply partial_line_noticed; [done|lia]. }
  assert (Steps same_log (fsync (Mem := Mem) p)) as Hsync by (apply same_log_keeps; unfold fsync; keeps).
  destruct o as [[]|e|]; [|by apply Happ; auto..].
  apply wp_same_bind; [done| |].
  - intros w2 Hs2. split; [intros e|]; by apply Happ; auto.
  - intros _ w2 Hs2 _. apply wp_ret, Happ; [by intros h [= <-]|by left|done].
Qed.
Lemma kept_outcomes issuer_did d w :
  log_data w = d → ∀ w', same_log w w' →
  (∀ e, appended issuer_did d (Raise e) (log_data w')) ∧ appended issuer_did d Crashed (log_data w').
Proof. intros <- w' Hs. split; [intros e|]; by apply appended_kept. Qed.

(** From opening the log to closing it. *)
Lemma wp_append_open issuer_did key t f d w :
  did_from_private_key key = Ok issuer_did → fields_printable f → log_data w = d →
  wp (create_if_missing p MODE_0600;;
      metadata ← check_descriptor p;
      raw ← os_errors (AuditError "cannot read audit log") (action;; lift (_read_bounded (f_data metadata)));
      '(rendered, hash) ← lift (build_entry raw issuer_did key t f);
      _write_all p rendered;;
      fsync p;;
      mret hash)
    (λ o w', appended issuer_did d o (log_data w')) w.
Proof using All.
  intros Hkey Hf Hd.
  apply wp_same_bind; [apply same_log_create|by apply kept_outcomes|]. intros _ w1 H1' _. rewrite <- H1' in Hd.
  apply wp_same_bind; [apply same_log_check|by apply kept_outcomes|].
  intros metadata w2 H2' Hm%check_descriptor_Ret. rewrite <- H2' in Hd.
  assert (Keeps (λ q, q = p) (λ _ _, True)
    (os_errors (Mem := Mem) (AuditError "cannot read audit log") (action;; lift (_read_bounded (f_data metadata)))))
    as Hread by (unfold os_errors; keeps).
  apply wp_same_bind; [by apply same_log_keeps|by apply kept_outcomes|]. intros raw w3 H3' Er.
  pose proof (frame_lookup _ w2 Hread) as E3. rewrite Er in E3. cbn in E3. rewrite Hm in E3. rewrite <- H3' in Hd.
  apply os_errors_Ret, bind_Ret in Er as (?&?&_&[Er _]%lift_Ret). unfold _read_bounded in Er. res_inv Er.
  apply wp_same_bind; [apply keeps_lift; apply _|by apply kept_outcomes|].
  intros [rendered hash] w4 _ [Eb ->]%lift_Ret. eapply wp_append_line; [done|done| |by rewrite E3|done].
  assert (log_data w3 = f_data metadata) as Hlog by (unfold log_data; by rewrite E3). rewrite <- Hlog in Eb. done.
Qed.

Lemma wp_append issuer_did key t f w :
  fields_printable f →
  wp (append p issuer_did key t f) (λ o w', appended issuer_did (log_data w) o (log_data w')) w.
Proof using All.
  intros Hf. set (d := log_data w). unfold append.
  apply wp_same_bind; [apply keeps_lift; apply _|by apply kept_outcomes|]. intros did w0 _ [[[= <-] _]%audit_did_Ok ->]%lift_Ret.
  apply wp_same_bind; [apply keeps_lift; apply _|by apply kept_outcomes|]. intros own w1 _ [Hown ->]%lift_Ret.
  apply wp_same_bind; [apply keeps_lift; apply _|by apply kept_outcomes|]. intros _ w2 _ [Hcheck ->]%check_Ret.
  apply negb_false_iff, bool_decide_eq_true in Hcheck as ->.
  apply wp_same_bind; [apply same_log_keeps; unfold os_errors, mkdir_parents; keeps|by apply kept_outcomes|]. intros _ w3 H3 _.
  assert (Steps same_log (os_errors (AuditError "cannot sync audit directory") (fsync_directory (Mem := Mem) p))) as Hsync
    by (apply same_log_keeps; unfold os_errors, fsync_directory; keeps).
  apply wp_bind. eapply wp_mono.
  { apply wp_os_errors with (Φ := λ o w', appended issuer_did d o (log_data w')).
    - intros e e' w'. apply appended_raise.
    - by apply wp_append_open. }
  intros [hash|e|] w4 Ha; [|done..].
  assert (∀ o, (∀ h, o = Ret h → h = hash) → ∀ w', same_log w4 w' → appended issuer_did d o (log_data w')) as Hany.
  { intros o Ho w' ->. inversion Ha as [? Hn|? s line Hs Hv Hh|? ? Hn]; [by edestruct Hn| |by edestruct Hn].
    eapply append_entry; [done|done|]. intros h Eh. rewrite (Ho h Eh). by apply Hh. }
  apply wp_same_bind; [done| |].
  - intros w' Hs. split; [intros e|]; by apply Hany.
  - intros _ w5 Hs _. apply wp_ret, Hany; [by intros h [= <-]|done].
Qed.
End append.

(** ** The head commits to the log *)

Lemma decoded_entry line v : _decode_json line = Ok v → ints_printable v ∧ distinct_keys v.
Proof.
  unfold _decode_json. intros [H|(e&_&_&[=])]%res_catch_Ok. unfold loads_bytes_with in H.
  apply res_bind_Ok in H as (t&_&H). split.
  - eapply loads_printable; [| |exact H]; [|by intros ? ? [= <-]].
    intros kvs d Hd. cbn in Hd. unfold reject_duplicates in Hd. res_inv Hd. done.
  - eapply loads_distinct; [|exact H]. by intros ? ? [= <-].
Qed.

(** An object with known keys can be printed if its members can. *)
Lemma exact_keys_json_ok kvs keys :
  NoDup kvs.*1 → has_exact_keys kvs keys = true → forallb (forallb is_scalar) keys = true →
  Forall (λ k, json_ok (jget k kvs)) keys → json_ok (JDict kvs).
Proof.
  intros Hd Hk Hs Hv. apply json_ok_JDict. split; [done|]. pose proof (jget_members kvs Hd) as Hm.
  apply andb_true_iff in Hk as [Hk _]. rewrite forallb_Forall_true in Hk.
  apply Forall_forall. intros [k v] Hin.
  apply (Forall_elem _ _ _ Hm) in Hin as Hkv. cbn in Hkv |- *.
  assert (k ∈ keys) as Hkey.
  { assert (k ∈ kvs.*1) as Hk1 by (apply list_elem_of_fmap; by exists (k, v)).
    by apply (Forall_elem _ _ _ Hk), bool_decide_eq_true in Hk1. }
  split; [by eapply in_list_scalar|]. rewrite <- Hkv. by apply (Forall_elem _ _ _ Hv).
Qed.

Lemma valid_entry_json_ok P :
  valid_entry P → ints_printable (JDict P) → NoDup P.*1 → json_ok (JDict P).
Proof.
  intros [Hk Hs (n&En&_) (m&Em&_) (did&Ed&Hd) (t&Et&Ht) (h&Eh&Hh) Hsend (r&Er&Hr) Ho] Hint HnP.
  apply ints_printable_dict in Hint. pose proof (λ k, jget_printable k P Hint) as Hj.
  assert (∀ r s, regex_scalar r = true → fullmatch r s = true → json_ok (JStr s)) as Hre
    by (intros; by eapply regex_scalar_str).
  apply (exact_keys_json_ok P PAYLOAD_KEYS); [done|done|by vm_compute|].
  unfold PAYLOAD_KEYS. repeat apply Forall_cons_2; try apply Forall_nil_2.
  - rewrite Hs. by apply (in_list_scalar [AUDIT_SCHEMA]); [|left].
  - specialize (Hj (u "audit_sequence")). by rewrite En in *.
  - rewrite Ed. by apply (Hre DID_PATTERN).
  - rewrite Et. by apply (Hre TIMESTAMP_PATTERN).
  - specialize (Hj (u "input_sequence")). by rewrite Em in *.
  - destruct Hsend as [[_ ->]|(_&g&->&Hg)]; [exact I|by apply (Hre FINGERPRINT_PATTERN)].
  - by destruct Hsend as [[-> _]|[-> _]].
  - by destruct Ho; apply (in_list_scalar POLICY_DECISIONS); decide_by_computing.
  - rewrite Er. by apply (Hre TOKEN_PATTERN).
  - by destruct Ho; apply (in_list_scalar OUTCOMES); decide_by_computing.
  - destruct Ho; try exact I. by apply (Hre SHA256_PATTERN).
  - specialize (Hj (u "response_sequence")). by destruct Ho.
  - rewrite Eh. by apply (Hre SHA256_PATTERN).
Qed.

Lemma dict_get_map_vals {A B} (f : A → B) k (kvs : list (str * A)) :
  dict_get k (map_vals f kvs) = f <$> dict_get k kvs.
Proof.
  induction kvs as [|[k' v] kvs IH]; [done|]. cbn. by case_bool_decide.
Qed.

(** A member of an object in normal form. *)
Lemma jget_norm k kvs :
  NoDup kvs.*1 → ∃ m, norm true (JDict kvs) = JDict m ∧ jget k m = norm true (jget k kvs).
Proof.
  intros Hd. exists (sort_keys (map_vals (norm true) kvs)). split; [done|].
  rewrite jget_sort_keys by by rewrite map_vals_keys. unfold jget. rewrite dict_get_map_vals.
  by destruct (dict_get k kvs).
Qed.

Section head.
Context `{Ed25519}.

(** A line that verifies: the entry it holds, and what the entry says of its
    place in the log. *)
Record entry_of (line : bytes) (n : Z) (prev issuer hash : str) (w P : list (str * json)) : Prop := {
  en_decoded : _decode_json line = Ok (JDict w);
  en_json : json_ok (JDict w);
  en_payload : jget (u "payload") w = JDict P;
  en_valid : valid_entry P;
  en_payload_json : json_ok (JDict P);
  en_sequence : jget (u "audit_sequence") P = JInt n;
  en_previous : jget (u "previous_entry_sha256") P = JStr prev;
  en_issuer : jget (u "issuer") P = JStr issuer;
  en_signed : ∃ sig, verify_detached_signature issuer (canonical_json (JDict P)) sig = true;
  en_hash : hash = sha256_hex (canonical_json (JDict w))
}.

Lemma verify_wrapper_signature_Ok w P x :
  _verify_wrapper_signature w P = Ok x →
  jget (u "payload_sha256") w = JStr (sha256_hex (canonical_json (JDict P))) ∧
  ∃ sig issuer, jget (u "signature") w = JStr sig ∧ fullmatch AUDIT_SIGNATURE_PATTERN sig = true ∧
    jget (u "issuer") P = JStr issuer ∧ verify_detached_signature issuer (canonical_json (JDict P)) sig = true.
Proof.
  unfold _verify_wrapper_signature. intros (?&Hh%raise_if_Ok&E)%res_bind_Ok.
  apply negb_false_iff, bool_decide_eq_true in Hh. split; [done|].
  apply res_bind_Ok in E as (sig&Hs&E). apply res_bind_Ok in E as (issuer&[Hi _]%audit_did_Ok&Hv%raise_if_Ok).
  destruct (jget (u "signature") w) as [| | | |t| |]; try done. res_inv Hs.
  apply negb_false_iff in Hs0, Hv. by exists sig, issuer.
Qed.

Lemma verify_line_Ok line n prev i i' h :
  _verify_line line n prev i = Ok (i', h) →
  (∀ j, i = Some j → j = i') ∧ ∃ w P, entry_of line n prev i' h w P.
Proof.
  unfold _verify_line. intros (?&_&E)%res_bind_Ok. apply res_bind_Ok in E as (v&Hdec&E).
  apply res_bind_Ok in E as (w&Hw%of_option_Ok&E). destruct v as [| | | | | |w']; try done. injection Hw as ->.
  apply res_bind_Ok in E as (?&Hk%raise_if_Ok%negb_false_iff&E).
  apply res_bind_Ok in E as (P&HP%of_option_Ok&E).
  destruct (jget (u "payload") w) as [| | | | | |P'] eqn:EP; try done. injection HP as ->.
  apply res_bind_Ok in E as (?&Hv%validate_payload_Ok&E).
  apply res_bind_Ok in E as (?&Hn%raise_if_Ok%negb_false_iff%bool_decide_eq_true&E).
  apply res_bind_Ok in E as (?&Hp%raise_if_Ok%negb_false_iff%bool_decide_eq_true&E).
  apply res_bind_Ok in E as (j&[Hj _]%audit_did_Ok&E). apply res_bind_Ok in E as (?&Hsame%raise_if_Ok&E).
  apply res_bind_Ok in E as (?&(Hh&sig&issuer&Hs&Hpat&Hi&Hsig)%verify_wrapper_signature_Ok&[= <- <-]).
  rewrite Hj in Hi. injection Hi as <-.
  pose proof (decoded_entry _ _ Hdec) as [Hint Hdist]. pose proof (jget_distinct (u "payload") w Hdist) as HdP.
  rewrite EP in HdP. apply distinct_keys_dict in Hdist as [Hdw _], HdP as [HdP _].
  assert (json_ok (JDict P)) as HPok.
  { apply valid_entry_json_ok; [done| |done]. rewrite <- EP. apply jget_printable. by apply ints_printable_dict. }
  split; [intros k ->; by apply negb_false_iff, bool_decide_eq_true in Hsame|].
  exists w, P. split; try done; [|by exists sig].
  apply (exact_keys_json_ok w WRAPPER_KEYS); [done|done|by vm_compute|].
  unfold WRAPPER_KEYS. repeat apply Forall_cons_2; try apply Forall_nil_2; [by rewrite EP|rewrite Hh|rewrite Hs].
  - eapply (regex_scalar_str SHA256_PATTERN); [done|]. apply sha256_hex_pattern.
  - by eapply (regex_scalar_str AUDIT_SIGNATURE_PATTERN).
Qed.

(** What the hash of an entry is taken of. *)
Definition entry_text (line : bytes) : bytes :=
  match _decode_json line with Ok v => canonical_json v | Err _ => [] end.
Definition entry_texts (raw : bytes) : list bytes := map entry_text (splitlines raw).

Lemma entry_of_text line n prev issuer hash w P :
  entry_of line n prev issuer hash w P → entry_text line = canonical_json (JDict w) ∧ hash = sha256_hex (entry_text line).
Proof. intros [E _ _ _ _ _ _ _ _ ->]. unfold entry_text. by rewrite E. Qed.

Lemma same_text_same_previous l1 l2 n1 n2 p1 p2 i1 i2 h1 h2 w1 w2 P1 P2 :
  entry_of l1 n1 p1 i1 h1 w1 P1 → entry_of l2 n2 p2 i2 h2 w2 P2 → entry_text l1 = entry_text l2 → p1 = p2.
Proof.
  intros E1 E2 Et. destruct (entry_of_text _ _ _ _ _ _ _ E1) as [T1 _], (entry_of_text _ _ _ _ _ _ _ E2) as [T2 _].
  rewrite T1, T2 in Et. unfold canonical_json in Et.
  assert (norm true (JDict w1) = norm true (JDict w2)) as En.
  { apply Ok_inj. rewrite <- !(loads_dumps default_loader keeps_distinct_default) by (by eapply en_json).
    by rewrite Et. }
  pose proof (en_json _ _ _ _ _ _ _ E1) as [D1 _]%json_ok_JDict.
  pose proof (en_json _ _ _ _ _ _ _ E2) as [D2 _]%json_ok_JDict.
  pose proof (en_payload_json _ _ _ _ _ _ _ E1) as [D1' _]%json_ok_JDict.
  pose proof (en_payload_json _ _ _ _ _ _ _ E2) as [D2' _]%json_ok_JDict.
  destruct (jget_norm (u "payload") w1 D1) as (m1&M1&J1), (jget_norm (u "payload") w2 D2) as (m2&M2&J2).
  rewrite M1, M2 in En. injection En as ->. rewrite J1 in J2.
  rewrite (en_payload _ _ _ _ _ _ _ E1), (en_payload _ _ _ _ _ _ _ E2) in J2.
  destruct (jget_norm (u "previous_entry_sha256") P1 D1') as (q1&Q1&K1),
    (jget_norm (u "previous_entry_sha256") P2 D2') as (q2&Q2&K2).
  rewrite Q1, Q2 in J2. injection J2 as ->. rewrite K1 in K2.
  rewrite (en_previous _ _ _ _ _ _ _ E1), (en_previous _ _ _ _ _ _ _ E2) in K2. by injection K2.
Qed.

(** Two entries of the logs are a collision of SHA-256, or one of them hashes to
    the first previous hash. *)
Definition hash_broken (t1 t2 : list bytes) : Prop :=
  (∃ a b, a ∈ t1 ∧ b ∈ t2 ∧ a ≠ b ∧ sha256_hex a = sha256_hex b) ∨
  (∃ a, a ∈ t1 ++ t2 ∧ sha256_hex a = GENESIS_HASH).

Lemma hash_broken_app t1 t2 s1 s2 : hash_broken t1 t2 → hash_broken (t1 ++ s1) (t2 ++ s2).
Proof.
  intros [(a&b&?&?&?&?)|(a&Ha&?)]; [left; exists a, b|right; exists a].
  - rewrite !elem_of_app. auto.
  - rewrite !elem_of_app in *. naive_solver.
Qed.

Lemma verify_lines_snoc l line n i h i' h' :
  verify_lines (l ++ [line]) n i h = Ok (i', h') →
  ∃ i0 prev issuer m w P, verify_lines l n i h = Ok (i0, prev) ∧ entry_of line m prev issuer h' w P.
Proof.
  rewrite verify_lines_app. intros ([i0 prev]&Hl&E)%res_bind_Ok. cbn [verify_lines] in E.
  apply res_bind_Ok in E as ([i1 h1]&(_&w&P&He)%verify_line_Ok&[= <- <-]). by exists i0, prev, i1, (n + length l), w, P.
Qed.

Lemma heads_agree l1 l2 i1 i2 h :
  verify_lines l1 1 None GENESIS_HASH = Ok (i1, h) → verify_lines l2 1 None GENESIS_HASH = Ok (i2, h) →
  map entry_text l1 = map entry_text l2 ∨ hash_broken (map entry_text l1) (map entry_text l2).
Proof.
  revert l2 i1 i2 h. induction l1 as [|a l1 IH] using rev_ind; intros l2 i1 i2 h H1 H2;
    destruct l2 as [|b l2 _] using rev_ind; [by left|..]; rewrite ?map_app.
  - injection H1 as _ <-. apply verify_lines_snoc in H2 as (?&?&?&?&w&P&_&[_ Hh]%entry_of_text).
    right. right. exists (entry_text b). rewrite !elem_of_app. split; [right; right; by left|done].
  - injection H2 as _ <-. apply verify_lines_snoc in H1 as (?&?&?&?&w&P&_&[_ Hh]%entry_of_text).
    right. right. exists (entry_text a). rewrite !elem_of_app. split; [left; right; by left|done].
  - apply verify_lines_snoc in H1 as (j1&p1&?&?&w1&P1&H1&E1), H2 as (j2&p2&?&?&w2&P2&H2&E2).
    destruct (entry_of_text _ _ _ _ _ _ _ E1) as [_ Hh1], (entry_of_text _ _ _ _ _ _ _ E2) as [_ Hh2].
    destruct (decide (entry_text a = entry_text b)) as [Et|Et].
    + pose proof (same_text_same_previous _ _ _ _ _ _ _ _ _ _ _ _ _ _ E1 E2 Et) as ->.
      destruct (IH l2 j1 j2 p2) as [->|Hb]; [done|done|left; cbn; by rewrite Et|right; by apply hash_broken_app].
    + right. left. exists (entry_text a), (entry_text b). rewrite !elem_of_app, <- Hh1, <- Hh2.
      repeat split; try done; right; by left.
Qed.

Lemma verify_lines_issuer lines n j prev i' h : verify_lines lines n (Some j) prev = Ok (i', h) → i' = Some j.
Proof.
  revert n prev. induction lines as [|line lines IH]; intros n prev; cbn [verify_lines]; [by intros [= <- _]|].
  intros ([i1 h1]&[Hi _]%verify_line_Ok&E)%res_bind_Ok. rewrite (Hi j eq_refl) in *. by eapply IH.
Qed.

(** The hash an entry has to repeat: that of the entry before it. *)
Definition previous_hash (lines : list bytes) (start : str) (k : nat) : str :=
  match k with O => start | S j => sha256_hex (entry_text (nth j lines [])) end.

Lemma verify_lines_sound lines n i prev i' h :
  verify_lines lines n i prev = Ok (i', h) →
  ∀ (k : nat) line, lines !! k = Some line → ∃ issuer w P, i' = Some issuer ∧
    entry_of line (n + k) (previous_hash lines prev k) issuer (sha256_hex (entry_text line)) w P.
Proof.
  revert n i prev. induction lines as [|l lines IH]; intros n i prev; [done|]. cbn [verify_lines].
  intros ([i1 h1]&(_&w&P&He)%verify_line_Ok&Hl)%res_bind_Ok k line Hk.
  pose proof (verify_lines_issuer _ _ _ _ _ _ Hl) as ->. destruct (entry_of_text _ _ _ _ _ _ _ He) as [_ Hh].
  destruct k as [|k]; cbn in Hk.
  - injection Hk as ->. exists i1, w, P. split; [done|]. cbn. rewrite Z.add_0_r, <- Hh. done.
  - destruct (IH _ _ _ Hl k line Hk) as (issuer&w'&P'&[= <-]&He'). exists i1, w', P'. split; [done|].
    replace (n + S k) with (n + 1 + k) by lia. destruct k as [|k]; [|done]. cbn in *. by rewrite <- Hh.
Qed.
End head.

(** ** The theorems *)

(** C9: the log only grows, by whole entries, and damage shows.  Whatever fails
    and wherever the process dies, an append leaves the log as it was, or extends
    it by an entry with which it verifies under the issuer and with the returned
    hash as its head, or leaves a part of a line that every later verification
    and every later append refuses.  It returns only after the whole entry, and
    changes no other file. *)
Theorem audit_log_only_grows {Mem} `{Env} `{Ed25519Laws} (p : path) (issuer_did : str) (key : bytes)
    (t : datetime) (f : AuditFields) (w : world Mem) :
  fields_printable f →
  let '(o, w') := append p issuer_did key t f w in
  appended issuer_did (log_data p w) o (log_data p w') ∧ ∀ q, q ≠ p → w_fs w' !! q = w_fs w !! q.
Proof.
  intros Hf. pose proof (wp_append p issuer_did key t f w Hf) as Ha.
  assert (Keeps (λ q, q ≠ p) (λ _ _, True) (append (Mem := Mem) p issuer_did key t f)) as Hk
    by (apply keeps_append; by split).
  destruct (Hk w) as [F _ _]. unfold wp in Ha. by destruct (append _ _ _ _ _ w) as [o w'].
Qed.

(** C11: a log that verifies is one signed chain: every line holds a well-formed
    entry whose number is its place, which is signed by the one issuer of the
    log, and which repeats the hash of the entry before it. *)
Theorem verified_log_is_a_chain `{Ed25519} (raw : bytes) (s : AuditSummary) :
  _verify_bytes raw = Ok s →
  entries s = length (splitlines raw) ∧
  ∀ (k : nat) line, splitlines raw !! k = Some line → ∃ issuer_did w P, issuer s = Some issuer_did ∧
    entry_of line (k + 1) (previous_hash (splitlines raw) GENESIS_HASH k) issuer_did
      (sha256_hex (entry_text line)) w P.
Proof.
  intros (_&He&Hl)%verify_bytes_lines. split; [done|]. intros k line Hk. rewrite (Z.add_comm k 1).
  by eapply verify_lines_sound.
Qed.

(** C10: the head commits to the log: two logs that verify with the same head hold
    the same entries, unless two of these very entries collide under SHA-256 or
    one of them hashes to the 64 zeros. *)
Theorem audit_head_commits_to_log `{Ed25519} (raw1 raw2 : bytes) (s1 s2 : AuditSummary) :
  _verify_bytes raw1 = Ok s1 → _verify_bytes raw2 = Ok s2 → head_sha256 s1 = head_sha256 s2 →
  (entry_texts raw1 = entry_texts raw2 ∧ entries s1 = entries s2) ∨
  hash_broken (entry_texts raw1) (entry_texts raw2).
Proof.
  intros (_&E1&H1)%verify_bytes_lines (_&E2&H2)%verify_bytes_lines Eh. rewrite Eh in H1.
  destruct (heads_agree _ _ _ _ _ H1 H2) as [Et|?]; [left|by right]. split; [done|].
  apply (f_equal length) in Et. rewrite !length_map in Et. by rewrite E1, E2, Et.
Qed.

(** Two entries of one agent. *)
Definition audit_did : str :=
  Eval vm_compute in match did_from_private_key (toy_seed 1) with Ok did => did | Err _ => [] end.
Definition audit_time : datetime := DateTime 2026 1 2 3 4 5.
Definition ignored_entry : AuditFields :=
  MkAuditFields 5 None false (u "ignore") (u "unsigned_sender") (u "ignore") None None.
Definition answered_entry : AuditFields :=
  MkAuditFields 6 (Some (u "0123456789abcdef")) true (u "reply") (u "authorized_command") (u "sent") None (Some 7).

Definition audit_line (raw : bytes) (f : AuditFields) : bytes :=
  match build_entry raw audit_did (toy_seed 1) audit_time f with Ok (line, _) => line | Err _ => [] end.
Definition audit_sample : bytes :=
  Eval vm_compute in let first := audit_line [] ignored_entry in first ++ audit_line first answered_entry.
Definition audit_summary : AuditSummary :=
  match _verify_bytes audit_sample with Ok s => s | Err _ => MkAuditSummary 0 None [] end.

Lemma audit_sample_verifies : _verify_bytes audit_sample = Ok audit_summary ∧ entries audit_summary = 2.
Proof. by vm_compute. Qed.

Lemma fields_printable_small n f :
  a_input_sequence f = n → 0 ≤ n < 10 → (∀ z, a_response_sequence f = Some z → 0 ≤ z < 10) → fields_printable f.
Proof.
  assert (∀ z, 0 ≤ z < 10 → json_ok (JInt z)) as Hz.
  { intros z Hz. apply (small_int_ok z 9); [lia|]. by apply Z.ltb_lt; vm_compute. }
  intros <- Hn Hr. split; [by apply Hz|]. unfold opt_int. destruct (a_response_sequence f); [by apply Hz, Hr|exact I].
Qed.

Lemma audit_log_only_grows_witness :
  let E := toy_env (λ n, if (n =? 8)%nat then CrashFault else NoFault) (λ _, HttpFailed) in
  let w := toy_world tt [(Path (u "/log"), private_file audit_sample)] in
  let '(o, w') := append (Path (u "/log")) audit_did (toy_seed 1) audit_time ignored_entry w in
  appended audit_did audit_sample o (log_data (Path (u "/log")) w').
Proof.
  intros E w. pose proof (audit_log_only_grows (Path (u "/log")) audit_did (toy_seed 1) audit_time ignored_entry w
    (fields_printable_small 5 ignored_entry eq_refl ltac:(lia) ltac:(done))) as Ha.
  destruct (append _ _ _ _ _ w) as [o w']. apply Ha.
Defined.

Lemma verified_log_is_a_chain_witness :
  ∃ line issuer_did w P, splitlines audit_sample !! 1%nat = Some line ∧
    entry_of line 2 (previous_hash (splitlines audit_sample) GENESIS_HASH 1) issuer_did
      (sha256_hex (entry_text line)) w P.
Proof.
  destruct (splitlines audit_sample !! 1%nat) as [line|] eqn:El; [|by vm_compute in El].
  destruct (verified_log_is_a_chain _ _ (proj1 audit_sample_verifies)) as [_ Hc].
  destruct (Hc 1%nat line El) as (issuer_did&w&P&_&He). by exists line, issuer_did, w, P.
Defined.

Lemma audit_head_commits_to_log_witness :
  (entry_texts audit_sample = entry_texts audit_sample ∧ entries audit_summary = entries audit_summary) ∨
  hash_broken (entry_texts audit_sample) (entry_texts audit_sample).
Proof.
  apply (audit_head_commits_to_log _ _ _ _ (proj1 audit_sample_verifies) (proj1 audit_sample_verifies)). reflexivity.
Defined.
