(* ===== verification/WorkReceipt.v ===== *)
(** [work_receipt.py]: running one command in a clean checkout and signing what
    came of it, or countersigning what somebody else signed.

    [git], the command that is run and the resolution of paths are the
    environment's: the class [Workshop].  [create_work_receipt] is the one
    without an output directory; [WorkOutput] has the other. *)

From S2P Require Import Prelude Errors Text Regex Sha256 Json Crypto Url Clock Effects WorkVerifier.

(** ** The workshop *)

(** What running [git] gives: its standard output, or how it failed. *)
Inductive git_result : Type :=
  | GitOutput (stdout : str)
  | GitMissing              (* FileNotFoundError *)
  | GitTimeout              (* TimeoutExpired *)
  | GitFailed               (* CalledProcessError *)
  | GitOSError
  | GitUndecodable.         (* UnicodeDecodeError of the captured output *)

(** What running the command gives. *)
Inductive command_result : Type :=
  | NotStarted                                         (* OSError of Popen *)
  | Finished (return_code : Z) (stdout stderr : bytes)
  | TimedOut (stdout stderr : bytes).                  (* killed at the deadline *)

Class Workshop := {
  git_run : nat → str → list str → git_result;         (* git -C root arguments *)
  command_run : nat → str → list str → Z → command_result;  (* cwd, argv, timeout in ms *)
  resolve : str → str                                  (* Path(s).expanduser().resolve() *)
}.

(** A child process; this process may die before it is started. *)
Definition child {Mem R} `{Env} (oracle : nat → R) : M Mem R :=
  n ← next_tick;
  match env_fault n with CrashFault => crash | _ => mret (oracle n) end.

Record _Checkout := MkCheckout {
  root : str;
  repository : str;
  commit : str
}.

Record _Execution := MkExecution {
  x_result : str;
  x_exit_code : option Z;
  x_stdout_sha256 : str;
  x_stdout_bytes : Z;
  x_stderr_sha256 : str;
  x_stderr_bytes : Z;
  x_started_at : str;
  x_completed_at : str;
  x_duration_ms : Z
}.

(** ** Pure parts *)

(** [round(x)]: to the nearest integer, ties to the even one. *)
Definition py_round (x : Q) : Z :=
  let n := Qnum x / Zpos (Qden x) in
  let twice := 2 * (Qnum x - n * Zpos (Qden x)) in
  if twice <? Zpos (Qden x) then n
  else if Zpos (Qden x) <? twice then n + 1
  else if Z.even n then n else n + 1.

Definition _timeout_milliseconds (timeout : pyfloat) : res Z :=
  let bad := Err (WorkReceiptError "timeout must be between 0.001 and 3600 seconds") in
  match timeout with
  | NonFinite _ => bad
  | Finite q _ =>
      if Qle_bool (1 # 1000) q && Qle_bool q 3600 then Ok (Z.max 1 (py_round (q * 1000))) else bad
  end.

Section remote.
Context `{UrlLib}.

Definition SSH_PREFIX : str := u "git@github.com:".
Definition SSH_URL_PREFIX : str := u "ssh://git@github.com/".

Definition _repository_from_remote (remote : str) : res str :=
  let value := strip remote in
  path ←
    (if startswith SSH_PREFIX value then Ok (removeprefix SSH_PREFIX value)
     else if startswith SSH_URL_PREFIX value then Ok (removeprefix SSH_URL_PREFIX value)
     else
       parsed ← urlsplit value;
       raise_if ((scheme parsed != u "https") || (netloc parsed != u "github.com") ||
                 (query parsed != []) || (fragment parsed != []))
         (WorkReceiptError "origin must be a canonical github.com repository URL");;
       Ok (removeprefix (u "/") (url_path parsed)));
  let path := removesuffix (u ".git") path in
  raise_if (negb (count_char 47 path =? 1) || endswith (u "/") path)
    (WorkReceiptError "origin must identify exactly one GitHub repository");;
  _validate_repository (JStr path).
End remote.

(** The digest and the size of a captured output. *)
Definition _hash_file (data : bytes) : res (str * Z) :=
  raise_if (MAX_OUTPUT_BYTES <? length data) (WorkReceiptError "exceeds the work receipt output limit");;
  Ok (sha256_hex data, Z.of_nat (length data)).

Definition _signed_wrapper `{Ed25519} (payload : list (str * json)) (private_key : bytes) : res json :=
  let canonical := _canonical_json payload in
  signature ← sign_detached private_key canonical;
  Ok (JDict [(u "payload", JDict payload); (u "payload_sha256", JStr (sha256_hex canonical));
             (u "signature", JStr signature)]).

Definition opt_exit_code (code : option Z) : json := match code with Some z => JInt z | None => JNull end.

Definition work_payload (issuer_did : str) (checkout : _Checkout) (command : list str) (timeout_ms : Z)
    (x : _Execution) : list (str * json) :=
  [(u "schema", JStr WORK_RECEIPT_SCHEMA); (u "issuer", JStr issuer_did);
   (u "repository", JStr (repository checkout)); (u "commit", JStr (commit checkout));
   (u "command", JList (map JStr command)); (u "timeout_ms", JInt timeout_ms);
   (u "result", JStr (x_result x)); (u "exit_code", opt_exit_code (x_exit_code x));
   (u "stdout_sha256", JStr (x_stdout_sha256 x)); (u "stdout_bytes", JInt (x_stdout_bytes x));
   (u "stderr_sha256", JStr (x_stderr_sha256 x)); (u "stderr_bytes", JInt (x_stderr_bytes x));
   (u "started_at", JStr (x_started_at x)); (u "completed_at", JStr (x_completed_at x));
   (u "duration_ms", JInt (x_duration_ms x))].

Definition envelope_of (receipt : json) (countersignatures : list json) : json :=
  JDict [(u "schema", JStr WORK_RECEIPT_ENVELOPE_SCHEMA); (u "receipt", receipt);
         (u "countersignatures", JList countersignatures)].

(** [observed != _execution_claim(payload)], for a payload that was validated:
    an exit code of zero may be recorded as [0], [False] or a zero float. *)
Definition same_exit_code (recorded : json) (code : option Z) : bool :=
  match code with
  | Some z => (recorded == JInt z) || ((z =? 0) && py_zero recorded)
  | None => recorded == JNull
  end.

Definition same_execution (payload : list (str * json)) (x : _Execution) : bool :=
  (jget (u "result") payload == JStr (x_result x)) &&
  same_exit_code (jget (u "exit_code") payload) (x_exit_code x) &&
  (jget (u "stdout_sha256") payload == JStr (x_stdout_sha256 x)) &&
  (jget (u "stdout_bytes") payload == JInt (x_stdout_bytes x)) &&
  (jget (u "stderr_sha256") payload == JStr (x_stderr_sha256 x)) &&
  (jget (u "stderr_bytes") payload == JInt (x_stderr_bytes x)).

Definition counter_payload (verifier_did : str) (receipt_hash : json) (payload : list (str * json))
    (observed_at : datetime) : list (str * json) :=
  [(u "schema", JStr WORK_COUNTERSIGNATURE_SCHEMA); (u "verifier", JStr verifier_did);
   (u "receipt_payload_sha256", receipt_hash); (u "execution_sha256", JStr (_execution_sha256 payload));
   (u "observed_at", JStr (format_timestamp observed_at))].

(** The members of an object, and a member of a member. *)
Definition members (j : json) : list (str * json) := match j with JDict kvs => kvs | _ => [] end.
Definition elements (j : json) : list json := match j with JList l => l | _ => [] end.
Definition counter_verifier (item : json) : json := jget (u "verifier") (members (jget (u "payload") (members item))).

(** ** Effects *)

Section work.
Context {Mem : Type} `{Env} `{Workshop} `{UrlLib} `{Ed25519}.

Definition _git (root : str) (arguments : list str) : M Mem str :=
  r ← child (λ n, git_run n root arguments);
  match r with
  | GitOutput stdout => mret (strip stdout)
  | GitMissing => raise (WorkReceiptError "git is required to inspect the checkout")
  | GitTimeout => raise (WorkReceiptError "git checkout inspection timed out")
  | GitFailed => raise (WorkReceiptError "cannot inspect Git checkout")
  | GitOSError => raise OSError
  | GitUndecodable => raise UnicodeDecodeError
  end.

Definition _inspect_checkout (selected : str) (expected_commit : option str) : M Mem _Checkout :=
  root_text ← _git (resolve selected) [u "rev-parse"; u "--show-toplevel"];
  let root := resolve root_text in
  status ← _git root [u "status"; u "--porcelain"; u "--untracked-files=all"];
  check (status != []) (WorkReceiptError "work receipts require a clean checkout");;
  commit ← _git root [u "rev-parse"; u "--verify"; u "HEAD^{commit}"];
  check (negb (fullmatch GIT_SHA_PATTERN commit)) (WorkReceiptError "git returned an invalid commit SHA");;
  check (match expected_commit with Some c => commit != c | None => false end)
    (WorkReceiptError "checkout is at a different commit than the receipt");;
  remote ← _git root [u "remote"; u "get-url"; u "origin"];
  repository ← lift (_repository_from_remote remote);
  mret (MkCheckout root repository commit).

(** Floats are exact rationals here: the subtraction is not rounded. *)
Definition _execute (checkout : _Checkout) (command : json) (timeout_ms : Z) : M Mem _Execution :=
  argv ← lift (_validate_command command);
  started_at ← now_utc;
  started ← time_monotonic;
  r ← child (λ n, command_run n (root checkout) argv timeout_ms);
  '(code, stdout, stderr) ←
    match r with
    | NotStarted => raise (WorkReceiptError "cannot start work command")
    | Finished return_code stdout stderr => mret (Some return_code, stdout, stderr)
    | TimedOut stdout stderr => mret (None, stdout, stderr)
    end;
  ended ← time_monotonic;
  let duration_ms := Z.max 0 (py_round ((ended - started) * 1000)) in
  completed_at ← now_utc;
  '(stdout_sha256, stdout_bytes) ← lift (_hash_file stdout);
  '(stderr_sha256, stderr_bytes) ← lift (_hash_file stderr);
  let result := match code with
                | None => u "timed_out"
                | Some z => if z =? 0 then u "passed" else u "failed"
                end in
  mret (MkExecution result code stdout_sha256 stdout_bytes stderr_sha256 stderr_bytes
          (format_timestamp started_at) (format_timestamp completed_at) duration_ms).

(** [_inspect_checkout(checkout.root, expected_commit=checkout.commit)] after
    the command, and the check on the origin. *)
Definition still_there (checkout : _Checkout) : M Mem unit :=
  after ← _inspect_checkout (root checkout) (Some (commit checkout));
  check (repository after != repository checkout)
    (WorkReceiptError "checkout origin changed while the command was running").

(** The key must be the one the DID names. *)
Definition require_own_did (did : str) (private_key : bytes) (invalid_did mismatch : exn) : res unit :=
  require_did (JStr did) invalid_did;;
  own ← did_from_private_key private_key;
  raise_if (own != did) mismatch.

Definition create_work_receipt (selected : str) (command : list str) (issuer_did : str)
    (private_key : bytes) (timeout : pyfloat) : M Mem json :=
  lift (require_own_did issuer_did private_key (WorkReceiptError "worker DID is invalid")
    (WorkReceiptError "work receipt signing key does not match its issuer DID"));;
  checkout ← _inspect_checkout selected None;
  timeout_ms ← lift (_timeout_milliseconds timeout);
  execution ← _execute checkout (JList (map JStr command)) timeout_ms;
  still_there checkout;;
  argv ← lift (_validate_command (JList (map JStr command)));
  let payload := work_payload issuer_did checkout argv timeout_ms execution in
  lift (_validate_work_payload payload);;
  receipt ← lift (_signed_wrapper payload private_key);
  let envelope := envelope_of receipt [] in
  lift (verify_work_receipt envelope);;
  mret envelope.

(** [countersign_work_receipt] of a decoded envelope. *)
Definition countersign_work_receipt (decoded : json) (selected : str) (verifier_did : str)
    (private_key : bytes) (timeout : option pyfloat) : M Mem json :=
  '(summary, envelope) ← lift (_verify_envelope decoded);
  let payload := ws_payload summary in
  lift (require_own_did verifier_did private_key (WorkReceiptError "verifier DID is invalid")
    (WorkReceiptError "work receipt signing key does not match its verifier DID"));;
  check (JStr verifier_did == jget (u "issuer") payload)
    (WorkReceiptError "countersignature requires a different identity");;
  let countersignatures := elements (jget (u "countersignatures") envelope) in
  check (JStr verifier_did in? map counter_verifier countersignatures)
    (WorkReceiptError "this verifier already countersigned the receipt");;
  let expected_timeout := jget (u "timeout_ms") payload in
  (match timeout with
   | None => mret tt
   | Some t =>
       ms ← lift (_timeout_milliseconds t);
       check (JInt ms != expected_timeout)
         (WorkReceiptError "countersign timeout must match the original receipt")
   end);;
  checkout ← _inspect_checkout selected
    (match jget (u "commit") payload with JStr c => Some c | _ => None end);
  check (JStr (repository checkout) != jget (u "repository") payload)
    (WorkReceiptError "checkout repository does not match the receipt");;
  execution ← _execute checkout (jget (u "command") payload)
    (match expected_timeout with JInt z => z | _ => 0 end);
  still_there checkout;;
  check (negb (same_execution payload execution))
    (WorkReceiptError "independent execution does not match the work receipt");;
  observed_at ← now_utc;
  let receipt := jget (u "receipt") envelope in
  let claim := counter_payload verifier_did (jget (u "payload_sha256") (members receipt)) payload observed_at in
  counter ← lift (_signed_wrapper claim private_key);
  let updated := envelope_of receipt (countersignatures ++ [counter]) in
  lift (verify_work_receipt updated);;
  mret updated.
End work.
