(* ===== verification/WorkFacts.v ===== *)
(** What a work receipt that verifies means, and what signing one needs. *)

From S2P Require Import Prelude Errors Text Regex Sha256 Json Crypto Url Clock Effects Toy Sealed WorkVerifier WorkReceipt.

(** ** What the checks on fields establish *)

(** What a validated payload says: a command, where and for how long it may run,
    and a result its exit code agrees with. *)
Record work_claim (payload : list (str * json)) : Prop := {
  wc_keys : has_exact_keys payload WORK_PAYLOAD_KEYS = true;
  wc_issuer : ∃ did, jget (u "issuer") payload = JStr did ∧ fullmatch DID_PATTERN did = true;
  wc_repository : ∃ s, jget (u "repository") payload = JStr s ∧ _validate_repository (JStr s) = Ok s;
  wc_commit : ∃ s, jget (u "commit") payload = JStr s ∧ fullmatch GIT_SHA_PATTERN s = true;
  wc_command : ∃ argv, jget (u "command") payload = JList (map JStr argv) ∧
    _validate_command (JList (map JStr argv)) = Ok argv ∧ argv ≠ [] ∧ length argv ≤ MAX_COMMAND_ARGUMENTS;
  wc_timeout : ∃ ms, jget (u "timeout_ms") payload = JInt ms ∧ 1 ≤ ms ≤ 3600000;
  wc_result :
    (jget (u "result") payload = JStr (u "passed") ∧ py_zero (jget (u "exit_code") payload) = true) ∨
    (jget (u "result") payload = JStr (u "failed") ∧
       ∃ z, jget (u "exit_code") payload = JInt z ∧ z ≠ 0 ∧ -255 ≤ z ≤ 255) ∨
    (jget (u "result") payload = JStr (u "timed_out") ∧ jget (u "exit_code") payload = JNull);
  wc_outputs : ∃ h1 n1 h2 n2,
    jget (u "stdout_sha256") payload = JStr h1 ∧ fullmatch SHA256_PATTERN h1 = true ∧
    jget (u "stdout_bytes") payload = JInt n1 ∧ 0 ≤ n1 ≤ MAX_OUTPUT_BYTES ∧
    jget (u "stderr_sha256") payload = JStr h2 ∧ fullmatch SHA256_PATTERN h2 = true ∧
    jget (u "stderr_bytes") payload = JInt n2 ∧ 0 ≤ n2 ≤ MAX_OUTPUT_BYTES;
  wc_times : ∃ t1 t2, _parse_timestamp (jget (u "started_at") payload) "start timestamp" = Ok t1 ∧
    _parse_timestamp (jget (u "completed_at") payload) "completion timestamp" = Ok t2 ∧
    datetime_ltb t2 t1 = false
}.

Lemma require_did_Ok v e d : require_did v e = Ok d → v = JStr d ∧ fullmatch DID_PATTERN d = true.
Proof.
  unfold require_did. intros [Hv|(?&_&_&?)]%res_catch_Ok; [|done].
  destruct v; try done. by apply validate_did_Ok in Hv as [-> ?].
Qed.

Lemma require_sha256_Ok v l s : _require_sha256 v l = Ok s → v = JStr s ∧ fullmatch SHA256_PATTERN s = true.
Proof. destruct v; try done. unfold _require_sha256. intros H. res_inv H. by apply negb_false_iff in H0. Qed.

Lemma require_nonnegative_int_Ok v l m z :
  _require_nonnegative_int v l m = Ok z → v = JInt z ∧ 0 ≤ z ≤ m.
Proof.
  destruct v; try done. unfold _require_nonnegative_int. intros H. res_inv H. breflect. split; [done|lia].
Qed.

Lemma validate_repository_Ok v s : _validate_repository v = Ok s → v = JStr s.
Proof.
  destruct v; try done. unfold _validate_repository. destruct (partition _ _). intros H. by res_inv H.
Qed.

Lemma command_arguments_Ok i t l argv t' : command_arguments i t l = Ok (argv, t') → l = map JStr argv.
Proof.
  revert i t argv t'. induction l as [|v l IH]; intros i t argv t' H; cbn in H; [by injection H as <- _|].
  apply res_bind_Ok in H as ([s t1]&H1&H). apply res_bind_Ok in H as ([r t2]&H2&[= <- _]).
  apply IH in H2 as ->. destruct v; try done. unfold command_argument in H1. by res_inv H1.
Qed.

Lemma validate_command_Ok v argv :
  _validate_command v = Ok argv → v = JList (map JStr argv) ∧ argv ≠ [] ∧ length argv ≤ MAX_COMMAND_ARGUMENTS.
Proof.
  destruct v as [| | | | |l|]; try done. unfold _validate_command. intros H.
  apply res_bind_Ok in H as (?&[Hn Hl]%raise_if_Ok%orb_false_iff&H).
  apply res_bind_Ok in H as ([a t]&->%command_arguments_Ok&H). res_inv H.
  breflect. rewrite length_map in Hl.
  split; [done|]. split; [by intros ->|done].
Qed.

Lemma validate_result_Ok r c x : _validate_result r c = Ok x →
  (r = JStr (u "passed") ∧ py_zero c = true) ∨
  (r = JStr (u "failed") ∧ ∃ z, c = JInt z ∧ z ≠ 0 ∧ -255 ≤ z ≤ 255) ∨
  (r = JStr (u "timed_out") ∧ c = JNull).
Proof.
  unfold _validate_result. intros H.
  case_bool_decide; [left|case_bool_decide; [right; left|case_bool_decide; [right; right|done]]].
  - res_inv H. by apply negb_false_iff in H.
  - destruct c as [| |z| | | |]; try done. res_inv H. breflect. eauto with lia.
  - res_inv H. apply negb_false_iff, bool_decide_eq_true in H. done.
Qed.

Lemma validate_work_payload_Ok payload x : _validate_work_payload payload = Ok x → work_claim payload.
Proof.
  unfold _validate_work_payload. intros H. res_inv H.
  apply orb_false_iff in H0 as [Hk Hs]. apply negb_false_iff in Hk.
  apply require_did_Ok in H1. pose proof H2 as Hr. apply validate_repository_Ok in H2 as E2. rewrite E2 in Hr.
  pose proof H4 as Hv. apply validate_command_Ok in H4 as (E4&?&?). rewrite E4 in Hv.
  apply require_nonnegative_int_Ok in H5 as [E5 H5], H10 as [E10 ?], H11 as [E11 ?].
  apply validate_result_Ok in H7. apply require_sha256_Ok in H8 as [E8 ?], H9 as [E9 ?]. breflect.
  split; eauto 10 with lia; [|by eexists _, _, _, _].
  destruct (jget (u "commit") payload); try done. apply negb_false_iff in H3. eauto.
Qed.

(** ** Signatures *)

Section signatures.
Context `{Ed25519Laws}.
Set Default Proof Using "All".

(** The key that [did] names has signed [payload], the whole of it. *)
Definition authentic (did : str) (payload : list (str * json)) : Prop :=
  ∃ pk raw, public_key_from_did did = Ok pk ∧ ed_verify pk raw (_canonical_json payload) = true.

(** [verifier] has signed that it saw the same execution as [payload] claims,
    not before that one was over. *)
Record countersigned (payload : list (str * json)) (verifier : str) (claim : list (str * json)) : Prop := {
  cs_authentic : authentic verifier claim;
  cs_verifier : jget (u "verifier") claim = JStr verifier;
  cs_receipt : jget (u "receipt_payload_sha256") claim = JStr (sha256_hex (_canonical_json payload));
  cs_execution : jget (u "execution_sha256") claim = JStr (_execution_sha256 payload);
  cs_time : ∃ t1 t2, _parse_timestamp (jget (u "completed_at") payload) "completion timestamp" = Ok t1 ∧
    _parse_timestamp (jget (u "observed_at") claim) "countersignature timestamp" = Ok t2 ∧
    datetime_ltb t2 t1 = false
}.

Lemma verify_signed_wrapper_Ok value key payload :
  _verify_signed_wrapper value key = Ok payload →
  ∃ did kvs, jget key payload = JStr did ∧ authentic did payload ∧ value = JDict kvs ∧
    jget (u "payload_sha256") kvs = JStr (sha256_hex (_canonical_json payload)) ∧
    jget (u "payload") kvs = JDict payload.
Proof.
  unfold _verify_signed_wrapper. intros H1. res_inv H1. apply of_option_Ok in H2, H4.
  destruct value as [| | | | | |kvs]; try done. injection H2 as <-.
  apply require_did_Ok in H6 as [Ed _]. rewrite Ed in H7. apply negb_false_iff in H7. cbn in H7.
  destruct (jget (u "signature") kvs) as [| | | |sig| |]; try done.
  apply verify_detached_inv in H7 as (pk&raw&Hpk&_&_&Hv). breflect.
  exists x1, kvs. split; [done|]. split; [by exists pk, raw|]. split; [done|]. split; [done|].
  destruct (jget (u "payload") kvs); try done. by injection H4 as ->.
Qed.

Lemma verify_countersignature_Ok payload issuer h completed vs item vs' :
  jget (u "issuer") payload = JStr issuer →
  _parse_timestamp (jget (u "completed_at") payload) "completion timestamp" = Ok completed →
  _verify_countersignature payload (JStr h) completed vs item = Ok vs' →
  h = sha256_hex (_canonical_json payload) →
  ∃ verifier claim, vs' = JStr verifier :: vs ∧ JStr verifier ∉ vs ∧ verifier ≠ issuer ∧
    countersigned payload verifier claim ∧ counter_verifier item = JStr verifier.
Proof.
  unfold _verify_countersignature. intros Hi Hc H1 ->. res_inv H1.
  apply verify_signed_wrapper_Ok in H2 as (v&kvs&Ev&Hv&->&_&Epl). rewrite Ev, Hi in *. breflect.
  exists v, x. split; [done|]. split; [done|]. split; [congruence|]. split; [split; eauto|].
  unfold counter_verifier. cbn [members]. by rewrite Epl.
Qed.

Lemma verify_countersignatures_Ok payload issuer h completed items vs vs' :
  jget (u "issuer") payload = JStr issuer →
  _parse_timestamp (jget (u "completed_at") payload) "completion timestamp" = Ok completed →
  h = sha256_hex (_canonical_json payload) →
  foldM_res (_verify_countersignature payload (JStr h) completed) (map JStr vs) items = Ok vs' →
  ∃ cs, length cs = length items ∧ vs' = map JStr (rev cs.*1 ++ vs) ∧
    (NoDup (issuer :: vs) → NoDup (issuer :: rev cs.*1 ++ vs)) ∧
    Forall (λ c, countersigned payload c.1 c.2) cs ∧ map JStr cs.*1 = map counter_verifier items.
Proof.
  intros Hi Hc Hh. revert vs. induction items as [|item items IH]; intros vs H1; cbn in H1.
  { injection H1 as <-. by exists []. }
  apply res_bind_Ok in H1 as (vs1&H1&H2).
  apply (verify_countersignature_Ok _ issuer) in H1 as (v&claim&->&Hn&Hne&Hcs&Ev); [|done..].
  apply (IH (v :: vs)) in H2 as (cs&Hl&->&Hnd&Hall&Hcv). exists ((v, claim) :: cs).
  cbn [fmap list_fmap fst rev length]. rewrite <- (assoc_L app). split; [by rewrite Hl|]. split; [done|].
  split; [|split; [by constructor|]; cbn [map]; by rewrite Hcv, Ev]. intros Hd. apply Hnd. apply NoDup_cons in Hd as [Hd1 Hd2].
  apply NoDup_cons. split; [|apply NoDup_cons; split; [|done]].
  - by apply not_elem_of_cons.
  - intros Hin. apply Hn. apply list_elem_of_In, in_map, list_elem_of_In. done.
Qed.

(** What the verification of an envelope checks: the signed receipt [kvs] with
    its payload, and the countersignatures [cs], by [vs] in reverse order. *)
Record verified (kvs payload : list (str * json)) (cs : list json) (t : datetime) (vs : list json) : Prop := {
  vf_receipt : _verify_signed_wrapper (JDict kvs) (u "issuer") = Ok payload;
  vf_payload : _validate_work_payload payload = Ok tt;
  vf_count : length cs ≤ MAX_COUNTERSIGNATURES;
  vf_completed : _parse_timestamp (jget (u "completed_at") payload) "completion timestamp" = Ok t;
  vf_loop : foldM_res (_verify_countersignature payload (jget (u "payload_sha256") kvs) t) [] cs = Ok vs
}.

Definition summary_of (payload : list (str * json)) (cs : list json) : WorkReceiptSummary :=
  MkWorkReceiptSummary payload (length cs) (length cs).

Lemma verify_envelope_inv decoded summary envelope :
  _verify_envelope decoded = Ok (summary, envelope) →
  ∃ kvs payload cs t vs, decoded = JDict envelope ∧ jget (u "receipt") envelope = JDict kvs ∧
    jget (u "countersignatures") envelope = JList cs ∧ summary = summary_of payload cs ∧
    verified kvs payload cs t vs.
Proof.
  unfold _verify_envelope. intros H1. res_inv H1. apply of_option_Ok in H2, H6.
  destruct decoded; try done. injection H2 as ->. pose proof H4 as H4'.
  apply verify_signed_wrapper_Ok in H4' as (_&kvs&_&_&Es&_). rewrite Es in *.
  destruct (jget (u "countersignatures") envelope) as [| | | | |cs|]; try done. injection H6 as ->.
  destruct x1. breflect. eexists kvs, _, _, _, _. repeat (split; [done|]). by split.
Qed.

Lemma verify_envelope_of kvs payload cs t vs :
  verified kvs payload cs t vs →
  ∃ envelope, envelope_of (JDict kvs) cs = JDict envelope ∧
    _verify_envelope (envelope_of (JDict kvs) cs) = Ok (summary_of payload cs, envelope).
Proof.
  intros [Hr Hp Hc Ht Hl]. eexists. split; [reflexivity|]. unfold _verify_envelope, envelope_of.
  cbn [of_option mbind res_bind]. set (e := [(u "schema", _); _; _]).
  assert (has_exact_keys e ENVELOPE_KEYS = true) as -> by by vm_compute.
  assert (jget (u "schema") e = JStr WORK_RECEIPT_ENVELOPE_SCHEMA) as -> by done.
  assert (jget (u "receipt") e = JDict kvs) as -> by done.
  assert (jget (u "countersignatures") e = JList cs) as -> by done. clearbody e.
  rewrite (bool_decide_eq_true_2 _ eq_refl). cbn [negb orb raise_if mbind res_bind].
  rewrite Hr. cbn [mbind res_bind]. rewrite Hp. cbn [of_option mbind res_bind].
  apply Z.ltb_ge in Hc. rewrite Hc. cbn [raise_if mbind res_bind]. rewrite Ht. cbn [mbind res_bind].
  by rewrite Hl.
Qed.

(** What the program signs verifies under its own DID. *)
Lemma signed_wrapper_verifies payload key did signer :
  did_from_private_key key = Ok did → jget signer payload = JStr did →
  ∃ kvs, _signed_wrapper payload key = Ok (JDict kvs) ∧ _verify_signed_wrapper (JDict kvs) signer = Ok payload ∧
    jget (u "payload_sha256") kvs = JStr (sha256_hex (_canonical_json payload)) ∧
    jget (u "payload") kvs = JDict payload.
Proof.
  intros Hdid Hs. destruct (did_from_private_key_total key) as (d&E&Hp&_). rewrite Hdid in E. injection E as <-.
  destruct (sign_detached_total key (_canonical_json payload)) as (sig&Hsig&_).
  unfold _signed_wrapper. rewrite Hsig. eexists. split; [reflexivity|].
  split; [|by split]. unfold _verify_signed_wrapper. cbn [of_option mbind res_bind].
  set (w := [(u "payload", _); _; _]).
  assert (has_exact_keys w SIGNED_WRAPPER_KEYS = true) as -> by by vm_compute.
  assert (jget (u "payload") w = JDict payload) as -> by done.
  assert (jget (u "payload_sha256") w = JStr (sha256_hex (_canonical_json payload))) as -> by done.
  assert (jget (u "signature") w = JStr sig) as -> by done. clearbody w.
  cbn [negb raise_if of_option mbind res_bind]. rewrite (bool_decide_eq_true_2 _ eq_refl), Hs.
  cbn [negb raise_if mbind res_bind]. unfold require_did. cbn [validate_did_value].
  rewrite (proj2 (validate_did_Ok did did)) by done. cbn [res_catch mbind res_bind signed_by].
  by rewrite (verify_own_signature key).
Qed.
End signatures.

(** C21: a work receipt that verifies overstates nothing: its issuer signed the
    whole claim, the claim is well-formed and its result agrees with its exit
    code, and the countersignatures that are counted come from as many different
    identities, none of them the issuer, each of which signed that it saw the
    same execution of the same receipt and not before it was over. *)
Theorem verified_work_receipt_sound `{Ed25519Laws} (decoded : json) (summary : WorkReceiptSummary)
    (envelope : list (str * json)) :
  _verify_envelope decoded = Ok (summary, envelope) →
  work_claim (ws_payload summary) ∧
  ∃ issuer counters, jget (u "issuer") (ws_payload summary) = JStr issuer ∧
    authentic issuer (ws_payload summary) ∧
    ws_countersignatures summary = length counters ∧ length counters ≤ MAX_COUNTERSIGNATURES ∧
    NoDup (issuer :: counters.*1) ∧
    Forall (λ c, countersigned (ws_payload summary) c.1 c.2) counters.
Proof.
  intros (kvs&P&items&t&vs&_&_&_&->&[Hr Hp Hc Ht Hl])%verify_envelope_inv. cbn [ws_payload ws_countersignatures summary_of].
  apply verify_signed_wrapper_Ok in Hr as (did&?&Hi&Ha&[= <-]&Eh&_).
  apply validate_work_payload_Ok in Hp. split; [done|]. rewrite Eh in Hl.
  apply (verify_countersignatures_Ok _ did _ _ _ []) in Hl as (cs&Hlen&_&Hnd&Hall&_); [|done..].
  rewrite app_nil_r in Hnd. exists did, cs. rewrite <- Hlen in *. do 4 (split; [done|]). split; [|done].
  rewrite (Permutation_rev cs.*1). apply Hnd, NoDup_singleton.
Qed.

(** ** The canonical text *)

(** A digest is over one content: two objects with the same canonical text
    are the same object up to the order of their keys, and conversely. *)
Theorem canonical_text_is_content (a b : list (str * json)) :
  json_ok (JDict a) → json_ok (JDict b) →
  _canonical_json a = _canonical_json b ↔ norm true (JDict a) = norm true (JDict b).
Proof.
  intros Ha Hb. unfold _canonical_json, canonical_json. split; intros E.
  - apply Ok_inj. rewrite <- !(loads_dumps default_loader keeps_distinct_default) by done. by rewrite E.
  - rewrite <- (dumps_norm (JDict a)), <- (dumps_norm (JDict b)) by done. by rewrite E.
Qed.

Lemma canonical_text_is_content_witness :
  norm true (JDict [(u "b", JInt 1); (u "a", JNull)]) = norm true (JDict [(u "a", JNull); (u "b", JInt 1)]).
Proof. apply canonical_text_is_content; [by json_ok_fields..|]. by vm_compute. Defined.

(** ** Receipts that are made verify *)

Lemma validate_result_code code :
  match code with Some z => -255 ≤ z ≤ 255 | None => True end →
  _validate_result (JStr (match code with
                          | None => u "timed_out"
                          | Some z => if z =? 0 then u "passed" else u "failed"
                          end)) (opt_exit_code code) = Ok tt.
Proof.
  destruct code as [z|]; [|done]. intros Hz. destruct (Z.eqb_spec z 0) as [->|Hne]; [done|].
  change ((raise_if (z =? 0) (WorkReceiptError "failed work receipt must have a nonzero exit code");;
          raise_if (negb ((-255 <=? z) && (z <=? 255)))
            (WorkReceiptError "failed work receipt exit code is outside bounds")) = Ok tt).
  destruct (Z.eqb_spec z 0); [done|]. destruct (Z.leb_spec (-255) z), (Z.leb_spec z 255); try lia. done.
Qed.

(** An execution within the limits of a receipt. *)
Record execution_ok (x : _Execution) : Prop := {
  xo_result : x_result x = match x_exit_code x with
                           | None => u "timed_out"
                           | Some z => if z =? 0 then u "passed" else u "failed"
                           end;
  xo_code : match x_exit_code x with Some z => -255 ≤ z ≤ 255 | None => True end;
  xo_stdout : fullmatch SHA256_PATTERN (x_stdout_sha256 x) = true ∧ 0 ≤ x_stdout_bytes x ≤ MAX_OUTPUT_BYTES;
  xo_stderr : fullmatch SHA256_PATTERN (x_stderr_sha256 x) = true ∧ 0 ≤ x_stderr_bytes x ≤ MAX_OUTPUT_BYTES;
  xo_times : ∃ t1 t2, valid_datetime t1 = true ∧ valid_datetime t2 = true ∧
    x_started_at x = format_timestamp t1 ∧ x_completed_at x = format_timestamp t2 ∧ datetime_ltb t2 t1 = false;
  xo_duration : 0 ≤ x_duration_ms x ≤ 3700000
}.

Lemma require_sha256_str s l : fullmatch SHA256_PATTERN s = true → _require_sha256 (JStr s) l = Ok s.
Proof. intros Hs. unfold _require_sha256. by rewrite Hs. Qed.

Lemma require_nonnegative_int_ok z l m : 0 ≤ z ≤ m → _require_nonnegative_int (JInt z) l m = Ok z.
Proof. intros Hz. cbn. destruct (Z.ltb_spec z 0), (Z.ltb_spec m z); try lia. done. Qed.

Lemma parse_formatted t l : valid_datetime t = true → _parse_timestamp (JStr (format_timestamp t)) l = Ok t.
Proof.
  intros Ht. unfold _parse_timestamp. rewrite format_timestamp_pattern, fromisoformat_format by done.
  cbn [negb raise_if mbind res_bind]. f_equal.
  by apply timestamp_fields_format, valid_in_calendar.
Qed.

Lemma work_payload_valid did checkout argv ms x :
  fullmatch DID_PATTERN did = true → _validate_repository (JStr (repository checkout)) = Ok (repository checkout) →
  fullmatch GIT_SHA_PATTERN (commit checkout) = true → _validate_command (JList (map JStr argv)) = Ok argv →
  1 ≤ ms ≤ 3600000 → execution_ok x → _validate_work_payload (work_payload did checkout argv ms x) = Ok tt.
Proof.
  intros Hd Hr Hc Hv Hms []. set (P := work_payload _ _ _ _ _).
  assert (NoDup P.*1) as Hnd by by decide_by_computing.
  pose proof (jget_members P Hnd) as Hm. name_members Hm.
  unfold _validate_work_payload. rewrite E, E0, E1, E2, E3, E4, E5, E6, E7, E8, E9, E10, E11, E12, E13.
  assert (has_exact_keys P WORK_PAYLOAD_KEYS = true) as -> by by vm_compute.
  clearbody P. destruct xo_stdout0 as [So Sb], xo_stderr0 as [Se Sc], xo_times0 as (t1&t2&V1&V2&T1&T2&Hle).
  rewrite (bool_decide_eq_true_2 _ eq_refl). cbn [negb orb raise_if mbind res_bind].
  unfold require_did. cbn [validate_did_value]. rewrite (proj2 (validate_did_Ok did did)) by done.
  cbn [res_catch mbind res_bind]. rewrite Hr, Hc. cbn [negb raise_if mbind res_bind]. rewrite Hv.
  cbn [mbind res_bind]. rewrite (require_nonnegative_int_ok ms) by lia. cbn [mbind res_bind].
  destruct (Z.eqb_spec ms 0); [lia|]. cbn [raise_if mbind res_bind].
  rewrite xo_result0, (validate_result_code _ xo_code0). cbn [mbind res_bind].
  rewrite !require_sha256_str by done. cbn [mbind res_bind].
  rewrite !require_nonnegative_int_ok by done. cbn [mbind res_bind].
  rewrite T1, T2, !parse_formatted by done. cbn [mbind res_bind]. by rewrite Hle.
Qed.
