(* ===== verification/WorkRuns.v ===== *)
(** Making and countersigning work receipts: what a receipt that was made says
    about the run, and that an honest run gets one. *)

From S2P Require Import Prelude Errors Text Regex Sha256 Json Crypto Url Clock Effects Toy Sealed.
From S2P Require Import WorkVerifier WorkReceipt WorkFacts.

(** ** What was observed *)

Section observed.
Context `{Workshop} `{UrlLib}.

(** [git] answered so between two moments, the first one included; at some time;
    and whenever it is asked.  A moment is a number of actions performed. *)
Definition git_said_during (from to : nat) (root : str) (arguments : list str) (text : str) : Prop :=
  ∃ n out, (from ≤ n < to)%nat ∧ git_run n root arguments = GitOutput out ∧ strip out = text.
Definition git_said (root : str) (arguments : list str) (text : str) : Prop :=
  ∃ n out, git_run n root arguments = GitOutput out ∧ strip out = text.
Definition git_says (root : str) (arguments : list str) (text : str) : Prop :=
  ∀ n, ∃ out, git_run n root arguments = GitOutput out ∧ strip out = text.

(** The checkout at [selected] is clean, and is [c]. *)
Record clean_checkout (answer : str → list str → str → Prop) (selected : str) (c : _Checkout) : Prop := {
  cc_root : ∃ t, answer (resolve selected) [u "rev-parse"; u "--show-toplevel"] t ∧ resolve t = root c;
  cc_status : answer (root c) [u "status"; u "--porcelain"; u "--untracked-files=all"] [];
  cc_commit : answer (root c) [u "rev-parse"; u "--verify"; u "HEAD^{commit}"] (commit c);
  cc_sha : fullmatch GIT_SHA_PATTERN (commit c) = true;
  cc_remote : ∃ t, answer (root c) [u "remote"; u "get-url"; u "origin"] t ∧
    _repository_from_remote t = Ok (repository c)
}.

Definition result_of (code : option Z) : str :=
  match code with None => u "timed_out" | Some z => if z =? 0 then u "passed" else u "failed" end.

(** How a command that was started ended. *)
Definition ended (code : option Z) (out err : bytes) : command_result :=
  match code with Some z => Finished z out err | None => TimedOut out err end.

(** [x] is the record of a run that ended so, with the times of the clock. *)
Record records `{Env} (x : _Execution) (code : option Z) (out err : bytes) : Prop := {
  rec_code : x_exit_code x = code;
  rec_result : x_result x = result_of code;
  rec_stdout : x_stdout_sha256 x = sha256_hex out ∧ x_stdout_bytes x = length out ∧ length out ≤ MAX_OUTPUT_BYTES;
  rec_stderr : x_stderr_sha256 x = sha256_hex err ∧ x_stderr_bytes x = length err ∧ length err ≤ MAX_OUTPUT_BYTES;
  rec_times : ∃ n m, x_started_at x = format_timestamp (env_now n) ∧ x_completed_at x = format_timestamp (env_now m)
}.

(** [argv] was run in the checkout [c] at a moment, or at some time, and [x] is
    the record. *)
Definition ran_at `{Env} (n : nat) (c : _Checkout) (argv : list str) (ms : Z) (x : _Execution) : Prop :=
  ∃ code out err, command_run n (root c) argv ms = ended code out err ∧ records x code out err.
Definition ran `{Env} (c : _Checkout) (argv : list str) (ms : Z) (x : _Execution) : Prop := ∃ n, ran_at n c argv ms x.

Lemma clean_checkout_mono (A B : str → list str → str → Prop) selected c :
  (∀ r args t, A r args t → B r args t) → clean_checkout A selected c → clean_checkout B selected c.
Proof. intros HAB [(t&?&?) ? ? ? (t'&?&?)]. split; eauto. Qed.

Lemma during_some a b selected c : clean_checkout (git_said_during a b) selected c → clean_checkout git_said selected c.
Proof. apply clean_checkout_mono. intros r args t (n&out&_&?&?). by exists n, out. Qed.

Lemma during_wider a b a' b' selected c :
  (a' ≤ a)%nat → (b ≤ b')%nat → clean_checkout (git_said_during a b) selected c →
  clean_checkout (git_said_during a' b') selected c.
Proof. intros Ha Hb. apply clean_checkout_mono. intros r args t (n&out&?&?&?). exists n, out. split; [lia|done]. Qed.
End observed.

(** ** Following a run *)

Lemma map_JStr_inj l l' : map JStr l = map JStr l' → l = l'.
Proof. revert l'. induction l as [|s l IH]; intros [|s' l']; try done. intros [= -> ?%IH]. by subst. Qed.

Lemma require_own_did_Ok `{Ed25519} did key e1 e2 x :
  require_own_did did key e1 e2 = Ok x → did_from_private_key key = Ok did.
Proof. unfold require_own_did. intros E. res_inv E. breflect. by subst. Qed.

Lemma hash_file_Ok data d n : _hash_file data = Ok (d, n) →
  d = sha256_hex data ∧ n = length data ∧ length data ≤ MAX_OUTPUT_BYTES.
Proof. unfold _hash_file. intros E. res_inv E. breflect. done. Qed.

Section runs.
Context {Mem : Type} `{Env} `{Workshop} `{UrlLib} `{Ed25519Laws}.
Implicit Types w : world Mem.
Set Default Proof Using "All".

Lemma child_Ret {R} (oracle : nat → R) r w w' : child oracle w = (Ret r, w') → r = oracle (w_tick w) ∧ w' = ticked w.
Proof.
  unfold child. intros (n&w1&[= <- <-]&Hc)%bind_Ret.
  destruct (env_fault (w_tick w)); try by apply ret_Ret in Hc. done.
Qed.

Lemma git_Ret root args t w w' : _git root args w = (Ret t, w') →
  w_tick w' = S (w_tick w) ∧ ∀ a b, (a ≤ w_tick w)%nat → (w_tick w < b)%nat → git_said_during a b root args t.
Proof.
  unfold _git. intros (r&w1&[-> ->]%child_Ret&Hg)%bind_Ret.
  destruct (git_run (w_tick w) root args) eqn:E; try by apply raise_Ret in Hg.
  apply ret_Ret in Hg as [-> ->]. split; [done|]. intros a b Ha Hb. by exists (w_tick w), stdout.
Qed.

Lemma checkout_clean_Ret selected expected c w w' :
  _inspect_checkout selected expected w = (Ret c, w') →
  clean_checkout (git_said_during (w_tick w) (w_tick w')) selected c ∧ (∀ sha, expected = Some sha → commit c = sha) ∧
  (w_tick w < w_tick w')%nat.
Proof.
  unfold _inspect_checkout. intros (t&w1&[T1 Ht]%git_Ret&Hg)%bind_Ret.
  apply bind_Ret in Hg as (st&w2&[T2 Hst]%git_Ret&Hg).
  apply bind_Ret in Hg as (?&w3&[Hclean ->]%check_Ret&Hg).
  apply bind_Ret in Hg as (sha&w4&[T4 Hsha]%git_Ret&Hg).
  apply bind_Ret in Hg as (?&w5&[Hpat ->]%check_Ret&Hg).
  apply bind_Ret in Hg as (?&w6&[Hexp ->]%check_Ret&Hg).
  apply bind_Ret in Hg as (remote&w7&[T7 Hrem]%git_Ret&Hg).
  apply bind_Ret in Hg as (repo&w8&[Hrepo ->]%lift_Ret&[-> ->]%ret_Ret).
  apply negb_false_iff in Hpat. breflect. subst st. split; [|split; [|lia]].
  - split; cbn; [exists t; split; [apply Ht; lia|done]|apply Hst; lia|apply Hsha; lia|done|].
    exists remote. split; [apply Hrem; lia|done].
  - intros sha' ->. cbn. by breflect.
Qed.

Lemma still_there_Ret c x w w' : still_there c w = (Ret x, w') →
  (∃ after, clean_checkout (git_said_during (w_tick w) (w_tick w')) (root c) after ∧ commit after = commit c ∧
     repository after = repository c) ∧ (w_tick w < w_tick w')%nat.
Proof.
  unfold still_there. intros (after&w1&(Hc&He&Ht)%checkout_clean_Ret&[Hr ->]%check_Ret)%bind_Ret.
  breflect. split; [exists after; auto|done].
Qed.

Lemma execute_Ret c command ms x w w' :
  _execute c command ms w = (Ret x, w') →
  ∃ argv n, command = JList (map JStr argv) ∧ _validate_command command = Ok argv ∧
    ran_at n c argv ms x ∧ (w_tick w ≤ n < w_tick w')%nat.
Proof.
  unfold _execute. intros (argv&w1&[Hv ->]%lift_Ret&Hx)%bind_Ret.
  apply bind_Ret in Hx as (t1&w2&[= Et1 <-]&Hx). apply bind_Ret in Hx as (m1&w3&[= _ <-]&Hx).
  apply bind_Ret in Hx as (r&w4&[-> ->]%child_Ret&Hx). cbn [w_tick ticked] in Hx. set (n := S (S (w_tick w))) in Hx.
  apply bind_Ret in Hx as ([[code out] err]&w5&Hr&Hx). set (w4 := ticked _) in Hr.
  assert (command_run n (root c) argv ms = ended code out err ∧ w5 = w4) as [Hrun ->].
  { destruct (command_run n (root c) argv ms); [by apply raise_Ret in Hr|by apply ret_Ret in Hr as [[= -> -> ->] ->]..]. }
  apply bind_Ret in Hx as (m2&w6&[= _ <-]&Hx). apply bind_Ret in Hx as (t2&w7&[= Et2 <-]&Hx).
  apply bind_Ret in Hx as ([d1 n1]&w8&[Ho%hash_file_Ok ->]%lift_Ret&Hx).
  apply bind_Ret in Hx as ([d2 n2]&w9&[He%hash_file_Ok ->]%lift_Ret&[-> ->]%ret_Ret).
  exists argv, n. split; [by apply validate_command_Ok in Hv as [-> _]|]. split; [done|]. split; [|cbn; unfold n; lia].
  exists code, out, err. split; [done|]. split; try done; subst; by do 2 eexists.
Qed.
End runs.

Lemma create_receipt_Ret {Mem} `{Env} `{Workshop} `{UrlLib} `{Ed25519Laws} (selected : str)
    (command : list str) (issuer : str) (key : bytes) (timeout : pyfloat) (e : json) (w w' : world Mem) :
  create_work_receipt selected command issuer key timeout w = (Ret e, w') →
  ∃ c after ms x envelope n, (w_tick w ≤ n < w_tick w')%nat ∧
    clean_checkout (git_said_during (w_tick w) n) selected c ∧ ran_at n c command ms x ∧
    clean_checkout (git_said_during (S n) (w_tick w')) (root c) after ∧
    commit after = commit c ∧ repository after = repository c ∧ _timeout_milliseconds timeout = Ok ms ∧
    _verify_envelope e = Ok (summary_of (work_payload issuer c command ms x) [], envelope).
Proof.
  unfold create_work_receipt. intros (y&w1&[Hown%require_own_did_Ok ->]%lift_Ret&Hc)%bind_Ret.
  apply bind_Ret in Hc as (c&w2&(Hclean&_&T2)%checkout_clean_Ret&Hc).
  apply bind_Ret in Hc as (ms&w3&[Hms ->]%lift_Ret&Hc).
  apply bind_Ret in Hc as (x&w4&Hx&Hc). apply execute_Ret in Hx as (argv&n&Ha&Hv&Hran&T4).
  apply bind_Ret in Hc as (?&w5&[(after&Haft&Hsame&Hrepo) T5]%still_there_Ret&Hc).
  apply bind_Ret in Hc as (argv'&w6&[Hv' ->]%lift_Ret&Hc). rewrite Hv in Hv'. injection Hv' as <-.
  injection Ha as ->%map_JStr_inj.
  apply bind_Ret in Hc as ([]&w7&[Hp ->]%lift_Ret&Hc). apply bind_Ret in Hc as (r&w8&[Hr ->]%lift_Ret&Hc).
  apply bind_Ret in Hc as (s&w9&[_ ->]%lift_Ret&[-> ->]%ret_Ret).
  destruct (signed_wrapper_verifies (work_payload issuer c argv ms x) key issuer (u "issuer"))
    as (kvs&Hr'&Hw&Eh&_); [done..|]. rewrite Hr in Hr'. injection Hr' as ->.
  destruct (wc_times _ (validate_work_payload_Ok _ _ Hp)) as (t1&t2&_&Ht&_).
  destruct (verify_envelope_of kvs (work_payload issuer c argv ms x) [] t2 []) as (envelope&_&He); [by split|].
  exists c, after, ms, x, envelope, n. split; [lia|]. split; [by eapply during_wider; [..|exact Hclean]; lia|].
  split; [done|]. split; [by eapply during_wider; [..|exact Haft]; lia|done].
Qed.

(** C22: a receipt claims what happened: if one is made then there is a moment at
    which the command was run in the checkout; before that moment [git] said that
    the checkout was clean and at the recorded commit of the recorded repository,
    and after that moment it said so again; the result is "passed" exactly if the
    command returned zero, the digests and sizes are those of its outputs, and the
    receipt verifies with that payload. *)
Theorem receipt_reports_the_run {Mem} `{Env} `{Workshop} `{UrlLib} `{Ed25519Laws} (selected : str)
    (command : list str) (issuer : str) (key : bytes) (timeout : pyfloat) (e : json) (w w' : world Mem) :
  create_work_receipt selected command issuer key timeout w = (Ret e, w') →
  ∃ c after ms x envelope n, (w_tick w ≤ n < w_tick w')%nat ∧
    clean_checkout (git_said_during (w_tick w) n) selected c ∧ ran_at n c command ms x ∧
    clean_checkout (git_said_during (S n) (w_tick w')) (root c) after ∧
    commit after = commit c ∧ repository after = repository c ∧ _timeout_milliseconds timeout = Ok ms ∧
    _verify_envelope e = Ok (summary_of (work_payload issuer c command ms x) [], envelope).
Proof. apply create_receipt_Ret. Qed.

(** ** Honest runs *)

(** The environment lets the process live, its clock does not go back, and the
    command is over within what a receipt can state. *)
Record obliging `{Env} : Prop := {
  ob_alive n : env_fault n ≠ CrashFault;
  ob_dates n m : (n ≤ m)%nat → datetime_ltb (env_now m) (env_now n) = false;
  ob_duration n : py_round ((env_monotonic (S (S n)) - env_monotonic n) * 1000) ≤ 3700000
}.

Lemma py_round_le x n : (x <= inject_Z n)%Q → py_round x ≤ n.
Proof.
  destruct x as [a d]. unfold Qle, inject_Z. cbn. intros Hx. unfold py_round. cbn.
  pose proof (Z.mul_div_le a (Zpos d) ltac:(lia)). pose proof (Z.mod_pos_bound a (Zpos d) ltac:(lia)).
  pose proof (Z.div_mod a (Zpos d) ltac:(lia)).
  assert (a / Zpos d ≤ n) by (apply Z.div_le_upper_bound; lia).
  destruct (decide (a / Zpos d = n)) as [E|E]; [|repeat case_match; lia].
  rewrite E in *. destruct (Z.ltb_spec (2 * (a - n * Zpos d)) (Zpos d)); lia.
Qed.

Lemma timeout_milliseconds_range t ms : _timeout_milliseconds t = Ok ms → 1 ≤ ms ≤ 3600000.
Proof.
  unfold _timeout_milliseconds. destruct t as [q s|]; [|done].
  destruct (Qle_bool (1 # 1000) q && Qle_bool q 3600) eqn:E; [|done]. intros [= <-].
  apply andb_true_iff in E as [_ E%Qle_bool_iff]. split; [lia|].
  apply Z.max_lub; [lia|]. apply py_round_le. change (inject_Z 3600000) with (3600 * 1000)%Q.
  apply Qmult_le_compat_r; [done|]. by unfold Qle.
Qed.

Lemma require_own_did_ok `{Ed25519Laws} did key e1 e2 : did_from_private_key key = Ok did → require_own_did did key e1 e2 = Ok tt.
Proof.
  intros Hdid. destruct (did_from_private_key_total key) as (d&E&Hp&_). rewrite Hdid in E. injection E as <-.
  unfold require_own_did, require_did. cbn [validate_did_value]. rewrite (proj2 (validate_did_Ok did did)), Hdid by done.
  cbn [res_catch mbind res_bind]. by rewrite bool_decide_eq_true_2.
Qed.
Lemma validate_remote `{UrlLib} t s : _repository_from_remote t = Ok s → _validate_repository (JStr s) = Ok s.
Proof.
  unfold _repository_from_remote. intros (path&_&E)%res_bind_Ok.
  apply res_bind_Ok in E as (?&_&E). pose proof E as E'. apply validate_repository_Ok in E'.
  injection E' as E'. by rewrite E' in E.
Qed.

Section honest.
Context {Mem : Type} `{HEnv : Env} {HLaws : EnvLaws} `{Workshop} `{UrlLib} `{Ed25519Laws}.
Context (Hob : obliging).
Implicit Types w : world Mem.
Set Default Proof Using "All".

Lemma child_runs {R} (oracle : nat → R) w : child oracle w = (Ret (oracle (w_tick w)), ticked w).
Proof.
  unfold child, mbind, M_bind. cbn. pose proof (ob_alive Hob (w_tick w)).
  by destruct (env_fault (w_tick w)).
Qed.

Lemma git_runs root args t w : git_says root args t → _git root args w = (Ret t, ticked w).
Proof.
  intros Hg. unfold _git. erewrite bind_step by apply child_runs. destruct (Hg (w_tick w)) as (out&->&<-). done.
Qed.

Lemma inspect_runs selected expected c w :
  clean_checkout git_says selected c → (∀ sha, expected = Some sha → sha = commit c) →
  ∃ w', _inspect_checkout selected expected w = (Ret c, w').
Proof.
  intros [(t&Ht&Er) Hst Hsha Hpat (r&Hrem&Hrepo)] He. unfold _inspect_checkout.
  erewrite bind_step by (by apply git_runs). cbv zeta. rewrite Er.
  erewrite bind_step by (by apply git_runs). cbn [negb].
  erewrite bind_step by reflexivity. erewrite bind_step by (by apply git_runs).
  erewrite bind_step by (rewrite Hpat; reflexivity).
  erewrite bind_step; [|].
  2:{ destruct expected as [sha|]; [|reflexivity]. rewrite (He sha eq_refl).
      rewrite bool_decide_eq_true_2 by done. reflexivity. }
  erewrite bind_step by (by apply git_runs).
  erewrite bind_step by (rewrite Hrepo; reflexivity). destruct c. eexists. reflexivity.
Qed.

Lemma execute_runs c argv ms code out err w :
  _validate_command (JList (map JStr argv)) = Ok argv →
  (∀ n, command_run n (root c) argv ms = ended code out err) →
  match code with Some z => -255 ≤ z ≤ 255 | None => True end →
  length out ≤ MAX_OUTPUT_BYTES → length err ≤ MAX_OUTPUT_BYTES →
  ∃ x w', _execute c (JList (map JStr argv)) ms w = (Ret x, w') ∧ records x code out err ∧ execution_ok x.
Proof.
  intros Hv Hrun Hcode Ho He. unfold _execute. rewrite Hv.
  erewrite bind_step by reflexivity. erewrite bind_step by reflexivity. erewrite bind_step by reflexivity.
  erewrite bind_step by apply child_runs. rewrite Hrun.
  erewrite bind_step; [|destruct code; reflexivity]. cbn beta iota.
  erewrite bind_step by reflexivity. cbv zeta. erewrite bind_step by reflexivity.
  unfold _hash_file. apply Z.ltb_ge in Ho, He. rewrite Ho, He.
  erewrite bind_step by reflexivity.
  do 2 eexists. split; [reflexivity|]. breflect. split; [split; try done; by do 2 eexists|].
  split; cbn; [done|done|split; [apply sha256_hex_pattern|lia]..| |].
  - eexists _, _. split; [apply env_now_valid|]. split; [apply env_now_valid|]. split; [done|]. split; [done|].
    apply Hob. lia.
  - split; [lia|]. pose proof (ob_duration Hob (S (w_tick w))). lia.
Qed.

Lemma still_there_runs c w : clean_checkout git_says (root c) c → ∃ w', still_there c w = (Ret tt, w').
Proof.
  intros Hc. unfold still_there.
  destruct (inspect_runs (root c) (Some (commit c)) c w) as (w'&E); [done|by intros ? [= ->]|].
  erewrite bind_step by apply E. rewrite bool_decide_eq_true_2 by done. eexists. reflexivity.
Qed.
End honest.

Lemma create_runs {Mem} `{Env} {HLaws : EnvLaws} `{Workshop} `{UrlLib} `{Ed25519Laws}
    (selected : str) (c : _Checkout) (command : list str) (issuer : str) (key : bytes) (timeout : pyfloat)
    (ms : Z) (code : option Z) (out err : bytes) (w : world Mem) :
  obliging → did_from_private_key key = Ok issuer →
  clean_checkout git_says selected c → clean_checkout git_says (root c) c →
  _timeout_milliseconds timeout = Ok ms → _validate_command (JList (map JStr command)) = Ok command →
  (∀ n, command_run n (root c) command ms = ended code out err) →
  match code with Some z => -255 ≤ z ≤ 255 | None => True end →
  length out ≤ MAX_OUTPUT_BYTES → length err ≤ MAX_OUTPUT_BYTES →
  ∃ e x envelope w', create_work_receipt selected command issuer key timeout w = (Ret e, w') ∧
    records x code out err ∧
    _verify_envelope e = Ok (summary_of (work_payload issuer c command ms x) [], envelope).
Proof.
  intros Hob Hdid Hc1 Hc2 Hms Hv Hrun Hcode Hout Herr. unfold create_work_receipt.
  rewrite require_own_did_ok by done. erewrite bind_step by reflexivity.
  destruct (inspect_runs Hob selected None c w) as (w1&E1); [done..|]. erewrite bind_step by apply E1.
  rewrite Hms. erewrite bind_step by reflexivity.
  destruct (execute_runs Hob c command ms code out err w1) as (x&w2&E2&Hrec&Hok); [done..|].
  erewrite bind_step by apply E2. destruct (still_there_runs Hob c w2) as (w3&E3); [done|].
  erewrite bind_step by apply E3. rewrite Hv. erewrite bind_step by reflexivity. cbv zeta.
  destruct Hc1 as [_ _ _ Hsha (t&_&Hrepo)]. apply validate_remote in Hrepo.
  destruct (did_from_private_key_total key) as (d&E&Hp&_). rewrite Hdid in E. injection E as <-.
  assert (_validate_work_payload (work_payload issuer c command ms x) = Ok tt) as Hval
    by (apply work_payload_valid; eauto using timeout_milliseconds_range).
  rewrite Hval. erewrite bind_step by reflexivity.
  destruct (signed_wrapper_verifies (work_payload issuer c command ms x) key issuer (u "issuer"))
    as (kvs&Hr&Hw&Eh&_); [done..|]. rewrite Hr. erewrite bind_step by reflexivity.
  destruct (wc_times _ (validate_work_payload_Ok _ _ Hval)) as (t1&t2&_&Ht&_).
  destruct (verify_envelope_of kvs (work_payload issuer c command ms x) [] t2 []) as (envelope&_&He); [by split|].
  unfold verify_work_receipt. rewrite He. erewrite bind_step by reflexivity.
  eexists _, x, envelope, _. split; [reflexivity|]. done.
Qed.

(** C24: every honest run gets a receipt: in a clean checkout, with the key of the
    issuer, a command and a timeout within the limits, and outputs of at most 16
    MiB, a receipt is made, whatever the command returns (a signal, an exit code,
    or nothing because it timed out), it records that run, and it verifies. *)
Theorem honest_run_gets_a_receipt {Mem} `{Env} {HLaws : EnvLaws} `{Workshop} `{UrlLib} `{Ed25519Laws}
    (selected : str) (c : _Checkout) (command : list str) (issuer : str) (key : bytes) (timeout : pyfloat)
    (ms : Z) (code : option Z) (out err : bytes) (w : world Mem) :
  obliging → did_from_private_key key = Ok issuer →
  clean_checkout git_says selected c → clean_checkout git_says (root c) c →
  _timeout_milliseconds timeout = Ok ms → _validate_command (JList (map JStr command)) = Ok command →
  (∀ n, command_run n (root c) command ms = ended code out err) →
  match code with Some z => -255 ≤ z ≤ 255 | None => True end →
  length out ≤ MAX_OUTPUT_BYTES → length err ≤ MAX_OUTPUT_BYTES →
  ∃ e x envelope w', create_work_receipt selected command issuer key timeout w = (Ret e, w') ∧
    records x code out err ∧
    _verify_envelope e = Ok (summary_of (work_payload issuer c command ms x) [], envelope).
Proof. apply create_runs. Qed.

(** The timeout that was given is compared, nothing else happens. *)
Lemma timeout_agrees_Ret {Mem} timeout (expected : json) (x : unit) (w w' : world Mem) :
  match timeout with
  | None => mret tt
  | Some t =>
      ms ← lift (_timeout_milliseconds t);
      check (JInt ms != expected) (WorkReceiptError "countersign timeout must match the original receipt")
  end w = (Ret x, w') → w' = w.
Proof.
  destruct timeout; [|by intros [= _ <-]]. by intros (ms&w1&[_ ->]%lift_Ret&[_ ->]%check_Ret)%bind_Ret.
Qed.

Lemma countersign_receipt_Ret {Mem} `{Env} `{Workshop} `{UrlLib} `{Ed25519Laws}
    (decoded : json) (selected verifier : str) (key : bytes) (timeout : option pyfloat) (e : json)
    (w w' : world Mem) :
  countersign_work_receipt decoded selected verifier key timeout w = (Ret e, w') →
  ∃ payload cs counter c ms argv x n after, JStr verifier ≠ jget (u "issuer") payload ∧
    verify_work_receipt decoded = Ok (summary_of payload cs) ∧
    verify_work_receipt e = Ok (summary_of payload (cs ++ [counter])) ∧
    counter_verifier counter = JStr verifier ∧ clean_checkout (git_said_during (w_tick w) n) selected c ∧
    jget (u "commit") payload = JStr (commit c) ∧ jget (u "repository") payload = JStr (repository c) ∧
    jget (u "timeout_ms") payload = JInt ms ∧ jget (u "command") payload = JList (map JStr argv) ∧
    ran_at n c argv ms x ∧ same_execution payload x = true ∧ (w_tick w ≤ n < w_tick w')%nat ∧
    clean_checkout (git_said_during (S n) (w_tick w')) (root c) after ∧ commit after = commit c ∧
    repository after = repository c.
Proof.
  unfold countersign_work_receipt. intros ([s envelope]&w1&[Hv ->]%lift_Ret&Hc)%bind_Ret. cbv zeta in Hc.
  pose proof Hv as (kvs&P&cs&t&vs&_&Er&Ec&->&Hver)%verify_envelope_inv. cbn [ws_payload summary_of] in Hc.
  rewrite Er, Ec in Hc. pose proof (validate_work_payload_Ok _ _ (vf_payload _ _ _ _ _ Hver)) as Hwc.
  destruct (wc_commit _ Hwc) as (sha&Esha&_), (wc_timeout _ Hwc) as (ms&Ems&_). rewrite Esha, Ems in Hc.
  apply bind_Ret in Hc as (y1&w2&[Hown%require_own_did_Ok ->]%lift_Ret&Hc).
  apply bind_Ret in Hc as (y2&w3&[Hissuer ->]%check_Ret&Hc). apply bind_Ret in Hc as (y3&w4&[_ ->]%check_Ret&Hc).
  apply bind_Ret in Hc as (y4&w5&Htimeout&Hc). apply timeout_agrees_Ret in Htimeout as ->.
  apply bind_Ret in Hc as (c&w6&(Hclean&Hcommit&T6)%checkout_clean_Ret&Hc).
  apply bind_Ret in Hc as (y5&w7&[Hrepo ->]%check_Ret&Hc).
  apply bind_Ret in Hc as (x&w8&(argv&n&Ea&_&Hran&T8)%execute_Ret&Hc).
  apply bind_Ret in Hc as (y6&w9&[(after&Haft&Hac&Har) T9]%still_there_Ret&Hc).
  apply bind_Ret in Hc as (y7&w10&[Hsame ->]%check_Ret&Hc).
  apply bind_Ret in Hc as (now&w11&[= _ <-]&Hc). apply bind_Ret in Hc as (counter&w12&[Hcnt ->]%lift_Ret&Hc).
  apply bind_Ret in Hc as (s'&w13&[Hs ->]%lift_Ret&[-> ->]%ret_Ret). apply negb_false_iff in Hsame. breflect. cbn [w_tick].
  destruct (signed_wrapper_verifies
    (counter_payload verifier (jget (u "payload_sha256") kvs) P now) key verifier (u "verifier"))
    as (ckvs&Hr'&_&_&Ep); [done..|]. cbn [elements members] in Hcnt, Hs. rewrite Hcnt in Hr'. injection Hr' as ->.
  exists P, cs, (JDict ckvs), c, ms, argv, x, n, after. split; [done|].
  split; [unfold verify_work_receipt; by rewrite Hv|]. split.
  { unfold verify_work_receipt in Hs. apply res_bind_Ok in Hs as ([s2 env2]&Hs&_).
    apply verify_envelope_inv in Hs as (kvs2&P2&cs2&t2&vs2&Ee&Er2&Ec2&Es2&Hver2).
    injection Ee as <-. change (JDict kvs = JDict kvs2) in Er2.
    change (JList (cs ++ [JDict ckvs]) = JList cs2) in Ec2. injection Er2 as <-. injection Ec2 as <-.
    pose proof (vf_receipt _ _ _ _ _ Hver2) as Hr2. rewrite (vf_receipt _ _ _ _ _ Hver) in Hr2.
    injection Hr2 as <-. destruct (verify_envelope_of _ _ _ _ _ Hver2) as (env3&_&E3).
    cbn [elements]. unfold verify_work_receipt. by rewrite E3. }
  split; [unfold counter_verifier; cbn [members]; by rewrite Ep|].
  rewrite Esha, <- (Hcommit sha) by done. split; [by eapply during_wider; [..|exact Hclean]; lia|].
  do 6 (split; [done|]). split; [lia|]. split; [by eapply during_wider; [..|exact Haft]; lia|done].
Qed.

(** C23: nobody countersigns what he did not see: a countersigned envelope is made
    only after the recorded command was run in a clean checkout of the recorded
    repository at the recorded commit, with the recorded timeout, and gave the
    recorded result, exit code and outputs.  The new envelope verifies with the
    old receipt and one countersignature more, that of the given identity. *)
Theorem countersigned_only_after_the_same_run {Mem} `{Env} `{Workshop} `{UrlLib} `{Ed25519Laws}
    (decoded : json) (selected verifier : str) (key : bytes) (timeout : option pyfloat) (e : json)
    (w w' : world Mem) :
  countersign_work_receipt decoded selected verifier key timeout w = (Ret e, w') →
  ∃ payload cs counter c ms argv x, verify_work_receipt decoded = Ok (summary_of payload cs) ∧
    verify_work_receipt e = Ok (summary_of payload (cs ++ [counter])) ∧
    counter_verifier counter = JStr verifier ∧ clean_checkout git_said selected c ∧
    jget (u "commit") payload = JStr (commit c) ∧ jget (u "repository") payload = JStr (repository c) ∧
    jget (u "timeout_ms") payload = JInt ms ∧ jget (u "command") payload = JList (map JStr argv) ∧
    ran c argv ms x ∧ same_execution payload x = true.
Proof.
  intros E. apply countersign_receipt_Ret in E
    as (P&cs&counter&c&ms&argv&x&n&after&_&?&?&?&Hclean%during_some&?&?&?&?&Hran&?&_).
  exists P, cs, counter, c, ms, argv, x. repeat (split; [done|]). split; [by exists n|done].
Qed.

(** A countersignature the program makes passes the loop. *)
Lemma counter_passes `{Ed25519Laws} kvs payload t vs key verifier now :
  did_from_private_key key = Ok verifier → valid_datetime now = true →
  jget (u "payload_sha256") kvs = JStr (sha256_hex (_canonical_json payload)) →
  JStr verifier ≠ jget (u "issuer") payload → JStr verifier ∉ vs → datetime_ltb now t = false →
  ∃ ckvs, _signed_wrapper (counter_payload verifier (jget (u "payload_sha256") kvs) payload now) key
          = Ok (JDict ckvs) ∧
    _verify_countersignature payload (jget (u "payload_sha256") kvs) t vs (JDict ckvs) = Ok (JStr verifier :: vs).
Proof.
  intros Hdid Hnow -> Hi Hvs Ht. set (P := counter_payload _ _ _ _).
  destruct (did_from_private_key_total key) as (d&E&Hp&_). rewrite Hdid in E. injection E as <-.
  destruct (signed_wrapper_verifies P key verifier (u "verifier")) as (ckvs&Hr&Hv&_&_); [done..|].
  exists ckvs. split; [done|]. unfold _verify_countersignature. rewrite Hv. cbn [mbind res_bind].
  assert (NoDup P.*1) as Hnd by by decide_by_computing.
  pose proof (jget_members P Hnd) as Hm. name_members Hm.
  unfold _validate_countersignature_payload. rewrite E, E0, E1, E2, E3.
  assert (has_exact_keys P COUNTERSIGNATURE_PAYLOAD_KEYS = true) as -> by by vm_compute. clear Hr. clearbody P.
  rewrite (bool_decide_eq_true_2 _ eq_refl). cbn [negb orb raise_if mbind res_bind].
  unfold require_did. cbn [validate_did_value]. rewrite (proj2 (validate_did_Ok verifier verifier)) by done.
  cbn [res_catch mbind res_bind]. rewrite !require_sha256_str by apply sha256_hex_pattern.
  cbn [mbind res_bind]. rewrite !parse_formatted by done. cbn [mbind res_bind].
  rewrite (bool_decide_eq_false_2 _ Hi), (bool_decide_eq_false_2 _ Hvs). cbn [raise_if mbind res_bind].
  rewrite !(bool_decide_eq_true_2 _ eq_refl). cbn [negb raise_if mbind res_bind]. by rewrite Ht.
Qed.

(** The recorded execution is the one that ended so. *)
Definition claims_run (payload : list (str * json)) (code : option Z) (out err : bytes) : Prop :=
  jget (u "result") payload = JStr (result_of code) ∧ same_exit_code (jget (u "exit_code") payload) code = true ∧
  jget (u "stdout_sha256") payload = JStr (sha256_hex out) ∧ jget (u "stdout_bytes") payload = JInt (length out) ∧
  jget (u "stderr_sha256") payload = JStr (sha256_hex err) ∧ jget (u "stderr_bytes") payload = JInt (length err).

Lemma claims_same `{Env} payload code out err x :
  claims_run payload code out err → records x code out err → same_execution payload x = true.
Proof.
  intros (H1&H2&H3&H4&H5&H6) [Ec Er (Eo&En&_) (Ee&Em&_) _]. unfold same_execution.
  rewrite Ec, Er, Eo, En, Ee, Em. by rewrite H1, H2, H3, H4, H5, H6, !(bool_decide_eq_true_2 _ eq_refl).
Qed.

Lemma claims_limits payload code out err :
  work_claim payload → claims_run payload code out err →
  match code with Some z => -255 ≤ z ≤ 255 | None => True end ∧
  length out ≤ MAX_OUTPUT_BYTES ∧ length err ≤ MAX_OUTPUT_BYTES.
Proof.
  intros Hwc (Hr&Hx&_&Ho&_&He). destruct (wc_outputs _ Hwc) as (?&n1&?&n2&_&_&E1&Hn1&_&_&E2&Hn2).
  rewrite Ho in E1. rewrite He in E2. injection E1 as E1. injection E2 as E2. split; [|lia].
  destruct code as [z|]; [|done]. destruct (decide (z = 0)) as [->|Hz]; [lia|].
  unfold same_exit_code in Hx. rewrite (proj2 (Z.eqb_neq z 0)), orb_false_r in Hx by done. breflect.
  unfold result_of in Hr. rewrite (proj2 (Z.eqb_neq z 0)) in Hr by done.
  destruct (wc_result _ Hwc) as [[E _]|[[_ (z'&E&_&Hz')]|[E _]]]; rewrite ?Hr in E; try discriminate.
  rewrite Hx in E. injection E as ->. lia.
Qed.

Lemma countersign_runs {Mem} `{Env} {HLaws : EnvLaws} `{Workshop} `{UrlLib}
    `{Ed25519Laws} (decoded : json) (envelope payload : list (str * json)) (cs : list json) (selected : str)
    (c : _Checkout) (argv : list str) (ms : Z) (verifier : str) (key : bytes) (t : datetime)
    (code : option Z) (out err : bytes) (w : world Mem) :
  obliging → _verify_envelope decoded = Ok (summary_of payload cs, envelope) →
  length cs < MAX_COUNTERSIGNATURES → did_from_private_key key = Ok verifier →
  jget (u "issuer") payload ≠ JStr verifier → JStr verifier ∉ map counter_verifier cs →
  jget (u "countersignatures") envelope = JList cs →
  clean_checkout git_says selected c → clean_checkout git_says (root c) c →
  jget (u "commit") payload = JStr (commit c) → jget (u "repository") payload = JStr (repository c) →
  jget (u "command") payload = JList (map JStr argv) → jget (u "timeout_ms") payload = JInt ms →
  (∀ n, command_run n (root c) argv ms = ended code out err) → claims_run payload code out err →
  _parse_timestamp (jget (u "completed_at") payload) "completion timestamp" = Ok t →
  (∀ n, datetime_ltb (env_now n) t = false) →
  ∃ e counter envelope' w',
    countersign_work_receipt decoded selected verifier key None w = (Ret e, w') ∧
    _verify_envelope e = Ok (summary_of payload (cs ++ [counter]), envelope').
Proof.
  intros Hob Hv Hlen Hdid Hi Hvs Ecs Hc1 Hc2 Esha Erepo Ecmd Ems Hrun Hclaim Ht Hclock.
  unfold countersign_work_receipt. rewrite Hv. erewrite bind_step by reflexivity. cbv zeta.
  pose proof Hv as (kvs&P&cs'&t'&vs&_&Er&Ec&Es&Hver)%verify_envelope_inv. rewrite Ecs in Ec. injection Ec as <-.
  injection Es as <-. cbn [ws_payload summary_of]. rewrite Er, Ecs, Esha, Erepo, Ems, Ecmd. cbn [elements members].
  pose proof (vf_completed _ _ _ _ _ Hver) as Ht'. rewrite Ht in Ht'. injection Ht' as <-.
  pose proof (validate_work_payload_Ok _ _ (vf_payload _ _ _ _ _ Hver)) as Hwc.
  destruct (wc_command _ Hwc) as (argv'&Ecmd'&Hval&_). rewrite Ecmd in Ecmd'. injection Ecmd' as <-%map_JStr_inj.
  destruct (claims_limits _ _ _ _ Hwc Hclaim) as (Hcode&Hout&Herr).
  rewrite require_own_did_ok by done. erewrite bind_step by reflexivity.
  rewrite (bool_decide_eq_false_2 (JStr verifier = jget (u "issuer") payload)) by congruence. erewrite bind_step by reflexivity.
  rewrite (bool_decide_eq_false_2 (JStr verifier ∈ _)) by done. erewrite bind_step by reflexivity. erewrite bind_step by reflexivity.
  destruct (inspect_runs Hob selected (Some (commit c)) c w) as (w1&E1); [done|by intros ? [= ->]|].
  erewrite bind_step by apply E1. rewrite (bool_decide_eq_true_2 (JStr (repository c) = _)) by done. erewrite bind_step by reflexivity.
  destruct (execute_runs Hob c argv ms code out err w1) as (x&w2&E2&Hrec&_); [done..|].
  erewrite bind_step by apply E2. destruct (still_there_runs Hob c w2) as (w3&E3); [done|].
  erewrite bind_step by apply E3. rewrite (claims_same _ _ _ _ _ Hclaim Hrec). erewrite bind_step by reflexivity.
  erewrite bind_step by reflexivity.
  pose proof (vf_receipt _ _ _ _ _ Hver) as Hw. apply verify_signed_wrapper_Ok in Hw as (did&?&Hdid'&_&[= <-]&Eh&_).
  pose proof (vf_loop _ _ _ _ _ Hver) as Hl. pose proof Hl as Hl'. rewrite Eh in Hl'.
  apply (verify_countersignatures_Ok _ did _ _ _ []) in Hl' as (cs'&_&->&_&_&Hcv); [|done..].
  rewrite app_nil_r in Hl.
  destruct (counter_passes kvs payload t (map JStr (rev cs'.*1)) key verifier (env_now (w_tick w3)))
    as (ckvs&Hr&Hpass); [done|apply env_now_valid|done|congruence| |done|].
  { rewrite map_rev, Hcv. by rewrite <- (Permutation_rev _). }
  rewrite Hr. erewrite bind_step by reflexivity.
  destruct (verify_envelope_of kvs payload (cs ++ [JDict ckvs]) t (JStr verifier :: map JStr (rev cs'.*1)))
    as (envelope'&_&He).
  { destruct Hver. split; [done..|rewrite length_app; cbn; lia|done|].
    rewrite foldM_res_app, Hl. cbn [mbind res_bind foldM_res]. by rewrite Hpass. }
  unfold verify_work_receipt. rewrite He. erewrite bind_step by reflexivity.
  eexists _, (JDict ckvs), envelope', _. split; [reflexivity|done].
Qed.

(** C25: every honest reproduction can be countersigned: if a receipt verifies and
    has room for one more countersignature, its command, run by somebody else at
    the recorded commit with the recorded timeout, gives what was recorded, and
    the clock is not before the completion, then the countersignature is made and
    the new envelope verifies with one more. *)
Theorem honest_reproduction_is_countersigned {Mem} `{Env} {HLaws : EnvLaws} `{Workshop} `{UrlLib}
    `{Ed25519Laws} (decoded : json) (envelope payload : list (str * json)) (cs : list json) (selected : str)
    (c : _Checkout) (argv : list str) (ms : Z) (verifier : str) (key : bytes) (t : datetime)
    (code : option Z) (out err : bytes) (w : world Mem) :
  obliging → _verify_envelope decoded = Ok (summary_of payload cs, envelope) →
  length cs < MAX_COUNTERSIGNATURES → did_from_private_key key = Ok verifier →
  jget (u "issuer") payload ≠ JStr verifier → JStr verifier ∉ map counter_verifier cs →
  jget (u "countersignatures") envelope = JList cs →
  clean_checkout git_says selected c → clean_checkout git_says (root c) c →
  jget (u "commit") payload = JStr (commit c) → jget (u "repository") payload = JStr (repository c) →
  jget (u "command") payload = JList (map JStr argv) → jget (u "timeout_ms") payload = JInt ms →
  (∀ n, command_run n (root c) argv ms = ended code out err) → claims_run payload code out err →
  _parse_timestamp (jget (u "completed_at") payload) "completion timestamp" = Ok t →
  (∀ n, datetime_ltb (env_now n) t = false) →
  ∃ e counter envelope' w',
    countersign_work_receipt decoded selected verifier key None w = (Ret e, w') ∧
    _verify_envelope e = Ok (summary_of payload (cs ++ [counter]), envelope').
Proof. apply countersign_runs. Qed.

(** ** A concrete workshop *)

Definition toy_commit : str := repeat 97 40.

(** A clean checkout of octo/repo at /work; every command prints "ok" and returns
    [code]. *)
Definition toy_workshop (code : option Z) : Workshop := {|
  git_run _ _ arguments := GitOutput
    (match last arguments with
     | Some a =>
         if a == u "--show-toplevel" then u "/work"
         else if a == u "HEAD^{commit}" then toy_commit
         else if a == u "origin" then u "https://github.com/octo/repo.git" else []
     | None => []
     end);
  command_run _ _ _ _ := ended code (u "ok") [];
  resolve path := path
|}.

Definition toy_checkout : _Checkout := MkCheckout (u "/work") (u "octo/repo") toy_commit.

Lemma toy_clean code selected : let W := toy_workshop code in clean_checkout git_says selected toy_checkout.
Proof.
  intros W.   split.
  - exists (u "/work"). split; [|done]. intros n. by eexists.
  - intros n. by eexists.
  - intros n. by eexists.
  - by vm_compute.
  - exists (u "https://github.com/octo/repo.git"). split; [intros n; by eexists|]. by vm_compute.
Qed.

Definition calm_env : Env := toy_env (λ _, NoFault) (λ _, HttpFailed).

Lemma toy_obliging : obliging (H := calm_env).
Proof.
  split.
  - done.
  - intros n m _. by vm_compute.
  - intros n. apply py_round_le. unfold Qle. cbn. lia.
Qed.

Definition toy_did (n : Z) : str := match did_from_private_key (toy_seed n) with Ok did => did | Err _ => [] end.
Definition toy_command : list str := [u "make"; u "test"].

(** The outcome of a run of the toy command. *)
Lemma toy_create :
  let E := calm_env in let W := toy_workshop (Some 0) in
  ∃ e x envelope w', create_work_receipt (u ".") toy_command (toy_did 1) (toy_seed 1) (Finite 2 (u "2.0"))
                       (toy_world tt []) = (Ret e, w') ∧
    records x (Some 0) (u "ok") [] ∧
    _verify_envelope e = Ok (summary_of (work_payload (toy_did 1) toy_checkout toy_command 2000 x) [], envelope).
Proof.
  intros E W. apply (create_runs (HLaws := toy_env_laws _ _)); try by vm_compute.
  - apply toy_obliging.
  - apply toy_clean.
  - apply toy_clean.
Qed.

Lemma honest_run_gets_a_receipt_witness :
  let E := calm_env in let W := toy_workshop (Some 0) in
  ∃ e x envelope w', create_work_receipt (u ".") toy_command (toy_did 1) (toy_seed 1) (Finite 2 (u "2.0"))
                       (toy_world tt []) = (Ret e, w') ∧
    records x (Some 0) (u "ok") [] ∧
    _verify_envelope e = Ok (summary_of (work_payload (toy_did 1) toy_checkout toy_command 2000 x) [], envelope).
Proof.
  intros E W. apply (honest_run_gets_a_receipt (HLaws := toy_env_laws _ _)); try by vm_compute.
  - apply toy_obliging.
  - apply toy_clean.
  - apply toy_clean.
Defined.

Lemma receipt_reports_the_run_witness :
  let E := calm_env in let W := toy_workshop (Some 0) in
  ∃ e w', create_work_receipt (u ".") toy_command (toy_did 1) (toy_seed 1) (Finite 2 (u "2.0"))
            (toy_world tt []) = (Ret e, w') ∧
    ∃ c after ms x envelope n, (n < w_tick w')%nat ∧ clean_checkout (git_said_during 0 n) (u ".") c ∧
      ran_at n c toy_command ms x ∧ clean_checkout (git_said_during (S n) (w_tick w')) (root c) after ∧
      _verify_envelope e = Ok (summary_of (work_payload (toy_did 1) c toy_command ms x) [], envelope).
Proof.
  intros E W. destruct toy_create as (e&x&envelope&w'&Hrun&_). exists e, w'. split; [exact Hrun|].
  destruct (receipt_reports_the_run _ _ _ _ _ _ _ _ Hrun)
    as (c&after&ms&x'&envelope'&n&[_ Hn]&Hc&Hr&Ha&_&_&_&Hv).
  exists c, after, ms, x', envelope', n. split; [exact Hn|]. split; [exact Hc|]. split; [exact Hr|].
  split; [exact Ha|exact Hv].
Defined.

Lemma toy_claims x :
  let E := calm_env in
  records x (Some 0) (u "ok") [] →
  claims_run (work_payload (toy_did 1) toy_checkout toy_command 2000 x) (Some 0) (u "ok") [].
Proof.
  intros E [Ec Er (Eo&En&_) (Ee&Em&_) _]. unfold claims_run.
  change (JStr (x_result x) = JStr (result_of (Some 0)) ∧ same_exit_code (opt_exit_code (x_exit_code x)) (Some 0) = true ∧
    JStr (x_stdout_sha256 x) = JStr (sha256_hex (u "ok")) ∧ JInt (x_stdout_bytes x) = JInt (length (u "ok")) ∧
    JStr (x_stderr_sha256 x) = JStr (sha256_hex []) ∧ JInt (x_stderr_bytes x) = JInt (length (A := Z) [])).
  rewrite Ec, Er, Eo, En, Ee, Em. repeat apply conj; reflexivity.
Qed.

Lemma toy_countersign :
  let E := calm_env in let W := toy_workshop (Some 0) in
  ∃ receipt e payload counter envelope' w',
    countersign_work_receipt receipt (u "/work") (toy_did 2) (toy_seed 2) None (toy_world tt []) = (Ret e, w') ∧
    _verify_envelope e = Ok (summary_of payload [counter], envelope').
Proof.
  intros E W. destruct toy_create as (e&x&envelope&w'&_&Hx&Hv).
  pose proof Hv as (kvs&P&cs&t&vs&_&_&Ec&Es&_)%verify_envelope_inv. injection Es as <- Hl _.
  destruct cs as [|c cs]; [|clear - Hl; cbn in Hl; lia]. pose proof (rec_times _ _ _ _ Hx) as (n&m&_&Et).
  destruct (countersign_runs (HLaws := toy_env_laws (λ _, NoFault) (λ _, HttpFailed)) e envelope
    (work_payload (toy_did 1) toy_checkout toy_command 2000 x) [] (u "/work") toy_checkout toy_command 2000
    (toy_did 2) (toy_seed 2) toy_now (Some 0) (u "ok") [] (toy_world tt []))
    as (e2&counter&envelope'&w2&Hc).
  - apply toy_obliging.
  - exact Hv.
  - done.
  - by vm_compute.
  - by vm_compute.
  - apply not_elem_of_nil.
  - exact Ec.
  - apply toy_clean.
  - apply toy_clean.
  - reflexivity.
  - reflexivity.
  - reflexivity.
  - reflexivity.
  - reflexivity.
  - by apply toy_claims.
  - change (_parse_timestamp (JStr (x_completed_at x)) "completion timestamp" = Ok toy_now).
    rewrite Et. by vm_compute.
  - by vm_compute.
  - by exists e, e2, (work_payload (toy_did 1) toy_checkout toy_command 2000 x), counter, envelope', w2.
Qed.

Lemma honest_reproduction_is_countersigned_witness :
  let E := calm_env in let W := toy_workshop (Some 0) in
  ∃ receipt e payload counter envelope' w',
    countersign_work_receipt receipt (u "/work") (toy_did 2) (toy_seed 2) None (toy_world tt []) = (Ret e, w') ∧
    _verify_envelope e = Ok (summary_of payload [counter], envelope').
Proof.
  intros E W. destruct toy_create as (e&x&envelope&w'&_&Hx&Hv).
  pose proof Hv as (kvs&P&cs&t&vs&_&_&Ec&Es&_)%verify_envelope_inv. injection Es as <- Hl _.
  destruct cs as [|c cs]; [|clear - Hl; cbn in Hl; lia]. pose proof (rec_times _ _ _ _ Hx) as (n&m&_&Et).
  destruct (honest_reproduction_is_countersigned (HLaws := toy_env_laws (λ _, NoFault) (λ _, HttpFailed)) e envelope
    (work_payload (toy_did 1) toy_checkout toy_command 2000 x) [] (u "/work") toy_checkout toy_command 2000
    (toy_did 2) (toy_seed 2) toy_now (Some 0) (u "ok") [] (toy_world tt []))
    as (e2&counter&envelope'&w2&Hc).
  - apply toy_obliging.
  - exact Hv.
  - done.
  - by vm_compute.
  - by vm_compute.
  - apply not_elem_of_nil.
  - exact Ec.
  - apply toy_clean.
  - apply toy_clean.
  - reflexivity.
  - reflexivity.
  - reflexivity.
  - reflexivity.
  - reflexivity.
  - by apply toy_claims.
  - change (_parse_timestamp (JStr (x_completed_at x)) "completion timestamp" = Ok toy_now).
    rewrite Et. by vm_compute.
  - by vm_compute.
  - by exists e, e2, (work_payload (toy_did 1) toy_checkout toy_command 2000 x), counter, envelope', w2.
Defined.

Lemma countersigned_only_after_the_same_run_witness :
  let E := calm_env in let W := toy_workshop (Some 0) in
  ∃ receipt e payload cs counter,
    verify_work_receipt receipt = Ok (summary_of payload cs) ∧
    verify_work_receipt e = Ok (summary_of payload (cs ++ [counter])) ∧
    counter_verifier counter = JStr (toy_did 2).
Proof.
  intros E W. destruct toy_countersign as (receipt&e&_&_&_&w'&Hrun&_).
  destruct (countersigned_only_after_the_same_run _ _ _ _ _ _ _ _ Hrun)
    as (payload&cs&counter&c&ms&argv&x&H1&H2&H3&_).
  by exists receipt, e, payload, cs, counter.
Defined.

Lemma verified_work_receipt_sound_witness :
  ∃ e summary envelope, _verify_envelope e = Ok (summary, envelope) ∧ work_claim (ws_payload summary) ∧
    ∃ issuer counters, jget (u "issuer") (ws_payload summary) = JStr issuer ∧
      authentic issuer (ws_payload summary) ∧
      ws_countersignatures summary = length counters ∧ length counters ≤ MAX_COUNTERSIGNATURES ∧
      NoDup (issuer :: counters.*1) ∧
      Forall (λ c, countersigned (ws_payload summary) c.1 c.2) counters.
Proof.
  destruct toy_countersign as (_&e&payload&counter&envelope&_&_&Hv).
  exists e, (summary_of payload [counter]), envelope. split; [exact Hv|].
  exact (verified_work_receipt_sound _ _ _ Hv).
Defined.
