(* ===== verification/WorkEvidence.v ===== *)
(** [work_evidence.py]: comparing a work receipt and its outputs with what the
    operator expects, without running anything.

    The files do not change while they are read, so the checks for a file that
    was replaced or rewritten ([file_changed]) never fire here. *)

From S2P Require Import Prelude Errors Text Regex Sha256 Json Crypto Url Clock Effects WorkVerifier WorkReceipt.

Definition MAX_EXPECTATION_BYTES : Z := 32 * 1024.
Definition EXPECTATION_SCHEMA : str := u "work-evidence-expectation-v1".
Definition COMPARISON_FIELDS : list str :=
  [u "repository"; u "commit"; u "command"; u "timeout_ms"; u "issuer"].
Definition CHECK_NAMES : list str :=
  u "receipt" :: COMPARISON_FIELDS ++ [u "required_verifiers"; u "execution"; u "stdout"; u "stderr"].
Definition EXPECTATION_KEYS : list str := u "schema" :: COMPARISON_FIELDS ++ [u "required_verifiers"].

(** The report; its other members never vary. *)
Abbreviation checks := (list (str * str)) (only parsing).
Record EvidenceReport := MkEvidenceReport { r_status : str; r_checks : checks }.

Definition report_json (r : EvidenceReport) : list (str * json) :=
  [(u "schema", JStr (u "work-evidence-report-v1")); (u "status", JStr (r_status r));
   (u "checks", JDict (map_vals JStr (r_checks r))); (u "agreement", JStr (u "not_assessed"));
   (u "payment", JStr (u "not_assessed")); (u "independent_execution", JStr (u "not_established"))].

(** ** The expectation *)

(** [loads] of the text of a file: an object without duplicate keys and without
    [NaN] and infinities. *)
Definition _strict_json (raw : bytes) : res (list (str * json)) :=
  value ← res_catch
    (text ← utf8_decode false raw;
     loads_with (Loader (reject_duplicates (ValueError "duplicate_key"))
                   (λ _, Err (ValueError "nonfinite_number"))) text)
    (λ e, is_ValueError e || is_RecursionError e)
    (λ _, Err (EvidenceInputError "invalid_json"));
  of_option (EvidenceInputError "object_required") (match value with JDict kvs => Some kvs | _ => None end).

Definition expected_repository (value : json) : res unit :=
  raise_if (match value with
            | JStr s =>
                match split_char 47 s with
                | [owner; repository] =>
                    negb (fullmatch OWNER_PATTERN owner) || negb (fullmatch REPOSITORY_PATTERN repository) ||
                    (repository in? [u "."; u ".."]) || endswith (u ".git") repository
                | _ => true
                end
            | _ => true
            end) (EvidenceInputError "invalid_repository").

(** One argument: the bytes counted so far. *)
Definition expected_argument (index : nat) (total : Z) (argument : json) : res Z :=
  match argument with
  | JStr s =>
      raise_if (bool_decide (0 ∈ s)) (EvidenceInputError "invalid_command");;
      raw ← res_catch (utf8_encode s) (λ e, match e with UnicodeEncodeError => true | _ => false end)
        (λ _, Err (EvidenceInputError "invalid_command"));
      let size := Z.of_nat (length raw) in
      raise_if ((MAX_COMMAND_ARGUMENT_BYTES <? size) || ((Z.of_nat index =? 0) && (size =? 0)))
        (EvidenceInputError "invalid_command");;
      Ok (total + size)
  | _ => Err (EvidenceInputError "invalid_command")
  end.

Fixpoint expected_arguments (index : nat) (total : Z) (l : list json) : res Z :=
  match l with
  | [] => Ok total
  | argument :: l' => total ← expected_argument index total argument; expected_arguments (S index) total l'
  end.

Definition expected_command (value : json) : res unit :=
  match value with
  | JList command =>
      raise_if (negb ((1 <=? length command) && (length command <=? MAX_COMMAND_ARGUMENTS)))
        (EvidenceInputError "invalid_command");;
      total ← expected_arguments 0 0 command;
      raise_if (MAX_COMMAND_BYTES <? total) (EvidenceInputError "invalid_command")
  | _ => Err (EvidenceInputError "invalid_command")
  end.

Definition expected_verifiers (issuer value : json) : res unit :=
  match value with
  | JList verifiers =>
      raise_if (MAX_COUNTERSIGNATURES <? length verifiers) (EvidenceInputError "invalid_verifiers");;
      res_catch (validate_did_value issuer;; mapM_res validate_did_value verifiers;; Ok tt) is_ProtocolValueError
        (λ _, Err (EvidenceInputError "invalid_identity"));;
      raise_if (negb (bool_decide (NoDup verifiers)) || (issuer in? verifiers))
        (EvidenceInputError "invalid_verifiers")
  | _ => Err (EvidenceInputError "invalid_verifiers")
  end.

(** [_expectation] of the bytes of the file. *)
Definition parse_expectation (raw : bytes) : res (list (str * json)) :=
  value ← _strict_json raw;
  raise_if (negb (has_exact_keys value EXPECTATION_KEYS) || (jget (u "schema") value != JStr EXPECTATION_SCHEMA))
    (EvidenceInputError "invalid_expectation_schema");;
  expected_repository (jget (u "repository") value);;
  raise_if (match jget (u "commit") value with
            | JStr s => negb (fullmatch GIT_SHA_PATTERN s)
            | _ => true
            end) (EvidenceInputError "invalid_commit");;
  raise_if (match jget (u "timeout_ms") value with
            | JInt z => negb ((1 <=? z) && (z <=? 3600000))
            | _ => true
            end) (EvidenceInputError "invalid_timeout");;
  expected_command (jget (u "command") value);;
  expected_verifiers (jget (u "issuer") value) (jget (u "required_verifiers") value);;
  Ok value.

(** ** The comparison *)

Definition unchecked : checks := map (λ name, (name, u "not_checked")) CHECK_NAMES.

Definition matched (b : bool) : str := if b then u "matched" else u "mismatch".

(** The loop over [COMPARISON_FIELDS]. *)
Definition compare_fields (payload expected : list (str * json)) (c : checks) : checks :=
  fold_left (λ c field, dict_set field (matched (jget field payload == jget field expected)) c)
    COMPARISON_FIELDS c.

Definition compare_verifiers (envelope expected : list (str * json)) : str :=
  let required := elements (jget (u "required_verifiers") expected) in
  let verifiers := map counter_verifier (elements (jget (u "countersignatures") envelope)) in
  if required == [] then u "not_requested"
  else if forallb (λ v, v in? verifiers) required then u "matched" else u "missing".

(** [len(data) == ... and sha256(data) == ...] *)
Definition same_output (payload : list (str * json)) (name : str) (data : bytes) : bool :=
  (JInt (length data) == jget (name ++ u "_bytes") payload) &&
  (JStr (sha256_hex data) == jget (name ++ u "_sha256") payload).

Definition status_of (c : checks) : str :=
  if (u "mismatch" in? c.*2) || (default [] (dict_get (u "execution") c) != u "passed")
  then u "does_not_match"
  else if (u "missing" in? c.*2) || (u "not_provided" in? c.*2) then u "incomplete"
  else u "matches_local_expectations".

Section evidence.
Context {Mem : Type} `{Env} `{Ed25519}.

Definition _read_bounded (p : path) (maximum : Z) : M Mem bytes :=
  try_except
    (before ← path_file p;
     check (negb (bool_decide (f_kind before = Regular))) (EvidenceInputError "regular_file_required");;
     opened ← open_nofollow p;
     check (maximum <? length (f_data opened)) (EvidenceInputError "file_too_large");;
     action;;
     mret (f_data opened))
    (λ e, is_OSError e || is_ValueError e)
    (λ e, if is_EvidenceInputError e then raise e else raise (EvidenceInputError "file_unreadable")).

Definition _expectation (p : path) : M Mem (list (str * json)) :=
  raw ← _read_bounded p MAX_EXPECTATION_BYTES;
  lift (parse_expectation raw).

(** One turn of the loop over the outputs. *)
Definition compare_output (payload : list (str * json)) (name : str) (p : option path) (c : checks)
  : M Mem checks :=
  match p with
  | None => mret (dict_set name (u "not_provided") c)
  | Some p =>
      data ← _read_bounded p MAX_OUTPUT_BYTES;
      mret (dict_set name (matched (same_output payload name data)) c)
  end.

(** The receipt, if it is one that verifies. *)
Definition checked_receipt (raw : bytes) : res (option (WorkReceiptSummary * list (str * json))) :=
  res_catch
    (envelope ← _strict_json raw; summary ← verify_work_receipt (JDict envelope); Ok (Some (summary, envelope)))
    (λ e, is_EvidenceInputError e || is_WorkReceiptError e || is_ValueError e || is_RecursionError e)
    (λ _, Ok None).

Definition inspect_work_evidence (expectation_path : path) (receipt_path stdout_path stderr_path : option path)
  : M Mem EvidenceReport :=
  expected ← _expectation expectation_path;
  match receipt_path with
  | None => mret (MkEvidenceReport (u "incomplete") (dict_set (u "receipt") (u "not_provided") unchecked))
  | Some receipt_path =>
      raw ← _read_bounded receipt_path MAX_RECEIPT_BYTES;
      checked ← lift (checked_receipt raw);
      match checked with
      | None => mret (MkEvidenceReport (u "invalid_receipt") (dict_set (u "receipt") (u "invalid") unchecked))
      | Some (summary, envelope) =>
          let payload := ws_payload summary in
          let c := compare_fields payload expected (dict_set (u "receipt") (u "valid") unchecked) in
          let c := dict_set (u "required_verifiers") (compare_verifiers envelope expected) c in
          let c := dict_set (u "execution") (str_of (jget (u "result") payload)) c in
          c ← compare_output payload (u "stdout") stdout_path c;
          c ← compare_output payload (u "stderr") stderr_path c;
          mret (MkEvidenceReport (status_of c) c)
      end
  end.
End evidence.

(** ** Rendering, and the command *)

Definition render_evidence_markdown (r : EvidenceReport) : str :=
  join [10]
    ([u "# Local Work Evidence"; []; u "Status: `" ++ r_status r ++ u "`"; [];
      u "| Check | Result |"; u "| --- | --- |"]
     ++ map (λ name, u "| " ++ name ++ u " | `" ++ default [] (dict_get name (r_checks r)) ++ u "` |") CHECK_NAMES
     ++ [[]; u "Agreement: `not_assessed`. Payment: `not_assessed`.";
         u "Independent execution: `not_established`."; [];
         u "Local expectations are operator supplied, not an authenticated agreement.";
         u "This check does not execute work, establish its quality, or verify payment."])
  ++ [10].

(** [_work_evidence] of [cli.py]: the exit code; printing may fail. *)
Definition _work_evidence {Mem} `{Env} `{Ed25519} (expectation_path : path)
    (receipt_path stdout_path stderr_path : option path) : M Mem Z :=
  outcome ← try_except
    (report ← inspect_work_evidence expectation_path receipt_path stdout_path stderr_path; mret (Some report))
    is_EvidenceInputError (λ _, mret None);
  match outcome with
  | None => action;; mret 2
  | Some report => action;; mret (if r_status report == u "matches_local_expectations" then 0 else 1)
  end.
