(* ===== verification/EvidenceFacts.v ===== *)
(** What a match reported by the evidence check means, and that the check only
    reads. *)

From S2P Require Import Prelude Errors Text Regex Sha256 Json Crypto Url Clock Effects State Quiet Toy Sealed.
From S2P Require Import WorkVerifier WorkReceipt WorkFacts WorkRuns WorkEvidence.

(** ** Reading *)

Section reading.
Context {Mem : Type} `{Env}.
Implicit Types w : world Mem.
Set Default Proof Using "Type".

Lemma untouched_read_bounded p n : Steps untouched (_read_bounded (Mem := Mem) p n).
Proof. unfold _read_bounded. untouched. Qed.

Lemma untouched_inspect `{Ed25519} ep rp op err : Steps untouched (inspect_work_evidence (Mem := Mem) ep rp op err).
Proof.
  pose proof untouched_read_bounded. unfold inspect_work_evidence, _expectation, compare_output. untouched.
Qed.

(** [d] is what the file at [p] holds. *)
Definition holds (w : world Mem) (p : path) (d : bytes) : Prop :=
  ∃ f, w_fs w !! p = Some f ∧ f_kind f = Regular ∧ f_data f = d.

Lemma holds_untouched w w' p d : untouched w w' → holds w' p d → holds w p d.
Proof. intros (E&_&_). unfold holds. by rewrite E. Qed.

Lemma read_bounded_Ret p n d w w' :
  _read_bounded p n w = (Ret d, w') → holds w p d ∧ length d ≤ n.
Proof.
  unfold _read_bounded. intros [E|(e&w1&_&_&E)]%try_Ret; [|case_match; by apply raise_Ret in E].
  apply bind_Ret in E as (before&w1&Hb&E). apply bind_Ret in E as (?&w2&[Hreg ->]%check_Ret&E).
  apply bind_Ret in E as (opened&w3&Ho&E). apply bind_Ret in E as (?&w4&[Hlen ->]%check_Ret&E).
  apply bind_Ret in E as (?&w5&_&[-> _]%ret_Ret).
  pose proof (untouched_path_file p w) as Hu. rewrite Hb in Hu. destruct Hu as (Hfs&_&_). cbn in Hfs.
  apply path_file_Ret in Hb as [_ Hb]. unfold open_nofollow in Ho.
  apply bind_Ret in Ho as (f&w6&[_ Hf]%path_file_Ret&Ho).
  case_decide; [by apply raise_Ret in Ho|]. apply ret_Ret in Ho as [-> _]. rewrite Hfs, Hb in Hf. injection Hf as <-.
  apply negb_false_iff, bool_decide_eq_true in Hreg. apply Z.ltb_ge in Hlen. split; [by exists before|done].
Qed.

(** A read, and what was found. *)
Lemma read_then p n d w w' :
  _read_bounded p n w = (Ret d, w') → holds w p d ∧ untouched w w'.
Proof.
  intros E. pose proof (untouched_read_bounded p n w) as Hu. rewrite E in Hu.
  by apply read_bounded_Ret in E as [? _].
Qed.
End reading.

(** ** The status *)

Lemma matched_not b : matched b ≠ u "mismatch" → b = true.
Proof. by destruct b. Qed.

Definition final_checks (payload expected envelope : list (str * json)) (o e : str) : list (str * str) :=
  [(u "receipt", u "valid");
   (u "repository", matched (jget (u "repository") payload == jget (u "repository") expected));
   (u "commit", matched (jget (u "commit") payload == jget (u "commit") expected));
   (u "command", matched (jget (u "command") payload == jget (u "command") expected));
   (u "timeout_ms", matched (jget (u "timeout_ms") payload == jget (u "timeout_ms") expected));
   (u "issuer", matched (jget (u "issuer") payload == jget (u "issuer") expected));
   (u "required_verifiers", compare_verifiers envelope expected);
   (u "execution", str_of (jget (u "result") payload)); (u "stdout", o); (u "stderr", e)].

Lemma final_checks_eq payload expected envelope o e :
  let c := compare_fields payload expected (dict_set (u "receipt") (u "valid") unchecked) in
  let c := dict_set (u "required_verifiers") (compare_verifiers envelope expected) c in
  let c := dict_set (u "execution") (str_of (jget (u "result") payload)) c in
  dict_set (u "stderr") e (dict_set (u "stdout") o c) = final_checks payload expected envelope o e.
Proof. reflexivity. Qed.

(** When everything that was to be checked was found as expected. *)
Lemma status_matches payload expected envelope o e :
  o ∈ [u "matched"; u "mismatch"; u "not_provided"] → e ∈ [u "matched"; u "mismatch"; u "not_provided"] →
  status_of (final_checks payload expected envelope o e) = u "matches_local_expectations" ↔
  (∀ field, field ∈ COMPARISON_FIELDS → jget field payload = jget field expected) ∧
  compare_verifiers envelope expected ≠ u "missing" ∧
  str_of (jget (u "result") payload) = u "passed" ∧ o = u "matched" ∧ e = u "matched".
Proof.
  intros Ho He. unfold status_of. set (c := final_checks _ _ _ _ _).
  assert (c.*2 = [u "valid";
     matched (jget (u "repository") payload == jget (u "repository") expected);
     matched (jget (u "commit") payload == jget (u "commit") expected);
     matched (jget (u "command") payload == jget (u "command") expected);
     matched (jget (u "timeout_ms") payload == jget (u "timeout_ms") expected);
     matched (jget (u "issuer") payload == jget (u "issuer") expected);
     compare_verifiers envelope expected; str_of (jget (u "result") payload); o; e]) as -> by done.
  assert (default [] (dict_get (u "execution") c) = str_of (jget (u "result") payload)) as -> by done. clear c.
  set (cv := compare_verifiers envelope expected).
  assert (cv ∈ [u "not_requested"; u "matched"; u "missing"]) as Hcv.
  { subst cv. unfold compare_verifiers. repeat case_match; set_solver. }
  clearbody cv. split.
  - intros E. destruct (bool_decide (u "mismatch" ∈ _)) eqn:E1; [done|].
    destruct (bool_decide (str_of _ = _)) eqn:E2; [|done]. cbn [orb negb] in E.
    destruct (bool_decide (u "missing" ∈ _)) eqn:E3; [done|].
    destruct (bool_decide (u "not_provided" ∈ _)) eqn:E4; [done|]. clear E.
    apply bool_decide_eq_false in E1, E3, E4. apply bool_decide_eq_true in E2.
    rewrite !not_elem_of_cons in E1, E3, E4. destruct_and!.
    assert (∀ b, u "mismatch" ≠ matched b → b = true) as Hm by (by intros []).
    repeat match goal with H : _ ≠ matched _ |- _ => apply Hm, bool_decide_eq_true in H end.
    split.
    { intros field Hf. unfold COMPARISON_FIELDS in Hf. rewrite !elem_of_cons, elem_of_nil in Hf.
      by destruct Hf as [-> | [-> | [-> | [-> | [-> | []]]]]]. }
    split; [congruence|]. split; [done|]. rewrite !elem_of_cons, elem_of_nil in Ho, He. split; intuition congruence.
  - intros (Hf&Hc&->&->&->). rewrite !(bool_decide_eq_true_2 (jget _ _ = jget _ _)) by (apply Hf; unfold COMPARISON_FIELDS; set_solver).
    rewrite !elem_of_cons, elem_of_nil in Hcv.
    by destruct Hcv as [-> | [-> | [-> | []]]].
Qed.

(** ** What was compared *)

Lemma checked_receipt_Ok `{Ed25519Laws} raw summary envelope :
  checked_receipt raw = Ok (Some (summary, envelope)) →
  _strict_json raw = Ok envelope ∧ ∃ e, _verify_envelope (JDict envelope) = Ok (summary, e) ∧ e = envelope.
Proof.
  unfold checked_receipt. intros [E|(?&_&_&[=])]%res_catch_Ok.
  apply res_bind_Ok in E as (env&Hs&E). apply res_bind_Ok in E as (s&Hv&[= <- <-]). split; [done|].
  unfold verify_work_receipt in Hv. apply res_bind_Ok in Hv as ([s' e]&Hv&[= <-]). exists e. split; [done|].
  pose proof Hv as (?&?&?&?&?&[= <-]&_)%verify_envelope_inv. done.
Qed.

Lemma compare_verifiers_all `{Ed25519Laws} payload envelope expected summary :
  _verify_envelope (JDict envelope) = Ok (summary, envelope) → payload = ws_payload summary →
  compare_verifiers envelope expected ≠ u "missing" →
  ∀ v, v ∈ elements (jget (u "required_verifiers") expected) → ∃ did claim, v = JStr did ∧ countersigned payload did claim.
Proof.
  intros (kvs&P&items&t&vs&_&_&Ec&->&[Hr _ _ Ht Hl])%verify_envelope_inv -> Hc v Hv.
  apply verify_signed_wrapper_Ok in Hr as (issuer&?&Hi&_&[= <-]&Eh&_). rewrite Eh in Hl. cbn [ws_payload summary_of].
  apply (verify_countersignatures_Ok _ issuer _ _ _ []) in Hl as (cs&_&_&_&Hall&Hcv); [|done..].
  unfold compare_verifiers in Hc. case_bool_decide as E0; [rewrite E0 in Hv; by apply elem_of_nil in Hv|].
  destruct (forallb _ _) eqn:E; [|done]. rewrite forallb_Forall_true in E. apply (Forall_elem _ _ _ E) in Hv.
  apply bool_decide_eq_true in Hv. rewrite Ec in Hv. cbn [elements] in Hv. rewrite <- Hcv in Hv.
  apply list_elem_of_In, in_map_iff in Hv as (did&<-&Hv%list_elem_of_In).
  apply list_elem_of_fmap in Hv as ([d claim]&->&Hin). exists d, claim. split; [done|].
  by apply (Forall_elem _ _ _ Hall) in Hin.
Qed.

(** The file at [p] is the output that the receipt speaks of. *)
Definition output_matches {Mem} (w : world Mem) (payload : list (str * json)) (name : str) (p : option path) : Prop :=
  ∃ p' data, p = Some p' ∧ holds w p' data ∧
    jget (name ++ u "_bytes") payload = JInt (length data) ∧
    jget (name ++ u "_sha256") payload = JStr (sha256_hex data).

Section matches.
Context {Mem : Type} `{Env} `{Ed25519Laws}.
Implicit Types w : world Mem.
Set Default Proof Using "All".

Lemma compare_output_Ret payload name p c c' w w' :
  compare_output payload name p c w = (Ret c', w') →
  ∃ o, c' = dict_set name o c ∧ o ∈ [u "matched"; u "mismatch"; u "not_provided"] ∧ untouched w w' ∧
    (o = u "matched" → output_matches w payload name p).
Proof.
  unfold compare_output. destruct p as [p|].
  - intros (data&w1&[Hd Hu]%read_then&[-> ->]%ret_Ret)%bind_Ret. eexists. split; [done|]. split.
    { unfold matched. case_match; set_solver. }
    split; [done|]. intros Hm. exists p, data. split; [done|]. split; [done|].
    unfold same_output in Hm. destruct (bool_decide _ && _) eqn:E in Hm; [|done].
    apply andb_true_iff in E as [E1%bool_decide_eq_true E2%bool_decide_eq_true]. done.
  - intros [-> ->]%ret_Ret. exists (u "not_provided"). split; [done|]. split; [set_solver|].
    split; [by repeat split|done].
Qed.

(** The expectation and the receipt agree, and so do the outputs. *)
Record agreed w (expected payload : list (str * json)) (op err : option path) : Prop := {
  ag_claim : work_claim payload;
  ag_issuer : ∃ issuer, jget (u "issuer") payload = JStr issuer ∧ authentic issuer payload;
  ag_fields field : field ∈ COMPARISON_FIELDS → jget field payload = jget field expected;
  ag_verifiers v : v ∈ elements (jget (u "required_verifiers") expected) →
    ∃ did claim, v = JStr did ∧ countersigned payload did claim;
  ag_passed : jget (u "result") payload = JStr (u "passed") ∧ py_zero (jget (u "exit_code") payload) = true;
  ag_stdout : output_matches w payload (u "stdout") op;
  ag_stderr : output_matches w payload (u "stderr") err
}.

Lemma envelope_claim decoded summary envelope :
  _verify_envelope decoded = Ok (summary, envelope) →
  work_claim (ws_payload summary) ∧
  ∃ issuer, jget (u "issuer") (ws_payload summary) = JStr issuer ∧ authentic issuer (ws_payload summary).
Proof.
  intros (kvs&P&items&t&vs&_&_&_&->&[Hr Hp _ _ _])%verify_envelope_inv. cbn [ws_payload summary_of].
  split; [by eapply validate_work_payload_Ok|].
  apply verify_signed_wrapper_Ok in Hr as (did&?&Hi&Ha&_). by exists did.
Qed.

Lemma inspect_Ret ep rp op err report w w' :
  inspect_work_evidence ep rp op err w = (Ret report, w') →
  r_status report = u "matches_local_expectations" →
  ∃ d expected rp' raw summary envelope, holds w ep d ∧ parse_expectation d = Ok expected ∧
    rp = Some rp' ∧ holds w rp' raw ∧ _strict_json raw = Ok envelope ∧
    _verify_envelope (JDict envelope) = Ok (summary, envelope) ∧ agreed w expected (ws_payload summary) op err.
Proof.
  unfold inspect_work_evidence, _expectation. intros (expected&w1&Hex&E)%bind_Ret Hm.
  apply bind_Ret in Hex as (d&w2&[Hd Hu2]%read_then&[Hparse ->]%lift_Ret).
  destruct rp as [rp|]; [|apply ret_Ret in E as [-> _]; by vm_compute in Hm].
  apply bind_Ret in E as (raw&w3&[Hraw Hu3]%read_then&E). apply (holds_untouched w w2 _ _ Hu2) in Hraw.
  apply bind_Ret in E as (checked&w4&[Hch ->]%lift_Ret&E).
  destruct checked as [[summary envelope]|]; [|apply ret_Ret in E as [-> _]; by vm_compute in Hm].
  apply checked_receipt_Ok in Hch as (Hs&?&Hv&->). cbv zeta in E.
  apply bind_Ret in E as (c1&w5&(o&->&Ho&Hu5&Hmo)%compare_output_Ret&E).
  apply bind_Ret in E as (c2&w6&(e&->&He&_&Hme)%compare_output_Ret&[-> _]%ret_Ret). cbn [r_status] in Hm.
  rewrite final_checks_eq in Hm. apply status_matches in Hm as (Hf&Hc&Hr&->&->); [|done..].
  destruct (envelope_claim _ _ _ Hv) as [Hclaim Hissuer].
  exists d, expected, rp, raw, summary, envelope. do 6 (split; [done|]). split; try done.
  - intros v Hin. by eapply compare_verifiers_all.
  - destruct (wc_result _ Hclaim) as [[E1 E2]|[[E1 _]|[E1 _]]]; rewrite E1 in Hr |- *; [done|..]; by vm_compute in Hr.
  - destruct (Hmo eq_refl) as (p'&data&->&(f&Hl&Hk&<-)&Hb&Hh). exists p', (f_data f). split; [done|].
    split; [|done]. eapply holds_untouched; [|by exists f]. etrans; [exact Hu2|exact Hu3].
  - destruct (Hme eq_refl) as (p'&data&->&(f&Hl&Hk&<-)&Hb&Hh). exists p', (f_data f). split; [done|].
    split; [|done]. eapply holds_untouched; [|by exists f]. etrans; [exact Hu2|]. etrans; [exact Hu3|exact Hu5].
Qed.
End matches.

(** C32: the evidence check overstates nothing and only reads.  When it reports
    "matches_local_expectations", the receipt file holds a receipt that verifies
    under its issuer, which is the expected one, as are repository, commit,
    command and timeout; the result is "passed" with exit code zero; every
    required verifier has countersigned this very execution; and the two output
    files have the recorded sizes and digests.  Whatever it reports, and however
    it fails, no file is changed and no request is made. *)
Theorem evidence_match_is_sound {Mem} `{Env} `{Ed25519Laws} (ep : path) (rp op err : option path)
    (w : world Mem) :
  let '(o, w') := inspect_work_evidence ep rp op err w in
  untouched w w' ∧
  ∀ report, o = Ret report → r_status report = u "matches_local_expectations" →
  ∃ d expected rp' raw summary envelope, holds w ep d ∧ parse_expectation d = Ok expected ∧
    rp = Some rp' ∧ holds w rp' raw ∧ _strict_json raw = Ok envelope ∧
    _verify_envelope (JDict envelope) = Ok (summary, envelope) ∧ agreed w expected (ws_payload summary) op err.
Proof.
  pose proof (untouched_inspect ep rp op err w) as Hu.
  destruct (inspect_work_evidence ep rp op err w) as [o w'] eqn:E. split; [done|]. intros report ->.
  by eapply inspect_Ret.
Qed.

(** A receipt of a run, its outputs, and an expectation that it meets. *)
Definition sample_receipt : json :=
  let E := calm_env in let W := toy_workshop (Some 0) in
  match (create_work_receipt (u ".") toy_command (toy_did 1) (toy_seed 1) (Finite 2 (u "2.0")) (toy_world tt [])).1 with
  | Ret e => e | _ => JNull end.
Definition sample_expectation (commit : str) : json :=
  JDict [(u "schema", JStr EXPECTATION_SCHEMA); (u "repository", JStr (u "octo/repo")); (u "commit", JStr commit);
         (u "command", JList (map JStr toy_command)); (u "timeout_ms", JInt 2000); (u "issuer", JStr (toy_did 1));
         (u "required_verifiers", JList [])].
Definition sample_files (commit : str) : world unit :=
  let E := calm_env in
  toy_world tt [(Path (u "/expected"), private_file (dumps false (sample_expectation commit)));
                (Path (u "/receipt"), private_file (dumps false sample_receipt));
                (Path (u "/out"), private_file (u "ok")); (Path (u "/err"), private_file [])].
Definition sample_status (commit : str) : outcome str :=
  let E := calm_env in
  match (inspect_work_evidence (Path (u "/expected")) (Some (Path (u "/receipt"))) (Some (Path (u "/out")))
           (Some (Path (u "/err"))) (sample_files commit)).1 with
  | Ret r => Ret (r_status r) | Raise e => Raise e | Crashed => Crashed end.

Example evidence_matches : sample_status toy_commit = Ret (u "matches_local_expectations").
Proof. by vm_compute. Qed.
Example evidence_other_commit : sample_status (replicate 40 98) = Ret (u "does_not_match").
Proof. by vm_compute. Qed.

Lemma evidence_match_is_sound_witness :
  let E := calm_env in
  sample_status toy_commit = Ret (u "matches_local_expectations") ∧
  ∃ d expected raw summary envelope,
    holds (sample_files toy_commit) (Path (u "/expected")) d ∧ parse_expectation d = Ok expected ∧
    holds (sample_files toy_commit) (Path (u "/receipt")) raw ∧ _strict_json raw = Ok envelope ∧
    _verify_envelope (JDict envelope) = Ok (summary, envelope) ∧
    agreed (sample_files toy_commit) expected (ws_payload summary) (Some (Path (u "/out"))) (Some (Path (u "/err"))).
Proof.
  intros E. pose proof (evidence_match_is_sound (Path (u "/expected")) (Some (Path (u "/receipt")))
    (Some (Path (u "/out"))) (Some (Path (u "/err"))) (sample_files toy_commit)) as H.
  pose proof evidence_matches as Hs. split; [exact Hs|]. unfold sample_status in Hs. cbv zeta in Hs. subst E.
  destruct (inspect_work_evidence _ _ _ _ _) as [[r|e|] w']; cbn [fst] in Hs; [|discriminate Hs|discriminate Hs].
  destruct H as [_ H]. injection Hs as Hs. destruct (H r eq_refl Hs) as (d&expected&rp&raw&summary&envelope&H1&H2&[= <-]&H4).
  exists d, expected, raw, summary, envelope. split; [exact H1|]. split; [exact H2|exact H4].
Defined.
