(* ===== verification/Clients.v ===== *)
(** The two clients a responder may speak through: the client of [protocol.py],
    and the one of [pilot.py] that wraps it, checks each signed write and keeps
    a list of the acknowledged ones. *)

From S2P Require Import Prelude Errors Text Json Crypto Url Clock Effects State Memory Protocol.

Inductive RoomClient : Type :=
  | Direct (inner : TechnocoreClient)
  | Audited (inner : TechnocoreClient).                 (* _AuditedPilotClient *)

(** [_AuditedPilotClient.base_url] and [.read_room] are those of the inner one. *)
Definition inner (client : RoomClient) : TechnocoreClient :=
  match client with Direct inner | Audited inner => inner end.

Section clients.
Context `{Env} `{UrlLib} `{Ed25519} `{FloatRepr}.

(** [client.read_room] *)
Definition client_read_room (client : RoomClient) (room : str) (since : Z) (wait : pyfloat) (limit cache_buster : Z)
  : IO RoomSnapshot := read_room (inner client) room since wait limit cache_buster.

(** [_AuditedPilotClient.send_signed_message], for the nonces that are sent, which
    are integers. *)
Definition audited_send_signed_message (plain : TechnocoreClient) (room did signature : str) (nonce : Z) (text : str)
  : IO RoomMessage :=
  canonical ← lift (utf8_encode (canonical_message room (int_str nonce) text));
  check (negb (verify_detached_signature did canonical signature))
    (PilotError "pilot refused a signed write with an invalid signature");;
  posted ← send_signed_message plain room did signature (JInt nonce) text;
  check ((sender posted != did) || (Protocol.text posted != text) || (Protocol.nonce posted != Some (int_str nonce)))
    (ResponseError "pilot signed-write acknowledgement does not match its request");;
  writes ← get_writes;
  put_writes (writes ++ [MkWrite (seq posted) did (int_str nonce) text]);;
  mret posted.

(** [client.send_signed_message] *)
Definition client_send (client : RoomClient) (room did signature : str) (nonce : Z) (text : str) : IO RoomMessage :=
  match client with
  | Direct inner => send_signed_message inner room did signature (JInt nonce) text
  | Audited inner => audited_send_signed_message inner room did signature nonce text
  end.

(** ** What they leave alone *)

Set Default Proof Using "All".

Lemma keeps_client_read P Q `{!PreOrder Q} client room since wait limit cb :
  Keeps P Q (client_read_room client room since wait limit cb).
Proof. unfold client_read_room. keeps. Qed.

Lemma keeps_client_send P Q `{!PreOrder Q} client room did sig nonce text :
  (∀ m ws, Q m (Memory (m_state m) (m_last_attempt m) ws)) → Keeps P Q (client_send client room did sig nonce text).
Proof.
  intros HQ. pose proof (λ ws, keeps_put_writes P Q ws (λ m, HQ m ws)).
  unfold client_send, audited_send_signed_message. keeps.
Qed.

(** What is returned was acknowledged as sent. *)
Lemma client_send_Ret client room did sig nonce text posted w w' :
  client_send client room did sig nonce text w = (Ret posted, w') →
  sender posted = did ∧ Protocol.text posted = text ∧ message_ok posted ∧ seq posted < 10 ^ MAX_STR_DIGITS.
Proof.
  destruct client as [c|c]; cbn.
  - by intros (?&_&?&?&_&?&?)%send_signed_message_Ret.
  - unfold audited_send_signed_message. intros (?&?&_&(?&?&_&Hs)%bind_Ret)%bind_Ret.
    apply bind_Ret in Hs as (p&?&(?&_&?&?&_&?&?)%send_signed_message_Ret&Hs).
    by apply bind_Ret in Hs as (?&?&_&(?&?&_&(?&?&_&[-> _]%ret_Ret)%bind_Ret)%bind_Ret).
Qed.
End clients.
#[export] Hint Resolve keeps_client_read : keeps.
#[export] Hint Extern 1 (Keeps _ _ (client_send _ _ _ _ _ _)) =>
  apply keeps_client_send; [apply _|intros ??; hnf; solve [trivial]] : keeps.
