(* ===== verification/Agent.v ===== *)
(** [agent.py]: handling a room snapshot message by message. *)

From S2P Require Import Prelude Errors Text Sha256 Json Crypto Url Effects State Memory Protocol Clients.
From S2P Require Import Capabilities Receipt Policy Delivery AuditLog.

(** An event is the dict that is printed as one JSON line. *)
Abbreviation event_dict := (list (str * json)) (only parsing).

Record SafeResponder := MkSafeResponder {
  a_room : str;
  a_did : str;
  private_key : bytes;
  client : RoomClient;
  policy : CommandPolicy;
  state_path : path;
  receipt_service : option ContributionReceiptService;
  delivery_journal : option path;
  audit_log : option path;
  send : bool
}.

Definition opt_json {A} (f : A → json) (o : option A) : json :=
  match o with Some a => f a | None => JNull end.

(** [event["event"] in {"sent", "sent_receipt"}] *)
Definition is_sent (event : event_dict) : bool :=
  jget (u "event") event in? [JStr (u "sent"); JStr (u "sent_receipt")].

Definition CURSOR_UNCERTAIN : exn := UncertainWriteError
  "reply was acknowledged but its cursor could not be persisted".
Definition CLEAR_UNCERTAIN : exn := UncertainWriteError
  "reply and cursor were persisted but the delivery journal could not be cleared".
Definition WRITE_UNCERTAIN : exn := UncertainWriteError
  "signed write did not return a verifiable acknowledgement".
Definition EVIDENCE_UNCERTAIN : exn := UncertainWriteError
  "reply was acknowledged but its delivery evidence could not be persisted".

Section agent.
Context `{Env} `{UrlLib} `{Ed25519} `{FloatRepr}.
Context (a : SafeResponder).

Definition bootstrap_latest : IO event_dict :=
  snapshot ← client_read_room (client a) (a_room a) 0 (Finite 0 (u "0")) 1 0;
  update_state (observe_generation (a_room a) (generation snapshot));;
  modify_state (advance_cursor (a_room a) (last_seq snapshot));;
  (if send a then save_state (state_path a) else mret tt);;
  mret [(u "event", JStr (u "bootstrapped")); (u "room", JStr (a_room a));
        (u "cursor", JInt (last_seq snapshot));
        (u "mode", JStr (if send a then u "send" else u "dry-run"))].

(** The delivery event is recorded when the message is handed to the client. *)
Definition _send_text (text : str) (input_sequence : Z) : IO RoomMessage :=
  (match delivery_journal a with Some j => require_empty j | None => mret tt end);;
  clock ← time_ns;
  nonce ← update_state (next_nonce (a_room a) clock);
  '(swept, signature) ← lift (sign_room_message (private_key a) (a_room a) (JInt nonce) text);
  (match delivery_journal a with
   | Some j =>
       record ← lift (create (a_room a) input_sequence (a_did a) nonce swept signature);
       prepare record j
   | None => mret tt
   end);;
  emit (EvDeliver (a_room a) input_sequence (nonce, swept, signature));;
  posted ← try_except
    (client_send (client a) (a_room a) (a_did a) signature nonce swept)
    (λ e, is_TransportError e || is_ResponseError e)
    (λ _, raise WRITE_UNCERTAIN);
  (match delivery_journal a with
   | Some j =>
       try_except (acknowledge (seq posted) j;; mret tt) is_DeliveryError
         (λ _, raise EVIDENCE_UNCERTAIN)
   | None => mret tt
   end);;
  mret posted.

Definition _reply_event (event : event_dict) (input_sequence : Z) (command reply : str) : IO event_dict :=
  if negb (send a) then
    mret (dict_update event [(u "event", JStr (u "would_reply")); (u "reply_command", JStr command);
                             (u "reply", JStr reply)])
  else
    posted ← _send_text reply input_sequence;
    mret (dict_update event [(u "event", JStr (u "sent")); (u "reply_seq", JInt (seq posted));
                             (u "reply_command", JStr command)]).

(** [event.update(...)] of a failed receipt, and of one that was sent. *)
Definition receipt_failed_event (event : event_dict) (pull_request : str) (e : exn) : event_dict :=
  match e with
  | GitHubReceiptError _ code status retry_after =>
      dict_update event
        [(u "event", JStr (u "receipt_failed")); (u "pull_request", JStr pull_request);
         (u "error_code", JStr code); (u "http_status", opt_json JInt status);
         (u "retry_after", opt_json JFloat retry_after)]
  | _ => event
  end.

Definition sent_receipt_event (event : event_dict) (pull_request receipt : str) (reply_seq : Z)
  : res event_dict :=
  raw ← utf8_encode receipt;
  Ok (dict_update event
        [(u "event", JStr (u "sent_receipt")); (u "reply_seq", JInt reply_seq);
         (u "pull_request", JStr pull_request); (u "receipt_sha256", JStr (sha256_hex raw))]).

Definition _receipt_event (event : event_dict) (input_sequence : Z) (pull_request : str) : IO event_dict :=
  if negb (send a) then
    mret (dict_update event [(u "event", JStr (u "would_issue_receipt"));
                             (u "pull_request", JStr pull_request); (u "network_requested", JBool false)])
  else
    match receipt_service a with
    | None => raise (ResponseError "receipt command reached an agent without a receipt service")
    | Some service =>
        issued ← try_except (receipt ← issue service pull_request; mret (inl receipt))
          is_GitHubReceiptError (λ e, mret (inr e));
        match issued with
        | inr e => mret (receipt_failed_event event pull_request e)
        | inl receipt =>
            posted ← _send_text receipt input_sequence;
            lift (sent_receipt_event event pull_request receipt (seq posted))
        end
    end.

Definition base_event (decision : Decision) (message : RoomMessage) : event_dict :=
  [(u "event", JStr (action_str (d_action decision))); (u "decision", JStr (action_str (d_action decision)));
   (u "room", JStr (a_room a)); (u "seq", JInt (seq message)); (u "sender", JStr (sender message));
   (u "reason", JStr (d_reason decision))].

Definition _event_for_message (message : RoomMessage) : IO event_dict :=
  decision ← decide message (policy a);
  let event := base_event decision message in
  match d_action decision, d_reply decision, d_target decision with
  | Reply, Some reply, _ => _reply_event event (seq message) (text message) reply
  | IssueReceipt, _, Some target => _receipt_event event (seq message) target
  | _, _, _ => mret event
  end.

(** What [_append_audit_record] passes to the log. *)
Definition audit_fields (message : RoomMessage) (event : event_dict) : res AuditFields :=
  fingerprint ← (if is_signed message then Some <$> fingerprint_of_did (sender message) else Ok None);
  Ok (MkAuditFields (seq message) fingerprint (is_signed message)
        (text_of (jget (u "decision") event)) (text_of (jget (u "reason") event))
        (text_of (jget (u "event") event))
        (match jget (u "receipt_sha256") event with JStr s => Some s | _ => None end)
        (match jget (u "reply_seq") event with JInt z => Some z | _ => None end)).

Definition _append_audit_record (message : RoomMessage) (event : event_dict) : IO unit :=
  match audit_log a with
  | None => raise (AuditError "audit log is not configured")
  | Some log =>
      fields ← lift (audit_fields message event);
      observed_at ← now_utc;
      append log (a_did a) (private_key a) observed_at fields;;
      mret tt
  end.

Definition _persist_processed_message (message : RoomMessage) (event : event_dict) : IO unit :=
  (if send a && bool_decide (is_Some (audit_log a)) then _append_audit_record message event else mret tt);;
  modify_state (advance_cursor (a_room a) (seq message));;
  if negb (send a) then mret tt
  else
    try_except (save_state (state_path a)) is_StateError
      (λ e, raise (if is_sent event then CURSOR_UNCERTAIN else e));;
    match delivery_journal a with
    | Some j =>
        if is_sent event
        then try_except (clear j) is_DeliveryError (λ _, raise CLEAR_UNCERTAIN)
        else mret tt
    | None => mret tt
    end.

(** The loop over the messages: the events so far, the cursor, and whether a
    message was handled. *)
Fixpoint process_messages (ms : list RoomMessage) (cursor : Z) (handled : bool)
    (events : list event_dict) : IO (Z * bool * list event_dict) :=
  match ms with
  | [] => mret (cursor, handled, events)
  | message :: ms' =>
      if seq message <=? cursor then process_messages ms' cursor handled events
      else
        event ← _event_for_message message;
        _persist_processed_message message event;;
        process_messages ms' (seq message) true (events ++ [event])
  end.

Definition generation_event (previous : option Z) (generation : Z) : event_dict :=
  [(u "event", JStr (u "room_generation_changed")); (u "room", JStr (a_room a));
   (u "previous_generation", opt_json JInt previous); (u "generation", JInt generation)].
Definition gap_event (cursor first_available : Z) : event_dict :=
  [(u "event", JStr (u "retention_gap")); (u "room", JStr (a_room a)); (u "cursor", JInt cursor);
   (u "first_available", JInt first_available)].
Definition advanced_event (from to : Z) : event_dict :=
  [(u "event", JStr (u "cursor_advanced_over_unavailable_messages")); (u "room", JStr (a_room a));
   (u "from", JInt from); (u "to", JInt to)].

Definition process_snapshot (snapshot : RoomSnapshot) : IO (list event_dict) :=
  check (room snapshot != a_room a) (ResponseError "agent received a snapshot for a different room");;
  previous_generation ← ask_state (λ s, Ok (generation_for (a_room a) s));
  generation_changed ← try_except
    (update_state (observe_generation (a_room a) (generation snapshot)))
    is_StateError (λ _, raise (ResponseError "Technocore room generation moved backwards"));
  let generation_needs_persist := bool_decide (previous_generation = None) || generation_changed in
  let events := if (generation_changed : bool)
                then [generation_event previous_generation (generation snapshot)] else [] in
  cursor ← ask_state (λ s, Ok (cursor_for (a_room a) s));
  let events := events ++ (if (0 <? first_seq snapshot) && (cursor + 1 <? first_seq snapshot)
                           then [gap_event cursor (first_seq snapshot)] else []) in
  '(cursor, handled, events) ← process_messages (messages snapshot) cursor false events;
  let state_persisted := handled && send a in
  '(state_persisted, events) ←
    (if negb handled && (cursor <? last_seq snapshot) then
       modify_state (advance_cursor (a_room a) (last_seq snapshot));;
       (if send a then save_state (state_path a) else mret tt);;
       mret (send a, events ++ [advanced_event cursor (last_seq snapshot)])
     else mret (state_persisted, events));
  (if send a && generation_needs_persist && negb state_persisted
   then save_state (state_path a) else mret tt);;
  mret events.
End agent.
