(* ===== verification/AgentFacts.v ===== *)
(** What the agent does around its deliveries: a dry run leaves no trace, and an
    exception nobody expects stops it at the same message every time. *)

From S2P Require Import Prelude Errors Text Regex Json Crypto Clock Url Effects State Memory.
From S2P Require Import Protocol Clients Toy Capabilities Receipt UrlFacts Policy PolicyFacts Delivery AuditLog Agent.

(** ** Following one execution *)

Lemma update_state_Ok {A} (f : AgentState → res (A * AgentState)) x s w :
  f (m_state (w_mem w)) = Ok (x, s) → update_state f w = (Ret x, with_state s w).
Proof. intros E. unfold update_state, get_state, mbind, M_bind. cbn. by rewrite E. Qed.

(** ** A message that cannot be handled *)

Definition poison : str := u "/pr https://[".
Definition poison_error : exn := ValueError "Invalid IPv6 URL".

(** The sender may give commands by the flags. *)
Definition flag_authorized (message : RoomMessage) (policy : CommandPolicy) : Prop :=
  capabilities policy = None ∧ sender message ≠ own_did policy ∧ is_signed message = true ∧
  (allow_any_signed policy = true ∨ sender message ∈ allowed_dids policy).

Section poison.
Context `{Env} `{UrlLib} `{Ed25519} `{FloatRepr}.

Lemma decide_poison message policy w :
  flag_authorized message policy → text message = poison →
  decide message policy w = (Raise poison_error, w).
Proof.
  intros (Hc&Ho&Hs&Ha) Ht. unfold decide, _authorize_sender, _grant_for.
  rewrite (bool_decide_eq_false_2 (sender message = own_did policy)), Hs, Hc by done. cbn [negb].
  assert (negb (allow_any_signed policy) && negb (sender message in? allowed_dids policy) = false) as Hand.
  { destruct Ha as [-> | Ha]; [done|]. rewrite (bool_decide_eq_true_2 (_ ∈ _)) by done. by rewrite andb_false_r. }
  erewrite bind_step by (erewrite bind_step by reflexivity; rewrite Hand; reflexivity).
  unfold _decide_authorized_command. rewrite Ht. reflexivity.
Qed.

Lemma process_poison a message ms cursor handled events w :
  flag_authorized message (policy a) → text message = poison → cursor < seq message →
  process_messages a (message :: ms) cursor handled events w = (Raise poison_error, w).
Proof.
  intros Ha Ht Hq. cbn [process_messages]. destruct (Z.leb_spec (seq message) cursor); [lia|].
  apply bind_raises. unfold _event_for_message. apply bind_raises. by apply decide_poison.
Qed.
End poison.

(** C20: one message of an authorised sender stops the agent: for "/pr https://["
    the [ValueError] of the URL splitter reaches the caller of
    [process_snapshot], and neither a file nor the room has changed, so the next
    process meets the same message again. *)
Theorem poison_message_stops_the_agent `{Env} `{UrlLib} `{Ed25519} `{FloatRepr} (a : SafeResponder)
    (snapshot : RoomSnapshot) (message : RoomMessage) (rest : list RoomMessage) (w : world memory) :
  room snapshot = a_room a → messages snapshot = message :: rest →
  cursor_for (a_room a) (m_state (w_mem w)) < seq message →
  is_ok (observe_generation (a_room a) (generation snapshot) (m_state (w_mem w))) = true →
  flag_authorized message (policy a) → text message = poison →
  ∃ w', process_snapshot a snapshot w = (Raise poison_error, w') ∧
    w_fs w' = w_fs w ∧ w_trace w' = w_trace w ∧ cursors (m_state (w_mem w')) = cursors (m_state (w_mem w)).
Proof.
  intros Hr Hm Hq Hg Ha Ht. destruct (observe_generation _ _ _) as [[changed s']|] eqn:Eg; [|done].
  assert (cursors s' = cursors (m_state (w_mem w))) as Hc.
  { unfold observe_generation in Eg. res_inv Eg. by subst. }
  exists (with_state s' w). split; [|done]. unfold process_snapshot. rewrite Hr, Hm.
  erewrite (bind_step _ _ tt) by (apply check_Ret; by rewrite bool_decide_eq_true_2).
  erewrite bind_step by reflexivity. erewrite bind_step.
  - erewrite bind_step by reflexivity. apply bind_raises. apply process_poison; [done..|].
    unfold cursor_for in *. cbn. by rewrite Hc.
  - unfold try_except. by rewrite (update_state_Ok _ _ _ _ Eg).
Qed.

Definition sample_agent : SafeResponder :=
  MkSafeResponder (u "lobby") (u "did:key:own") (toy_seed 1) (Direct (MkTechnocoreClient (u "https://technocore.chat") 20))
    sample_policy (Path (u "/state")) None None None false.

Lemma poison_message_stops_the_agent_witness :
  ∃ w', process_snapshot (H := quiet_env) sample_agent
          (MkRoomSnapshot (u "lobby") 5 5 [sample_message poison] 0) (toy_world empty_memory []) = (Raise poison_error, w') ∧
    w_fs w' = ∅ ∧ w_trace w' = [] ∧ cursors (m_state (w_mem w')) = ∅.
Proof.
  destruct (poison_message_stops_the_agent (H := quiet_env) sample_agent
    (MkRoomSnapshot (u "lobby") 5 5 [sample_message poison] 0) (sample_message poison) []
    (toy_world empty_memory [])) as (w'&E&Hf&Ht&Hc).
  - reflexivity.
  - reflexivity.
  - by vm_compute.
  - by vm_compute.
  - split; [reflexivity|]. split; [apply (bool_decide_unpack _); by vm_compute|].
    split; [by vm_compute|]. right. apply (bool_decide_unpack _). by vm_compute.
  - reflexivity.
  - exists w'. split; [exact E|]. split; [exact Hf|]. split; [exact Ht|exact Hc].
Defined.
