(* ===== verification/Recovery.v ===== *)
(** [delivery_recovery.py]: resolving the one delivery whose outcome is not
    known. *)

From S2P Require Import Prelude Errors Text Json Crypto Url Effects State Memory Protocol Delivery.
From S2P Require Import Agent.

(** The arguments of [recover_delivery]; the state is the shared one. *)
Record recovery := MkRecovery {
  rec_room : str;
  rec_did : str;
  rec_client : TechnocoreClient;
  rec_state_path : path;
  rec_journal : path;
  rec_apply : bool;
  rec_confirm_retry : bool
}.

(** [list(range(a, b))] of the sequences after the input. *)
Definition _is_complete_history (snapshot : RoomSnapshot) (input_sequence : Z) : bool :=
  if (last_seq snapshot =? input_sequence) && bool_decide (messages snapshot = []) then true
  else if bool_decide (messages snapshot = []) || (last_seq snapshot <? input_sequence) then false
  else
    let expected := seqZ (input_sequence + 1) (last_seq snapshot - input_sequence) in
    let observed := map seq (messages snapshot) in
    (first_seq snapshot =? input_sequence + 1) && bool_decide (observed = expected).

Definition RETRY_UNCERTAIN : exn := UncertainWriteError
  "delivery retry did not return a verifiable acknowledgement".
Definition FINALIZE_UNCERTAIN : exn := UncertainWriteError
  "delivery state could not be finalized; run recover-delivery again without retrying".

Section recovery.
Context `{Env} `{Ed25519} `{FloatRepr}.
Context (c : recovery).

Definition _persist_recovered_state (room : str) (record : DeliveryRecord) : IO unit :=
  modify_state (observe_nonce room (r_nonce record));;
  modify_state (λ s, advance_cursor room (cursor_for room s `max` input_sequence record) s);;
  save_state (rec_state_path c).

Definition _finalize_recovery (room : str) (record : DeliveryRecord) (reply_sequence : Z) : IO unit :=
  try_except
    (acknowledge reply_sequence (rec_journal c);;
     _persist_recovered_state room record;;
     clear (rec_journal c))
    (λ e, is_DeliveryError e || is_StateError e)
    (λ _, raise FINALIZE_UNCERTAIN).

Definition _retry_exact_envelope (room : str) (record : DeliveryRecord) : IO RoomMessage :=
  emit (EvDeliver room (input_sequence record) (record_envelope record));;
  try_except
    (send_signed_message (rec_client c) room (did record) (signature record) (JInt (r_nonce record))
       (r_text record))
    (λ e, is_TransportError e || is_ResponseError e)
    (λ _, raise RETRY_UNCERTAIN).

Definition recovery_event (name : string) (room : str) (record : DeliveryRecord) (fields : list (str * json))
  : list (str * json) :=
  [(u "event", JStr (u name)); (u "room", JStr room); (u "input_seq", JInt (input_sequence record))]
  ++ fields.

Definition _recover_acknowledged (room : str) (record : DeliveryRecord) : IO (list (str * json)) :=
  if negb (rec_apply c) then
    mret (recovery_event "delivery_acknowledged" room record
            [(u "reply_seq", opt_json JInt (reply_sequence record)); (u "apply_required", JBool true)])
  else
    match reply_sequence record with
    | None => raise AssertionError
    | Some reply =>
        _finalize_recovery room record reply;;
        mret (recovery_event "delivery_recovered" room record
                [(u "reply_seq", JInt reply); (u "retried", JBool false);
                 (u "evidence", JStr (u "verified_acknowledgement"))])
    end.

Definition _recover_pending (room : str) (record : DeliveryRecord) (snapshot : RoomSnapshot)
  : IO (list (str * json)) :=
  let complete := _is_complete_history snapshot (input_sequence record) in
  let found := List.filter (matches record) (messages snapshot) in
  if negb complete then
    mret (recovery_event "delivery_history_incomplete" room record
            [(u "matches_observed", JInt (length found)); (u "retry_available", JBool false);
             (u "reason", JStr (u "cannot prove the delivery count or absence"))])
  else
    match found with
    | _ :: _ :: _ =>
        mret (recovery_event "duplicate_delivery_records" room record
                [(u "reply_sequences", JList (map (λ m, JInt (seq m)) found));
                 (u "retry_available", JBool false)])
    | [m] =>
        if negb (rec_apply c) then
          mret (recovery_event "delivery_found" room record
                  [(u "reply_seq", JInt (seq m)); (u "apply_required", JBool true)])
        else
          _finalize_recovery room record (seq m);;
          mret (recovery_event "delivery_recovered" room record
                  [(u "reply_seq", JInt (seq m)); (u "retried", JBool false);
                   (u "evidence", JStr (u "room_history"))])
    | [] =>
        if negb (rec_apply c && rec_confirm_retry c) then
          mret (recovery_event "delivery_not_found" room record
                  [(u "retry_available", JBool true);
                   (u "required_flags", JList [JStr (u "--apply"); JStr (u "--confirm-retry")])])
        else
          posted ← _retry_exact_envelope room record;
          _finalize_recovery room record (seq posted);;
          mret (recovery_event "delivery_retried" room record
                  [(u "reply_seq", JInt (seq posted)); (u "retried", JBool true)])
    end.

Definition recover_delivery : IO (list (str * json)) :=
  valid_room ← lift (validate_room (rec_room c));
  valid_did ← lift (validate_did (rec_did c));
  check (rec_confirm_retry c && negb (rec_apply c)) (DeliveryError "--confirm-retry requires --apply");;
  loaded ← load_journal (rec_journal c);
  match loaded with
  | None => mret [(u "event", JStr (u "no_pending_delivery")); (u "room", JStr valid_room)]
  | Some record =>
      lift (verify_for_room valid_room record);;
      check (did record != valid_did) (DeliveryError "delivery journal belongs to a different identity");;
      match status record with
      | Acknowledged => _recover_acknowledged valid_room record
      | Pending =>
          snapshot ← read_room (rec_client c) valid_room (input_sequence record) (Finite 0 (u "0")) 200 0;
          _recover_pending valid_room record snapshot
      end
  end.
End recovery.
