(* ===== verification/DeliveryFacts.v ===== *)
(** What the journal of [delivery.py] and [delivery_recovery.py] guarantee. *)

From S2P Require Import Prelude Errors Text Regex Sha256 Json Crypto Url Effects State Memory.
From S2P Require Import Protocol Toy Delivery Agent Recovery.

(** The journal holds what was prepared.  A record that [create] made and
    [prepare] wrote is what every later [load_journal] returns, as long as nothing
    else writes the file; there was no journal before, and until the file is
    removed [require_empty] lets nothing pass. *)
Theorem journal_holds_what_was_prepared {Mem} `{Env} `{Ed25519} (j : path) (room did text sig : str)
    (q n : Z) (rec : DeliveryRecord) (w w1 w2 : world Mem) :
  is_temp j = false → q < 10 ^ MAX_STR_DIGITS →
  create room q did n text sig = Ok rec → prepare rec j w = (Ret tt, w1) →
  w_fs w2 !! j = w_fs w1 !! j →
  w_fs w !! j = None ∧
  (∀ o w3, load_journal j w2 = (Ret o, w3) → o = Some rec) ∧
  (∀ w3, require_empty j w2 ≠ (Ret tt, w3)).
Proof.
  intros Hj Hq Hc Hp Hw2. apply create_Ok in Hc as (Hrec&_); [|done]. unfold prepare in Hp.
  apply bind_Ret in Hp as (b&w0&[-> ->]%path_exists_Ret&Hp). apply bind_Ret in Hp as (?&w0&[Hn ->]%check_Ret&Hp).
  assert (journal_holds j rec w1) as Hj1.
  { pose proof (wp__write rec j (λ o w', journal_write rec j (ticked w) o w') (ticked w) Hj (λ _ _ H, H)) as Hw.
    unfold wp in Hw. rewrite Hp in Hw. by destruct Hw as [_ [?|[[] _]] _]. }
  assert (journal_holds j rec w2) as Hj2 by (unfold journal_holds in *; by rewrite Hw2).
  split; [|split].
  - destruct (w_fs w !! j); [|done]. by rewrite bool_decide_eq_true_2 in Hn by eauto.
  - intros o w3 Hl. apply load_journal_Ret in Hl as (_&Hl&_). by apply Hl.
  - intros w3 Hr%require_empty_Ret. unfold no_journal, journal_holds in *. congruence.
Qed.

Definition toy_io : Env := toy_env (λ _, NoFault) (λ _, HttpFailed).
Definition sample_did : str := match did_from_private_key (toy_seed 1) with Ok did => did | Err _ => [] end.
Definition sample_sig : str :=
  match sign_room_message (toy_seed 1) (u "lobby") (JInt 7) (u "pong") with Ok (_, sig) => sig | Err _ => [] end.
Definition sample_record : DeliveryRecord :=
  MkDeliveryRecord Pending (sha256_hex (u "lobby")) 5 sample_did 7 (u "pong") (sha256_hex (u "pong")) sample_sig None.
Definition sample_journal : path := Path (u "/j").

Lemma journal_holds_what_was_prepared_witness :
  let w := toy_world tt [] in
  let w1 := (@prepare unit toy_io sample_record sample_journal w).2 in
  w_fs w !! sample_journal = None ∧
  (∀ o w3, @load_journal unit toy_io sample_journal w1 = (Ret o, w3) → o = Some sample_record) ∧
  (∀ w3, @require_empty unit toy_io sample_journal w1 ≠ (Ret tt, w3)).
Proof.
  intros w w1. apply (@journal_holds_what_was_prepared unit toy_io toy_ed25519 sample_journal (u "lobby") sample_did
    (u "pong") sample_sig 5 7 sample_record w w1 w1); [done|by apply Z.ltb_lt; vm_compute| | |done];
    vm_compute; reflexivity.
Defined.

(** ** Recovery *)

(** A history is called complete only if it shows every message after the
    input: whatever sequence number lies between the input and the last one is
    that of a message of the snapshot. *)
Theorem complete_history_shows_all (room : str) (snapshot : RoomSnapshot) (input q : Z) :
  snapshot_ok room snapshot → _is_complete_history snapshot input = true →
  input < q ≤ last_seq snapshot → ∃ m, m ∈ messages snapshot ∧ seq m = q.
Proof.
  intros _ Hc Hq. unfold _is_complete_history in Hc.
  destruct (last_seq snapshot =? input) eqn:E; [apply Z.eqb_eq in E; lia|]. cbn [andb] in Hc.
  destruct (bool_decide (messages snapshot = []) || (last_seq snapshot <? input)); [done|].
  apply andb_true_iff in Hc as [_ Hc%bool_decide_eq_true].
  assert (q ∈ map seq (messages snapshot)) as Hin by (rewrite Hc; apply elem_of_seqZ; lia).
  apply list_elem_of_In, in_map_iff in Hin as (m&<-&Hm%list_elem_of_In). eauto.
Qed.

Definition sample_message (q : Z) : RoomMessage := MkRoomMessage q (u "someone") (u "hello") None.
Definition sample_snapshot : RoomSnapshot := MkRoomSnapshot (u "lobby") 6 7 [sample_message 6; sample_message 7] 0.

Lemma complete_history_shows_all_witness :
  ∃ m, m ∈ messages sample_snapshot ∧ seq m = 7.
Proof.
  apply (complete_history_shows_all (u "lobby") sample_snapshot 5); [|done|cbn; lia].
  split; [done|done| | |done]; repeat constructor; done || lia.
Defined.

Section recovery_facts.
Context `{Env} `{Ed25519} `{FloatRepr}.
Implicit Types (c : recovery) (w : world memory).
Set Default Proof Using "All".

(** Without [--apply] a recovery only reads. *)
Lemma keeps_recover_pending c room rec snapshot :
  rec_apply c = false → Keeps (λ _, True) eq (_recover_pending c room rec snapshot).
Proof.
  intros Ha. unfold _recover_pending. rewrite Ha. cbn [negb andb]. cbv zeta.
  destruct (negb _); [apply keeps_ret; apply _|]. destruct (List.filter _ _) as [|? [|]]; apply keeps_ret; apply _.
Qed.

Lemma keeps_recover c : rec_apply c = false → Keeps (λ _, True) eq (recover_delivery c).
Proof.
  intros Ha. unfold recover_delivery, _recover_acknowledged. rewrite Ha. cbn [negb].
  pose proof (λ room rec snap, keeps_recover_pending c room rec snap Ha). keeps; auto.
Qed.

(** Nothing is delivered. *)
#[local] Abbreviation Silent m := (Keeps no_path anything m).

Lemma silent_write r j : Silent (_write r j).
Proof. unfold _write, write_temporary, sync_directory, os_errors. keeps; eauto with keeps. Qed.

Lemma silent_save s p : Silent (save s p).
Proof. unfold save, write_temporary, os_errors. keeps; eauto with keeps. Qed.

Lemma silent_modify f : Silent (modify_state f).
Proof.
  intros w. change (frame no_path anything w (modify_state f w).2).
  apply (wp_modify_state f (λ _ w', frame no_path anything w w')). by destruct (f _).
Qed.

Lemma silent_finalize c room rec reply : Silent (_finalize_recovery c room rec reply).
Proof.
  unfold _finalize_recovery, acknowledge, _persist_recovered_state, clear, sync_directory, save_state, get_state.
  pose proof silent_write. pose proof silent_save. pose proof silent_modify. keeps; auto.
Qed.

(** What may have been delivered. *)
Definition retry_of c (w w' : world memory) : Prop :=
  rec_apply c = true ∧ rec_confirm_retry c = true ∧
  ∃ rec snapshot w1 w2,
    load_journal (rec_journal c) w = (Ret (Some rec), w1) ∧ status rec = Pending ∧
    read_room (rec_client c) (rec_room c) (input_sequence rec) (Finite 0 (u "0")) 200 0 w1 = (Ret snapshot, w2) ∧
    _is_complete_history snapshot (input_sequence rec) = true ∧
    Forall (λ m, matches rec m = false) (messages snapshot) ∧
    deliveries (w_trace w') = deliveries (w_trace w) ++ [(rec_room c, input_sequence rec, record_envelope rec)].

#[local] Abbreviation quiet w := (λ _ w', deliveries (w_trace w') = deliveries (w_trace w)).

Lemma wp_quiet {A} (m : IO A) w : Silent m → wp m (quiet w) w.
Proof. intros Hm. apply (wp_steps _ _ _ _ Hm). by intros o w' [_ _ T] _. Qed.

Lemma filter_nil_Forall {A} (f : A → bool) l : List.filter f l = [] → Forall (λ x, f x = false) l.
Proof.
  induction l as [|x l IH]; cbn; [by constructor|]. destruct (f x) eqn:E; [done|]. by constructor; [|apply IH].
Qed.

(** The retry and what follows it. *)
Lemma wp_retry c room rec w (Φ : outcome (list (str * json)) → world memory → Prop) :
  (∀ o w', deliveries (w_trace w')
           = deliveries (w_trace w) ++ [(room, input_sequence rec, record_envelope rec)] → Φ o w') →
  wp (posted ← _retry_exact_envelope c room rec;
      _finalize_recovery c room rec (seq posted);;
      mret (recovery_event "delivery_retried" room rec
              [(u "reply_seq", JInt (seq posted)); (u "retried", JBool true)])) Φ w.
Proof.
  intros HΦ. unfold _retry_exact_envelope. apply wp_bind, wp_bind.
  set (w0 := World (w_fs w) (w_mem w) (w_tick w) (w_trace w ++ [EvDeliver room (input_sequence rec) (record_envelope rec)])).
  assert (deliveries (w_trace w0)
          = deliveries (w_trace w) ++ [(room, input_sequence rec, record_envelope rec)]) as E0
    by apply deliveries_app.
  match goal with |- wp (emit _) ?Ψ w => change (Ψ (Ret tt) w0) end. cbv beta iota.
  eapply wp_mono; [apply wp_quiet; keeps|]. intros [posted|e|] w1 E1; cbv beta in E1; [|by apply HΦ; rewrite E1..].
  apply wp_bind. eapply wp_mono; [apply wp_quiet, silent_finalize|].
  intros [[]|e|] w2 E2; cbv beta in E2; [apply wp_ret|..]; apply HΦ; by rewrite E2, E1.
Qed.

Lemma wp_recover c w :
  wp (recover_delivery c) (λ _ w', deliveries (w_trace w') = deliveries (w_trace w) ∨ retry_of c w w') w.
Proof.
  assert (∀ A (m : IO A) w0, Silent m → deliveries (w_trace w0) = deliveries (w_trace w) →
    wp m (λ _ w', deliveries (w_trace w') = deliveries (w_trace w) ∨ retry_of c w w') w0) as Hq.
  { intros A m w0 Hm E. eapply wp_mono; [by apply wp_quiet|]. intros o w' E'. left. congruence. }
  unfold recover_delivery. apply wp_bind, wp_lift. destruct (validate_room (rec_room c)) as [vr|] eqn:Evr; [|by left].
  apply validate_room_Ok in Evr as [-> _].
  apply wp_bind, wp_lift. destruct (validate_did (rec_did c)) as [vd|]; [|by left].
  apply wp_bind, wp_lift. destruct (raise_if _ _) as [[]|]; [|by left].
  apply wp_bind, (wp_steps (frame (λ _, True) eq)); [keeps|].
  intros [[rec|]|e|] w1 [F1 _ T1] Hload; [|by left..].
  apply wp_bind, wp_lift. destruct (verify_for_room _ _) as [[]|]; [|by left].
  apply wp_bind, wp_lift. destruct (raise_if _ _) as [[]|]; [|by left].
  destruct (status rec) eqn:Est.
  2: { apply Hq; [|done]. unfold _recover_acknowledged.
       pose proof (λ q, silent_finalize c (rec_room c) rec q). keeps; auto. }
  apply wp_bind, (wp_steps (frame (λ _, True) eq)); [keeps|].
  intros [snapshot|e|] w2 [F2 _ T2] Hread; [|left; congruence..].
  unfold _recover_pending. cbv zeta. destruct (_is_complete_history _ _) eqn:Ecomp; cbn [negb]; [|apply Hq; [keeps|congruence]].
  destruct (List.filter _ _) as [|m [|m' ms]] eqn:Ef; [| |apply Hq; [keeps|congruence]].
  - destruct (rec_apply c && rec_confirm_retry c) eqn:Eflags; cbn [negb]; [|apply Hq; [keeps|congruence]].
    apply andb_true_iff in Eflags as [Ha Hr]. apply wp_retry. intros o w' E. right. split; [done|]. split; [done|].
    exists rec, snapshot, w1, w2. do 4 (split; [done|]). split; [by apply filter_nil_Forall|].
    rewrite E. congruence.
  - destruct (rec_apply c); cbn [negb]; [|apply Hq; [keeps|congruence]]. apply Hq; [|congruence].
    pose proof (λ q, silent_finalize c (rec_room c) rec q). keeps; auto.
Qed.
End recovery_facts.

(** C12: [recover-delivery] sends something only with [--apply] and
    [--confirm-retry], only when the journal holds a pending record, and only after
    it has read a complete history in which no message matches the record; what it
    sends, once, is the message of the record.  Without [--apply] it changes no
    file and delivers nothing. *)
Theorem retry_needs_proof_of_absence `{Env} `{Ed25519} `{FloatRepr} (c : recovery) (w : world memory) :
  let w' := (recover_delivery c w).2 in
  (deliveries (w_trace w') = deliveries (w_trace w) ∨
   (rec_apply c = true ∧ rec_confirm_retry c = true ∧
    ∃ rec snapshot w1 w2,
      load_journal (rec_journal c) w = (Ret (Some rec), w1) ∧ status rec = Pending ∧
      read_room (rec_client c) (rec_room c) (input_sequence rec) (Finite 0 (u "0")) 200 0 w1 = (Ret snapshot, w2) ∧
      _is_complete_history snapshot (input_sequence rec) = true ∧
      Forall (λ m, matches rec m = false) (messages snapshot) ∧
      deliveries (w_trace w')
      = deliveries (w_trace w) ++ [(rec_room c, input_sequence rec, record_envelope rec)])) ∧
  (rec_apply c = false → w_fs w' = w_fs w ∧ deliveries (w_trace w') = deliveries (w_trace w)).
Proof.
  split; [apply wp_recover|]. intros Ha. destruct (keeps_recover c Ha w) as [F _ T]. split; [|done].
  apply map_eq. intros q. by apply F.
Qed.
