(* ===== verification/Run.v ===== *)
(** [cli.py], the [run] and [recover-delivery] commands: how a live process is
    put together from the other components. *)

From S2P Require Import Prelude Errors Text Json Crypto Url Effects State Memory Protocol Clients.
From S2P Require Import Capabilities Receipt Policy Delivery AuditLog Config Identity Lock Agent.
From S2P Require Import Recovery.

Inductive start_at : Type := StartLatest | StartSaved | StartZero.
#[export] Instance start_at_eq_dec : EqDecision start_at.
Proof. solve_decision. Defined.

(** The options; a path is resolved already, [None] is an option not given. *)
Record RunArgs := MkRunArgs {
  identity : str;
  arg_room : option str;
  arg_config : option str;
  arg_base_url : option str;
  arg_timeout : pyfloat;
  github_timeout : pyfloat;
  wait : pyfloat;
  limit : Z;
  once : bool;
  arg_start_at : start_at;
  arg_state : option str;
  journal : option str;
  lock : option str;
  arg_audit_log : option str;
  allow_did : list str;
  arg_allow_any_signed : bool;
  capability_policy : option str;
  arg_send : bool;
  (* [recover-delivery] *)
  arg_apply : bool;
  confirm_retry : bool
}.

(** ** Paths *)

(** [path.with_name(name)] of an absolute path. *)
Definition with_name (p name : str) : res str :=
  match rpartition 47 p with
  | (_, []) => Err (ValueError "path has an empty name")
  | (Some parent, _) => Ok (parent ++ [47] ++ name)
  | (None, _) => Ok name
  end.

Definition _path_beside_identity (selected : option str) (identity_path default_name : str) : res path :=
  match selected with
  | Some p => Ok (Path p)
  | None => Path <$> with_name identity_path default_name
  end.

Definition _paths_beside_identity (args : RunArgs) : res (str * path * path) :=
  let identity_path := identity args in
  config_path ← _path_beside_identity (arg_config args) identity_path (u "safe-agent-config.json");
  state_path ← _path_beside_identity (arg_state args) identity_path (u "safe-agent-state.json");
  Ok (identity_path, config_path, state_path).

Definition journal_path (args : RunArgs) (identity_path : str) : res path :=
  _path_beside_identity (journal args) identity_path (u "safe-agent-delivery.json").
Definition lock_path (args : RunArgs) (identity_path : str) : res path :=
  _path_beside_identity (lock args) identity_path (u "safe-agent.lock").
Definition audit_path (args : RunArgs) (identity_path : str) : res path :=
  _path_beside_identity (arg_audit_log args) identity_path (u "safe-agent-audit.jsonl").

(** [next(iter(option), default)] of an option that counts as missing when
    empty. *)
Definition or_else (o : option str) (d : str) : str :=
  match o with Some (c :: s) => c :: s | _ => d end.

Definition DEFAULT_BASE_URL : str := u "https://technocore.chat".

(** The room and the server; the two commands say differently that the room is
    not known. *)
Definition resolve_target (unknown : exn) (args : RunArgs) (config : option AgentConfig) : res (str * str) :=
  room ← (match arg_room args, config with
          | Some (c :: s), _ => validate_room (c :: s)
          | _, Some config => Ok (str_of (c_room config))
          | _, None => Err unknown
          end);
  let base_url := or_else (arg_base_url args)
    (match config with Some config => str_of (c_base_url config) | None => DEFAULT_BASE_URL end) in
  Ok (room, base_url).

Definition _resolve_runtime_target : RunArgs → option AgentConfig → res (str * str) :=
  resolve_target (ConfigError "no provisioned config exists; pass --room or run provision first").
Definition recovery_target : RunArgs → option AgentConfig → res (str * str) :=
  resolve_target (ConfigError "no active config exists; pass --room or select the provisioned config").

Section run.
Context `{Env} `{UrlLib} `{Ed25519} `{FloatRepr} `{Keychain}.
Context (args : RunArgs).

(** Writing an event to the standard output may fail. *)
Definition _print_event (event : event_dict) : IO unit := Effects.action;; mret tt.

(** The configuration, if there is one; the two commands say differently that
    it is not active. *)
Definition active_config (pending : exn) (record : IdentityRecord) (config_path : path)
  : IO (option AgentConfig) :=
  exists_ ← path_exists config_path;
  if negb exists_ then mret None
  else
    config ← load_config config_path;
    check ((c_did config != JStr (i_did record)) || (c_fingerprint config != JStr (i_fingerprint record)))
      (ConfigError "agent config does not belong to the selected public identity");;
    check (c_status config != JStr (u "active")) pending;;
    mret (Some config).

Definition _load_active_config : IdentityRecord → path → IO (option AgentConfig) :=
  active_config (ConfigError "agent config is pending; inspect provisioning before running").
Definition recovery_config : IdentityRecord → path → IO (option AgentConfig) :=
  active_config (ConfigError "agent config must be active for delivery recovery").

Definition _command_policy (own_did : str) (state_path : path) : IO CommandPolicy :=
  match capability_policy args with
  | Some file =>
      load_policy (Path file);;
      lift (policy_init
        (MkCommandPolicy own_did [] false (Some (Path file))
           (Some (MkCapabilityRateLimiter state_path (arg_send args)))))
  | None =>
      allowed ← lift (mapM_res validate_did (allow_did args));
      check (arg_send args && bool_decide (allowed = []) && negb (arg_allow_any_signed args))
        (ProtocolValueError
           "--send requires --capability-policy, at least one --allow-did, or the explicit --allow-any-signed flag");;
      lift (policy_init (MkCommandPolicy own_did allowed (arg_allow_any_signed args) None None))
  end.

(** The audit log of another agent is refused. *)
Definition _live_artifacts (identity_path did : str) : IO (option path * option path) :=
  if negb (arg_send args) then mret (None, None)
  else
    journal ← lift (journal_path args identity_path);
    require_empty journal;;
    audit ← lift (audit_path args identity_path);
    exists_ ← path_exists audit;
    (if (exists_ : bool) then
       summary ← verify audit None;
       check (match issuer summary with Some issuer => issuer != did | None => false end)
         (AuditError "audit log belongs to a different agent DID")
     else mret tt);;
    mret (Some journal, Some audit).

(** [ContributionReceiptService(..., GitHubPublicClient(timeout=...))] *)
Definition make_service (did : str) (key : bytes) : res ContributionReceiptService :=
  _bounded_float (github_timeout args) (1 # 10) 60;;
  validate_did did;;
  Ok (MkReceiptService did key 60).

(** [_initialize_cursor]: whether the command is done. *)
Definition _initialize_cursor (responder : SafeResponder) : IO bool :=
  known ← ask_state (λ s, Ok (bool_decide (is_Some (cursors s !! a_room responder))));
  if (known : bool) then mret false
  else
    match arg_start_at args with
    | StartSaved =>
        raise (StateError "no saved cursor exists for this room; choose --start-at latest or --start-at zero")
    | StartLatest => event ← bootstrap_latest responder; _print_event event;; mret (once args)
    | StartZero => mret false
    end.

(** One iteration of [_poll] up to the handler of a [TransportError]. *)
Definition poll_once (responder : SafeResponder) (cache_buster : Z) : IO unit :=
  requested_cursor ← ask_state (λ s, Ok (cursor_for (a_room responder) s));
  snapshot ← client_read_room (client responder) (a_room responder) requested_cursor
    (if once args then Finite 0 (u "0") else wait args) (limit args) cache_buster;
  check (last_seq snapshot <? requested_cursor)
    (ResponseError "room checkpoint is behind the saved cursor; refusing automatic rewind");;
  events ← process_snapshot responder snapshot;
  mapM_ _print_event events.

Definition retry_event (room : str) (delay : Q) (http_status : option Z) : event_dict :=
  [(u "event", JStr (u "read_retry")); (u "room", JStr room);
   (u "delay_seconds", JFloat (Finite delay (float_repr delay))); (u "http_status", opt_json JInt http_status)].

(** Sleeping until the deadline: the process may be stopped at any clock
    reading; [fuel] bounds how many there are. *)
Fixpoint sleep_until (fuel : nat) (deadline : Q) : IO unit :=
  match fuel with
  | O => crash
  | S fuel =>
      now ← time_monotonic;
      if Qle_bool deadline now then mret tt
      else Effects.action;; sleep_until fuel deadline
  end.

Definition MIN_DELAY : Q := 1 # 2.
Definition MAX_BACKOFF : Q := 30.
Definition retry_delay (retry_after : option pyfloat) (backoff : Q) : Q :=
  Qmax (match retry_after with Some (Finite q _) => q | _ => backoff end) MIN_DELAY.
Definition next_backoff (backoff : Q) : Q := if Qle_bool MAX_BACKOFF (backoff * 2) then MAX_BACKOFF else (backoff * 2)%Q.

(** [while True]: the process is stopped when the fuel is used up. *)
Fixpoint _poll (fuel : nat) (responder : SafeResponder) (cache_buster : Z) (backoff : Q) : IO unit :=
  match fuel with
  | O => crash
  | S fuel =>
      backoff' ← try_except
        (poll_once responder cache_buster;; mret 1%Q)
        is_TransportError
        (λ e, if once args then raise e
              else
                match e with
                | TransportError _ status retry_after =>
                    let delay := retry_delay retry_after backoff in
                    _print_event (retry_event (a_room responder) delay status);;
                    start ← time_monotonic;
                    sleep_until fuel (start + delay)%Q;;
                    mret (next_backoff backoff)
                | _ => raise e
                end);
      if once args then mret tt else _poll fuel responder (cache_buster + 1) backoff'
  end.

Definition _run_with_identity (fuel : nat) (record : IdentityRecord) (private_key : bytes)
    (identity_path : str) (config_path default_state_path : path) : IO unit :=
  config ← _load_active_config record config_path;
  '(room, base_url) ← lift (_resolve_runtime_target args config);
  let state_path := match arg_state args with Some p => Path p | None => default_state_path end in
  state ← load state_path;
  put_state state;;
  policy ← _command_policy (i_did record) state_path;
  '(delivery_journal, audit_log) ← _live_artifacts identity_path (i_did record);
  client ← lift (make_client base_url (arg_timeout args));
  service ← lift (make_service (i_did record) private_key);
  let responder := MkSafeResponder room (i_did record) private_key (Direct client) policy state_path
                     (Some service) delivery_journal audit_log (arg_send args) in
  done ← _initialize_cursor responder;
  if (done : bool) then mret tt else _poll fuel responder 1 1.

(** A process starts with nothing in memory. *)
Definition _run (fuel : nat) : IO unit :=
  put_mem empty_memory;;
  '(record, private_key) ← _load_identity (Path (identity args));
  '(identity_path, config_path, default_state_path) ← lift (_paths_beside_identity args);
  lock ← lift (lock_path args identity_path);
  let body := _run_with_identity fuel record private_key identity_path config_path default_state_path in
  if arg_send args then with_lock lock body else body.

Definition recover_command : IO (list (str * json)) :=
  '(identity_path, config_path, default_state_path) ← lift (_paths_beside_identity args);
  record ← load_identity_record (Path identity_path);
  config ← recovery_config record config_path;
  '(room, base_url) ← lift (recovery_target args config);
  let state_path := match arg_state args with Some p => Path p | None => default_state_path end in
  journal ← lift (journal_path args identity_path);
  lock ← lift (lock_path args identity_path);
  event ← with_lock lock
    (state ← load state_path;
     put_state state;;
     client ← lift (make_client base_url (arg_timeout args));
     recover_delivery (MkRecovery room (i_did record) client state_path journal (arg_apply args)
                         (confirm_retry args)));
  _print_event event;;
  mret event.

Definition _recover_delivery : IO (list (str * json)) := put_mem empty_memory;; recover_command.
End run.
