(* ===== verification/Provision.v ===== *)
(** [provision.py]: the one-time creation of a mailbox, and its recovery when
    the outcome of the first write is not known; with the [provision] and
    [recover] commands of [cli.py]. *)

From S2P Require Import Prelude Errors Text Regex Json Crypto Url Clock Effects State Memory Protocol.
From S2P Require Import Config Identity Run.

(** [datetime.now(UTC).isoformat()] shows the microseconds, which the dates of
    [Clock] leave out. *)
Class Microseconds := env_micros : nat → Z.

Definition digit6 (n : Z) : str := digit2 (n / 10000) ++ digit4 (n mod 10000).

Definition isoformat (d : datetime) (micros : Z) : str :=
  digit4 (dt_year d) ++ 45 :: digit2 (dt_month d) ++ 45 :: digit2 (dt_day d) ++ 84 ::
  digit2 (dt_hour d) ++ 58 :: digit2 (dt_minute d) ++ 58 :: digit2 (dt_second d) ++
  (if micros =? 0 then [] else 46 :: digit6 micros) ++ u "+00:00".

Definition _online_text (name did : str) : str :=
  u "safe-responder-online-v1 agent:" ++ name ++ u " did:" ++ did
  ++ u " commands:/ping,/status,/about,/help policy:signed-commands-only no-tools".

(** [replace(pending, status="active", provisioned_seq=sequence)] *)
Definition activated (c : AgentConfig) (sequence : Z) : AgentConfig :=
  MkAgentConfig (c_schema c) (c_name c) (c_did c) (c_fingerprint c) (c_room c) (c_base_url c)
    (JStr (u "active")) (created_at c) (provision_nonce c) (JInt sequence).

Definition pending_config (name : str) (record : IdentityRecord) (room base_url nonce created : str)
  : AgentConfig :=
  MkAgentConfig (JStr CONFIG_SCHEMA) (JStr name) (JStr (i_did record)) (JStr (i_fingerprint record))
    (JStr room) (JStr base_url) (JStr (u "pending")) (JStr created) (JStr nonce) JNull.

Definition PROVISION_UNCERTAIN : exn := UncertainWriteError "mailbox provisioning has an uncertain result".
Definition MAILBOX_RETRY_UNCERTAIN : exn :=
  UncertainWriteError "manual mailbox retry has an uncertain result".
Definition ACTIVATION_UNCERTAIN : exn :=
  UncertainWriteError "mailbox is active but its cursor state could not be persisted".

(** [message.sender == pending.did and message.nonce == ... and ...] *)
Definition is_announcement (pending : AgentConfig) (expected_text : str) (m : RoomMessage) : bool :=
  (JStr (sender m) == c_did pending) &&
  (match nonce m with Some n => JStr n | None => JNull end == provision_nonce pending) &&
  (text m == expected_text).

(** [next((m for m in messages if ...), None)] *)
Definition first_match {A} (p : A → bool) (l : list A) : option A := head (List.filter p l).

Definition complete_history (snapshot : RoomSnapshot) : bool :=
  (last_seq snapshot =? 0) ||
  match last (messages snapshot) with
  | Some m => (first_seq snapshot =? 1) && (seq m =? last_seq snapshot)
  | None => false
  end.

(** [str(path)] of a resolved path. *)
Definition path_text (p : path) : str := match p with Path s => s | Temp _ => [] end.

(** [int(pending.provision_nonce)] *)
Definition nonce_int (v : json) : res Z :=
  match v with
  | JInt z => Ok z
  | JStr s => int_of_digits s
  | _ => Err (TypeError "int() argument must be a string or a real number")
  end.

Section provision.
Context {Mem : Type} `{Env} `{UrlLib} `{Ed25519} `{FloatRepr} `{Microseconds}.

Definition _activate (pending : AgentConfig) (sequence : Z) (config_path state_path : path) : M Mem unit :=
  let active := activated pending sequence in
  save_replacement active config_path;;
  state ← load state_path;
  let room := str_of (c_room pending) in
  state ← lift (advance_cursor room sequence state);
  nonce ← lift (nonce_int (provision_nonce pending));
  let state := set_nonces <[room := nonce]> state in
  try_except (save state state_path) is_StateError (λ _, raise ACTIVATION_UNCERTAIN).

(** Signing and sending the announcement of a pending mailbox. *)
Definition announce (client : TechnocoreClient) (private_key : bytes) (room did : str) (nonce : json)
    (text : str) (uncertain : exn) : M Mem RoomMessage :=
  '(swept, signature) ← lift (sign_room_message private_key room nonce text);
  try_except (send_signed_message client room did signature nonce swept)
    (λ e, is_TransportError e || is_ResponseError e) (λ _, raise uncertain).

Definition provision_mailbox (name : str) (record : IdentityRecord) (private_key : bytes)
    (client : TechnocoreClient) (config_path state_path : path) (room : option str)
  : M Mem (list (str * json)) :=
  check (negb (fullmatch NAME_PATTERN name))
    (ConfigError "agent name must contain 1-48 letters, digits, underscores, or hyphens");;
  selected_room ←
    match room with
    | Some (c :: s) => mret (c :: s)
    | _ => n ← next_tick; mret (u "mb-p-" ++ env_token n)
    end;
  clock ← time_ns;
  let nonce := int_str clock in
  n ← next_tick;
  let created_at := isoformat (env_now n) (env_micros n) in
  let pending := pending_config name record selected_room (base_url client) nonce created_at in
  lift (validate_config pending);;
  save_new pending config_path;;
  posted ← announce client private_key selected_room (i_did record) (JStr nonce)
             (_online_text name (i_did record)) PROVISION_UNCERTAIN;
  _activate pending (seq posted) config_path state_path;;
  mret [(u "event", JStr (u "mailbox_provisioned")); (u "name", JStr name); (u "did", JStr (i_did record));
        (u "room", JStr selected_room); (u "sequence", JInt (seq posted)); (u "config", JStr (path_text config_path));
        (u "state", JStr (path_text state_path)); (u "public_profile_published", JBool false)].

Definition recover_pending_mailbox (record : IdentityRecord) (private_key : bytes) (client : TechnocoreClient)
    (config_path state_path : path) (retry : bool) : M Mem (list (str * json)) :=
  pending ← load_config config_path;
  check ((c_did pending != JStr (i_did record)) || (c_fingerprint pending != JStr (i_fingerprint record)))
    (ConfigError "pending config does not belong to the selected identity");;
  check (c_status pending != JStr (u "pending")) (ConfigError "agent config is not pending");;
  let room := str_of (c_room pending) in
  let expected_text := _online_text (str_of (c_name pending)) (str_of (c_did pending)) in
  snapshot ← read_room client room 0 (Finite 0 (u "0")) 200 0;
  match first_match (is_announcement pending expected_text) (messages snapshot) with
  | Some matching =>
      _activate pending (seq matching) config_path state_path;;
      mret [(u "event", JStr (u "mailbox_recovered_from_acknowledged_write")); (u "room", JStr room);
            (u "sequence", JInt (seq matching)); (u "retried", JBool false)]
  | None =>
      if negb (complete_history snapshot) then
        mret [(u "event", JStr (u "mailbox_history_incomplete")); (u "room", JStr room);
              (u "retry_required", JBool false);
              (u "reason", JStr (u "cannot prove that the original write is absent"))]
      else if negb retry then
        mret [(u "event", JStr (u "mailbox_write_not_found")); (u "room", JStr room);
              (u "retry_required", JBool true)]
      else
        posted ← announce client private_key room (str_of (c_did pending)) (provision_nonce pending)
                   expected_text MAILBOX_RETRY_UNCERTAIN;
        _activate pending (seq posted) config_path state_path;;
        mret [(u "event", JStr (u "mailbox_recovered_after_manual_retry")); (u "room", JStr room);
              (u "sequence", JInt (seq posted)); (u "retried", JBool true)]
  end.
End provision.

(** ** The commands *)

Section commands.
Context `{Env} `{UrlLib} `{Ed25519} `{FloatRepr} `{Keychain} `{Microseconds}.

(** [--name], [--base-url] and [--retry] are not options of [run]. *)
Definition _provision (args : RunArgs) (name server : str) : IO unit :=
  '(record, private_key) ← _load_identity (Path (identity args));
  '(_, config_path, state_path) ← lift (_paths_beside_identity args);
  client ← lift (make_client server (arg_timeout args));
  event ← provision_mailbox name record private_key client config_path state_path None;
  _print_event event.

Definition _recover (args : RunArgs) (server : str) (retry : bool) : IO unit :=
  '(record, private_key) ← _load_identity (Path (identity args));
  '(_, config_path, state_path) ← lift (_paths_beside_identity args);
  client ← lift (make_client server (arg_timeout args));
  event ← recover_pending_mailbox record private_key client config_path state_path retry;
  _print_event event.
End commands.
