(* ===== verification/Controller.v ===== *)
(** [controller.py]: the operator's own identity, its grant, and the client that
    sends one read-only command; with the [controller] commands of [cli.py].

    The directory a file is in is not an entry of the file system: what [lstat]
    says of it is the environment's, the class [Directories].  A seed store is a
    record of operations, as in the source; the one backed by the Keychain
    talks to [/usr/bin/security] in [Prompt.v]. *)

From S2P Require Import Prelude Errors Text Json Crypto Url Clock Effects State Memory Protocol Prompt.
From S2P Require Import Capabilities Config Identity Lock Run Provision.

Definition DEFAULT_CONTROLLER_SERVICE : str := u "technocore.safe-agent.controller".
Definition DEFAULT_CONTROLLER_ACCOUNT : str := u "safe-agent-controller".
Definition CONTROLLER_COMMANDS : list str := [u "/ping"; u "/status"; u "/about"; u "/help"].
Definition CONTROLLER_RATE_LIMIT : Z := 10.
Definition KEYCHAIN_ITEM_NOT_FOUND_EXIT_CODE : Z := 44.

(** ** Paths *)

(** [path.parent.lstat()]: [None] is an [OSError]. *)
Record directory_status := DirectoryStatus { d_is_dir : bool; d_mode : Z; d_uid : Z }.
Class Directories := directory_of : nat → path → option directory_status.

Section paths.
Context {Mem : Type} `{Env} `{Directories}.
Abbreviation M := (M Mem).

Definition _path_exists (p : path) : M bool :=
  try_except (path_file p;; mret true) is_OSError
    (λ e, if is_FileNotFoundError e then mret false
          else raise (ControllerError "controller path cannot be inspected safely")).

(** The directory [p] is in. *)
Definition _require_private_directory (p : path) : M unit :=
  n ← next_tick;
  metadata ← lift (of_option (ControllerError "controller directory cannot be inspected") (directory_of n p));
  check (negb (d_is_dir metadata)) (ControllerError "controller directory must be a real directory");;
  check (negb (Z.land (d_mode metadata) MODE_GROUP_OTHER =? 0))
    (ControllerError "controller directory must be owner-only");;
  check (negb (d_uid metadata =? env_euid)) (ControllerError "controller directory must be owned by this user").

Definition _require_private_regular_file (p : path) (label : string) : M unit :=
  metadata ← os_errors (ControllerError (label ++ " cannot be inspected")) (path_file p);
  check (negb (bool_decide (f_kind metadata = Regular))) (ControllerError (label ++ " must be a regular file"));;
  check (negb (Z.land (f_mode metadata) MODE_GROUP_OTHER =? 0))
    (ControllerError (label ++ " permissions must be owner-only"));;
  check (negb (f_uid metadata =? env_euid)) (ControllerError (label ++ " must be owned by this user")).

(** Every [OSError] of the removal is ignored. *)
Definition _unlink_if_present (p : path) : M unit := try_except (unlink p) is_OSError (λ _, mret tt).

(** [os.open] with [O_CREAT | O_EXCL]; [FileExistsError] is an [OSError]. *)
Definition create_exclusively (p : path) : M unit :=
  action;; fs ← get_files;
  match fs !! p with
  | None => put_files (<[p := File Regular MODE_0600 env_euid []]> fs)
  | Some _ => raise OSError
  end.

(** The buffered text is written; when that fails, or the process dies, a
    beginning of it may be in the file. *)
Definition write_stream (p : path) (data : bytes) : M unit :=
  n ← next_tick; fs ← get_files;
  let wrote b := put_files (alter (λ f, File (f_kind f) (f_mode f) (f_uid f) b) p fs) in
  match env_fault n with
  | NoFault => wrote data
  | CrashFault => wrote (take (env_short_write n) data);; crash
  | _ => wrote (take (env_short_write n) data);; raise OSError
  end.

Definition _write_new_private_json (p : path) (payload : json) : M unit :=
  try_except
    (create_exclusively p;;
     chmod p MODE_0600;;
     write_stream p (dumps false payload ++ [10]);;
     fsync p)
    is_OSError
    (λ _, _unlink_if_present p;; raise (ControllerError "cannot write the controller identity")).

Definition _replace_private_json (p : path) (payload : json) : M unit :=
  let error := ControllerError "cannot update the capability policy" in
  write_temporary_via _unlink_if_present error p (dumps false payload ++ [10]) (mret tt);;
  os_errors error (chmod p MODE_0600).
End paths.

(** ** The controller's identity *)

Record SeedStore Mem := MkSeedStore {
  store_service : str;
  store_account : str;
  store_seed : str → M Mem unit;
  delete_seed : M Mem unit
}.
Arguments MkSeedStore {Mem} _ _ _ _.
Arguments store_service {Mem} _.
Arguments store_account {Mem} _.
Arguments store_seed {Mem} _ _.
Arguments delete_seed {Mem} _.

(** [secrets.token_hex(32)] *)
Class SeedFactory := token_hex32 : nat → str.

Definition identity_payload (created_at did fingerprint service account : str) : json :=
  JDict [(u "schema", JStr (u "technocore-local-identity-v1")); (u "created_at", JStr created_at);
         (u "did", JStr did); (u "fingerprint", JStr fingerprint);
         (u "custody", JDict [(u "backend", JStr (u "macos-keychain")); (u "service", JStr service);
                              (u "account", JStr account)])].

Definition OVERWRITE_IDENTITY : exn := ControllerError "refusing to overwrite an existing controller identity".

Section identity.
Context {Mem : Type} `{Env} `{Directories} `{Ed25519}.

Definition load_controller_identity (p : path) : M Mem IdentityRecord :=
  _require_private_regular_file p "controller identity";;
  load_identity_record p.

(** [seed_factory] and [created_at] have their defaults. *)
Definition create_controller_identity `{SeedFactory} `{Microseconds} (p : path) (seed_store : SeedStore Mem)
  : M Mem IdentityRecord :=
  _require_private_directory p;;
  exists_ ← _path_exists p;
  check exists_ OVERWRITE_IDENTITY;;
  n ← next_tick;
  let seed := token_hex32 n in
  private_key ← lift (private_key_from_seed seed);
  did ← lift (did_from_private_key private_key);
  n ← next_tick;
  let created_at := isoformat (env_now n) (env_micros n) in
  fingerprint ← lift (fingerprint_of_did did);
  let payload := identity_payload created_at did fingerprint (store_service seed_store) (store_account seed_store) in
  store_seed seed_store seed;;
  on_raise
    (_write_new_private_json p payload;;
     record ← load_controller_identity p;
     check ((i_did record != did) || (keychain_service record != store_service seed_store)
            || (keychain_account record != store_account seed_store))
       (ControllerError "created controller identity failed verification");;
     mret record)
    (_unlink_if_present p;;
     try_except (delete_seed seed_store) (λ _, true)
       (λ _, raise (ControllerError "controller creation failed and Keychain cleanup also failed"))).
End identity.

(** ** The seed in the Keychain *)

(** A control character, or a delete. *)
Definition selector_char (c : Z) : bool := (c <? 32) || (c =? 127).
Definition _validate_keychain_selector (value : str) (label : string) : res unit :=
  raise_if ((value == []) || (128 <? length value) || existsb selector_char value)
    (ControllerError ("controller Keychain " ++ label ++ " is invalid")).

(** What [security delete-generic-password] does. *)
Inductive delete_result : Type := Deleted | DeleteExit (code : Z) | DeleteMissing | DeleteTimeout | DeleteOSError.
Class KeychainDelete := keychain_delete : nat → str → str → delete_result.

Section writer.
Context `{Env} `{Terminal} `{KeychainDelete}.

Definition writer_store_seed (fuel : nat) (seed : str) : M session unit :=
  lift (private_key_from_seed seed);;
  _run_hidden_keychain_prompt fuel seed KEYCHAIN_PROMPT_TIMEOUT_SECONDS.

Definition writer_delete_seed (service account : str) : M session unit :=
  n ← next_tick;
  match keychain_delete n service account with
  | Deleted => mret tt
  | DeleteExit code =>
      if code =? KEYCHAIN_ITEM_NOT_FOUND_EXIT_CODE then mret tt
      else raise (ControllerError "cannot delete the controller Keychain item")
  | DeleteMissing => raise (ControllerError "macOS security command is not available")
  | DeleteTimeout => raise (ControllerError "controller Keychain cleanup timed out")
  | DeleteOSError => raise OSError
  end.

(** [MacOSKeychainSeedWriter(service, account)] *)
Definition MacOSKeychainSeedWriter (fuel : nat) (service account : str) : res (SeedStore session) :=
  _validate_keychain_selector service "service";;
  _validate_keychain_selector account "account";;
  Ok (MkSeedStore service account (writer_store_seed fuel) (writer_delete_seed service account)).
End writer.

(** ** The grant *)

Definition grant_payload (did : str) : json :=
  JDict [(u "schema", JStr CAPABILITY_SCHEMA);
         (u "principals",
          JDict [(did, JDict [(u "enabled", JBool true); (u "commands", JList (map JStr CONTROLLER_COMMANDS));
                              (u "repositories", JList []);
                              (u "max_requests_per_hour", JInt CONTROLLER_RATE_LIMIT)])])].

(** [frozenset(l1) == frozenset(l2)] *)
Definition same_elements (l1 l2 : list str) : bool :=
  forallb (λ x, x in? l2) l1 && forallb (λ x, x in? l1) l2.

Definition grant_as_written (o : option CapabilityGrant) : bool :=
  match o with
  | None => false
  | Some grant =>
      enabled grant && same_elements (commands grant) CONTROLLER_COMMANDS && (repositories grant == [])
      && (max_requests_per_hour grant =? CONTROLLER_RATE_LIMIT)
  end.

Section grant.
Context `{Env} `{Directories}.

Definition grant_controller_to_empty_policy (controller_identity capability_policy : path) : IO unit :=
  record ← load_controller_identity controller_identity;
  _require_private_directory capability_policy;;
  policy ← load_policy capability_policy;
  check (negb (bool_decide (policy = ∅))) (ControllerError "controller grant requires an empty policy");;
  _replace_private_json capability_policy (grant_payload (i_did record));;
  policy ← load_policy capability_policy;
  check (negb (grant_as_written (policy !! i_did record)))
    (ControllerError "controller policy failed post-write validation").
End grant.

(** ** One command *)

Section send.
Context {Mem : Type} `{Env} `{Directories} `{UrlLib} `{Ed25519} `{FloatRepr}.

Definition send_controller_command (did : str) (private_key : bytes) (config : AgentConfig) (state_path : path)
    (command : str) (client : TechnocoreClient) : M Mem (list (str * json)) :=
  valid_did ← lift (validate_did did);
  check (negb (command in? CONTROLLER_COMMANDS))
    (ControllerError "controller accepts only an exact read-only command");;
  lift (validate_config config);;
  check (c_status config != JStr (u "active")) (ControllerError "controller requires an active agent config");;
  check (JStr (base_url client) != c_base_url config)
    (ControllerError "controller client does not match the agent config");;
  key_did ← lift (did_from_private_key private_key);
  check (key_did != valid_did) (ControllerError "controller key does not match its public DID");;
  _require_private_directory state_path;;
  exists_ ← _path_exists state_path;
  (if (exists_ : bool) then _require_private_regular_file state_path "controller state" else mret tt);;
  state ← load state_path;
  clock ← time_ns;
  let room := str_of (c_room config) in
  '(nonce, state) ← lift (next_nonce room clock state);
  save state state_path;;
  '(text, signature) ← lift (sign_room_message private_key room (JInt nonce) command);
  send_signed_message client room valid_did signature (JInt nonce) text;;
  mret [(u "status", JStr (u "acknowledged")); (u "command", JStr command)].
End send.

(** ** The commands *)

Section commands.
Context `{Env} `{Directories} `{UrlLib} `{Ed25519} `{FloatRepr} `{Keychain}.

Definition created_event (record : IdentityRecord) : list (str * json) :=
  [(u "status", JStr (u "created")); (u "did", JStr (i_did record));
   (u "fingerprint", JStr (i_fingerprint record)); (u "private_key_exported", JBool false)].

Definition controller_create `{Terminal} `{KeychainDelete} `{SeedFactory} `{Microseconds} (fuel : nat)
    (identity_path : path) (service account : str) : M session unit :=
  seed_store ← lift (MacOSKeychainSeedWriter fuel service account);
  create_controller_identity identity_path seed_store;;
  (* printing the event *)
  Effects.action;; mret tt.

Definition controller_grant (identity_path capability_policy : path) : IO unit :=
  grant_controller_to_empty_policy identity_path capability_policy;;
  _print_event [(u "status", JStr (u "granted")); (u "commands", JList (map JStr CONTROLLER_COMMANDS));
                (u "max_requests_per_hour", JInt CONTROLLER_RATE_LIMIT); (u "pr_enabled", JBool false)].

Definition controller_send (identity_path : str) (config state lock : option str) (timeout : pyfloat)
    (controller_text : str) : IO unit :=
  record ← load_controller_identity (Path identity_path);
  private_key ← load_verified_private_key record;
  config_path ← lift (_path_beside_identity config identity_path (u "safe-agent-config.json"));
  state_path ← lift (_path_beside_identity state identity_path (u "controller-state.json"));
  lock_path ← lift (_path_beside_identity lock identity_path (u "controller.lock"));
  config ← load_config config_path;
  event ← with_lock lock_path
    (client ← lift (make_client (str_of (c_base_url config)) timeout);
     send_controller_command (i_did record) private_key config state_path controller_text client);
  _print_event event.
End commands.

(** ** How a new file was written *)

Section written.
Context {Mem : Type} `{Env}.
Implicit Types w : world Mem.
Set Default Proof Using "Type".

Lemma create_exclusively_Ret p w w' : create_exclusively p w = (Ret tt, w') →
  w_fs w !! p = None ∧ w_fs w' = <[p := private_file []]> (w_fs w) ∧ w_mem w' = w_mem w ∧ w_trace w' = w_trace w.
Proof.
  unfold create_exclusively. intros (n&w1&->%action_Ret&E)%bind_Ret. apply bind_Ret in E as (fs&w2&[= <- <-]&E). cbn in E.
  destruct (w_fs w !! p); [by apply raise_Ret in E|]. injection E as <-. by repeat split.
Qed.

Lemma write_stream_Ret p data w w' : write_stream p data w = (Ret tt, w') →
  w_fs w' = alter (λ f, File (f_kind f) (f_mode f) (f_uid f) data) p (w_fs w) ∧ w_mem w' = w_mem w ∧ w_trace w' = w_trace w.
Proof. unfold write_stream, mbind, M_bind. cbn. destruct (env_fault (w_tick w)); cbn; intros [= <-]; by cbn. Qed.
End written.
