(* ===== verification/ProvisionFacts.v ===== *)
(** What creating a mailbox guarantees: the pending configuration is on disk
    before anything is sent, and recovery can only send the same message again. *)

From S2P Require Import Prelude Errors Text Regex Json Crypto Url Clock Effects State Memory Quiet Protocol Toy.
From S2P Require Import Requests Config ConfigFacts Identity Run Provision.

(** ** Activation *)

Section activation.
Context {Mem : Type} `{Env} `{UrlLib} `{Ed25519} `{FloatRepr}.
Implicit Types w : world Mem.
Set Default Proof Using "Type".

(** The request that announces a pending mailbox: it depends on nothing but the
    configuration, the key and the server. *)
Definition announcement_url (client : TechnocoreClient) (key : bytes) (pending : AgentConfig) : res str :=
  '(swept, signature) ← sign_room_message key (str_of (c_room pending)) (provision_nonce pending)
                          (_online_text (str_of (c_name pending)) (str_of (c_did pending)));
  n ← validate_nonce (provision_nonce pending);
  send_url client (str_of (c_room pending)) (str_of (c_did pending)) signature n swept.

Lemma announce_request client key pending e :
  sends_one (λ url, announcement_url client key pending = Ok url)
    (announce (Mem := Mem) client key (str_of (c_room pending)) (str_of (c_did pending)) (provision_nonce pending)
       (_online_text (str_of (c_name pending)) (str_of (c_did pending))) e).
Proof.
  unfold announce. apply sends_one_lift. intros [swept sig] Hs w.
  pose proof (send_request client (str_of (c_room pending)) (str_of (c_did pending)) sig
    (provision_nonce pending) swept w) as (E1&E2&E3).
  assert (∀ url, (∃ n, validate_nonce (provision_nonce pending) = Ok n ∧
            send_url client (str_of (c_room pending)) (str_of (c_did pending)) sig n swept = Ok url) →
          announcement_url client key pending = Ok url) as Hu.
  { intros url (n&Hn&Hurl). unfold announcement_url. rewrite Hs. cbn [mbind res_bind]. rewrite Hn. done. }
  unfold try_except. destruct (send_signed_message _ _ _ _ _ _ w) as [[a|x|] w1]; cbn in *;
    [|destruct (is_TransportError x || is_ResponseError x)|]; cbn;
    (split; [done|split; [done|]]); (destruct E3 as [?|(url&?&?)]; [by left|right; eauto]).
Qed.

(** A mailbox is active in the configuration and known to the state. *)
Definition mailbox_known (cp sp : path) (pending : AgentConfig) (sequence : Z) (w : world Mem) : Prop :=
  w_fs w !! cp = Some (private_file (config_bytes (activated pending sequence))) ∧
  ∃ s n, w_fs w !! sp = Some (private_file (state_bytes s)) ∧ nonce_int (provision_nonce pending) = Ok n ∧
    cursors s !! str_of (c_room pending) = Some sequence ∧ nonces s !! str_of (c_room pending) = Some n.

(** The configuration says pending, or active at some sequence. *)
Definition config_kept (cp : path) (pending : AgentConfig) (w : world Mem) : Prop :=
  w_fs w !! cp = Some (private_file (config_bytes pending)) ∨
  ∃ sequence, w_fs w !! cp = Some (private_file (config_bytes (activated pending sequence))).

Lemma quiet_activate pending sequence cp sp : Quiet (_activate (Mem := Mem) pending sequence cp sp).
Proof.
  pose proof (quiet_save_replacement (activated pending sequence) cp (Mem := Mem)).
  unfold _activate. quiet.
Qed.

Lemma wp_activate pending sequence cp sp (Φ : outcome unit → world Mem → Prop) w :
  is_temp cp = false → is_temp sp = false → sp ≠ cp →
  w_fs w !! cp = Some (private_file (config_bytes pending)) →
  (∀ o w', config_kept cp pending w' → w_trace w' = w_trace w →
           (o = Ret tt → mailbox_known cp sp pending sequence w') → Φ o w') →
  wp (_activate pending sequence cp sp) Φ w.
Proof.
  intros Hcp Hsp Hne Hw HΦ.
  enough (wp (_activate pending sequence cp sp)
            (λ o w', config_kept cp pending w' ∧ (o = Ret tt → mailbox_known cp sp pending sequence w')) w) as Hk.
  { apply HΦ; [apply Hk|apply quiet_activate|apply Hk]. }
  unfold _activate. cbv zeta. apply wp_bind, wp_save_replacement; [done|..].
  { intros o w1 [F _ _] Ho. assert (config_kept cp pending w1) by (left; by rewrite F).
    destruct o as [[]|e|]; [done|by split..]. }
  intros o w1 [_ Ho [Hd|[Ho2 Hd]]].
  2:{ assert (config_kept cp pending w1) by (left; by rewrite Hd). destruct o as [[]|e|]; [done|by split..]. }
  assert (config_kept cp pending w1) as Hk1 by (right; eauto). destruct o as [[]|e|]; [|by split..]. clear Ho Hw.
  apply wp_bind, (wp_steps (frame (λ _, True) eq)); [apply keeps_load; apply _|].
  intros o w2 [F2 _ _] _. rewrite <- F2 in Hd by done.
  assert (config_kept cp pending w2) as Hk2 by (right; eauto). destruct o as [s|e|]; [|by split..].
  apply wp_bind, wp_lift. destruct (advance_cursor _ _ _) as [s1|] eqn:Es; [|by split].
  apply wp_bind, wp_lift. destruct (nonce_int _) as [n|] eqn:En; [|by split].
  apply wp_try, wp_save; [done|]. intros o w3 [[F3 _ _] Ho3 Hd3].
  rewrite <- F3 in Hd by auto. assert (config_kept cp pending w3) as Hk3 by (right; eauto).
  destruct o as [[]|e|]; [|by destruct (is_StateError e); split|by split]. split; [done|]. intros _. split; [done|].
  destruct Hd3 as [Hd3|[? _]]; [|done]. eexists _, n. split; [exact Hd3|]. split; [done|].
  apply advance_cursor_Ok in Es as (_&_&->). cbn. by rewrite !lookup_insert_eq.
Qed.
End activation.

(** ** Provisioning *)

Section provisioning.
Context {Mem : Type} `{Env} `{UrlLib} `{Ed25519} `{FloatRepr} `{Microseconds}.
Implicit Types w : world Mem.
Set Default Proof Using "Type".

(** Neither a file nor the trace changes. *)
Definition still w w' : Prop := w_fs w' = w_fs w ∧ w_trace w' = w_trace w.

#[export] Instance still_preorder : PreOrder still.
Proof. split; [done|]. intros w1 w2 w3 [E1 E2] [E3 E4]. split; congruence. Qed.

(** What a call of [provision_mailbox] may have done when it stops: sent
    nothing, or recorded the mailbox and then sent the announcement. *)
Definition provisioned client key cp w w' : Prop :=
  w_trace w' = w_trace w ∨
  ∃ pending url, w_fs w !! cp = None ∧ validate_config pending = Ok tt ∧
    c_status pending = JStr (u "pending") ∧ c_base_url pending = JStr (base_url client) ∧
    announcement_url client key pending = Ok url ∧ w_trace w' = w_trace w ++ [EvHttp url] ∧
    config_kept cp pending w'.

Lemma wp_announce client key pending e (Φ : outcome RoomMessage → world Mem → Prop) w :
  (∀ o w', w_fs w' = w_fs w → w_trace w' = w_trace w ∨
             (∃ url, announcement_url client key pending = Ok url ∧ w_trace w' = w_trace w ++ [EvHttp url]) →
           Φ o w') →
  wp (announce client key (str_of (c_room pending)) (str_of (c_did pending)) (provision_nonce pending)
       (_online_text (str_of (c_name pending)) (str_of (c_did pending))) e) Φ w.
Proof.
  intros HΦ. destruct (announce_request client key pending e w) as (E1&_&E2). unfold wp. apply HΦ; [done|].
  destruct E2 as [?|(url&?&?)]; [by left|right; eauto].
Qed.

Lemma wp_provision name record key client cp sp room (Φ : outcome (list (str * json)) → world Mem → Prop) w :
  is_temp cp = false → is_temp sp = false → sp ≠ cp →
  (∀ o w', provisioned client key cp w w' →
     (∀ event, o = Ret event → ∃ pending sequence, validate_config pending = Ok tt ∧
        c_name pending = JStr name ∧ c_did pending = JStr (i_did record) ∧ mailbox_known cp sp pending sequence w') →
     Φ o w') →
  wp (provision_mailbox name record key client cp sp room) Φ w.
Proof.
  intros Hcp Hsp Hne HΦ.
  assert (∀ o w', w_trace w' = w_trace w → (∀ ev, o ≠ Ret ev) → Φ o w') as Hquiet
    by (intros o w' Ht Ho; apply HΦ; [by left|]; intros ev ->; by destruct (Ho ev)).
  unfold provision_mailbox. apply wp_bind, wp_lift.
  destruct (negb _); cbn [raise_if]; [by apply Hquiet|].
  apply wp_bind, (wp_steps still).
  { destruct room as [[|c s]|]; try (by apply keeps_ret, _); apply keeps_bind; try apply _; try by intros ?. }
  intros o1 w1 [F1 T1] _. destruct o1 as [r|e|]; [|by apply Hquiet..].
  apply wp_bind, (wp_steps still); [by intros ?|]. intros o2 w2 [F2 T2] _.
  destruct o2 as [clock|e|]; [|apply Hquiet; [congruence|done]..]. cbv zeta.
  apply wp_bind, (wp_steps still); [by intros ?|]. intros o3 w3 [F3 T3] _.
  destruct o3 as [n|e|]; [|apply Hquiet; [congruence|done]..]. cbv zeta.
  set (pending := pending_config _ _ _ _ _ _).
  assert (w_trace w3 = w_trace w) as T by congruence. assert (w_fs w3 = w_fs w) as F by congruence.
  apply wp_bind, wp_lift. destruct (validate_config pending) as [[]|] eqn:Hv; [|by apply Hquiet].
  apply wp_bind, (wp_mono (save_new pending cp)
    (λ o w4, w_trace w4 = w_trace w3 ∧
       (o = Ret tt → w_fs w3 !! cp = None ∧ w_fs w4 !! cp = Some (private_file (config_bytes pending))))).
  { split; [apply quiet_save_new|].
    apply (wp_save_new pending cp (λ o w4, o = Ret tt → w_fs w3 !! cp = None ∧
      w_fs w4 !! cp = Some (private_file (config_bytes pending)))); [done|by intros|].
    intros Hn o4 w4 [_ _ Hd] ->. by destruct Hd as [?|[? _]]. }
  intros o4 w4 [T4 Hd]. destruct o4 as [[]|e|]; [|apply Hquiet; [congruence|done]..].
  destruct (Hd eq_refl) as [Hn Hd4]. rewrite F in Hn. rewrite T in T4. clear Hd.
  apply wp_bind, (wp_announce client key pending). intros o5 w5 F5 T5. rewrite <- F5 in Hd4.
  assert (∀ o w', w_trace w' = w_trace w5 → config_kept cp pending w' →
            (∀ event, o = Ret event → ∃ pending sequence, validate_config pending = Ok tt ∧
        c_name pending = JStr name ∧ c_did pending = JStr (i_did record) ∧ mailbox_known cp sp pending sequence w') → Φ o w') as Hend.
  { intros o w' T' Hk Hm. apply HΦ; [|done]. destruct T5 as [T5|(url&Hu&T5)]; [left; congruence|right].
    exists pending, url. repeat (split; [done|]). split; [congruence|done]. }
  destruct o5 as [posted|e|]; [|by apply Hend; [|left|]..].
  apply wp_bind, wp_activate; [done..|]. intros o6 w6 Hk T6 Hm.
  destruct o6 as [[]|e|]; [|by apply Hend..]. apply wp_ret, Hend; [done..|]. intros ev _.
  exists pending, (seq posted). auto.
Qed.

(** What a call of [recover_pending_mailbox] may have asked the server. *)
Definition recovered client key pending retry w w' : Prop :=
  let read := EvHttp (read_url client (str_of (c_room pending)) 0 0 200 0) in
  w_trace w' = w_trace w ∨ w_trace w' = w_trace w ++ [read] ∨
  ∃ snapshot url w1 w2, retry = true ∧
    read_room client (str_of (c_room pending)) 0 (Finite 0 (u "0")) 200 0 w1 = (Ret snapshot, w2) ∧
    complete_history snapshot = true ∧
    Forall (λ m, is_announcement pending (_online_text (str_of (c_name pending)) (str_of (c_did pending))) m = false)
      (messages snapshot) ∧
    announcement_url client key pending = Ok url ∧ w_trace w' = w_trace w ++ [read; EvHttp url].

Lemma first_match_None {A} (p : A → bool) l : first_match p l = None → Forall (λ x, p x = false) l.
Proof.
  unfold first_match. induction l as [|x l IH]; [done|]. cbn. destruct (p x) eqn:E; [done|].
  intros. constructor; auto.
Qed.

(** The pending configuration is read back from the file that holds it. *)
Lemma wp_load_own_config cp pending (Φ : outcome AgentConfig → world Mem → Prop) w :
  w_fs w !! cp = Some (private_file (config_bytes pending)) → validate_config pending = Ok tt →
  json_ok (config_payload pending) →
  (∀ o w', w_fs w' = w_fs w → w_trace w' = w_trace w → (∀ c, o = Ret c → c = pending) → Φ o w') →
  wp (load_config cp) Φ w.
Proof.
  intros Hw Hv Hok HΦ.
  pose proof (own_config_loads pending Hv Hok) as Hl. apply res_bind_Ok in Hl as (j&Hj&Hp).
  set (data := config_bytes pending) in *. clearbody data.
  unfold load_config. apply wp_bind, wp_try. unfold read_json_text, read_bytes, path_file.
  do 3 apply wp_bind. apply wp_action; cbn; [|by apply HΦ..].
  unfold wp, mbind, M_bind, get_files. cbn. rewrite Hw. cbn.
  rewrite (decide_True _ _ eq_refl). cbn. rewrite Hj. cbn.
  rewrite Hp. apply HΦ; [done..|]. by intros c [= ->].
Qed.

Lemma wp_recover_mailbox record key client cp sp retry pending (Φ : outcome (list (str * json)) → world Mem → Prop) w :
  is_temp cp = false → is_temp sp = false → sp ≠ cp →
  w_fs w !! cp = Some (private_file (config_bytes pending)) → validate_config pending = Ok tt →
  json_ok (config_payload pending) →
  (∀ o w', recovered client key pending retry w w' → config_kept cp pending w' → Φ o w') →
  wp (recover_pending_mailbox record key client cp sp retry) Φ w.
Proof.
  intros Hcp Hsp Hne Hw Hv Hok HΦ. unfold recover_pending_mailbox.
  assert (∀ o w', w_trace w' = w_trace w → w_fs w' = w_fs w → Φ o w') as Hquiet
    by (intros o w' Ht Hf; apply HΦ; [by left|left; by rewrite Hf]).
  apply wp_bind, (wp_load_own_config cp pending); [done..|]. intros o1 w1 F1 T1 Hc.
  destruct o1 as [c|e|]; [|by apply Hquiet..]. rewrite (Hc c eq_refl). clear Hc c.
  apply wp_bind, wp_lift. destruct (raise_if _ _); [|by apply Hquiet].
  apply wp_bind, wp_lift. destruct (raise_if _ _); [|by apply Hquiet]. cbv zeta.
  set (room := str_of (c_room pending)). set (expected := _online_text _ _).
  apply wp_bind. unfold wp at 1.
  destruct (read_room_request client room 0 (Finite 0 (u "0")) 200 0 0 eq_refl w1) as (F2&_&T2).
  destruct (read_room client room 0 (Finite 0 (u "0")) 200 0 w1) as [o2 w2] eqn:Er. cbn in F2, T2 |- *.
  assert (w_trace w2 = w_trace w ∨ w_trace w2 = w_trace w ++ [EvHttp (read_url client room 0 0 200 0)]) as T2'
    by (rewrite <- T1; destruct T2 as [?|(url&->&?)]; auto).
  assert (w_fs w2 !! cp = Some (private_file (config_bytes pending))) as Hw2 by congruence.
  assert (∀ o w', w_trace w' = w_trace w2 → config_kept cp pending w' → Φ o w') as Hread.
  { intros o w' T' Hk. apply HΦ; [|done]. rewrite <- T' in T2'. destruct T2' as [?|?]; [by left|by right; left]. }
  destruct o2 as [snapshot|e|]; [|by apply Hread; [|left]..].
  destruct (first_match _ _) as [m|] eqn:Em.
  { apply wp_bind, wp_activate; [done..|]. intros o3 w3 Hk T3 _. destruct o3; by apply Hread. }
  destruct (complete_history snapshot) eqn:Ec; cbn [negb]; [|apply Hread; [done|by left]].
  destruct retry; cbn [negb]; [|apply Hread; [done|by left]].
  apply wp_bind, (wp_announce client key pending). intros o3 w3 F3 T3. rewrite <- F3 in Hw2.
  assert (∀ o w', w_trace w' = w_trace w3 → config_kept cp pending w' → Φ o w') as Hend.
  { intros o w' T' Hk. destruct T3 as [T3|(url&Hu&T3)]; [apply Hread; [congruence|done]|]. apply HΦ; [|done].
    right; right. exists snapshot, url, w1, w2. repeat (split; [by eauto using first_match_None|]).
    rewrite T', T3, (read_room_heard _ _ _ _ _ _ _ _ _ Er), T1, <- (assoc_L app). done. }
  destruct o3 as [posted|e|]; [|by apply Hend; [|left]..].
  apply wp_bind, wp_activate; [done..|]. intros o4 w4 Hk T4 _. destruct o4; by apply Hend.
Qed.
End provisioning.

(** C29: a mailbox is recorded before it is announced.  Whatever fails and
    wherever the process dies, either nothing was sent, or there was no
    configuration before and now there is one, pending or active, that is valid
    and from which the one request that was sent can be made again.  When the
    call returns the mailbox is active, and the state knows its cursor and its
    nonce. *)
Theorem mailbox_recorded_before_announced {Mem} `{Env} `{UrlLib} `{Ed25519} `{FloatRepr} `{Microseconds}
    (name : str) (record : IdentityRecord) (key : bytes) (client : TechnocoreClient) (cp sp : path)
    (room : option str) (w : world Mem) :
  is_temp cp = false → is_temp sp = false → sp ≠ cp →
  let '(o, w') := provision_mailbox name record key client cp sp room w in
  provisioned client key cp w w' ∧
  (∀ event, o = Ret event → ∃ pending sequence, validate_config pending = Ok tt ∧
     c_name pending = JStr name ∧ c_did pending = JStr (i_did record) ∧
     mailbox_known cp sp pending sequence w').
Proof. intros Hcp Hsp Hne. apply wp_pair, wp_provision; [done..|]. by intros. Qed.

(** C30: recovering a mailbox sends at most one request, and only this one.  With a
    pending configuration on disk, recovery reads one page of the room; only with
    [--retry], and only when that page does not show the announcement and is one
    that [complete_history] accepts, it sends the request that the pending
    configuration and the key determine, to the server of its own client.  The
    configuration stays pending or becomes active.  What the code takes for a
    complete history is no proof that nothing was sent: an empty room, or a page
    whose last message is the last of a room that begins at 1, the messages before
    it not being looked at ([incomplete_history_counts] below); and the client's
    server is not compared with the one of the configuration. *)
Theorem mailbox_recovery_repeats_the_request {Mem} `{Env} `{UrlLib} `{Ed25519} `{FloatRepr} `{Microseconds}
    (record : IdentityRecord) (key : bytes) (client : TechnocoreClient) (cp sp : path) (retry : bool)
    (pending : AgentConfig) (w : world Mem) :
  is_temp cp = false → is_temp sp = false → sp ≠ cp →
  w_fs w !! cp = Some (private_file (config_bytes pending)) → validate_config pending = Ok tt →
  json_ok (config_payload pending) →
  let '(o, w') := recover_pending_mailbox record key client cp sp retry w in
  recovered client key pending retry w w' ∧ config_kept cp pending w'.
Proof. intros Hcp Hsp Hne Hw Hv Hok. by apply wp_pair, (wp_recover_mailbox _ _ _ _ _ _ pending). Qed.

Definition sample_client : TechnocoreClient := MkTechnocoreClient (u "https://technocore.chat") 20.
Definition sample_record : IdentityRecord :=
  MkIdentityRecord sample_did (str_of (c_fingerprint sample_config)) (u "service") (u "account").
Definition lost_env : Env := toy_env (λ n, if (n =? 9)%nat then CrashFault else NoFault) (λ _, HttpFailed).
#[local] Instance no_micros : Microseconds := λ _, 0.

Lemma mailbox_recorded_before_announced_witness :
  let E := lost_env in
  let '(o, w') := provision_mailbox (u "responder") sample_record (toy_seed 1) sample_client (Path (u "/c"))
                    (Path (u "/s")) None (toy_world tt []) in
  provisioned sample_client (toy_seed 1) (Path (u "/c")) (toy_world tt []) w'.
Proof.
  intros E. pose proof (mailbox_recorded_before_announced (u "responder") sample_record (toy_seed 1)
    sample_client (Path (u "/c")) (Path (u "/s")) None (toy_world tt []) eq_refl eq_refl) as Hm.
  destruct (provision_mailbox _ _ _ _ _ _ _ _) as [o w']. by apply Hm.
Defined.

Lemma mailbox_recovery_repeats_the_request_witness :
  let E := lost_env in
  let w := toy_world tt [(Path (u "/c"), private_file (config_bytes sample_config))] in
  let '(o, w') := recover_pending_mailbox sample_record (toy_seed 1) sample_client (Path (u "/c")) (Path (u "/s"))
                    true w in
  recovered sample_client (toy_seed 1) sample_config true w w' ∧ config_kept (Path (u "/c")) sample_config w'.
Proof.
  intros E w. apply (mailbox_recovery_repeats_the_request _ _ _ _ _ _ sample_config);
    [done|done|done|reflexivity|apply sample_config_valid|].
  json_ok_fields; by decide_by_computing || done.
Defined.

(** Only the last of the messages is compared with the range of the room: a page
    without the first messages, where the announcement may be, counts as a
    complete history. *)
Example incomplete_history_counts :
  let page := MkRoomSnapshot (u "mb-p-1") 1 5 [MkRoomMessage 5 (u "guest") (u "hello") None] 0 in
  complete_history page = true ∧ 1 ∉ map seq (messages page).
Proof. split; [reflexivity|]. cbn. set_solver. Qed.
