(* ===== verification/Health.v ===== *)
(** [health.py]: the offline inspection of a responder's files.

    [lstat] is one action on the entry of the file system; a symbolic link is an
    entry that is not regular. *)

From S2P Require Import Prelude Errors Text Json Crypto Url Clock Effects State Memory Capabilities.
From S2P Require Import Delivery AuditLog Config Identity Run Provision.

Record HealthPaths := MkHealthPaths {
  h_identity : path;
  h_config : path;
  h_state : path;
  h_capability_policy : path;
  h_journal : path;
  h_audit : path;
  h_lock : path
}.

(** What the checks share and append to. *)
Record findings := Findings { f_checks : list (str * str); f_problems : list str }.

Definition noted (name status : str) (f : findings) : findings :=
  Findings (dict_set name status (f_checks f)) (f_problems f).
Definition problem (name status : str) (problems : list str) (f : findings) : findings :=
  Findings (dict_set name status (f_checks f)) (f_problems f ++ problems).

Record HealthReport := MkHealthReport {
  h_status : str;
  exit_code : Z;
  h_checks : list (str * str);
  h_problems : list str
}.

Definition to_event (r : HealthReport) : list (str * json) :=
  [(u "status", JStr (h_status r)); (u "checks", JDict (map_vals JStr (h_checks r)));
   (u "problems", JList (map JStr (h_problems r))); (u "private_key_checked", JBool false);
   (u "network_checked", JBool false)].

(** ** The state against the configuration *)

(** The problems of a state whose room is that of the configuration. *)
Definition state_problems (config : AgentConfig) (s : AgentState) : res (list str) :=
  let room := str_of (c_room config) in
  let cursor_problems :=
    match cursors s !! room, provisioned_seq config with
    | None, _ => [u "state_cursor_missing"]
    | Some cursor, JInt n => if cursor <? n then [u "state_cursor_behind_config"] else []
    | Some _, _ => []
    end in
  match nonces s !! room with
  | None => Ok (cursor_problems ++ [u "state_nonce_missing"])
  | Some nonce =>
      provisioned ← nonce_int (provision_nonce config);
      Ok (cursor_problems ++ (if nonce <? provisioned then [u "state_nonce_behind_config"] else []))
  end.

(** ** The status *)

Definition status_of_problems (problems : list str) (process : str) : str * Z :=
  if negb (bool_decide (List.filter (λ p, p != u "delivery_recovery_required") problems = []))
  then (u "unhealthy", 2)
  else if u "delivery_recovery_required" in? problems then (u "recovery_required", 3)
  else if process == u "running" then (u "running", 0)
  else (u "ready", 0).

Section health.
Context `{Env} `{UrlLib} `{Ed25519}.

Definition _require_private_regular_metadata (metadata : file) (label : string) : IO unit :=
  check (negb (bool_decide (f_kind metadata = Regular))) (HealthError (label ++ " must be a regular file"));;
  check (negb (Z.land (f_mode metadata) MODE_GROUP_OTHER =? 0)) (HealthError (label ++ " permissions are unsafe"));;
  check (negb (f_uid metadata =? env_euid)) (HealthError (label ++ " must be owned by the current user")).

Definition _require_private_regular_file (p : path) (label : string) : IO unit :=
  metadata ← os_errors (HealthError (label ++ " cannot be inspected")) (path_file p);
  _require_private_regular_metadata metadata label.

Definition _path_present (p : path) : IO bool :=
  try_except (path_file p;; mret true) is_OSError
    (λ e, if is_FileNotFoundError e then mret false else raise (HealthError "runtime path cannot be inspected")).

(** The descriptor is closed whatever happens; a lock that was taken is given
    back before. *)
Definition _process_lock_status (p : path) : IO str :=
  let error := HealthError "process lock cannot be inspected" in
  present ← _path_present p;
  if negb present then mret (u "stopped")
  else
    metadata ← os_errors error (open_nofollow p);
    status ← on_raise
      (_require_private_regular_metadata metadata "process lock";;
       os_errors error
         (try_except (lock_action;; mret (u "stopped"))
            (λ e, match e with BlockingIOError => true | _ => false end) (λ _, mret (u "running"))))
      (action;; mret tt);
    (if status == u "stopped" then action;; mret tt else mret tt);;
    action;;
    mret status.

Definition _identity_check (p : path) (f : findings) : IO (option IdentityRecord * findings) :=
  try_except
    (identity ← load_identity_record p; mret (Some identity, noted (u "identity") (u "valid") f))
    (λ e, is_IdentityError e || is_ProtocolValueError e || is_OSError e)
    (λ _, mret (None, problem (u "identity") (u "invalid") [u "identity_invalid"] f)).

Definition _config_check (p : path) (identity : option IdentityRecord) (f : findings)
  : IO (option AgentConfig * findings) :=
  let invalid := (None, problem (u "config") (u "invalid") [u "config_invalid"] f) in
  present ← try_except (b ← _path_present p; mret (Some b)) is_HealthError (λ _, mret None);
  match present with
  | None => mret invalid
  | Some false => mret (None, problem (u "config") (u "missing") [u "config_missing"] f)
  | Some true =>
      loaded ← try_except
        (_require_private_regular_file p "config";; config ← load_config p; mret (Some config))
        (λ e, is_ConfigError e || is_HealthError e || is_ProtocolValueError e) (λ _, mret None);
      mret (match loaded with
            | None => invalid
            | Some config =>
                if c_status config != JStr (u "active") then
                  (None, problem (u "config") (str_of (c_status config)) [u "config_not_active"] f)
                else if match identity with
                        | None => true
                        | Some record => (c_did config != JStr (i_did record)) ||
                                         (c_fingerprint config != JStr (i_fingerprint record))
                        end
                then (None, problem (u "config") (u "identity_mismatch") [u "config_identity_mismatch"] f)
                else (Some config, noted (u "config") (u "active") f)
            end)
  end.

Definition _state_check (p : path) (config : option AgentConfig) (f : findings) : IO findings :=
  let invalid := problem (u "state") (u "invalid") [u "state_invalid"] f in
  present ← try_except (b ← _path_present p; mret (Some b)) is_HealthError (λ _, mret None);
  match present with
  | None => mret invalid
  | Some false => mret (problem (u "state") (u "missing") [u "state_missing"] f)
  | Some true =>
      loaded ← try_except (_require_private_regular_file p "state";; s ← load p; mret (Some s))
        (λ e, is_HealthError e || is_StateError e) (λ _, mret None);
      match loaded, config with
      | None, _ => mret invalid
      | Some _, None => mret (noted (u "state") (u "valid_unbound") f)
      | Some s, Some config =>
          problems ← lift (state_problems config s);
          mret (if bool_decide (problems = []) then noted (u "state") (u "valid") f
                else problem (u "state") (u "invalid") problems f)
      end
  end.

Definition _capability_check (p : path) (f : findings) : IO findings :=
  loaded ← try_except (policy ← load_policy p; mret (Some policy)) is_CapabilityError (λ _, mret None);
  mret (match loaded with
        | None => problem (u "capability_policy") (u "invalid") [u "capability_policy_invalid"] f
        | Some policy =>
            noted (u "capability_policy")
              (if existsb (λ kv, enabled kv.2) (map_to_list policy) then u "valid"
               else u "valid_no_enabled_grants") f
        end).

Definition _delivery_check (p : path) (identity : option IdentityRecord) (config : option AgentConfig)
    (f : findings) : IO (option DeliveryRecord * findings) :=
  let invalid := (None, problem (u "delivery") (u "invalid") [u "delivery_invalid"] f) in
  let clear := (None, noted (u "delivery") (u "clear") f) in
  present ← try_except (b ← _path_present p; mret (Some b)) is_HealthError (λ _, mret None);
  match present with
  | None => mret invalid
  | Some false => mret clear
  | Some true =>
      try_except
        (_require_private_regular_file p "delivery journal";;
         loaded ← load_journal p;
         match loaded with
         | None => mret clear
         | Some record =>
             let unbound := DeliveryError "delivery journal is not bound to this agent" in
             match identity, config with
             | Some identity, Some config =>
                 check (did record != i_did identity) unbound;;
                 lift (verify_for_room (str_of (c_room config)) record);;
                 mret (Some record,
                       noted (u "delivery")
                         (match status record with Pending => u "pending" | Acknowledged => u "acknowledged" end) f)
             | _, _ => raise unbound
             end
         end)
        (λ e, is_DeliveryError e || is_HealthError e) (λ _, mret invalid)
  end.

Definition _audit_check (p : path) (identity : option IdentityRecord) (expected_audit_head : option str)
    (f : findings) : IO findings :=
  let invalid := problem (u "audit") (u "invalid") [u "audit_invalid"] f in
  present ← try_except (b ← _path_present p; mret (Some b)) is_HealthError (λ _, mret None);
  match present with
  | None => mret invalid
  | Some false =>
      mret (match expected_audit_head with
            | None => noted (u "audit") (u "not_created") f
            | Some _ => problem (u "audit") (u "missing") [u "audit_missing"] f
            end)
  | Some true =>
      try_except
        (_require_private_regular_file p "audit";;
         summary ← verify p expected_audit_head;
         check (match identity, issuer summary with
                | None, _ => true
                | Some record, Some issuer => issuer != i_did record
                | Some _, None => false
                end) (AuditError "audit issuer does not match this agent");;
         mret (noted (u "audit")
                 (match expected_audit_head with Some _ => u "valid_checkpoint" | None => u "valid" end) f))
        (λ e, is_AuditError e || is_HealthError e) (λ _, mret invalid)
  end.

Definition _process_check (p : path) (f : findings) : IO (str * findings) :=
  status ← try_except (s ← _process_lock_status p; mret (Some s)) is_HealthError (λ _, mret None);
  mret (match status with
        | None => (u "invalid", problem (u "process") (u "invalid") [u "process_lock_invalid"] f)
        | Some s => (s, noted (u "process") s f)
        end).

Definition inspect_operational_health (paths : HealthPaths) (expected_audit_head : option str)
    (expect_running : bool) : IO HealthReport :=
  '(identity, f) ← _identity_check (h_identity paths) (Findings [] []);
  '(config, f) ← _config_check (h_config paths) identity f;
  f ← _state_check (h_state paths) config f;
  f ← _capability_check (h_capability_policy paths) f;
  '(delivery, f) ← _delivery_check (h_journal paths) identity config f;
  f ← _audit_check (h_audit paths) identity expected_audit_head f;
  '(process, f) ← _process_check (h_lock paths) f;
  let problems := f_problems f
    ++ (if expect_running && (process == u "stopped") then [u "process_not_running"] else [])
    ++ (if bool_decide (is_Some delivery) && (process == u "stopped") then [u "delivery_recovery_required"] else []) in
  let '(status, code) := status_of_problems problems process in
  mret (MkHealthReport status code (f_checks f) problems).
End health.
