(* ===== verification/HealthFacts.v ===== *)
(** What a healthy report means, and that the inspection only reads. *)

From S2P Require Import Prelude Errors Text Json Crypto Url Clock Effects State Memory Quiet Toy Capabilities.
From S2P Require Import Delivery AuditLog Config ConfigFacts Identity Run Provision Health.

Section reading.
Context `{Env} `{UrlLib} `{Ed25519}.
Implicit Types w : world memory.
Set Default Proof Using "Type".

Lemma untouched_load_identity_record p : Steps untouched (load_identity_record (Mem := memory) p).
Proof. unfold load_identity_record. untouched. Qed.
Lemma untouched_load_config p : Steps untouched (load_config (Mem := memory) p).
Proof. unfold load_config. untouched. Qed.
Lemma untouched_load_policy p : Steps untouched (load_policy p).
Proof. unfold load_policy, os_errors. untouched. Qed.
Lemma untouched_load_journal p : Steps untouched (load_journal (Mem := memory) p).
Proof. unfold load_journal. untouched. Qed.
Lemma untouched_verify p head : Steps untouched (verify (Mem := memory) p head).
Proof. unfold verify, verify_log, check_descriptor, os_errors. untouched. Qed.
Lemma untouched_private_file p l : Steps untouched (_require_private_regular_file p l).
Proof. unfold _require_private_regular_file, _require_private_regular_metadata, os_errors. untouched. Qed.
Lemma untouched_present p : Steps untouched (_path_present p).
Proof. unfold _path_present. untouched. Qed.
#[local] Hint Resolve untouched_load_identity_record untouched_load_config untouched_load_policy
  untouched_load_journal untouched_verify untouched_private_file untouched_present : untouched.
Lemma untouched_lock_status p : Steps untouched (_process_lock_status p).
Proof. unfold _process_lock_status, _require_private_regular_metadata, os_errors. untouched. Qed.
#[local] Hint Resolve untouched_lock_status : untouched.

Lemma untouched_identity_check p f : Steps untouched (_identity_check p f).
Proof. unfold _identity_check. untouched. Qed.
Lemma untouched_config_check p i f : Steps untouched (_config_check p i f).
Proof. unfold _config_check. untouched. Qed.
Lemma untouched_state_check p c f : Steps untouched (_state_check p c f).
Proof. unfold _state_check. untouched. Qed.
Lemma untouched_capability_check p f : Steps untouched (_capability_check p f).
Proof. unfold _capability_check. untouched. Qed.
Lemma untouched_delivery_check p i c f : Steps untouched (_delivery_check p i c f).
Proof. unfold _delivery_check. untouched. Qed.
Lemma untouched_audit_check p i h f : Steps untouched (_audit_check p i h f).
Proof. unfold _audit_check. untouched. Qed.
Lemma untouched_process_check p f : Steps untouched (_process_check p f).
Proof. unfold _process_check. untouched. Qed.
#[local] Hint Resolve untouched_identity_check untouched_config_check untouched_state_check
  untouched_capability_check untouched_delivery_check untouched_audit_check untouched_process_check : untouched.

Lemma untouched_health paths head running : Steps untouched (inspect_operational_health paths head running).
Proof. unfold inspect_operational_health. untouched. Qed.

(** Reading the files of [w] with [m] gave [a]. *)
Definition gave {A} w (m : IO A) (a : A) : Prop := ∃ w1 w2, untouched w w1 ∧ m w1 = (Ret a, w2).

Lemma gave_Ret {A} w w1 (m : IO A) a w2 : untouched w w1 → m w1 = (Ret a, w2) → gave w m a.
Proof. intros. by exists w1, w2. Qed.

Lemma gave_later {A} w w1 (m : IO A) a : untouched w w1 → gave w1 m a → gave w m a.
Proof. intros Hu (w2&w3&Hu'&E). exists w2, w3. split; [by etrans|done]. Qed.

Lemma step_Ret {A} (m : IO A) a w w' : Steps untouched m → m w = (Ret a, w') → untouched w w'.
Proof. intros Hm E. specialize (Hm w). by rewrite E in Hm. Qed.

(** The entry at [p] is a regular file of this user, closed to others. *)
Definition private_regular w (p : path) : Prop :=
  ∃ g, w_fs w !! p = Some g ∧ f_kind g = Regular ∧ Z.land (f_mode g) MODE_GROUP_OTHER = 0 ∧ f_uid g = env_euid.

Lemma private_file_Ret p l x w w' : _require_private_regular_file p l w = (Ret x, w') → private_regular w p.
Proof.
  unfold _require_private_regular_file. intros (g&w1&[_ Hg]%os_errors_Ret%path_file_Ret&E)%bind_Ret.
  unfold _require_private_regular_metadata in E. apply bind_Ret in E as (?&?&[E1 ->]%check_Ret&E).
  apply bind_Ret in E as (?&?&[E2 ->]%check_Ret&[E3 _]%check_Ret). exists g.
  apply negb_false_iff in E1, E2, E3. apply bool_decide_eq_true in E1. apply Z.eqb_eq in E2, E3. done.
Qed.

Lemma private_untouched w w1 p : untouched w w1 → private_regular w1 p → private_regular w p.
Proof. intros (E&_&_). unfold private_regular. by rewrite E. Qed.

Lemma present_Ret p b w w' : _path_present p w = (Ret b, w') →
  untouched w w' ∧ (b = false → w_fs w !! p = None).
Proof.
  intros E. split; [by eapply step_Ret; [apply untouched_present|]|]. intros ->.
  unfold _path_present in E. apply try_Ret in E as [E|(e&w1&Hp&_&E)].
  - by apply bind_Ret in E as (?&?&_&[[=] _]%ret_Ret).
  - unfold path_file, mbind, M_bind in Hp.
    destruct (action w) as [[n|e'|] w2] eqn:Ea; [|injection Hp as -> ->|done].
    + pose proof (untouched_action w) as (Hf&_). rewrite Ea in Hf. cbn in Hp, Hf. rewrite Hf in Hp.
      by destruct (w_fs w !! p).
    + unfold action, mbind, M_bind in Ea. cbn in Ea. exfalso.
      destruct (env_fault (w_tick w)); cbn in Ea; try done; by injection Ea as <- <-.
Qed.

(** The check found no problem, or at least one. *)
Definition found (f f' : findings) (good : Prop) : Prop :=
  ∃ l, f_problems f' = f_problems f ++ l ∧ (l = [] → good).

Lemma found_noted name s f (good : Prop) : good → found f (noted name s f) good.
Proof. intros. exists []. by rewrite app_nil_r. Qed.
Lemma found_problem name s l f (good : Prop) : l ≠ [] → found f (problem name s l f) good.
Proof. intros. by exists l. Qed.

(** A guarded lookup: whether it is there, or nothing. *)
Lemma guarded_present_Ret p o w w' :
  try_except (b ← _path_present p; mret (Some b)) is_HealthError (λ _, mret None) w = (Ret o, w') →
  untouched w w' ∧ (o = Some false → w_fs w !! p = None).
Proof.
  intros [E|(?&w1&E1&_&[-> ->]%ret_Ret)]%try_Ret.
  - apply bind_Ret in E as (b&w1&[Hu Hb]%present_Ret&[-> ->]%ret_Ret). split; [done|]. intros [= ->]. by apply Hb.
  - split; [|done]. assert (Steps untouched (b ← _path_present p; mret (Some b))) as Hs by untouched.
    specialize (Hs w). by rewrite E1 in Hs.
Qed.

Definition identity_good w p (identity : option IdentityRecord) : Prop :=
  ∃ record, identity = Some record ∧ gave w (load_identity_record p) record.

Lemma identity_check_Ret p f identity f' w w' :
  _identity_check p f w = (Ret (identity, f'), w') → found f f' (identity_good w p identity).
Proof.
  unfold _identity_check. intros [E|(?&?&_&_&[[= -> ->] _]%ret_Ret)]%try_Ret; [|by apply found_problem].
  apply bind_Ret in E as (record&w1&E&[[= -> ->] _]%ret_Ret). apply found_noted. exists record.
  split; [done|]. by eapply gave_Ret.
Qed.

(** An active configuration of the identity, in a private file. *)
Definition config_good w p (identity : option IdentityRecord) (config : option AgentConfig) : Prop :=
  ∃ record c, identity = Some record ∧ config = Some c ∧ private_regular w p ∧ gave w (load_config p) c ∧
    c_status c = JStr (u "active") ∧ c_did c = JStr (i_did record) ∧ c_fingerprint c = JStr (i_fingerprint record).

Lemma config_check_Ret p identity f config f' w w' :
  _config_check p identity f w = (Ret (config, f'), w') → found f f' (config_good w p identity config).
Proof.
  unfold _config_check. cbv zeta. intros (present&w1&[Hu _]%guarded_present_Ret&E)%bind_Ret.
  destruct present as [[]|]; [|apply ret_Ret in E as [[= -> ->] _]; by apply found_problem..].
  apply bind_Ret in E as (loaded&w2&Hl&[E _]%ret_Ret). destruct loaded as [c|]; [|injection E as -> ->; by apply found_problem].
  case_bool_decide as Es; [|injection E as -> ->; by apply found_problem]. cbn [negb] in E.
  destruct identity as [record|]; [|injection E as -> ->; by apply found_problem].
  destruct (_ || _) eqn:Eb in E; [injection E as -> ->; by apply found_problem|]. injection E as -> ->.
  apply orb_false_iff in Eb as [E1%negb_false_iff%bool_decide_eq_true E2%negb_false_iff%bool_decide_eq_true].
  apply found_noted. exists record, c. apply try_Ret in Hl as [Hl|(?&?&_&_&[[=] _]%ret_Ret)].
  apply bind_Ret in Hl as (?&w3&Hp&Hl). apply bind_Ret in Hl as (c'&w4&Hl&[[= ->] _]%ret_Ret).
  pose proof (step_Ret _ _ _ _ (untouched_private_file p "config") Hp) as Hu'.
  split; [done|]. split; [done|]. split; [eapply private_untouched; [exact Hu|by eapply private_file_Ret]|].
  split; [|done]. eapply gave_Ret; [|exact Hl]. by etrans.
Qed.

(** The state knows the room of the configuration, its cursor and its nonce. *)
Definition state_good w p (config : option AgentConfig) : Prop :=
  ∃ s, private_regular w p ∧ gave w (load p) s ∧
    ∀ c, config = Some c → ∃ cursor nonce provisioned,
      cursors s !! str_of (c_room c) = Some cursor ∧ (∀ n, provisioned_seq c = JInt n → n ≤ cursor) ∧
      nonces s !! str_of (c_room c) = Some nonce ∧ nonce_int (provision_nonce c) = Ok provisioned ∧ provisioned ≤ nonce.

Lemma state_problems_none c s : state_problems c s = Ok [] → ∃ cursor nonce provisioned,
  cursors s !! str_of (c_room c) = Some cursor ∧ (∀ n, provisioned_seq c = JInt n → n ≤ cursor) ∧
  nonces s !! str_of (c_room c) = Some nonce ∧ nonce_int (provision_nonce c) = Ok provisioned ∧ provisioned ≤ nonce.
Proof.
  unfold state_problems. destruct (nonces s !! _) as [nonce|]; [|by intros [= []%app_eq_nil]].
  intros (provisioned&Hn&[= [Hc Hp]%app_eq_nil])%res_bind_Ok.
  destruct (Z.ltb_spec nonce provisioned); [done|]. clear Hp.
  destruct (cursors s !! _) as [cursor|]; [|done]. exists cursor, nonce, provisioned.
  do 2 (split; [done || idtac|]).
  - intros n En. rewrite En in Hc. destruct (Z.ltb_spec cursor n); [done|lia].
  - done.
Qed.

Lemma state_check_Ret p config f f' w w' :
  _state_check p config f w = (Ret f', w') → found f f' (state_good w p config).
Proof.
  unfold _state_check. cbv zeta. intros (present&w1&[Hu _]%guarded_present_Ret&E)%bind_Ret.
  destruct present as [[]|]; [|apply ret_Ret in E as [-> _]; by apply found_problem..].
  apply bind_Ret in E as (loaded&w2&Hl&E). destruct loaded as [s|]; [|apply ret_Ret in E as [-> _]; by apply found_problem].
  apply try_Ret in Hl as [Hl|(?&?&_&_&[[=] _]%ret_Ret)].
  apply bind_Ret in Hl as (?&w3&Hp&Hl). apply bind_Ret in Hl as (s'&w4&Hl&[[= ->] _]%ret_Ret).
  pose proof (step_Ret _ _ _ _ (untouched_private_file p "state") Hp) as Hu'.
  assert (private_regular w p ∧ gave w (load p) s') as [Hpriv Hgave].
  { split; [eapply private_untouched; [exact Hu|by eapply private_file_Ret]|].
    eapply gave_Ret; [|exact Hl]. by etrans. }
  destruct config as [c|].
  - apply bind_Ret in E as (problems&w5&[Hpr _]%lift_Ret&[-> _]%ret_Ret). case_bool_decide as En.
    + apply found_noted. exists s'. split; [done|]. split; [done|]. intros ? [= <-]. subst problems.
      by apply state_problems_none.
    + by apply found_problem.
  - apply ret_Ret in E as [-> _]. apply found_noted. exists s'. by repeat split.
Qed.

(** The policy loads, from a private file. *)
Definition policy_good w p : Prop := private_regular w p ∧ ∃ policy, gave w (load_policy p) policy.

Lemma load_policy_private p policy w w' : load_policy p w = (Ret policy, w') → private_regular w p.
Proof.
  unfold load_policy. intros (payload&w1&E%os_errors_Ret&_)%bind_Ret. apply bind_Ret in E as (g&w2&Eo&E).
  unfold open_nofollow in Eo. apply bind_Ret in Eo as (g'&w3&[_ Hg]%path_file_Ret&Eo).
  destruct (decide _) in Eo; [by apply raise_Ret in Eo|]. apply ret_Ret in Eo as [<- _].
  apply bind_Ret in E as (?&?&[E1 ->]%check_Ret&E). apply bind_Ret in E as (?&?&[E2 ->]%check_Ret&E).
  apply bind_Ret in E as (?&?&[E3 ->]%check_Ret&_). exists g. by breflect.
Qed.

Lemma capability_check_Ret p f f' w w' : _capability_check p f w = (Ret f', w') → found f f' (policy_good w p).
Proof.
  unfold _capability_check. intros (loaded&w1&Hl&[-> _]%ret_Ret)%bind_Ret.
  destruct loaded as [policy|]; [|by apply found_problem]. apply found_noted.
  apply try_Ret in Hl as [Hl|(?&?&_&_&[[=] _]%ret_Ret)].
  apply bind_Ret in Hl as (policy'&w2&Hl&[[= ->] _]%ret_Ret).
  split; [by eapply load_policy_private|]. exists policy'. by eapply gave_Ret.
Qed.

(** There is no journal, or it holds a message of this agent for its room. *)
Definition delivery_good w p (identity : option IdentityRecord) (config : option AgentConfig)
    (delivery : option DeliveryRecord) : Prop :=
  (delivery = None ∧ (w_fs w !! p = None ∨ gave w (load_journal p) None)) ∨
  ∃ d record c, delivery = Some d ∧ identity = Some record ∧ config = Some c ∧ private_regular w p ∧
    gave w (load_journal p) (Some d) ∧ did d = i_did record ∧ verify_for_room (str_of (c_room c)) d = Ok tt.

Lemma delivery_check_Ret p identity config f delivery f' w w' :
  _delivery_check p identity config f w = (Ret (delivery, f'), w') →
  found f f' (delivery_good w p identity config delivery).
Proof.
  unfold _delivery_check. cbv zeta. intros (present&w1&[Hu Hno]%guarded_present_Ret&E)%bind_Ret.
  destruct present as [[]|]; [|apply ret_Ret in E as [[= -> ->] _]..].
  2: { apply found_noted. left. auto. }
  2: { by apply found_problem. }
  apply try_Ret in E as [E|(?&?&_&_&[[= -> ->] _]%ret_Ret)]; [|by apply found_problem].
  apply bind_Ret in E as (?&w2&Hp&E).
  pose proof (step_Ret _ _ _ _ (untouched_private_file p "delivery journal") Hp) as Hu'.
  apply bind_Ret in E as (loaded&w3&Hl&E).
  assert (gave w (load_journal p) loaded) as Hg by (eapply gave_Ret; [|exact Hl]; by etrans).
  destruct loaded as [d|]; [|apply ret_Ret in E as [[= -> ->] _]; apply found_noted; left; auto].
  destruct identity as [record|]; [|by apply raise_Ret in E]. destruct config as [c|]; [|by apply raise_Ret in E].
  apply bind_Ret in E as (?&?&[Ed%negb_false_iff%bool_decide_eq_true _]%check_Ret&E).
  apply bind_Ret in E as ([]&?&[Hv _]%lift_Ret&[[= -> ->] _]%ret_Ret). apply found_noted. right.
  exists d, record, c. do 3 (split; [done|]). split; [|done].
  eapply private_untouched; [exact Hu|by eapply private_file_Ret].
Qed.

(** There is no log and none is expected, or it verifies, with the expected
    head, under this agent. *)
Definition audit_good w p (identity : option IdentityRecord) (head : option str) : Prop :=
  (head = None ∧ w_fs w !! p = None) ∨
  ∃ record summary, identity = Some record ∧ private_regular w p ∧ gave w (verify p head) summary ∧
    (∀ i, issuer summary = Some i → i = i_did record).

Lemma audit_check_Ret p identity head f f' w w' :
  _audit_check p identity head f w = (Ret f', w') → found f f' (audit_good w p identity head).
Proof.
  unfold _audit_check. cbv zeta. intros (present&w1&[Hu Hno]%guarded_present_Ret&E)%bind_Ret.
  destruct present as [[]|]; [|apply ret_Ret in E as [-> _]..].
  2: { destruct head; [by apply found_problem|]. apply found_noted. left. auto. }
  2: { by apply found_problem. }
  apply try_Ret in E as [E|(?&?&_&_&[-> _]%ret_Ret)]; [|by apply found_problem].
  apply bind_Ret in E as (?&w2&Hp&E).
  pose proof (step_Ret _ _ _ _ (untouched_private_file p "audit") Hp) as Hu'.
  apply bind_Ret in E as (summary&w3&Hv&E). apply bind_Ret in E as (?&?&[Hi _]%check_Ret&[-> _]%ret_Ret).
  destruct identity as [record|]; [|done]. apply found_noted. right. exists record, summary.
  split; [done|]. split; [eapply private_untouched; [exact Hu|by eapply private_file_Ret]|].
  split; [eapply gave_Ret; [|exact Hv]; by etrans|]. intros i Ei. rewrite Ei in Hi.
  by apply negb_false_iff, bool_decide_eq_true in Hi.
Qed.

(** The lock is only taken when the system says so. *)
Lemma process_check_Ret p process f f' w w' :
  _process_check p f w = (Ret (process, f'), w') →
  found f f' (process ∈ [u "running"; u "stopped"] ∧ (process = u "running" → ∃ n, env_fault n = BlockFault)).
Proof.
  unfold _process_check. intros (status&w1&Hs&[E _]%ret_Ret)%bind_Ret.
  destruct status as [s|]; [|injection E as -> ->; by apply found_problem]. injection E as -> ->. apply found_noted.
  assert (u "stopped" ∈ [u "running"; u "stopped"] ∧ (u "stopped" = u "running" → ∃ n, env_fault n = BlockFault))
    as Hstopped by (split; [set_solver|by intros [=]]).
  apply try_Ret in Hs as [Hs|(?&?&_&_&[[=] _]%ret_Ret)]. apply bind_Ret in Hs as (s'&w2&Hs&[[= ->] _]%ret_Ret).
  unfold _process_lock_status in Hs. cbv zeta in Hs. apply bind_Ret in Hs as ([]&w3&_&Hs); cbn [negb] in Hs.
  - apply bind_Ret in Hs as (g&w4&_&Hs). apply bind_Ret in Hs as (status&w5&Hst&Hs).
    apply bind_Ret in Hs as (?&w6&_&Hs). apply bind_Ret in Hs as (?&w7&_&[-> _]%ret_Ret).
    apply on_raise_Ret in Hst as E.
    apply bind_Ret in E as (?&w8&_&E%os_errors_Ret). apply try_Ret in E as [E|(e&w9&E&Hb&[-> _]%ret_Ret)].
    + by apply bind_Ret in E as (?&?&_&[-> _]%ret_Ret).
    + split; [set_solver|]. intros _. exists (w_tick w8). unfold lock_action, mbind, M_bind in E. cbn in E.
      destruct (env_fault (w_tick w8)); cbn in E; [done|by injection E as <- _|done..].
  - by apply ret_Ret in Hs as [-> _].
Qed.
End reading.

(** ** The theorem *)

Lemma status_of_problems_healthy problems process status code :
  status_of_problems problems process = (status, code) → code = 0 →
  problems = [] ∧ (status = u "running" ↔ process = u "running").
Proof.
  unfold status_of_problems. destruct (bool_decide (List.filter _ problems = [])) eqn:E; cbn [negb].
  2: { by intros [= _ <-]. }
  apply bool_decide_eq_true in E. destruct (bool_decide (_ ∈ problems)) eqn:E2; [by intros [= _ <-]|].
  apply bool_decide_eq_false in E2. intros Hs _. split.
  - destruct problems as [|p l]; [done|]. cbn [List.filter] in E. exfalso. apply E2.
    destruct (bool_decide (p = u "delivery_recovery_required")) eqn:Ep; cbn [negb] in E; [|done].
    apply bool_decide_eq_true in Ep as ->. by left.
  - destruct (bool_decide (process = _)) eqn:Ep; injection Hs as <- <-.
    + by apply bool_decide_eq_true in Ep.
    + apply bool_decide_eq_false in Ep. by split.
Qed.

Section later.
Context `{Env} `{UrlLib} `{Ed25519}.
Context (w w1 : world memory) (Hu : untouched w w1).
Set Default Proof Using "All".

Lemma config_later p i c : config_good w1 p i c → config_good w p i c.
Proof. intros (r&c'&?&?&?&?&?). exists r, c'. eauto 10 using private_untouched, gave_later. Qed.
Lemma state_later p c : state_good w1 p c → state_good w p c.
Proof. intros (s&?&?&?). exists s. eauto using private_untouched, gave_later. Qed.
Lemma policy_later p : policy_good w1 p → policy_good w p.
Proof. intros (?&policy&?). split; [by eapply private_untouched|]. exists policy. eauto using gave_later. Qed.
Lemma delivery_later p i c d : delivery_good w1 p i c d → delivery_good w p i c d.
Proof.
  intros [[? [Hn|?]]|(d'&r&c'&?&?&?&?&?&?&?)]; [left; split; [done|]..|right].
  - left. destruct Hu as (E&_). by rewrite <- E.
  - right. eauto using gave_later.
  - exists d', r, c'. eauto 10 using private_untouched, gave_later.
Qed.
Lemma audit_later p i h : audit_good w1 p i h → audit_good w p i h.
Proof.
  intros [[? Hn]|(r&s&?&?&?&?)]; [left; split; [done|]|right].
  - destruct Hu as (E&_). by rewrite <- E.
  - exists r, s. eauto 10 using private_untouched, gave_later.
Qed.
End later.

Lemma found_nil f f' good : found f f' good → f_problems f' = [] → f_problems f = [] ∧ good.
Proof. intros (l&->&Hg) [-> ->]%app_eq_nil. auto. Qed.

(** What the inspection established when its exit code is zero. *)
Lemma inspect_healthy_Ret `{Env} `{UrlLib} `{Ed25519} (paths : HealthPaths) head expect_running report w w' :
  inspect_operational_health paths head expect_running w = (Ret report, w') → exit_code report = 0 →
  ∃ identity config delivery,
    identity_good w (h_identity paths) identity ∧ config_good w (h_config paths) identity config ∧
    state_good w (h_state paths) config ∧ policy_good w (h_capability_policy paths) ∧
    delivery_good w (h_journal paths) identity config delivery ∧ audit_good w (h_audit paths) identity head ∧
    (h_status report = u "running" ∧ (∃ n, env_fault n = BlockFault) ∨
     h_status report = u "ready" ∧ expect_running = false ∧ delivery = None).
Proof.
  intros E Hcode.
  unfold inspect_operational_health in E.
  apply bind_Ret in E as ([identity f1]&w1&E1&E). apply bind_Ret in E as ([config f2]&w2&E2&E).
  apply bind_Ret in E as (f3&w3&E3&E). apply bind_Ret in E as (f4&w4&E4&E).
  apply bind_Ret in E as ([delivery f5]&w5&E5&E). apply bind_Ret in E as (f6&w6&E6&E).
  apply bind_Ret in E as ([process f7]&w7&E7&E).
  pose proof (step_Ret _ _ _ _ (untouched_identity_check _ _) E1) as U1.
  pose proof (transitivity U1 (step_Ret _ _ _ _ (untouched_config_check _ _ _) E2)) as U2.
  pose proof (transitivity U2 (step_Ret _ _ _ _ (untouched_state_check _ _ _) E3)) as U3.
  pose proof (transitivity U3 (step_Ret _ _ _ _ (untouched_capability_check _ _) E4)) as U4.
  pose proof (transitivity U4 (step_Ret _ _ _ _ (untouched_delivery_check _ _ _ _) E5)) as U5.
  cbv zeta in E. destruct (status_of_problems _ process) as [status code] eqn:Es0.
  pose proof Es0 as Es. apply ret_Ret in E as [-> _]. cbn in Hcode |- *.
  apply status_of_problems_healthy in Es as [[Hp [Hr Hd]%app_eq_nil]%app_eq_nil Hs]; [|done].
  apply process_check_Ret, found_nil in E7 as [Hp6 Hproc]; [|done].
  apply audit_check_Ret, found_nil in E6 as [Hp5 Ha]; [|done].
  apply delivery_check_Ret, found_nil in E5 as [Hp4 Hdel]; [|done].
  apply capability_check_Ret, found_nil in E4 as [Hp3 Hpol]; [|done].
  apply state_check_Ret, found_nil in E3 as [Hp2 Hst]; [|done].
  apply config_check_Ret, found_nil in E2 as [Hp1 Hc]; [|done].
  apply identity_check_Ret, found_nil in E1 as [_ Hi]; [|done].
  exists identity, config, delivery. split; [done|]. split; [by apply (config_later w w1)|].
  split; [by apply (state_later w w2)|]. split; [by apply (policy_later w w3)|]. split; [by apply (delivery_later w w4)|].
  split; [by apply (audit_later w w5)|]. destruct Hproc as [Hproc Hblock].
  rewrite !elem_of_cons, elem_of_nil in Hproc.
  destruct Hproc as [-> | [-> | []]]; [left; split; [by apply Hs|by apply Hblock]|right].
  assert (status = u "ready") as ->.
  { rewrite Hp, Hr, Hd in Es0. injection Es0 as <- _. reflexivity. }
  split; [done|]. destruct expect_running; [by vm_compute in Hr|]. split; [done|]. by destruct delivery.
Qed.

(** C31: a healthy report can be relied on, and looking changes nothing.  When the
    exit code is zero: the identity loads (who else may read its file is not looked
    at); a private file holds an active configuration of that identity; the state of
    its room is in a private file, with a cursor and a nonce not behind those of the
    provisioning; the policy loads from a private file; a delivery that is under way
    is in a private file, is of this agent and its room, and then the process is
    running; the audit log, if there is one or a head is expected, is a private file,
    is of this agent, verifies, and has the expected head.  Private: a regular file
    of this user, closed to all others.  No file is changed, no request is made. *)
Theorem healthy_report_is_sound `{Env} `{UrlLib} `{Ed25519} (paths : HealthPaths) (head : option str)
    (expect_running : bool) (w : world memory) :
  let '(o, w') := inspect_operational_health paths head expect_running w in
  untouched w w' ∧
  ∀ report, o = Ret report → exit_code report = 0 →
  ∃ identity config delivery,
    identity_good w (h_identity paths) identity ∧ config_good w (h_config paths) identity config ∧
    state_good w (h_state paths) config ∧ policy_good w (h_capability_policy paths) ∧
    delivery_good w (h_journal paths) identity config delivery ∧ audit_good w (h_audit paths) identity head ∧
    (h_status report = u "running" ∨
     h_status report = u "ready" ∧ expect_running = false ∧ delivery = None).
Proof.
  pose proof (untouched_health paths head expect_running w) as Hu.
  destruct (inspect_operational_health paths head expect_running w) as [o w'] eqn:E. split; [done|].
  intros report -> Hcode. destruct (inspect_healthy_Ret _ _ _ _ _ _ E Hcode) as (i&c&d&?&?&?&?&?&?&Hs).
  exists i, c, d. repeat (split; [done|]). destruct Hs as [[? _]|?]; auto.
Qed.

(** A responder in order. *)
Definition sample_identity : json :=
  JDict [(u "did", JStr sample_did); (u "fingerprint", c_fingerprint sample_config);
         (u "custody", JDict [(u "backend", JStr (u "macos-keychain")); (u "service", JStr (u "s"));
                              (u "account", JStr (u "a"))])].
Definition sample_policy : json :=
  JDict [(u "schema", JStr CAPABILITY_SCHEMA); (u "principals", JDict [])].
Definition sample_state (cursor : Z) : AgentState :=
  MkAgentState {[u "mb-p-1" := cursor]} {[u "mb-p-1" := 1700000000000000000]} ∅ ∅.
Definition sample_health (cursor : Z) (expect_running : bool) : outcome (str * list str) :=
  let E := toy_env (λ _, NoFault) (λ _, HttpFailed) in
  let file s := private_file (dumps false s) in
  let w := toy_world empty_memory
    [(Path (u "/id"), file sample_identity);
     (Path (u "/config"), private_file (config_bytes (activated sample_config 5)));
     (Path (u "/state"), private_file (state_bytes (sample_state cursor)));
     (Path (u "/policy"), file sample_policy)] in
  match (inspect_operational_health
           (MkHealthPaths (Path (u "/id")) (Path (u "/config")) (Path (u "/state")) (Path (u "/policy"))
              (Path (u "/journal")) (Path (u "/audit")) (Path (u "/lock"))) None expect_running w).1 with
  | Ret r => Ret (h_status r, h_problems r) | Raise e => Raise e | Crashed => Crashed end.

Example health_ready : sample_health 5 false = Ret (u "ready", []).
Proof. by vm_compute. Qed.
Example health_cursor_behind : sample_health 4 false = Ret (u "unhealthy", [u "state_cursor_behind_config"]).
Proof. by vm_compute. Qed.
Example health_not_running : sample_health 5 true = Ret (u "unhealthy", [u "process_not_running"]).
Proof. by vm_compute. Qed.
