(* ===== verification/LaunchAgent.v ===== *)
(** [launchd.py]: rendering a property list for a responder that passed the
    health inspection, without installing it; with the [launchd] command of
    [cli.py].

    [plistlib.dumps] is the standard library's XML writer.  [Path.resolve] asks
    the file system for symbolic links: the class [Resolver]. *)

From S2P Require Import Prelude Errors Text Regex Json Crypto Url Clock Effects State Memory Prompt.
From S2P Require Import Capabilities Delivery AuditLog Config Identity Run Provision Controller Health.

(** [[A-Za-z0-9](?:[A-Za-z0-9.-]{0,126}[A-Za-z0-9])?\Z] *)
Definition LABEL_PATTERN : regex :=
  RSeq (RClass alnum) (ropt (RSeq (rrep (RClass (alnum ++ [rc 46; rc 45])) 0 126) (RClass alnum))).

Record LaunchAgentSpec := MkLaunchAgentSpec {
  label : str;
  executable : path;
  health_paths : HealthPaths;
  stdout_path : path;
  stderr_path : path;
  expected_audit_head : option str
}.

(** [path.resolve(strict=False)]: [None] is an [OSError] or a [RuntimeError]. *)
Class Resolver := resolve_path : nat → path → option path.

Definition MODE_OWNER_EXECUTE : Z := 64.      (* S_IXUSR *)
Definition MODE_OWNER_WRITE : Z := 128.       (* S_IWUSR *)
Definition MODE_OTHERS_WRITE : Z := 18.       (* 0o022 *)

(** ** The property list *)

Inductive plist : Type :=
  | PString (s : str)
  | PInteger (z : Z)
  | PBool (b : bool)
  | PArray (l : list plist)
  | PDict (kvs : list (str * plist)).

(** The control characters [plistlib] refuses. *)
Definition control_char (c : Z) : bool :=
  (0 <=? c) && (c <=? 8) || (c =? 11) || (c =? 12) || (14 <=? c) && (c <=? 31).

(** [text.replace("\r\n", "\n")] and [text.replace("\r", "\n")], then the
    three entities. *)
Definition escape_char (c : Z) : str :=
  if c =? 38 then u "&amp;" else if c =? 60 then u "&lt;" else if c =? 62 then u "&gt;" else [c].
Definition plist_escape (s : str) : res str :=
  raise_if (existsb control_char s) (ValueError "strings can't contain control characters; use bytes instead");;
  Ok (concat (map escape_char (universal_newlines s))).

Definition indented (level : nat) (s : str) : str := replicate level 9 ++ s ++ [10].
Definition element (level : nat) (tag content : str) : str :=
  indented level (u "<" ++ tag ++ u ">" ++ content ++ u "</" ++ tag ++ u ">").

Fixpoint write_value (level : nat) (v : plist) : res str :=
  match v with
  | PString s => t ← plist_escape s; Ok (element level (u "string") t)
  | PInteger z => Ok (element level (u "integer") (int_str z))
  | PBool b => Ok (indented level (if b then u "<true/>" else u "<false/>"))
  | PArray [] => Ok (indented level (u "<array/>"))
  | PArray l =>
      lines ← mapM_res (write_value (S level)) l;
      Ok (indented level (u "<array>") ++ concat lines ++ indented level (u "</array>"))
  | PDict [] => Ok (indented level (u "<dict/>"))
  | PDict kvs =>
      lines ← mapM_res (λ kv,
        key ← plist_escape kv.1; value ← write_value (S level) kv.2;
        Ok (element (S level) (u "key") key ++ value)) kvs;
      Ok (indented level (u "<dict>") ++ concat lines ++ indented level (u "</dict>"))
  end.

Definition quoted (s : str) : str := 34 :: s ++ [34].
Definition PLISTHEADER : str :=
  u "<?xml version=" ++ quoted (u "1.0") ++ u " encoding=" ++ quoted (u "UTF-8") ++ u "?>" ++ [10] ++
  u "<!DOCTYPE plist PUBLIC " ++ quoted (u "-//Apple//DTD PLIST 1.0//EN") ++ u " " ++
  quoted (u "http://www.apple.com/DTDs/PropertyList-1.0.dtd") ++ u ">" ++ [10].

(** [plistlib.dumps(payload, fmt=FMT_XML, sort_keys=False).decode("utf-8")]: a
    text that cannot be encoded fails. *)
Definition plist_dumps (payload : plist) : res str :=
  body ← write_value 0 payload;
  let text := PLISTHEADER ++ u "<plist version=" ++ quoted (u "1.0") ++ u ">" ++ [10] ++ body ++ u "</plist>" ++ [10] in
  utf8_encode text;;
  Ok text.

(** ** The agent *)

(** The path an entry is at, as [str(path)]. *)
Definition program_arguments (spec : LaunchAgentSpec) : list str :=
  let paths := health_paths spec in
  [path_text (executable spec); u "run";
   u "--identity"; path_text (h_identity paths);
   u "--config"; path_text (h_config paths);
   u "--state"; path_text (h_state paths);
   u "--journal"; path_text (h_journal paths);
   u "--lock"; path_text (h_lock paths);
   u "--audit-log"; path_text (h_audit paths);
   u "--capability-policy"; path_text (h_capability_policy paths);
   u "--start-at"; u "saved"; u "--send"].

Definition launch_payload (spec : LaunchAgentSpec) : plist :=
  PDict [(u "Label", PString (label spec));
         (u "Program", PString (path_text (executable spec)));
         (u "ProgramArguments", PArray (map PString (program_arguments spec)));
         (u "RunAtLoad", PBool true);
         (u "KeepAlive", PDict [(u "Crashed", PBool true)]);
         (u "ThrottleInterval", PInteger 30);
         (u "ExitTimeOut", PInteger 20);
         (u "ProcessType", PString (u "Background"));
         (u "LowPriorityIO", PBool true);
         (u "LimitLoadToSessionType", PString (u "Aqua"));
         (u "Umask", PString (u "077"));
         (u "StandardOutPath", PString (path_text (stdout_path spec)));
         (u "StandardErrorPath", PString (path_text (stderr_path spec)))].

(** The files of the runtime, which the logs must not overwrite. *)
Definition artifacts (spec : LaunchAgentSpec) : list path :=
  let paths := health_paths spec in
  [executable spec; h_identity paths; h_config paths; h_state paths; h_capability_policy paths; h_journal paths;
   h_audit paths; h_lock paths].

Definition is_absolute (p : path) : bool := startswith [47] (path_text p).

Section launch.
Context `{Env} `{UrlLib} `{Ed25519} `{Directories} `{Resolver}.

Definition _require_absolute_paths (spec : LaunchAgentSpec) : res unit :=
  raise_if (negb (forallb is_absolute (artifacts spec ++ [stdout_path spec; stderr_path spec])))
    (LaunchAgentError "all LaunchAgent paths must be absolute").

Definition _validate_executable (p : path) : IO unit :=
  metadata ← os_errors (LaunchAgentError "LaunchAgent executable cannot be inspected") (path_file p);
  check (negb (bool_decide (f_kind metadata = Regular)))
    (LaunchAgentError "LaunchAgent executable must be a regular file");;
  check (Z.land (f_mode metadata) MODE_OWNER_EXECUTE =? 0)
    (LaunchAgentError "LaunchAgent executable is not owner-executable");;
  check (negb (Z.land (f_mode metadata) MODE_OTHERS_WRITE =? 0))
    (LaunchAgentError "LaunchAgent executable must not be group/other writable");;
  check (negb (f_uid metadata =? env_euid)) (LaunchAgentError "LaunchAgent executable must be owned by this user").

(** What a path resolves to now. *)
Definition resolved (p : path) : IO path :=
  n ← next_tick;
  lift (of_option (LaunchAgentError "LaunchAgent paths cannot be resolved safely") (resolve_path n p)).

Fixpoint resolve_all (l : list path) : IO (list path) :=
  match l with
  | [] => mret []
  | p :: l' => q ← resolved p; qs ← resolve_all l'; mret (q :: qs)
  end.

Definition _validate_log_destinations (spec : LaunchAgentSpec) : IO unit :=
  stdout ← resolved (stdout_path spec);
  stderr ← resolved (stderr_path spec);
  protected ← resolve_all (artifacts spec);
  check (stdout == stderr) (LaunchAgentError "stdout and stderr log paths must be different");;
  check ((stdout in? protected) || (stderr in? protected))
    (LaunchAgentError "LaunchAgent logs must not overwrite a runtime artifact").

(** The directory the log is in. *)
Definition _validate_log_directory (p : path) : IO unit :=
  n ← next_tick;
  metadata ← lift (of_option (LaunchAgentError "LaunchAgent log directory cannot be inspected") (directory_of n p));
  check (negb (d_is_dir metadata)) (LaunchAgentError "LaunchAgent log directory must be a real directory");;
  check (negb (Z.land (d_mode metadata) MODE_GROUP_OTHER =? 0))
    (LaunchAgentError "LaunchAgent log directory must be owner-only");;
  check (negb (d_uid metadata =? env_euid))
    (LaunchAgentError "LaunchAgent log directory must be owned by this user").

Definition _validate_existing_log (p : path) : IO unit :=
  metadata ← try_except (f ← path_file p; mret (Some f)) is_OSError
    (λ e, if is_FileNotFoundError e then mret None
          else raise (LaunchAgentError "LaunchAgent log path cannot be inspected"));
  match metadata with
  | None => mret tt
  | Some metadata =>
      check (negb (bool_decide (f_kind metadata = Regular)))
        (LaunchAgentError "LaunchAgent log path must be a regular file");;
      check (negb (Z.land (f_mode metadata) MODE_GROUP_OTHER =? 0))
        (LaunchAgentError "LaunchAgent log permissions must be owner-only");;
      check (Z.land (f_mode metadata) MODE_OWNER_WRITE =? 0)
        (LaunchAgentError "LaunchAgent log must be owner-writable");;
      check (negb (f_uid metadata =? env_euid)) (LaunchAgentError "LaunchAgent log must be owned by this user")
  end.

Definition _validate_log_path (p : path) : IO unit := _validate_log_directory p;; _validate_existing_log p.

Definition _validate_spec (spec : LaunchAgentSpec) : IO unit :=
  check (negb (fullmatch LABEL_PATTERN (label spec)) || (count_char 46 (label spec) =? 0) || contains (u "..") (label spec))
    (LaunchAgentError "LaunchAgent label must be a reverse-DNS token");;
  lift (_require_absolute_paths spec);;
  _validate_executable (executable spec);;
  _validate_log_destinations spec;;
  _validate_log_path (stdout_path spec);;
  _validate_log_path (stderr_path spec).

Definition render_launch_agent (spec : LaunchAgentSpec) : IO str :=
  _validate_spec spec;;
  health ← inspect_operational_health (health_paths spec) (expected_audit_head spec) false;
  check (negb (exit_code health =? 0)) (LaunchAgentError "health preflight failed");;
  lift (plist_dumps (launch_payload spec)).

(** The options; each path is absolute already. *)
Record LaunchArgs := MkLaunchArgs {
  la_identity : str; la_config : option str; la_state : option str; la_capability_policy : str;
  la_journal : option str; la_audit_log : option str; la_lock : option str;
  la_label : str; la_executable : str; la_stdout : option str; la_stderr : option str;
  la_expected_audit_head : option str
}.

(** [_launchd], up to printing the text. *)
Definition _launchd (args : LaunchArgs) : IO str :=
  let beside selected default_name := lift (_path_beside_identity selected (la_identity args) default_name) in
  config ← beside (la_config args) (u "safe-agent-config.json");
  state ← beside (la_state args) (u "safe-agent-state.json");
  journal ← beside (la_journal args) (u "safe-agent-delivery.json");
  audit ← beside (la_audit_log args) (u "safe-agent-audit.jsonl");
  lock ← beside (la_lock args) (u "safe-agent.lock");
  stdout ← beside (la_stdout args) (u "safe-agent.stdout.log");
  stderr ← beside (la_stderr args) (u "safe-agent.stderr.log");
  rendered ← render_launch_agent
    (MkLaunchAgentSpec (la_label args) (Path (la_executable args))
       (MkHealthPaths (Path (la_identity args)) config state (Path (la_capability_policy args)) journal audit lock)
       stdout stderr (la_expected_audit_head args));
  Effects.action;;
  mret rendered.
End launch.
