(* ===== verification/BeadsTasks.v ===== *)
(** [beads_tasks.py]: listing the ready work of a local Beads database through
    the [bd] command; with the [tasks] command of [cli.py].

    The child process and its two pipes are the environment's: the class
    [Child].  The loop that reads the pipes is stopped when the fuel is used
    up.  The platform is POSIX. *)

From S2P Require Import Prelude Errors Text Regex Json Crypto Url Clock Effects State Memory.
From S2P Require Import Capabilities Config Identity Run Provision Controller.

Definition MAX_READY_TASKS : Z := 10.
Definition MAX_METADATA_BYTES : Z := 16384.
Definition MAX_RESULT_BYTES : Z := 65536.
Definition MAX_STDERR_BYTES : Z := 4096.
Definition QUERY_TIMEOUT_SECONDS : Q := 10.
Definition TASK_ID : regex :=
  RSeq (RClass alnum) (rrep (RClass (alnum ++ [rc 46; rc 95; rc 45])) 0 63).

Record ReadyTask := MkReadyTask { t_id : str; t_title : str; t_priority : Z }.

Definition task_error (msg : string) : exn := BeadsTasksError msg.

(** ** One row *)

(** [unicodedata.category(char) in {"Cc", "Cf"}] *)
Definition control_or_format (c : Z) : bool := in_ranges (Cc ++ Cf) c.

Definition title_ok (title : str) : bool :=
  (1 <=? length title) && (length title <=? 200) && negb (strip title == []) && negb (existsb control_or_format title).

Definition _task_from_row (row : json) : res ReadyTask :=
  let error := Err (BeadsTasksError "Beads returned an invalid task") in
  match row with
  | JDict kvs =>
      match jget (u "id") kvs, jget (u "title") kvs, jget (u "priority") kvs with
      | JStr task_id, JStr title, JInt priority =>
          if fullmatch TASK_ID task_id && title_ok title && (0 <=? priority) && (priority <=? 4)
             && (jget (u "status") kvs == JStr (u "open"))
          then Ok (MkReadyTask task_id title priority) else error
      | _, _, _ => error
      end
  | _ => error
  end.

(** ** The child process *)

Inductive stream : Type := Stdout | Stderr.
Definition stream_limit (s : stream) : Z := match s with Stdout => MAX_RESULT_BYTES | Stderr => MAX_STDERR_BYTES end.

Inductive spawn_result : Type := Spawned | SpawnNotFound | SpawnFailed.
Inductive pipe_result : Type := PipeBytes (b : bytes) | PipeBlocked | PipeFailed.
Inductive exit_result : Type := Exited (code : Z) | StillRunning.

Class Child := {
  child_which : nat → option str;                                     (* shutil.which("bd") *)
  child_environ : list (str * str);                                   (* os.environ *)
  child_spawn : nat → list str → list (str * str) → str → spawn_result;
  child_ready : nat → list stream;                                    (* selector.select *)
  child_read : nat → stream → pipe_result;                            (* os.read *)
  child_wait : nat → exit_result;                                     (* process.wait(timeout) *)
  child_kill : nat → bool                                             (* killpg; wait *)
}.

(** What the loop keeps: the streams still registered, their sizes, the output. *)
Record pipes := MkPipes {
  p_registered : list stream;
  p_stdout_size : Z;
  p_stderr_size : Z;
  p_output : bytes
}.

Definition size_of (s : stream) (p : pipes) : Z :=
  match s with Stdout => p_stdout_size p | Stderr => p_stderr_size p end.
#[export] Instance stream_eq_dec : EqDecision stream.
Proof. solve_decision. Defined.

Definition unregister (s : stream) (p : pipes) : pipes :=
  MkPipes (List.filter (λ s', negb (bool_decide (s' = s))) (p_registered p)) (p_stdout_size p) (p_stderr_size p) (p_output p).
Definition received (s : stream) (chunk : bytes) (p : pipes) : pipes :=
  match s with
  | Stdout => MkPipes (p_registered p) (p_stdout_size p + length chunk) (p_stderr_size p) (p_output p ++ chunk)
  | Stderr => MkPipes (p_registered p) (p_stdout_size p) (p_stderr_size p + length chunk) (p_output p)
  end.

(** [os.read(fd, n)] returns at most [n] bytes. *)
Definition read_size (s : stream) (p : pipes) : Z := 8192 `min` (stream_limit s - size_of s p + 1).

(** The variables the child gets. *)
Definition RUNTIME_VARIABLES : list str :=
  [u "HOME"; u "PATH"; u "LANG"; u "LC_ALL"; u "USER"; u "TMPDIR"; u "SYSTEMROOT"].
Definition environment (environ : list (str * str)) (selected : str) : list (str * str) :=
  let kept := omap (λ name, (λ value, (name, value)) <$> dict_get name environ) RUNTIME_VARIABLES in
  dict_set (u "NO_COLOR") (u "1") (dict_set (u "BD_NON_INTERACTIVE") (u "1") (dict_set (u "BEADS_DIR") selected kept)).

(** [path.parent] and [path.name] of an absolute path. *)
Definition parent_of (p : str) : str := match rpartition 47 p with (Some parent, _) => parent | (None, _) => [] end.
Definition name_of (p : str) : str := (rpartition 47 p).2.

Section beads.
Context {Mem : Type} `{Env} `{Child}.
Abbreviation M := (M Mem).

(** One event of the selector. *)
Definition read_stream (s : stream) (p : pipes) : M pipes :=
  n ← next_tick;
  match child_read n s with
  | PipeBlocked => mret p
  | PipeFailed => raise OSError
  | PipeBytes b =>
      match take (Z.to_nat (read_size s p)) b with
      | [] => mret (unregister s p)
      | chunk =>
          let p := received s chunk p in
          check (stream_limit s <? size_of s p) (task_error "Beads result is too large");;
          mret p
      end
  end.

Fixpoint read_streams (l : list stream) (p : pipes) : M pipes :=
  match l with
  | [] => mret p
  | s :: l' => p ← read_stream s p; read_streams l' p
  end.

(** The streams [select] reports are registered ones, each at most once. *)
Definition selected_streams (p : pipes) (ready : list stream) : list stream :=
  List.filter (λ s, bool_decide (s ∈ ready)) (p_registered p).

(** [TimeoutExpired] is only caught by [list_ready_tasks], which says so. *)
Definition timed_out : exn := task_error "Beads query timed out".

(** [while selector.get_map()] *)
Fixpoint read_loop (fuel : nat) (deadline : Q) (p : pipes) : M pipes :=
  match p_registered p, fuel with
  | [], _ => mret p
  | _, O => crash
  | _, S fuel =>
      now ← time_monotonic;
      check (Qle_bool (deadline - now) 0) timed_out;;
      n ← next_tick;
      p ← read_streams (selected_streams p (child_ready n)) p;
      read_loop fuel deadline p
  end.

Definition kill_session : M unit := n ← next_tick; if child_kill n then mret tt else raise OSError.

Definition _query (fuel : nat) (argv : list str) (cwd : str) (env : list (str * str)) : M (Z * str) :=
  start ← time_monotonic;
  let deadline := (start + QUERY_TIMEOUT_SECONDS)%Q in
  n ← next_tick;
  match child_spawn n argv env cwd with
  | SpawnNotFound => raise FileNotFoundError
  | SpawnFailed => raise OSError
  | Spawned =>
      '(code, output) ← on_raise
        (p ← read_loop fuel deadline (MkPipes [Stdout; Stderr] 0 0 []);
         _ ← time_monotonic;
         n ← next_tick;
         match child_wait n with
         | Exited code => mret (code, p_output p)
         | StillRunning => raise timed_out
         end)
        kill_session;
      stdout ← lift (utf8_decode false output);
      mret (code, stdout)
  end.
End beads.

(** [lstat] of the directory itself. *)
Class BeadsDirectory := beads_directory : nat → str → option directory_status.

Definition database_error : exn := task_error "local Beads database is not available".

Section database.
Context {Mem : Type} `{Env} `{Child} `{BeadsDirectory}.
Abbreviation M := (M Mem).

Definition _check_local_database (selected : str) : M unit :=
  check (negb (startswith [47] selected) || (name_of selected != u ".beads"))
    (task_error "select an absolute local .beads directory");;
  let metadata_path := Path (selected ++ u "/metadata.json") in
  raw ← os_errors database_error
    (n ← next_tick;
     directory ← lift (of_option OSError (beads_directory n selected));
     metadata_file ← path_file metadata_path;
     check (negb (d_is_dir directory) || negb (bool_decide (f_kind metadata_file = Regular))) database_error;;
     check (negb (Z.land (d_mode directory) MODE_GROUP_OTHER =? 0)) (task_error "Beads directory must be owner-only");;
     check (negb (d_uid directory =? env_euid)) (task_error "Beads directory must belong to this user");;
     raw ← read_bytes metadata_path;
     mret (take (Z.to_nat (MAX_METADATA_BYTES + 1)) raw));
  check (MAX_METADATA_BYTES <? length raw) (task_error "Beads metadata is too large");;
  metadata ← lift (res_catch (loads_bytes raw) is_ValueError (λ _, Err (task_error "Beads metadata is invalid")));
  check (match metadata with
         | JDict kvs => (jget (u "backend") kvs != JStr (u "dolt")) || (jget (u "dolt_mode") kvs != JStr (u "embedded"))
         | _ => true
         end) (task_error "only local embedded Beads databases are supported").

Definition ready_arguments (binary : str) (limit : Z) : list str :=
  [binary; u "--readonly"; u "--sandbox"; u "ready"; u "--json"; u "--brief"; u "--limit"; int_str limit].

(** The classes of the [except] clauses, in their order. *)
Definition query_failure (e : exn) : exn :=
  if is_FileNotFoundError e then task_error "Beads CLI (bd) is not available"
  else task_error "Beads query failed".

Definition is_query_failure (e : exn) : bool :=
  is_OSError e || match e with UnicodeDecodeError | UnicodeEncodeError => true | _ => false end.

(** What the answer of the command lists. *)
Definition parse_rows (limit : Z) (stdout : str) : res (list ReadyTask) :=
  encoded ← utf8_encode stdout;
  raise_if (MAX_RESULT_BYTES <? length encoded) (task_error "Beads result is too large");;
  rows ← res_catch (loads stdout) (λ e, is_ValueError e || is_TypeError e)
           (λ _, Err (task_error "Beads returned invalid JSON"));
  match rows with
  | JList l =>
      raise_if (limit <? length l) (task_error "Beads returned an invalid task list");;
      mapM_res _task_from_row l
  | _ => Err (task_error "Beads returned an invalid task list")
  end.

Definition list_ready_tasks (fuel : nat) (selected : str) (limit : Z) : M (list ReadyTask) :=
  check (negb ((1 <=? limit) && (limit <=? MAX_READY_TASKS))) (task_error "task limit must be between 1 and 10");;
  _check_local_database selected;;
  n ← next_tick;
  binary ← lift (of_option (task_error "Beads CLI (bd) is not installed") (child_which n));
  '(returncode, stdout) ← try_except
    (_query fuel (ready_arguments binary limit) (parent_of selected) (environment child_environ selected))
    is_query_failure (λ e, raise (query_failure e));
  check (negb (returncode =? 0)) (task_error "Beads query failed");;
  lift (parse_rows limit stdout).

(** ** The command *)

Definition task_json (t : ReadyTask) : json :=
  JDict [(u "id", JStr (t_id t)); (u "title", JStr (t_title t)); (u "priority", JInt (t_priority t))].
Definition task_line (t : ReadyTask) : str :=
  u "P" ++ int_str (t_priority t) ++ u " " ++ t_id t ++ u " " ++ t_title t ++ [10].

(** What [_tasks] prints. *)
Definition render_tasks (as_json : bool) (tasks : list ReadyTask) : str :=
  if as_json
  then dumps false (JDict [(u "status", JStr (u "ready")); (u "tasks", JList (map task_json tasks))]) ++ [10]
  else match tasks with [] => u "No ready tasks." ++ [10] | _ => concat (map task_line tasks) end.

Definition _tasks (fuel : nat) (beads_dir : str) (limit : Z) (as_json : bool) : M str :=
  tasks ← list_ready_tasks fuel beads_dir limit;
  action;;
  mret (render_tasks as_json tasks).
End database.
