(* ===== verification/TaskFacts.v ===== *)
(** What the listing of ready tasks guarantees: it only reads, the child gets a
    fixed set of variables, and what is printed is one plain line per task. *)

From S2P Require Import Prelude Errors Text Regex Json Crypto Url Clock Effects State Memory Quiet Protocol Toy.
From S2P Require Import Capabilities Config Identity Run Provision Controller BeadsTasks.

(** ** Reading only *)

Section reading.
Context {Mem : Type} `{Env} `{Child} `{BeadsDirectory}.
Set Default Proof Using "All".

Lemma untouched_time_monotonic : Steps untouched (time_monotonic (Mem := Mem)).
Proof. unfold time_monotonic. untouched. Qed.
#[local] Hint Resolve untouched_time_monotonic : untouched.

Lemma untouched_read_streams l p : Steps untouched (read_streams (Mem := Mem) l p).
Proof.
  revert p. induction l as [|s l IH]; intros p; cbn; [apply keeps_ret; apply _|].
  apply keeps_bind; [apply _|unfold read_stream; untouched|apply IH].
Qed.
#[local] Hint Resolve untouched_read_streams : untouched.

Lemma untouched_read_loop fuel deadline p : Steps untouched (read_loop (Mem := Mem) fuel deadline p).
Proof. revert p. induction fuel as [|fuel IH]; intros p; cbn; untouched. Qed.
#[local] Hint Resolve untouched_read_loop : untouched.

Lemma untouched_list_ready_tasks fuel selected limit :
  Steps untouched (list_ready_tasks (Mem := Mem) fuel selected limit).
Proof. unfold list_ready_tasks, _check_local_database, _query, kill_session, os_errors. untouched. Qed.
End reading.

(** ** What is listed *)

(** An id of at most 64 harmless characters, a visible title without control or
    format characters, a priority. *)
Record task_ok (t : ReadyTask) : Prop := {
  ok_id : fullmatch TASK_ID (t_id t) = true;
  ok_title : 1 ≤ length (t_title t) ≤ 200 ∧ strip (t_title t) ≠ [];
  ok_plain : Forall (λ c, control_or_format c = false) (t_title t);
  ok_priority : 0 ≤ t_priority t ≤ 4
}.

Lemma task_from_row_ok row t : _task_from_row row = Ok t → task_ok t.
Proof.
  unfold _task_from_row. destruct row as [| | | | | |kvs]; try done.
  destruct (jget (u "id") kvs) as [| | | |task_id| |]; try done.
  destruct (jget (u "title") kvs) as [| | | |title| |]; try done.
  destruct (jget (u "priority") kvs) as [| |priority| | | |]; try done.
  destruct (fullmatch TASK_ID task_id && _ && _ && _ && _) eqn:E; [|done]. intros [= <-].
  apply andb_true_iff in E as [[[[Hid Ht]%andb_true_iff Hlo]%andb_true_iff Hhi]%andb_true_iff _].
  unfold title_ok in Ht. apply andb_true_iff in Ht as [[[H1 H2]%andb_true_iff Hstrip]%andb_true_iff Hplain].
  apply negb_true_iff, bool_decide_eq_false in Hstrip. split; cbn; [done|..|lia].
  - split; [lia|done].
  - apply Forall_forall. intros c Hc. apply not_true_iff_false. intros Hcf.
    apply negb_true_iff, not_true_iff_false in Hplain. apply Hplain, existsb_exists. exists c. split; [|done].
    by apply list_elem_of_In.
Qed.

Lemma control_outside c : control_or_format c = true → c < 32 ∨ 127 ≤ c.
Proof.
  unfold control_or_format, in_ranges. intros ([lo hi]&Hin&Hc)%existsb_exists.
  assert (forallb (λ '(lo, hi), (hi <? 32) || (127 <=? lo)) (Cc ++ Cf) = true) as Hall by (by vm_compute).
  rewrite forallb_forall in Hall. specialize (Hall _ Hin). cbn in Hall. breflect. lia.
Qed.

Lemma plain_printable s : Forall (λ c, 32 ≤ c ≤ 126) s → Forall (λ c, control_or_format c = false) s.
Proof.
  intros Hs. eapply Forall_impl; [exact Hs|]. intros c Hc. cbn beta in Hc. apply not_true_iff_false. intros [?|?]%control_outside; lia.
Qed.

Lemma id_plain s : fullmatch TASK_ID s = true → Forall (λ c, 32 ≤ c ≤ 126) s.
Proof.
  assert (∀ rs, forallb (λ '(lo, hi), (32 <=? lo) && (hi <=? 126)) rs = true →
    ∀ c, in_ranges rs c = true → 32 ≤ c ≤ 126) as Hrs.
  { intros rs Hall c ([lo hi]&Hin&Hc)%existsb_exists. rewrite forallb_forall in Hall.
    specialize (Hall _ Hin). cbn in Hall. breflect. lia. }
  apply fullmatch_forall. unfold TASK_ID. cbn [rforall]. split; [by apply Hrs|].
  apply rforall_rrep. cbn [rforall]. by apply Hrs.
Qed.

(** ** What is printed *)

(** No control or format character but the line ends, one for each task. *)
Definition plain_lines (n : nat) (s : str) : Prop :=
  Forall (λ c, control_or_format c = false ∨ c = 10) s ∧ count_char 10 s = n.

Lemma newlines_app c s t : count_char c (s ++ t) = count_char c s + count_char c t.
Proof. unfold count_char. rewrite List.filter_app, length_app. lia. Qed.

Lemma count_plain s : Forall (λ c, control_or_format c = false) s → count_char 10 s = 0.
Proof.
  intros H. unfold count_char. assert (List.filter (Z.eqb 10) s = []) as ->; [|done].
  induction H as [|c s Hc _ IH]; [done|]. cbn [List.filter]. destruct (Z.eqb_spec 10 c) as [<-|]; [done|exact IH].
Qed.

Lemma digits_plain n : 0 ≤ n → Forall (λ c, control_or_format c = false) (int_str n).
Proof.
  intros Hn. apply plain_printable. eapply Forall_impl; [by apply int_str_digits|].
  intros c Hc. unfold ascii_digit in Hc. breflect. lia.
Qed.

Lemma line_plain t : task_ok t → plain_lines 1 (task_line t).
Proof.
  intros [Hid _ Htitle Hp]. unfold task_line.
  assert (∀ s, Forall (λ c, control_or_format c = false) s → Forall (λ c, control_or_format c = false ∨ c = 10) s) as Hw
    by (intros s Hs; eapply Forall_impl; [exact Hs|auto]).
  pose proof (digits_plain (t_priority t) ltac:(lia)) as Hd. pose proof (plain_printable _ (id_plain _ Hid)) as Hi.
  assert (Forall (λ c, control_or_format c = false) (u "P")) as H1 by (by repeat constructor).
  assert (Forall (λ c, control_or_format c = false) (u " ")) as H2 by (by repeat constructor).
  split.
  - repeat (apply Forall_app; split; [by apply Hw|]). constructor; [by right|constructor].
  - rewrite !newlines_app, !count_plain by done. done.
Qed.

Lemma lines_plain tasks : Forall task_ok tasks → plain_lines (length tasks) (concat (map task_line tasks)).
Proof.
  induction 1 as [|t tasks Ht _ [IH1 IH2]]; [done|]. destruct (line_plain t Ht) as [H1 H2]. split.
  - cbn. by apply Forall_app.
  - cbn [map concat length]. rewrite newlines_app, H2, IH2. lia.
Qed.

(** ** The environment of the child *)

Definition CHILD_VARIABLES : list str := RUNTIME_VARIABLES ++ [u "BEADS_DIR"; u "BD_NON_INTERACTIVE"; u "NO_COLOR"].

Lemma dict_set_keys {A} k (v : A) d x : x ∈ (dict_set k v d).*1 → x = k ∨ x ∈ d.*1.
Proof.
  induction d as [|[k' v'] d IH]; cbn.
  - intros ->%list_elem_of_singleton. by left.
  - case_bool_decide; cbn; rewrite !elem_of_cons; [tauto|]. intros [->|?]; [tauto|]. destruct IH; tauto.
Qed.

Lemma child_variables environ selected name :
  name ∈ (environment environ selected).*1 → name ∈ CHILD_VARIABLES.
Proof.
  unfold environment, CHILD_VARIABLES. rewrite elem_of_app, !elem_of_cons.
  intros [->|[->|[->|H]%dict_set_keys]%dict_set_keys]%dict_set_keys; [tauto..|]. left.
  apply list_elem_of_fmap in H as ([k v]&->&H). apply list_elem_of_omap in H as (name&Hn&Hv).
  destruct (dict_get name environ); [|done]. by injection Hv as <- <-.
Qed.

(** The same machine, but with another environment of the operator and another
    answer to an attempt to start a child. *)
Definition elsewhere `{C : Child} (environ : list (str * str))
    (spawn : nat → list str → list (str * str) → str → spawn_result) : Child := {|
  child_which := child_which;
  child_environ := environ;
  child_spawn := spawn;
  child_ready := child_ready;
  child_read := child_read;
  child_wait := child_wait;
  child_kill := child_kill
|}.

Lemma environment_same environ environ' selected :
  (∀ name, name ∈ RUNTIME_VARIABLES → dict_get name environ' = dict_get name environ) →
  environment environ' selected = environment environ selected.
Proof.
  intros Hsame. unfold environment. do 3 f_equal.
  induction RUNTIME_VARIABLES as [|name names IH]; [done|]. cbn.
  rewrite Hsame, IH by (set_solver). done.
Qed.

Section theorem.
Context {Mem : Type} `{Env} `{C : Child} `{BeadsDirectory}.
Set Default Proof Using "Type".

Lemma parse_rows_ok limit stdout tasks :
  parse_rows limit stdout = Ok tasks → length tasks ≤ limit ∧ Forall task_ok tasks.
Proof.
  unfold parse_rows. intros Hp. apply res_bind_Ok in Hp as (?&_&Hp). apply res_bind_Ok in Hp as (?&_&Hp).
  apply res_bind_Ok in Hp as (rows&_&Hp). destruct rows as [| | | | |l|]; try done.
  apply res_bind_Ok in Hp as (?&Hl%raise_if_Ok&Hp). apply Z.ltb_ge in Hl. apply mapM_res_Forall2 in Hp.
  split; [by rewrite <- (Forall2_length _ _ _ Hp)|]. clear Hl. induction Hp; constructor; [by eapply task_from_row_ok|done].
Qed.

Lemma list_ready_tasks_Ret fuel selected limit tasks (w w' : world Mem) :
  list_ready_tasks fuel selected limit w = (Ret tasks, w') →
  length tasks ≤ limit ∧ limit ≤ MAX_READY_TASKS ∧ Forall task_ok tasks.
Proof.
  unfold list_ready_tasks. intros (?&w1&[Hl _]%check_Ret&Hr)%bind_Ret. apply bind_Ret in Hr as (?&w2&_&Hr).
  apply bind_Ret in Hr as (?&w3&_&Hr). apply bind_Ret in Hr as (?&w4&_&Hr).
  apply bind_Ret in Hr as ([code out]&w5&_&Hr). apply bind_Ret in Hr as (?&w6&_&[[? ?]%parse_rows_ok _]%lift_Ret).
  split; [done|]. split; [|done]. breflect. lia.
Qed.

(** The child is started in one way only. *)
Lemma bind_same {A B} (m : M Mem A) (f g : A → M Mem B) w :
  (∀ a w', f a w' = g a w') → (m ≫= f) w = (m ≫= g) w.
Proof. intros Hfg. unfold mbind, M_bind. destruct (m w) as [[a|e|] w']; [apply Hfg|done..]. Qed.

Lemma query_same environ spawn fuel argv cwd env (w : world Mem) :
  (∀ n, spawn n argv env cwd = child_spawn n argv env cwd) →
  @_query Mem _ (elsewhere environ spawn) fuel argv cwd env w = _query fuel argv cwd env w.
Proof.
  intros Hspawn. unfold _query. apply bind_same. intros start w1. cbv zeta. apply bind_same. intros n w2.
  cbn [child_spawn elsewhere]. by rewrite Hspawn.
Qed.

Lemma started_one_way environ spawn fuel selected limit (w : world Mem) :
  (∀ name, name ∈ RUNTIME_VARIABLES → dict_get name environ = dict_get name child_environ) →
  (∀ n binary,
    spawn n (ready_arguments binary limit) (environment child_environ selected) (parent_of selected) =
    child_spawn n (ready_arguments binary limit) (environment child_environ selected) (parent_of selected)) →
  @list_ready_tasks Mem _ (elsewhere environ spawn) _ fuel selected limit w = list_ready_tasks fuel selected limit w.
Proof.
  intros Hsame Hspawn. unfold list_ready_tasks. do 4 (apply bind_same; intros ? ?).
  cbn [child_environ elsewhere]. rewrite (environment_same _ _ _ Hsame).
  unfold try_except, mbind at 1 3, M_bind at 1 3. by rewrite query_same.
Qed.
End theorem.

(** C37: listing ready tasks only reads, and what it lists is safe to show.  Whatever
    the command answers, a list that is returned has at most the asked-for number of
    tasks, never more than ten, each with an id of at most 64 harmless characters,
    a visible title of at most 200 characters without control or format characters
    and a priority from 0 to 4; printed as text it is one line for each task and no
    terminal control sequence.  The command is started in one way only, with the
    read-only arguments, in the directory of the database and with none of the
    variables of the operator's environment but seven fixed ones: whatever the other
    variables are, and whatever starting a child in any other way would do, the
    listing is the same.  No file changes and no request is made, also when the
    listing fails. *)
Theorem listed_tasks_are_well_formed {Mem} `{Env} `{C : Child} `{BeadsDirectory} (fuel : nat) (selected : str)
    (limit : Z) (w : world Mem) :
  let '(o, w') := list_ready_tasks fuel selected limit w in
  untouched w w' ∧
  (∀ name, name ∈ (environment child_environ selected).*1 → name ∈ CHILD_VARIABLES) ∧
  (∀ environ spawn,
    (∀ name, name ∈ RUNTIME_VARIABLES → dict_get name environ = dict_get name child_environ) →
    (∀ n binary,
      spawn n (ready_arguments binary limit) (environment child_environ selected) (parent_of selected) =
      child_spawn n (ready_arguments binary limit) (environment child_environ selected) (parent_of selected)) →
    @list_ready_tasks Mem _ (elsewhere environ spawn) _ fuel selected limit w = (o, w')) ∧
  ∀ tasks, o = Ret tasks →
    length tasks ≤ limit ∧ limit ≤ MAX_READY_TASKS ∧ Forall task_ok tasks ∧
    (tasks ≠ [] → plain_lines (length tasks) (render_tasks false tasks)).
Proof.
  pose proof (untouched_list_ready_tasks (Mem := Mem) fuel selected limit w) as Hu.
  destruct (list_ready_tasks fuel selected limit w) as [o w'] eqn:E. split; [done|].
  split; [apply child_variables|]. split; [intros environ spawn Hs Hw; rewrite <- E; by apply started_one_way|].
  intros tasks ->. apply list_ready_tasks_Ret in E as (Hn&Hl&Ht).
  do 3 (split; [done|]). intros Hne. destruct tasks; [done|]. by apply lines_plain.
Qed.

(** A database with one ready task. *)
Definition toy_child (answer : str) : Child := {|
  child_which _ := Some (u "/usr/local/bin/bd");
  child_environ := [(u "HOME", u "/home/me"); (u "GITHUB_TOKEN", u "secret"); (u "PATH", u "/bin")];
  child_spawn _ _ _ _ := Spawned;
  child_ready _ := [Stdout; Stderr];
  child_read n s := match s with Stdout => PipeBytes (if (n <? 9)%nat then answer else []) | Stderr => PipeBytes [] end;
  child_wait _ := Exited 0;
  child_kill _ := true
|}.
Definition sample_tasks (title : str) : outcome str :=
  let E := toy_env (λ _, NoFault) (λ _, HttpFailed) in
  let C := toy_child (dumps false (JList [JDict [(u "id", JStr (u "tsa-1")); (u "title", JStr title);
             (u "priority", JInt 2); (u "status", JStr (u "open"))]])) in
  let D : BeadsDirectory := λ _ _, Some (DirectoryStatus true 448 501) in
  (_tasks 5 (u "/repo/.beads") 10 false (toy_world tt [(Path (u "/repo/.beads/metadata.json"),
     private_file (dumps false (JDict [(u "backend", JStr (u "dolt")); (u "dolt_mode", JStr (u "embedded"))])))])).1.

Example tasks_listed : sample_tasks (u "Fix the parser") = Ret (u "P2 tsa-1 Fix the parser" ++ [10]).
Proof. by vm_compute. Qed.
Example tasks_escape_refused :
  sample_tasks (u "x" ++ [27] ++ u "[2J") = Raise (BeadsTasksError "Beads returned an invalid task").
Proof. by vm_compute. Qed.

(** A child that is given the token would not start. *)
Definition careful_spawn (n : nat) (argv : list str) (env : list (str * str)) (cwd : str) : spawn_result :=
  if u "GITHUB_TOKEN" in? env.*1 then SpawnFailed else Spawned.

Lemma listed_tasks_are_well_formed_witness :
  let E := toy_env (λ _, NoFault) (λ _, HttpFailed) in
  let C := toy_child (dumps false (JList [JDict [(u "id", JStr (u "tsa-1")); (u "title", JStr (u "Fix it"));
             (u "priority", JInt 2); (u "status", JStr (u "open"))]])) in
  let D : BeadsDirectory := λ _ _, Some (DirectoryStatus true 448 501) in
  let w := toy_world tt [(Path (u "/repo/.beads/metadata.json"),
     private_file (dumps false (JDict [(u "backend", JStr (u "dolt")); (u "dolt_mode", JStr (u "embedded"))])))] in
  ∃ tasks w', list_ready_tasks 5 (u "/repo/.beads") 10 w = (Ret tasks, w') ∧ length tasks = 1%nat ∧
    Forall task_ok tasks ∧
    @list_ready_tasks unit _ (elsewhere child_environ careful_spawn) _ 5 (u "/repo/.beads") 10 w = (Ret tasks, w').
Proof.
  intros E C D w. pose proof (listed_tasks_are_well_formed 5 (u "/repo/.beads") 10 w) as Ht.
  assert (match (list_ready_tasks 5 (u "/repo/.beads") 10 w).1 with Ret l => (length l =? 1)%nat | _ => false end = true) as Hr
    by (vm_compute; reflexivity).
  destruct (@list_ready_tasks unit E C D 5 (u "/repo/.beads") 10 w) as [[tasks|e|] w']; [|discriminate Hr..].
  destruct Ht as (_&_&Hsame&Hok). destruct (Hok tasks eq_refl) as (_&_&Hwf&_). exists tasks, w'.
  split; [reflexivity|]. split; [by apply Nat.eqb_eq|]. split; [exact Hwf|].
  apply Hsame; [reflexivity|]. intros n binary. vm_compute. reflexivity.
Defined.
