(* ===== verification/WorkOutput.v ===== *)
(** [work_output.py]: the private directory a work receipt is made into, and
    [create_work_receipt] with an output directory.

    The directory is an entry of the file system that is no regular file; the
    entries below it are those whose path begins with its own.  [Directories]
    says what [stat] says of the parent directory.  The real and the effective
    user are the same. *)

From S2P Require Import Prelude Errors Text Sha256 Json Crypto Url Clock Effects State Memory.
From S2P Require Import Capabilities Config Identity Run Provision Controller BeadsTasks WorkVerifier WorkReceipt.

Definition MODE_0700 : Z := 448.
Definition MODE_PARENT_WRITE : Z := 18.       (* 0o022 *)

Definition bundle_error (msg : string) : exn := WorkReceiptError msg.
Definition INCOMPLETE : exn :=
  bundle_error "incomplete output bundle remains; inspect the chosen directory manually".

(** An entry of the directory, and whether a path is below it. *)
Definition entry (dir : str) (name : string) : path := Path (dir ++ u "/" ++ u name).
Definition under (dir : str) (p : path) : bool :=
  match p with Path s => startswith (dir ++ u "/") s | Temp _ => false end.

(** [self.path], for the resolved parent. *)
Definition bundle_path `{Workshop} (destination : str) : str :=
  resolve (parent_of destination) ++ u "/" ++ name_of destination.

Definition is_relative_to (p root : str) : bool := (p == root) || startswith (root ++ u "/") p.

Section bundle.
Context {Mem : Type} `{Env} `{Directories} `{Workshop}.
Abbreviation M := (M Mem).

(** [OutputBundle.__init__] *)
Definition bundle_init (destination checkout : str) : M str :=
  n ← next_tick;
  info ← lift (of_option (bundle_error "output parent must be an existing accessible directory")
                 (directory_of n (Path destination)));
  let dir := bundle_path destination in
  check (bool_decide (name_of destination = []) || is_relative_to dir checkout)
    (bundle_error "output directory must be outside the checkout");;
  check (negb (d_uid info =? env_euid) || negb (Z.land (d_mode info) MODE_PARENT_WRITE =? 0))
    (bundle_error "output parent must be owned by you and not writable by others");;
  mret dir.

(** [path.mkdir(mode=0o700)] refuses whatever is there. *)
Definition mkdir_new (dir : str) : M unit :=
  action;; fs ← get_files;
  match fs !! Path dir with
  | None => put_files (<[Path dir := File OtherKind MODE_0700 env_euid []]> fs)
  | Some _ => raise OSError
  end.

(** [path.rmdir()] *)
Definition rmdir (dir : str) : M unit :=
  action;; fs ← get_files; put_files (delete (Path dir) fs).

(** [OutputBundle.__enter__] *)
Definition bundle_enter (dir : str) : M unit :=
  os_errors (bundle_error "output directory must be new and writable") (mkdir_new dir);;
  try_except (chmod (Path dir) MODE_0700) is_OSError
    (λ _, rmdir dir;; raise (bundle_error "cannot secure output directory permissions")).

(** [shutil.rmtree]: the entries in some order, then the directory. *)
Definition rmtree (dir : str) : M unit :=
  action;; fs ← get_files;
  mapM_ unlink (List.filter (under dir) (map_to_list fs).*1);;
  rmdir dir.

(** [with bundle: body]: the bundle is complete exactly when the body returns. *)
Definition with_bundle {A} (dir : str) (body : M A) : M A :=
  bundle_enter dir;;
  on_raise body (os_errors INCOMPLETE (rmtree dir)).

Definition _open_new (p : path) : M unit := create_exclusively p;; chmod p MODE_0600.

(** Chunks are written until they exceed the limit, which is a whole number of
    them. *)
Definition capture_one (p : path) (data : bytes) : M unit :=
  _open_new p;;
  write_stream p (take (Z.to_nat MAX_OUTPUT_BYTES) data);;
  check (MAX_OUTPUT_BYTES <? length data) (bundle_error "captured output exceeds the receipt limit");;
  fsync p.

Definition capture (dir : str) (stdout stderr : bytes) : M unit :=
  os_errors (bundle_error "cannot preserve work output")
    (capture_one (entry dir "stdout.bin") stdout;; capture_one (entry dir "stderr.bin") stderr).

Definition _sync_directory (dir : str) : M unit := action;; action;; mret tt.

(** [os.link] refuses whatever is at the new name. *)
Definition link (src dst : path) : M unit :=
  action;; fs ← get_files;
  match fs !! src, fs !! dst with
  | None, _ => raise FileNotFoundError
  | Some _, Some _ => raise OSError
  | Some f, None => put_files (<[dst := f]> fs)
  end.

(** The preserved output is the one the receipt is about. *)
Definition check_preserved (dir : str) (payload : list (str * json)) (file_name digest_key size_key : string) : M unit :=
  data ← read_bytes (entry dir file_name);
  '(digest, size) ← lift (_hash_file data);
  check ((jget (u digest_key) payload != JStr digest) || (jget (u size_key) payload != JInt size))
    (bundle_error "preserved output does not match the same execution").

Definition receipt_payload (receipt : json) : list (str * json) :=
  members (jget (u "payload") (members (jget (u "receipt") (members receipt)))).

Definition publish `{Ed25519} `{UrlLib} (dir : str) (receipt : json) : M unit :=
  _open_new (entry dir "receipt.pending");;
  rendered ← lift (render_work_receipt receipt);
  raw ← lift (utf8_encode (rendered ++ [10]));
  write_stream (entry dir "receipt.pending") raw;;
  fsync (entry dir "receipt.pending");;
  _sync_directory dir;;
  link (entry dir "receipt.pending") (entry dir "receipt.json");;
  unlink (entry dir "receipt.pending");;
  _sync_directory dir.

Definition finish `{Ed25519} `{UrlLib} (dir : str) (receipt : json) : M unit :=
  os_errors (bundle_error "cannot complete work output bundle")
    (let payload := receipt_payload receipt in
     check_preserved dir payload "stdout.bin" "stdout_sha256" "stdout_bytes";;
     check_preserved dir payload "stderr.bin" "stderr_sha256" "stderr_bytes";;
     publish dir receipt).

(** ** A receipt made into a directory *)

Context `{UrlLib} `{Ed25519}.

(** [_execute] with [capture]. *)
Definition _execute_capturing (capture : bytes → bytes → M unit) (checkout : _Checkout) (command : json)
    (timeout_ms : Z) : M _Execution :=
  argv ← lift (_validate_command command);
  started_at ← now_utc;
  started ← time_monotonic;
  r ← child (λ n, command_run n (root checkout) argv timeout_ms);
  '(code, stdout, stderr) ←
    match r with
    | NotStarted => raise (WorkReceiptError "cannot start work command")
    | Finished return_code stdout stderr => mret (Some return_code, stdout, stderr)
    | TimedOut stdout stderr => mret (None, stdout, stderr)
    end;
  ended ← time_monotonic;
  let duration_ms := Z.max 0 (py_round ((ended - started) * 1000)) in
  completed_at ← now_utc;
  '(stdout_sha256, stdout_bytes) ← lift (_hash_file stdout);
  '(stderr_sha256, stderr_bytes) ← lift (_hash_file stderr);
  capture stdout stderr;;
  let result := match code with
                | None => u "timed_out"
                | Some z => if z =? 0 then u "passed" else u "failed"
                end in
  mret (MkExecution result code stdout_sha256 stdout_bytes stderr_sha256 stderr_bytes
          (format_timestamp started_at) (format_timestamp completed_at) duration_ms).

(** [create_work_receipt] with an output directory. *)
Definition create_work_receipt_into (selected destination : str) (command : list str) (issuer_did : str)
    (private_key : bytes) (timeout : pyfloat) : M json :=
  lift (require_own_did issuer_did private_key (WorkReceiptError "worker DID is invalid")
    (WorkReceiptError "work receipt signing key does not match its issuer DID"));;
  checkout ← _inspect_checkout selected None;
  timeout_ms ← lift (_timeout_milliseconds timeout);
  dir ← bundle_init destination (root checkout);
  with_bundle dir
    (execution ← _execute_capturing (capture dir) checkout (JList (map JStr command)) timeout_ms;
     still_there checkout;;
     argv ← lift (_validate_command (JList (map JStr command)));
     let payload := work_payload issuer_did checkout argv timeout_ms execution in
     lift (_validate_work_payload payload);;
     receipt ← lift (_signed_wrapper payload private_key);
     let envelope := envelope_of receipt [] in
     lift (verify_work_receipt envelope);;
     finish dir envelope;;
     mret envelope).
End bundle.
