(* ===== verification/WorkOutputFacts.v ===== *)
(** What a directory of outputs is worth: a receipt that is visible in it is the
    receipt of the outputs in it, and a failure leaves no trace or says so. *)

From S2P Require Import Prelude Errors Text Sha256 Json Crypto Url Clock Effects State Memory Quiet Toy.
From S2P Require Import Controller BeadsTasks WorkVerifier WorkReceipt WorkRuns WorkOutput.

Section bundle.
Context {Mem : Type} `{Env} `{Directories} `{Workshop} `{UrlLib} `{Ed25519}.
Context (dir : str).
Implicit Types w : world Mem.
Set Default Proof Using "Type".

(** Without a directory nothing is captured. *)
Lemma execute_without_capture checkout command timeout_ms :
  _execute_capturing (Mem := Mem) (λ _ _, mret tt) checkout command timeout_ms = _execute checkout command timeout_ms.
Proof. reflexivity. Qed.

Abbreviation OUT := (entry dir "stdout.bin").
Abbreviation ERR := (entry dir "stderr.bin").
Abbreviation PENDING := (entry dir "receipt.pending").
Abbreviation RECEIPT := (entry dir "receipt.json").

Definition whatever (m m' : Mem) : Prop := True.
#[local] Instance whatever_preorder : PreOrder whatever.
Proof. by split. Qed.

(** The files in [P] stay. *)
Abbreviation Leaves P m := (Steps (frame P whatever) m).

Lemma entry_ne a b : bool_decide (u a = u b) = false → entry dir a ≠ entry dir b.
Proof.
  intros Hne%bool_decide_eq_false. unfold entry. intros [= E%app_inv_head]. by injection E.
Qed.
Lemma entry_dir a : entry dir a ≠ Path dir.
Proof.
  unfold entry. intros [= E]. apply (f_equal (@length Z)) in E. rewrite !length_app in E. cbn in E. lia.
Qed.

Lemma under_entry name : under dir (entry dir name) = true.
Proof.
  unfold under, entry, startswith. apply bool_decide_eq_true. rewrite app_assoc. by rewrite take_app_length.
Qed.
Lemma under_dir : under dir (Path dir) = false.
Proof.
  unfold under, startswith. apply bool_decide_eq_false. intros E. apply (f_equal (@length Z)) in E.
  rewrite length_take, !length_app in E. change (length (u "/")) with 1%nat in E. lia.
Qed.

(** *** What each step changes *)

Lemma leaves_open_new P p : ¬ P p → Leaves P (_open_new p).
Proof.
  intros Hp. unfold _open_new. apply keeps_bind; [apply _| |intros _; by apply keeps_chmod; [apply _|]].
  unfold create_exclusively. apply (keeps_file_step P whatever p (λ fs, match fs !! p with
    | None => put_files (<[p := File Regular MODE_0600 env_euid []]> fs) | Some _ => raise OSError end)); [done|].
  intros w. destruct (w_fs w !! p); [by left|right]. eexists. split; [|reflexivity]. intros q Hq. by apply lookup_insert_ne.
Qed.

Lemma leaves_put_alter P p (g : file → file) : ¬ P p →
  Leaves P (fs ← get_files; put_files (Mem := Mem) (alter g p fs)).
Proof.
  intros Hp w. split; cbn; [|done..]. intros q Hq. apply lookup_alter_ne. by intros ->.
Qed.

Lemma leaves_write_stream P p data : ¬ P p → Leaves P (write_stream p data).
Proof.
  intros Hp w. unfold write_stream, mbind, M_bind. cbn.
  destruct (env_fault (w_tick w)); (split; cbn; [|done..]; intros q Hq; apply lookup_alter_ne; by intros ->).
Qed.

Lemma leaves_link P src dst : ¬ P dst → Leaves P (link src dst).
Proof.
  intros Hp. unfold link. apply (keeps_file_step P whatever dst (λ fs, match fs !! src, fs !! dst with
    | None, _ => raise FileNotFoundError | Some _, Some _ => raise OSError | Some f, None => put_files (<[dst := f]> fs) end));
    [done|].
  intros w. destruct (w_fs w !! src), (w_fs w !! dst); try by left. right. eexists. split; [|reflexivity].
  intros q Hq. by apply lookup_insert_ne.
Qed.

Lemma leaves_mkdir P : ¬ P (Path dir) → Leaves P (mkdir_new dir).
Proof.
  intros Hp. unfold mkdir_new. apply (keeps_file_step P whatever (Path dir) (λ fs, match fs !! Path dir with
    | None => put_files (<[Path dir := File OtherKind MODE_0700 env_euid []]> fs) | Some _ => raise OSError end)); [done|].
  intros w. destruct (w_fs w !! Path dir); [by left|right]. eexists. split; [|reflexivity].
  intros q Hq. by apply lookup_insert_ne.
Qed.

Lemma leaves_rmdir P : ¬ P (Path dir) → Leaves P (rmdir dir).
Proof.
  intros Hp. unfold rmdir. apply (keeps_file_step P whatever (Path dir) (λ fs, put_files (delete (Path dir) fs)));
    [done|].
  intros w. right. eexists. split; [|reflexivity]. intros q Hq. by apply lookup_delete_ne.
Qed.

Lemma leaves_sync P : Leaves P (_sync_directory dir).
Proof. unfold _sync_directory. keeps. Qed.

Lemma leaves_capture_one P p data : ¬ P p → Leaves P (capture_one p data).
Proof. intros Hp. pose proof (leaves_open_new P p Hp). pose proof (λ d, leaves_write_stream P p d Hp). unfold capture_one. keeps. Qed.

Lemma leaves_capture P out err : ¬ P OUT → ¬ P ERR → Leaves P (capture dir out err).
Proof.
  intros H1' H2'. pose proof (leaves_capture_one P OUT out H1'). pose proof (leaves_capture_one P ERR err H2').
  unfold capture, os_errors. keeps.
Qed.

Lemma leaves_check_preserved P payload f d s : Leaves P (check_preserved dir payload f d s).
Proof. unfold check_preserved. keeps. Qed.

Lemma leaves_publish P receipt : ¬ P PENDING → ¬ P RECEIPT → Leaves P (publish dir receipt).
Proof.
  intros H1' H2'. unfold publish.
  repeat first [apply leaves_open_new; assumption | apply leaves_write_stream; assumption | apply leaves_link; assumption
               | apply leaves_sync | apply keeps_unlink; [apply _|assumption] | keeps_step].
Qed.

Lemma leaves_finish P receipt : ¬ P PENDING → ¬ P RECEIPT → Leaves P (finish dir receipt).
Proof.
  intros H1' H2'. pose proof (leaves_publish P receipt H1' H2'). pose proof (leaves_check_preserved P).
  unfold finish, os_errors. keeps.
Qed.

Lemma leaves_rmtree P : (∀ q, under dir q = true → ¬ P q) → ¬ P (Path dir) → Leaves P (rmtree dir).
Proof.
  intros Hu Hd. pose proof (leaves_rmdir P Hd). unfold rmtree. apply keeps_bind; [apply _|keeps|intros _].
  intros w. unfold mbind at 1, M_bind. cbn [get_files].
  set (l := List.filter (under dir) (map_to_list (w_fs w)).*1).
  assert (Forall (λ q, ¬ P q) l) as Hl.
  { apply Forall_forall. intros q [_ Hq]%list_elem_of_In%filter_In. by apply Hu. }
  assert (∀ l, Forall (λ q, ¬ P q) l → Leaves P (mapM_ unlink l)) as Hmap.
  { clear -Hu. induction 1 as [|q l Hq _ IH]; cbn [mapM_]; [apply keeps_ret; apply _|].
    apply keeps_bind; [apply _|by apply keeps_unlink; [apply _|]|done]. }
  assert (Leaves P (mapM_ unlink l;; rmdir dir)) as Hk by (apply keeps_bind; [apply _|by apply Hmap|done]). apply Hk.
Qed.

Lemma leaves_enter P : ¬ P (Path dir) → Leaves P (bundle_enter dir).
Proof.
  intros Hd. pose proof (leaves_mkdir P Hd). pose proof (leaves_rmdir P Hd). unfold bundle_enter, os_errors.
  repeat first [apply keeps_chmod; [apply _|assumption] | keeps_step].
Qed.

(** *** What each step achieved *)

(** The output is recorded in the receipt. *)
Definition recorded (digest_key size_key : string) (receipt : json) (g : file) : Prop :=
  jget (u digest_key) (receipt_payload receipt) = JStr (sha256_hex (f_data g)) ∧
  jget (u size_key) (receipt_payload receipt) = JInt (length (f_data g)).

(** A receipt that is visible is whole, verifies, and is about the outputs. *)
Definition published w : Prop :=
  ∀ f, w_fs w !! RECEIPT = Some f → ∃ receipt rendered,
    render_work_receipt receipt = Ok rendered ∧ utf8_encode (rendered ++ [10]) = Ok (f_data f) ∧
    (∀ g, w_fs w !! OUT = Some g → recorded "stdout_sha256" "stdout_bytes" receipt g) ∧
    (∀ g, w_fs w !! ERR = Some g → recorded "stderr_sha256" "stderr_bytes" receipt g).

Definition finished (receipt : json) w : Prop :=
  ∃ f out err rendered, w_fs w !! RECEIPT = Some f ∧ w_fs w !! OUT = Some out ∧ w_fs w !! ERR = Some err ∧
    render_work_receipt receipt = Ok rendered ∧ utf8_encode (rendered ++ [10]) = Ok (f_data f) ∧
    recorded "stdout_sha256" "stdout_bytes" receipt out ∧ recorded "stderr_sha256" "stderr_bytes" receipt err.

Lemma finished_published receipt w : finished receipt w → published w.
Proof.
  intros (f&out&err&r&E1&E2&E3&Hr&Hu&Ho&He) f' Hf. rewrite E1 in Hf. injection Hf as <-.
  exists receipt, r. split; [done|]. split; [done|]. rewrite E2, E3. split; by intros g [= <-].
Qed.

Lemma unpublished w : w_fs w !! RECEIPT = None → published w.
Proof. intros E f. by rewrite E. Qed.

Lemma published_shrinks w w' :
  (∀ q f, w_fs w' !! q = Some f → w_fs w !! q = Some f) → published w → published w'.
Proof.
  intros Hs Hp f Hf. destruct (Hp f (Hs _ _ Hf)) as (r&t&?&?&Ho&He). exists r, t. do 2 (split; [done|]).
  split; intros g Hg; [apply Ho|apply He]; by apply Hs.
Qed.

Lemma check_preserved_Ret payload f d s x w w' :
  check_preserved dir payload f d s w = (Ret x, w') →
  w' = ticked w ∧ ∃ g, w_fs w !! entry dir f = Some g ∧ jget (u d) payload = JStr (sha256_hex (f_data g)) ∧
    jget (u s) payload = JInt (length (f_data g)).
Proof.
  unfold check_preserved. intros (data&w1&[-> (g&Hg&->)]%read_bytes_Ret&E)%bind_Ret.
  apply bind_Ret in E as ([digest size]&w2&[(->&->&_)%hash_file_Ok ->]%lift_Ret&[Hc ->]%check_Ret).
  apply orb_false_iff in Hc as [H1'%negb_false_iff%bool_decide_eq_true H2'%negb_false_iff%bool_decide_eq_true].
  split; [done|]. by exists g.
Qed.

Lemma open_new_Ret p w w' : _open_new p w = (Ret tt, w') → ∃ f, w_fs w' !! p = Some f.
Proof.
  unfold _open_new. intros ([]&w1&(_&F&_)%create_exclusively_Ret&Hc)%bind_Ret.
  unfold chmod, update_file in Hc. apply bind_Ret in Hc as (?&w3&->%action_Ret&Hc).
  injection Hc as <-. cbn. rewrite F, lookup_alter_eq, lookup_insert_eq. by eexists.
Qed.

Lemma written_Ret p data f w w' :
  write_stream p data w = (Ret tt, w') → w_fs w !! p = Some f → ∃ f', w_fs w' !! p = Some f' ∧ f_data f' = data.
Proof. intros (->&_)%write_stream_Ret Hf. rewrite lookup_alter_eq, Hf. by eexists. Qed.

Lemma link_Ret src dst x w w' : link src dst w = (Ret x, w') → ∃ f, w_fs w !! src = Some f ∧ w_fs w' = <[dst := f]> (w_fs w).
Proof.
  unfold link. intros (?&w1&->%action_Ret&E)%bind_Ret. unfold mbind, M_bind in E. cbn in E.
  destruct (w_fs w !! src) as [f|]; [|done]. destruct (w_fs w !! dst); [done|]. injection E as _ <-. by exists f.
Qed.

Lemma link_fails src dst w : (link src dst w).1 ≠ Ret tt → w_fs (link src dst w).2 = w_fs w.
Proof.
  unfold link, Effects.action, mbind, M_bind. cbn. destruct (env_fault (w_tick w)); cbn; try done.
  by destruct (w_fs w !! src), (w_fs w !! dst).
Qed.

(** *** Finishing *)

(** What a step of [finish] must leave behind, however it ends. *)
Definition finishing (receipt : json) (o : outcome unit) w : Prop := published w ∧ (o = Ret tt → finished receipt w).

(** Before the receipt is visible nothing can go wrong. *)
Lemma wp_before {A} receipt (m : M Mem A) (f : A → M Mem unit) w :
  Leaves (λ q, q = RECEIPT ∨ q = OUT ∨ q = ERR) m → w_fs w !! RECEIPT = None →
  (∀ a w', m w = (Ret a, w') → frame (λ q, q = RECEIPT ∨ q = OUT ∨ q = ERR) whatever w w' → w_fs w' !! RECEIPT = None →
    wp (f a) (finishing receipt) w') →
  wp (m ≫= f) (finishing receipt) w.
Proof.
  intros Hm Hw Hf. apply wp_bind. apply (wp_steps (frame (λ q, q = RECEIPT ∨ q = OUT ∨ q = ERR) whatever)); [done|].
  intros o w' Hs E. assert (w_fs w' !! RECEIPT = None) as Hn by (by rewrite (frame_fs _ _ _ _ Hs) by auto).
  destruct o; [by apply Hf|split; [by apply unpublished|done]..].
Qed.

(** After it is visible only the pending one goes. *)
Lemma wp_after receipt (m : M Mem unit) w :
  Leaves (λ q, q = RECEIPT ∨ q = OUT ∨ q = ERR) m → finished receipt w → wp m (finishing receipt) w.
Proof.
  intros Hm Hw. apply (wp_steps (frame (λ q, q = RECEIPT ∨ q = OUT ∨ q = ERR) whatever)); [done|].
  intros o w' [Hf _ _] _. assert (finished receipt w') as Hw'; [|split; [by eapply finished_published|done]].
  unfold finished in *. by rewrite !Hf by auto.
Qed.

Lemma keep_ne (name : string) :
  bool_decide (u name = u "receipt.json") = false → bool_decide (u name = u "stdout.bin") = false →
  bool_decide (u name = u "stderr.bin") = false →
  ¬ (entry dir name = RECEIPT ∨ entry dir name = OUT ∨ entry dir name = ERR).
Proof. intros H1' H2' H3' [Hn|[Hn|Hn]]; by eapply entry_ne in Hn. Qed.

Lemma wp_publish receipt out err w :
  w_fs w !! RECEIPT = None → w_fs w !! OUT = Some out → w_fs w !! ERR = Some err →
  recorded "stdout_sha256" "stdout_bytes" receipt out → recorded "stderr_sha256" "stderr_bytes" receipt err →
  wp (publish dir receipt) (finishing receipt) w.
Proof.
  intros Hn Ho He Hro Hre.
  assert (¬ (PENDING = RECEIPT ∨ PENDING = OUT ∨ PENDING = ERR)) as Hp by (by apply keep_ne; vm_compute).
  unfold publish. apply wp_before; [by apply leaves_open_new|done|]. intros [] w1 [f1 E1]%open_new_Ret F1 N1.
  apply wp_before; [keeps|done|]. intros rendered w2 [Hr ->]%lift_Ret _ _.
  apply wp_before; [keeps|done|]. intros raw w2 [Hraw ->]%lift_Ret _ _.
  apply wp_before; [by apply leaves_write_stream|done|]. intros [] w2 Ew F2 N2.
  destruct (written_Ret _ _ _ _ _ Ew E1) as (f2&E2&D2).
  apply wp_before; [keeps|done|]. intros [] w3 (?&?&->%action_Ret&[_ ->]%ret_Ret)%bind_Ret _ _.
  apply wp_before; [apply leaves_sync|done|]. unfold _sync_directory.
  intros [] w3 (?&?&->%action_Ret&(?&?&->%action_Ret&[_ ->]%ret_Ret)%bind_Ret)%bind_Ret _ _.
  set (w3 := ticked _). assert (w_fs w3 = w_fs w2) as F3 by done. clearbody w3.
  pose proof (transitivity F1 F2) as F. clear F1 F2. apply wp_bind. unfold wp at 1.
  destruct (link PENDING RECEIPT w3) as [o w4] eqn:El. cbn.
  destruct o as [[]|e|]; cycle 1.
  1,2: pose proof (link_fails PENDING RECEIPT w3) as Hl; rewrite El in Hl; cbn in Hl;
    split; [apply unpublished; by rewrite Hl, F3|done].
  apply link_Ret in El as (f&Hf&E4). rewrite F3, E2 in Hf. injection Hf as <-.
  apply wp_after.
  - apply keeps_bind; [apply _|by apply keeps_unlink; [apply _|]|]. intros _. apply leaves_sync.
  - exists f2, out, err, rendered. rewrite E4, F3, lookup_insert, decide_True by done.
    rewrite !lookup_insert_ne by (by apply entry_ne; vm_compute).
    rewrite !(frame_fs _ _ _ _ F) by auto. by rewrite D2.
Qed.

Lemma wp_finish receipt w : w_fs w !! RECEIPT = None → wp (finish dir receipt) (finishing receipt) w.
Proof.
  intros Hn. unfold finish, os_errors. apply wp_try.
  eapply wp_mono with (Φ := finishing receipt).
  - cbv zeta. apply wp_before; [apply leaves_check_preserved|done|]. intros [] w1 [-> (out&Ho&Hro)]%check_preserved_Ret _ _.
    apply wp_before; [apply leaves_check_preserved|done|]. intros [] w2 [-> (err&He&Hre)]%check_preserved_Ret _ _.
    by apply (wp_publish _ out err).
  - intros [[]|e|] w' [Hp Hf]; try done. destruct (is_OSError e); [|done]. by apply wp_raise.
Qed.

(** *** Clearing up *)

Lemma unlink_Ret p x w w' : unlink p w = (Ret x, w') → w_fs w' = delete p (w_fs w).
Proof.
  unfold unlink. intros (?&w1&->%action_Ret&E)%bind_Ret. unfold mbind, M_bind in E. cbn in E.
  destruct (w_fs w !! p); [|done]. by injection E as _ <-.
Qed.

Lemma unlink_all_Ret l x w w' : mapM_ unlink l w = (Ret x, w') →
  ∀ q, w_fs w' !! q = if bool_decide (q ∈ l) then None else w_fs w !! q.
Proof.
  revert w. induction l as [|p l IH]; cbn [mapM_]; intros w E q.
  - apply ret_Ret in E as [_ ->]. by rewrite bool_decide_eq_false_2 by apply not_elem_of_nil.
  - apply bind_Ret in E as (?&w1&Hu%unlink_Ret&E). rewrite (IH _ E q), Hu.
    destruct (decide (q ∈ l)) as [Hq|Hq].
    + by rewrite !bool_decide_eq_true_2 by (rewrite ?elem_of_cons; auto).
    + rewrite (bool_decide_eq_false_2 (q ∈ l)) by done. destruct (decide (q = p)) as [->|Hne].
      * by rewrite lookup_delete, decide_True, bool_decide_eq_true_2 by (done || by left).
      * rewrite lookup_delete_ne by done. by rewrite bool_decide_eq_false_2 by (rewrite elem_of_cons; tauto).
Qed.

Lemma rmtree_Ret x w w' : rmtree dir w = (Ret x, w') →
  ∀ q, w_fs w' !! q = if under dir q || bool_decide (q = Path dir) then None else w_fs w !! q.
Proof.
  unfold rmtree. intros (?&w1&->%action_Ret&E)%bind_Ret q. unfold mbind at 1, M_bind in E. cbn [get_files] in E.
  apply bind_Ret in E as (?&w2&Hl&E). pose proof (unlink_all_Ret _ _ _ _ Hl q) as Hq. clear Hl.
  unfold rmdir in E. apply bind_Ret in E as (?&w3&->%action_Ret&E). injection E as _ <-. cbn.
  destruct (decide (q = Path dir)) as [->|Hne].
  - by rewrite lookup_delete, decide_True, bool_decide_eq_true_2, orb_true_r.
  - rewrite lookup_delete_ne, (bool_decide_eq_false_2 (q = Path dir)), orb_false_r by done. rewrite Hq. cbn.
    destruct (w_fs w !! q) as [g|] eqn:Eg.
    + destruct (under dir q) eqn:Eu.
      * rewrite bool_decide_eq_true_2; [done|]. apply list_elem_of_In, filter_In. split; [|done].
        apply list_elem_of_In, list_elem_of_fmap. exists (q, g). split; [done|]. by apply elem_of_map_to_list.
      * rewrite bool_decide_eq_false_2; [done|]. intros [_ Hf]%list_elem_of_In%filter_In. congruence.
    + rewrite bool_decide_eq_false_2; [by destruct (under dir q)|].
      intros [Hin _]%list_elem_of_In%filter_In. apply list_elem_of_In, list_elem_of_fmap in Hin as ([q' g]&->&Hg).
      apply elem_of_map_to_list in Hg. cbn in Eg. congruence.
Qed.

(** Files only go. *)
Definition shrinks w w' : Prop := ∀ q f, w_fs w' !! q = Some f → w_fs w !! q = Some f.
#[local] Instance shrinks_preorder : PreOrder shrinks.
Proof. split; [by intros w q f|]. intros w1 w2 w3 H1' H2' q f Hq. by apply H1', H2'. Qed.

Lemma shrinks_action : Steps shrinks (Effects.action (Mem := Mem)).
Proof. intros w q f. unfold Effects.action, mbind, M_bind. cbn. by destruct (env_fault (w_tick w)). Qed.
Lemma shrinks_delete p : Steps shrinks (fs ← get_files; put_files (Mem := Mem) (delete p fs)).
Proof. intros w q f Hq. change (delete p (w_fs w) !! q = Some f) in Hq. by apply lookup_delete_Some in Hq as [_ Hq]. Qed.
Lemma shrinks_unlink p : Steps shrinks (unlink (Mem := Mem) p).
Proof.
  unfold unlink. apply keeps_bind; [apply _|apply shrinks_action|]. intros _ w. unfold mbind, M_bind. cbn.
  destruct (w_fs w !! p); [|done]. intros q g Hq. cbn in Hq. by apply lookup_delete_Some in Hq as [_ Hq].
Qed.
Lemma shrinks_rmtree : Steps shrinks (rmtree dir).
Proof.
  unfold rmtree. apply keeps_bind; [apply _|apply shrinks_action|intros _].
  apply keeps_bind; [apply _|apply keeps_get_files; apply _|intros fs].
  apply keeps_bind; [apply _|apply keeps_mapM_; [apply _|intros; apply shrinks_unlink]|intros _].
  unfold rmdir. apply keeps_bind; [apply _|apply shrinks_action|intros _]. apply shrinks_delete.
Qed.

(** Only the system's errors. *)
Definition os_only {A} (m : M Mem A) : Prop := ∀ w e w', m w = (Raise e, w') → is_OSError e = true.

Lemma os_only_bind {A B} (m : M Mem A) (f : A → M Mem B) : os_only m → (∀ a, os_only (f a)) → os_only (m ≫= f).
Proof.
  intros Hm Hf w e w'. unfold mbind, M_bind. destruct (m w) as [[a|x|] w1] eqn:E; [apply Hf| |done].
  intros [= <- _]. by eapply Hm.
Qed.
Lemma os_only_action : os_only (Effects.action (Mem := Mem)).
Proof. intros w e w'. unfold Effects.action, mbind, M_bind. cbn. by destruct (env_fault (w_tick w)); intros [= <- _]. Qed.
Lemma os_only_unlink p : os_only (unlink (Mem := Mem) p).
Proof.
  unfold unlink. apply os_only_bind; [apply os_only_action|]. intros _ w e w'. unfold mbind, M_bind. cbn.
  destruct (w_fs w !! p); [done|]. by intros [= <- _].
Qed.
Lemma os_only_unlinks l : os_only (mapM_ (unlink (Mem := Mem)) l).
Proof. induction l as [|p l IH]; cbn [mapM_]; [done|]. apply os_only_bind; [apply os_only_unlink|done]. Qed.
Lemma os_only_rmdir : os_only (rmdir (Mem := Mem) dir).
Proof. unfold rmdir. apply os_only_bind; [apply os_only_action|done]. Qed.
Lemma os_only_rmtree : os_only (rmtree (Mem := Mem) dir).
Proof.
  unfold rmtree. apply os_only_bind; [apply os_only_action|]. intros _. apply os_only_bind; [done|]. intros fs.
  apply os_only_bind; [apply os_only_unlinks|]. intros _. apply os_only_rmdir.
Qed.

(** *** Entering and leaving *)

Lemma mkdir_cases w :
  match mkdir_new dir w with
  | (Ret _, w') => w_fs w !! Path dir = None ∧ w_fs w' = <[Path dir := File OtherKind MODE_0700 env_euid []]> (w_fs w)
  | (Raise e, w') => is_OSError e = true ∧ w_fs w' = w_fs w
  | (Crashed, w') => w_fs w' = w_fs w
  end.
Proof.
  unfold mkdir_new, Effects.action, mbind, M_bind. cbn. destruct (env_fault (w_tick w)); cbn; try done.
  by destruct (w_fs w !! Path dir).
Qed.

Lemma chmod_cases p mode w :
  match chmod p mode w with
  | (Ret _, w') => ∀ q, q ≠ p → w_fs w' !! q = w_fs w !! q
  | (Raise e, w') => is_OSError e = true ∧ w_fs w' = w_fs w
  | (Crashed, w') => w_fs w' = w_fs w
  end.
Proof.
  unfold chmod, update_file, Effects.action, mbind, M_bind. cbn. destruct (env_fault (w_tick w)); cbn; try done.
  intros q Hq. by apply lookup_alter_ne.
Qed.

(** The directory was made, empty, and nothing else was done. *)
Definition just_made (w w' : world Mem) : Prop :=
  w_fs w' = <[Path dir := File OtherKind MODE_0700 env_euid []]> (w_fs w).

(** A failure before the directory is there, after it was removed, or of removing it. *)
Definition clean (o : outcome unit) w w' : Prop :=
  (∀ q, under dir q = true → w_fs w' !! q = w_fs w !! q) ∧ o ≠ Ret tt ∧
  ∀ e, o = Raise e → w_fs w' = w_fs w ∨ (e = OSError ∧ just_made w w').

Lemma wp_enter (Φ : outcome unit → world Mem → Prop) w :
  (∀ w', w_fs w !! Path dir = None → (∀ q, q ≠ Path dir → w_fs w' !! q = w_fs w !! q) → Φ (Ret tt) w') →
  (∀ o w', clean o w w' → Φ o w') → wp (bundle_enter dir) Φ w.
Proof.
  intros HR HF. unfold bundle_enter, os_errors. apply wp_bind, wp_try. unfold wp at 1.
  pose proof (mkdir_cases w) as Hm. destruct (mkdir_new dir w) as [[[]|e|] w1]; cbn.
  2: { destruct Hm as [-> E]. apply wp_raise, HF. split; [by rewrite E|]. split; [done|]. intros ? _. by left. }
  2: { apply HF. split; [by rewrite Hm|]. by split. }
  destruct Hm as [Hn E1]. apply wp_try. unfold wp at 1.
  assert (∀ q, q ≠ Path dir → w_fs w1 !! q = w_fs w !! q) as E1' by (intros q Hq; rewrite E1; by apply lookup_insert_ne).
  assert (∀ q, under dir q = true → q ≠ Path dir) as Hne by (intros q Hq ->; by rewrite under_dir in Hq).
  pose proof (chmod_cases (Path dir) MODE_0700 w1) as Hc. destruct (chmod (Path dir) MODE_0700 w1) as [[[]|e|] w2]; cbn.
  - apply HR; [done|]. intros q Hq. by rewrite Hc, E1'.
  - destruct Hc as [-> E2]. apply wp_bind. unfold wp at 1.
    unfold rmdir, Effects.action, mbind, M_bind. cbn. destruct (env_fault (w_tick w2)); cbn.
    + apply wp_raise, HF. split; [intros q Hq|split; [done|intros ? _; left]]; cbn; rewrite E2, E1.
      * rewrite lookup_delete_ne, lookup_insert_ne by (intros <-; by rewrite under_dir in Hq). done.
      * by rewrite delete_insert_id.
    + apply HF. split; [intros q Hq; cbn; rewrite E2; by apply E1', Hne|]. split; [done|]. intros ? [= <-]. right. split; [done|]. unfold just_made. cbn. by rewrite E2.
    + apply HF. split; [intros q Hq; cbn; rewrite E2; by apply E1', Hne|]. split; [done|]. intros ? [= <-]. right. split; [done|]. unfold just_made. cbn. by rewrite E2.
    + apply HF. split; [intros q Hq; cbn; rewrite E2; by apply E1', Hne|]. by split.
  - apply HF. split; [intros q Hq; rewrite Hc; by apply E1', Hne|]. by split.
Qed.

(** What a body ends with, and what the bundle ends with. *)
Definition body_ends (o : outcome json) w : Prop := published w ∧ ∀ receipt, o = Ret receipt → finished receipt w.
Definition bundle_ends w (o : outcome json) w' : Prop :=
  body_ends o w' ∧ ∀ e, o = Raise e → w_fs w' = w_fs w ∨ e = INCOMPLETE ∨ (e = OSError ∧ just_made w w').

Abbreviation outside := (λ q, under dir q = false ∧ q ≠ Path dir).

Lemma wp_with_bundle (body : M Mem json) w :
  (∀ q, under dir q = true → w_fs w !! q = None) → Leaves outside body →
  (∀ w', w_fs w' !! RECEIPT = None → wp body body_ends w') →
  wp (with_bundle dir body) (bundle_ends w) w.
Proof.
  intros Hw Hout Hbody. unfold with_bundle. apply wp_bind, wp_enter.
  2: { intros o w1 (Hu&Hne&He). assert (published w1) as Hp.
    { apply unpublished. rewrite Hu, Hw; [done|apply under_entry..]. }
    destruct o as [[]|e|]; [done|..].
    - split; [split; [exact Hp|done]|]. intros e' [= <-]. destruct (He e eq_refl); auto.
    - split; [split; [exact Hp|done]|done]. }
  intros w1 Hdir F1. apply wp_on_raise. unfold wp at 1.
  assert (w_fs w1 !! RECEIPT = None) as Hn.
  { rewrite F1 by apply entry_dir. apply Hw, under_entry. }
  pose proof (Hbody w1 Hn) as [Hp Hf]. pose proof (Hout w1) as [Fo _ _].
  destruct (body w1) as [[receipt|e|] w2]; cbn in *; [split; [by split|done]| |split; [by split|done]].
  apply wp_bind. unfold os_errors. apply wp_try. unfold wp at 1.
  pose proof (shrinks_rmtree w2) as Hs. destruct (rmtree dir w2) as [[[]|x|] w3] eqn:Er; cbn in *.
  - apply wp_raise. split; [split; [by eapply published_shrinks|done]|]. intros ? _. left. apply map_eq. intros q.
    rewrite (rmtree_Ret _ _ _ Er q). destruct (under dir q) eqn:Eu; cbn; [by rewrite Hw|].
    case_bool_decide as Eq; [by subst q|]. by rewrite Fo, F1.
  - rewrite (os_only_rmtree _ _ _ Er). apply wp_raise. split; [split; [by eapply published_shrinks|done]|].
    intros ? [= <-]. auto.
  - split; [split; [by eapply published_shrinks|done]|done].
Qed.

(** *** A receipt made into the directory *)

Lemma wp_early {A} (m : M Mem A) (f : A → M Mem json) w :
  Leaves (λ q, q = RECEIPT) m → w_fs w !! RECEIPT = None →
  (∀ a w', m w = (Ret a, w') → w_fs w' !! RECEIPT = None → wp (f a) body_ends w') → wp (m ≫= f) body_ends w.
Proof.
  intros Hm Hw Hf. apply wp_bind. apply (wp_steps (frame (λ q, q = RECEIPT) whatever)); [done|].
  intros o w' Hs E. assert (w_fs w' !! RECEIPT = None) as Hn by (by rewrite (frame_fs _ _ _ _ Hs)).
  destruct o; [by apply Hf|split; [by apply unpublished|done]..].
Qed.

Lemma leaves_child P {R} (oracle : nat → R) : Leaves P (child (Mem := Mem) oracle).
Proof. unfold child. keeps. Qed.
Lemma leaves_git P root args : Leaves P (_git (Mem := Mem) root args).
Proof. pose proof (λ R, @leaves_child P R). unfold _git. keeps. Qed.
Lemma leaves_inspect P selected expected : Leaves P (_inspect_checkout (Mem := Mem) selected expected).
Proof. pose proof (leaves_git P). unfold _inspect_checkout. keeps. Qed.
Lemma leaves_still_there P c : Leaves P (still_there (Mem := Mem) c).
Proof. pose proof (leaves_inspect P). unfold still_there. keeps. Qed.
Lemma leaves_execute P c command ms : ¬ P OUT → ¬ P ERR → Leaves P (_execute_capturing (capture dir) c command ms).
Proof.
  intros H1' H2'. pose proof (λ out err, leaves_capture P out err H1' H2'). pose proof (λ R, @leaves_child P R).
  unfold _execute_capturing. keeps.
Qed.

(** The body of the [with] statement. *)
Definition making (checkout : _Checkout) (command : list str) (issuer_did : str) (private_key : bytes) (timeout_ms : Z) : M Mem json :=
  execution ← _execute_capturing (capture dir) checkout (JList (map JStr command)) timeout_ms;
  still_there checkout;;
  argv ← lift (_validate_command (JList (map JStr command)));
  let payload := work_payload issuer_did checkout argv timeout_ms execution in
  lift (_validate_work_payload payload);;
  receipt ← lift (_signed_wrapper payload private_key);
  let envelope := envelope_of receipt [] in
  lift (verify_work_receipt envelope);;
  finish dir envelope;;
  mret envelope.

Lemma leaves_making checkout command issuer key ms : Leaves outside (making checkout command issuer key ms).
Proof.
  assert (∀ name, ¬ outside (entry dir name)) as Hn by (intros name [Hu _]; by rewrite under_entry in Hu).
  pose proof (λ c j n, leaves_execute outside c j n (Hn _) (Hn _)). pose proof (λ r, leaves_finish outside r (Hn _) (Hn _)).
  pose proof (leaves_still_there outside). unfold making. keeps.
Qed.

Lemma wp_making checkout command issuer key ms w :
  w_fs w !! RECEIPT = None → wp (making checkout command issuer key ms) body_ends w.
Proof.
  intros Hn. unfold making.
  apply wp_early; [apply leaves_execute; apply entry_ne; by vm_compute|done|]. intros x w1 _ N1.
  apply wp_early; [apply leaves_still_there|done|]. intros [] w2 _ N2.
  apply wp_early; [keeps|done|]. intros argv w3 _ N3. cbv zeta.
  apply wp_early; [keeps|done|]. intros ? w4 _ N4. apply wp_early; [keeps|done|]. intros receipt w5 _ N5.
  apply wp_early; [keeps|done|]. intros ? w6 _ N6. apply wp_bind.
  eapply wp_mono; [by apply wp_finish|]. intros [[]|e|] w7 [Hp Hf]; [|by split..].
  apply wp_ret. split; [done|]. intros ? [= <-]. by apply Hf.
Qed.
Lemma outside_entry name : ¬ outside (entry dir name).
Proof. intros [Hu _]. by rewrite under_entry in Hu. Qed.

Lemma leaves_outside_bundle checkout command issuer key ms :
  Leaves outside (with_bundle dir (making checkout command issuer key ms)).
Proof.
  assert (¬ outside (Path dir)) as Hd by (by intros [_ ?]).
  assert (∀ q, under dir q = true → ¬ outside q) as Hu by (intros q Hq [E _]; by rewrite Hq in E).
  pose proof (leaves_enter outside Hd). pose proof (leaves_rmtree outside Hu Hd).
  pose proof (leaves_making checkout command issuer key ms). unfold with_bundle, os_errors. keeps.
Qed.

(** *** Before the directory is made *)

Abbreviation everything := (λ _ : path, True).

(** A step that changes no file may come before. *)
Definition whole_ends w (o : outcome json) w' : Prop :=
  (∀ q, outside q → w_fs w' !! q = w_fs w !! q) ∧ bundle_ends w o w'.

Lemma wp_silent {A} (m : M Mem A) (f : A → M Mem json) w w0 :
  Leaves everything m → (∀ q, under dir q = true → w_fs w0 !! q = None) → w_fs w = w_fs w0 →
  (∀ a w', m w = (Ret a, w') → w_fs w' = w_fs w0 → wp (f a) (whole_ends w0) w') → wp (m ≫= f) (whole_ends w0) w.
Proof.
  intros Hm Hn Hw Hf. apply wp_bind. apply (wp_steps (frame everything whatever)); [done|].
  intros o w' Hs E. assert (w_fs w' = w_fs w0) as Hw'.
  { rewrite <- Hw. apply map_eq. intros q. by apply (frame_fs _ _ _ _ Hs). }
  assert (published w') as Hp by (apply unpublished; rewrite Hw'; apply Hn, under_entry).
  destruct o as [a|e|]; [by apply Hf|..]; (split; [intros q _; by rewrite Hw'|split; [by split|]]); [auto|done].
Qed.

Lemma wp_whole_bundle checkout command issuer key ms w w0 :
  (∀ q, under dir q = true → w_fs w0 !! q = None) → w_fs w = w_fs w0 →
  wp (with_bundle dir (making checkout command issuer key ms)) (whole_ends w0) w.
Proof.
  intros Hn Hw. unfold whole_ends, bundle_ends, just_made. rewrite <- Hw.
  assert (∀ q, under dir q = true → w_fs w !! q = None) as Hn' by (by rewrite Hw).
  pose proof (wp_with_bundle _ w Hn' (leaves_making checkout command issuer key ms)
    (wp_making checkout command issuer key ms)) as Hb.
  pose proof (leaves_outside_bundle checkout command issuer key ms w) as Ho. revert Hb Ho. unfold wp.
  destruct (with_bundle dir _ w) as [o w']. intros Hb Ho. split; [apply (frame_fs _ _ _ _ Ho)|exact Hb].
Qed.
End bundle.

#[local] Existing Instance whatever_preorder.

Lemma leaves_bundle_init {Mem} `{Env} `{Directories} `{Workshop} destination checkout :
  Steps (frame (λ _, True) whatever) (bundle_init (Mem := Mem) destination checkout).
Proof. unfold bundle_init. keeps. Qed.

Lemma bundle_init_Ret {Mem} `{Env} `{Directories} `{Workshop} destination checkout (w : world Mem) dir w' :
  bundle_init destination checkout w = (Ret dir, w') → dir = bundle_path destination.
Proof.
  unfold bundle_init. intros (n&w1&_&(info&w2&_&E)%bind_Ret)%bind_Ret.
  by apply bind_Ret in E as ([]&w3&_&([]&w4&_&[-> _]%ret_Ret)%bind_Ret).
Qed.

(** C26: a visible work receipt is the receipt of the outputs beside it.  When a
    receipt is made into a directory below which there was nothing, then whatever
    fails and wherever the process dies: no file outside the directory changes; if
    [receipt.json] is there, it holds the whole text of a receipt that verifies,
    and each of [stdout.bin] and [stderr.bin] that is there has the digest and the
    size this receipt records; when the receipt is returned, all three are there;
    when an exception is raised, every file is as before, or the exception says
    that an incomplete output bundle remains, or it is the system's error of
    removing the directory that had just been made, and the empty directory is then
    all that is left. *)
Theorem work_output_is_published_whole {Mem} `{Env} `{Directories} `{Workshop} `{UrlLib} `{Ed25519}
    (selected destination : str) (command : list str) (issuer_did : str) (private_key : bytes) (timeout : pyfloat)
    (w : world Mem) :
  let dir := bundle_path destination in
  (∀ q, under dir q = true → w_fs w !! q = None) →
  let '(o, w') := create_work_receipt_into selected destination command issuer_did private_key timeout w in
  (∀ q, under dir q = false → q ≠ Path dir → w_fs w' !! q = w_fs w !! q) ∧
  published dir w' ∧ (∀ receipt, o = Ret receipt → finished dir receipt w') ∧
  ∀ e, o = Raise e → w_fs w' = w_fs w ∨ e = INCOMPLETE ∨ (e = OSError ∧ just_made dir w w').
Proof.
  cbv zeta. intros Hn. apply (wp_pair _ (λ o w',
    (∀ q, under _ q = false → q ≠ Path _ → w_fs w' !! q = w_fs w !! q) ∧ published _ w' ∧
    (∀ receipt, o = Ret receipt → finished _ receipt w') ∧ ∀ e, o = Raise e →
      w_fs w' = w_fs w ∨ e = INCOMPLETE ∨ (e = OSError ∧ just_made (bundle_path destination) w w'))).
  apply (wp_mono _ (whole_ends (bundle_path destination) w)).
  2: { intros o w' [Ho [[Hp Hf] He]]. split; [by intros q ??; apply Ho|done]. }
  unfold create_work_receipt_into.
  apply wp_silent; [keeps|done|done|]. intros [] w1 _ E1.
  apply wp_silent; [apply leaves_inspect|done|done|]. intros checkout w2 _ E2.
  apply wp_silent; [keeps|done|done|]. intros ms w3 _ E3.
  apply wp_silent; [apply leaves_bundle_init|done|done|]. intros dir w4 ->%bundle_init_Ret E4.
  by apply wp_whole_bundle.
Qed.

Lemma work_output_is_published_whole_witness :
  let E := calm_env in let W := toy_workshop (Some 0) in
  let D : Directories := λ _ _, Some (DirectoryStatus true 448 501) in
  ∃ receipt w', create_work_receipt_into (u ".") (u "/out/bundle") toy_command (toy_did 1) (toy_seed 1)
                  (Finite 2 (u "2.0")) (toy_world tt []) = (Ret receipt, w') ∧
                finished (u "/out/bundle") receipt w'.
Proof.
  intros E W D.
  pose proof (work_output_is_published_whole (u ".") (u "/out/bundle") toy_command (toy_did 1) (toy_seed 1)
    (Finite 2 (u "2.0")) (toy_world tt []) (λ q _, lookup_empty q)) as Ht.
  assert (match (create_work_receipt_into (u ".") (u "/out/bundle") toy_command (toy_did 1) (toy_seed 1)
    (Finite 2 (u "2.0")) (toy_world tt [])).1 with Ret _ => true | _ => false end = true) as Hr
    by (vm_compute; reflexivity).
  revert Ht Hr. generalize (create_work_receipt_into (u ".") (u "/out/bundle") toy_command (toy_did 1) (toy_seed 1)
    (Finite 2 (u "2.0")) (toy_world tt [])). intros [[receipt|e|] w'] (_&_&Hf&_) Hr; [|discriminate Hr..].
  exists receipt, w'. split; [reflexivity|]. exact (Hf receipt eq_refl).
Defined.
