(* ===== verification/Commands.v ===== *)
(** [cli.py], the remaining commands, and the exit code of [main].

    What a command prints as JSON goes through [_print_event]; the lines on the
    standard error are not kept. *)

From S2P Require Import Prelude Errors Text Json Crypto Url Clock Effects State Memory Protocol.
From S2P Require Import Capabilities Receipt Policy Delivery AuditLog Config Identity Lock Agent Run Provision.
From S2P Require Import Health Controller WorkVerifier WorkReceipt WorkOutput.

Section commands.
Context `{Env} `{UrlLib} `{Ed25519} `{FloatRepr} `{Keychain}.

Definition doctor_event (record : IdentityRecord) : event_dict :=
  [(u "status", JStr (u "ok")); (u "did", JStr (i_did record)); (u "fingerprint", JStr (i_fingerprint record));
   (u "custody", JStr (u "macos-keychain")); (u "service", JStr (keychain_service record));
   (u "account", JStr (keychain_account record)); (u "private_key_exported", JBool false)].

Definition _doctor (identity : str) : IO Z :=
  '(record, _) ← _load_identity (Path identity);
  _print_event (doctor_event record);;
  mret 0.

(** The options of [health]; a path is absolute already. *)
Record HealthArgs := MkHealthArgs {
  ha_identity : str; ha_config : option str; ha_state : option str; ha_capability_policy : str;
  ha_journal : option str; ha_audit_log : option str; ha_lock : option str;
  ha_expected_audit_head : option str; ha_expect_running : bool
}.

Definition _health (args : HealthArgs) : IO Z :=
  let beside selected default_name := lift (_path_beside_identity selected (ha_identity args) default_name) in
  config ← beside (ha_config args) (u "safe-agent-config.json");
  state ← beside (ha_state args) (u "safe-agent-state.json");
  journal ← beside (ha_journal args) (u "safe-agent-delivery.json");
  audit ← beside (ha_audit_log args) (u "safe-agent-audit.jsonl");
  lock ← beside (ha_lock args) (u "safe-agent.lock");
  report ← inspect_operational_health
    (MkHealthPaths (Path (ha_identity args)) config state (Path (ha_capability_policy args)) journal audit lock)
    (ha_expected_audit_head args) (ha_expect_running args);
  _print_event (to_event report);;
  mret (exit_code report).

(** ** Contribution receipts *)

(** The receipt is what is printed. *)
Definition _receipt (identity pull_request : str) (timeout : pyfloat) : IO str :=
  '(record, private_key) ← _load_identity (Path identity);
  lift (_bounded_float timeout (1 # 10) 60);;
  lift (validate_did (i_did record));;
  rendered ← issue (MkReceiptService (i_did record) private_key 60) pull_request;
  Effects.action;;
  mret rendered.

Definition read_text (p : path) : IO str :=
  raw ← read_bytes p; lift (text ← utf8_decode false raw; Ok (universal_newlines text)).

Definition receipt_event (payload wrapper : list (str * json)) : event_dict :=
  [(u "status", JStr (u "valid")); (u "schema", jget (u "schema") payload); (u "issuer", jget (u "issuer") payload);
   (u "repository", jget (u "repository") payload); (u "pull_number", jget (u "pull_number") payload);
   (u "payload_sha256", jget (u "payload_sha256") wrapper)].

Definition members_of (v : json) : list (str * json) := match v with JDict kvs => kvs | _ => [] end.

Definition _verify_receipt (p : path) : IO event_dict :=
  raw ← os_errors (receipt_error "cannot read receipt file" "receipt_read_error") (read_text p);
  payload ← lift (verify_signed_receipt_text raw);
  wrapper ← lift (loads raw);
  let event := receipt_event payload (members_of wrapper) in
  _print_event event;;
  mret event.

(** ** Work receipts *)

(** A file that is too long is not read. *)
Definition _read_text_artifact (p : path) (label : string) (maximum_bytes : Z) : IO str :=
  try_except
    (os_errors (WorkReceiptError ("cannot read " ++ label))
       (f ← path_file p;
        check (maximum_bytes <? length (f_data f)) (WorkReceiptError (label ++ " exceeds the artifact size limit"));;
        read_text p))
    (λ e, match e with UnicodeDecodeError => true | _ => false end)
    (λ _, raise (WorkReceiptError (label ++ " must be UTF-8 JSON"))).

Definition ARTIFACT_LIMIT : Z := 128 * 1024.

(** [-- command]: the separator is dropped. *)
Definition work_command (command : list str) : list str :=
  match command with c :: rest => if c == u "--" then rest else command | [] => [] end.

Definition work_receipt_create `{Workshop, Directories} (identity repository : str) (command : list str)
    (timeout : pyfloat) (output_directory : option str) : IO str :=
  '(record, private_key) ← _load_identity (Path identity);
  receipt ← match output_directory with
            | None => create_work_receipt repository (work_command command) (i_did record) private_key timeout
            | Some destination =>
                create_work_receipt_into repository destination (work_command command) (i_did record) private_key timeout
            end;
  rendered ← lift (render_work_receipt receipt);
  Effects.action;;
  mret rendered.

Definition work_receipt_event (summary : WorkReceiptSummary) : event_dict :=
  let payload := ws_payload summary in
  [(u "status", JStr (u "valid")); (u "schema", jget (u "schema") payload);
   (u "repository", jget (u "repository") payload); (u "commit", jget (u "commit") payload);
   (u "result", jget (u "result") payload); (u "countersignatures", JInt (ws_countersignatures summary))].

Definition work_receipt_verify (p : path) : IO event_dict :=
  raw ← _read_text_artifact p "work receipt" ARTIFACT_LIMIT;
  '(summary, _) ← lift (_verify_and_decode raw);
  _print_event (work_receipt_event summary);;
  mret (work_receipt_event summary).

Definition work_receipt_countersign `{Workshop} (identity repository : str) (p : path) : IO str :=
  raw ← _read_text_artifact p "work receipt" ARTIFACT_LIMIT;
  '(record, private_key) ← _load_identity (Path identity);
  decoded ← lift (_decode raw);
  updated ← countersign_work_receipt decoded repository (i_did record) private_key None;
  rendered ← lift (render_work_receipt updated);
  Effects.action;;
  mret rendered.

(** ** The audit log *)

Definition audit_event (summary : AuditSummary) (expected_head : option str) : event_dict :=
  [(u "status", JStr (u "valid")); (u "entries", JInt (entries summary));
   (u "issuer", match issuer summary with Some did => JStr did | None => JNull end);
   (u "head_sha256", JStr (head_sha256 summary));
   (u "expected_head_matched", JBool (bool_decide (is_Some expected_head)))].

Definition _audit (p : path) (expected_head : option str) : IO Z :=
  summary ← verify p expected_head;
  _print_event (audit_event summary expected_head);;
  mret 0.
End commands.

(** ** The exit code *)

(** The classes [main] reports; any other exception ends in a traceback. *)
Definition reported (e : exn) : bool :=
  match e with
  | AuditError _ | BeadsTasksError _ | CapabilityError _ | ConfigError _ | ControllerError _ | DeliveryError _
  | IdentityError _ | LaunchAgentError _ | GitHubReceiptError _ _ _ _ | ProtocolValueError _ | ProcessLockError _
  | ResponseError _ | StateError _ | TransportError _ _ _ | WorkReceiptError _ => true
  | _ => false
  end.

(** [main] of a handler: what it returns is the exit code.  [stopped] on Ctrl-C
    is not modelled. *)
Definition main {Mem} `{Env} (handler : M Mem Z) : M Mem Z :=
  try_except handler (λ e, is_UncertainWriteError e || reported e)
    (λ e, Effects.action;; mret (if is_UncertainWriteError e then 3 else 2)).
