(* ===== verification/Arguments.v ===== *)
(** [cli.build_parser]: the command line, its options and their values.

    The tables below are the [add_argument] calls; [parse_options] is what
    [argparse] does with them: an option by its name, by an unambiguous prefix,
    or with its value after an equals sign; a value that looks like an option is
    none; the last value of an option counts.  [None] is every way in which
    [argparse] ends the process itself: an error, the help, the version.  The
    separator [--] is only known where the source speaks of it, in the command
    of [work-receipt create]. *)

From S2P Require Import Prelude Errors Text Json Crypto Url Clock Effects State Memory Protocol.
From S2P Require Import Config Identity Run Provision Controller Health LaunchAgent Commands.

(** ** Values *)

Inductive value : Type :=
  | VText (s : str)
  | VFloat (f : pyfloat)
  | VInt (z : Z)
  | VFlag.

(** [int(s)]: surrounding space, a sign, digits of any script, single
    underscores between digits. *)
Definition unsigned_int (s : str) : option Z :=
  if bool_decide (s ≠ []) && forallb ascii_digit s
  then match int_of_digits s with Ok z => Some z | Err _ => None end
  else None.
Definition py_int (raw : str) : option Z :=
  s ← drop_underscores false (ascii_digits (strip raw));
  match s with
  | 45 :: s' => Z.opp <$> unsigned_int s'
  | 43 :: s' => unsigned_int s'
  | _ => unsigned_int s
  end.

Inductive kind : Type :=
  | TextKind                      (* str, or Path *)
  | FloatKind
  | IntKind
  | TaskLimitKind
  | ChoiceKind (choices : list str)
  | FlagKind.                     (* store_true *)

Definition _ready_task_limit (raw : str) : option Z :=
  limit ← py_int raw; if (1 <=? limit) && (limit <=? 10) then Some limit else None.

Definition convert (k : kind) (raw : str) : option value :=
  match k with
  | TextKind => Some (VText raw)
  | FloatKind => VFloat <$> py_float raw
  | IntKind => VInt <$> py_int raw
  | TaskLimitKind => VInt <$> _ready_task_limit raw
  | ChoiceKind choices => if raw in? choices then Some (VText raw) else None
  | FlagKind => None
  end.

(** ** Options *)

Record option_spec := MkOption {
  o_name : str;
  o_kind : kind;
  o_required : bool;
  o_exclusive : bool              (* in the mutually exclusive group *)
}.
Definition opt (name : string) (k : kind) : option_spec := MkOption (u name) k false false.
Definition required (name : string) (k : kind) : option_spec := MkOption (u name) k true false.
Definition exclusive (name : string) (k : kind) : option_spec := MkOption (u name) k false true.

Record command_spec := MkCommandSpec {
  c_options : list option_spec;
  c_positionals : list (str * kind);
  c_remainder : option str
}.

Definition is_flag (o : option_spec) : bool := match o_kind o with FlagKind => true | _ => false end.

(** What an argument is taken for. *)
Inductive token : Type :=
  | Value
  | Named (o : option_spec) (explicit : option str)
  | Stop.

(** [^-\d+$|^-\d*\.\d+$] of an argument after its hyphen. *)
Definition negative_number (s : str) : bool :=
  let digits t := bool_decide (t ≠ []) && forallb (λ c, bool_decide (is_Some (decimal_value c))) t in
  digits s ||
  match partition 46 s with
  | (whole, Some fraction) => (bool_decide (whole = []) || digits whole) && digits fraction
  | (_, None) => false
  end.

Definition HELP : option_spec := opt "--help" FlagKind.

Definition named (options : list option_spec) (name : str) : option option_spec :=
  List.find (λ o, o_name o == name) options.

Definition classify (options : list option_spec) (arg : str) : token :=
  match arg with
  | 45 :: 45 :: _ =>
      match named options arg with
      | Some o => Named o None
      | None =>
          let '(name, explicit) := partition 61 arg in
          match (if bool_decide (is_Some explicit) then named options name else None) with
          | Some o => Named o explicit
          | None =>
              match List.filter (λ o, startswith name (o_name o)) (HELP :: options) with
              | [o] => if o_name o == o_name HELP then Stop else Named o explicit
              | [] => if mem 32 arg then Value else Stop
              | _ => Stop
              end
          end
      end
  | 45 :: c :: s =>
      if c =? 104 then Stop                                   (* -h *)
      else if negative_number (c :: s) then Value
      else if mem 32 arg then Value else Stop
  | _ => Value
  end.

(** The values so far, in their order: the name of the option or positional
    and its value. *)
Abbreviation namespace := (list (str * value)) (only parsing).

Definition seen (name : str) (ns : namespace) : bool := existsb (λ kv, kv.1 == name) ns.

(** An option of the group excludes the others of the group. *)
Definition excluded (options : list option_spec) (o : option_spec) (ns : namespace) : bool :=
  o_exclusive o && existsb (λ o', o_exclusive o' && (o_name o' != o_name o) && seen (o_name o') ns) options.

Definition store (options : list option_spec) (o : option_spec) (v : value) (ns : namespace) : option namespace :=
  if excluded options o ns then None else Some (ns ++ [(o_name o, v)]).

Section parser.
Context (spec : command_spec).

(** At the end every positional and every required option has a value. *)
Definition complete (positionals : list (str * kind)) (ns : namespace) : option namespace :=
  if bool_decide (positionals = []) && forallb (λ o, negb (o_required o) || seen (o_name o) ns) (c_options spec)
  then Some ns else None.

(** An option waits for its value in [pending]. *)
Fixpoint parse_options (args : list str) (positionals : list (str * kind)) (pending : option option_spec)
    (ns : namespace) : option namespace :=
  match args with
  | [] => if bool_decide (is_Some pending) then None else complete positionals ns
  | arg :: rest =>
      match classify (c_options spec) arg, pending with
      | Value, Some o =>
          v ← convert (o_kind o) arg; ns ← store (c_options spec) o v ns; parse_options rest positionals None ns
      | _, Some _ => None
      | Named o None, None =>
          if is_flag o
          then ns ← store (c_options spec) o VFlag ns; parse_options rest positionals None ns
          else parse_options rest positionals (Some o) ns
      | Named o (Some raw), None =>
          v ← convert (o_kind o) raw; ns ← store (c_options spec) o v ns; parse_options rest positionals None ns
      | token, None =>
          match c_remainder spec, token, positionals with
          | Some name, Value, _ => complete positionals (ns ++ map (λ a, (name, VText a)) args)
          | Some name, _, _ =>
              if arg == u "--" then complete positionals (ns ++ map (λ a, (name, VText a)) args) else None
          | None, Value, (name, k) :: positionals =>
              v ← convert k arg; parse_options rest positionals None (ns ++ [(name, v)])
          | _, _, _ => None
          end
      end
  end.
End parser.

Definition parse (spec : command_spec) (args : list str) : option namespace :=
  parse_options spec args (c_positionals spec) None [].

(** ** The commands *)

(** The path options the commands of a running agent share. *)
Definition identity_option : option_spec := opt "--identity" TextKind.
Definition RUN_SPEC : command_spec :=
  MkCommandSpec
    [identity_option; opt "--room" TextKind; opt "--config" TextKind; opt "--base-url" TextKind;
     opt "--timeout" FloatKind; opt "--github-timeout" FloatKind; opt "--wait" FloatKind; opt "--limit" IntKind;
     opt "--once" FlagKind; opt "--start-at" (ChoiceKind [u "latest"; u "saved"; u "zero"]);
     opt "--state" TextKind; opt "--journal" TextKind; opt "--lock" TextKind; opt "--audit-log" TextKind;
     exclusive "--allow-did" TextKind; exclusive "--allow-any-signed" FlagKind;
     exclusive "--capability-policy" TextKind; opt "--send" FlagKind] [] None.
Definition RECOVER_DELIVERY_SPEC : command_spec :=
  MkCommandSpec
    [identity_option; opt "--room" TextKind; opt "--config" TextKind; opt "--state" TextKind;
     opt "--journal" TextKind; opt "--lock" TextKind; opt "--base-url" TextKind; opt "--timeout" FloatKind;
     opt "--apply" FlagKind; opt "--confirm-retry" FlagKind] [] None.
Definition DOCTOR_SPEC : command_spec := MkCommandSpec [identity_option] [] None.
Definition HEALTH_SPEC : command_spec :=
  MkCommandSpec
    [identity_option; opt "--config" TextKind; opt "--state" TextKind; required "--capability-policy" TextKind;
     opt "--journal" TextKind; opt "--lock" TextKind; opt "--audit-log" TextKind;
     opt "--expected-audit-head" TextKind; opt "--expect-running" FlagKind] [] None.
Definition LAUNCHD_RENDER_SPEC : command_spec :=
  MkCommandSpec
    [identity_option; opt "--config" TextKind; opt "--state" TextKind; required "--capability-policy" TextKind;
     opt "--journal" TextKind; opt "--lock" TextKind; opt "--audit-log" TextKind;
     opt "--expected-audit-head" TextKind; opt "--label" TextKind; required "--executable" TextKind;
     opt "--stdout-path" TextKind; opt "--stderr-path" TextKind] [] None.
Definition PROVISION_SPEC : command_spec :=
  MkCommandSpec
    [identity_option; opt "--name" TextKind; opt "--base-url" TextKind; opt "--timeout" FloatKind;
     opt "--config" TextKind; opt "--state" TextKind] [] None.
Definition RECOVER_SPEC : command_spec :=
  MkCommandSpec
    [identity_option; opt "--base-url" TextKind; opt "--timeout" FloatKind; opt "--config" TextKind;
     opt "--state" TextKind; opt "--retry" FlagKind] [] None.
Definition CONTROLLER_CREATE_SPEC : command_spec :=
  MkCommandSpec [identity_option; opt "--service" TextKind; opt "--account" TextKind] [] None.
Definition CONTROLLER_GRANT_SPEC : command_spec :=
  MkCommandSpec [identity_option; required "--capability-policy" TextKind] [] None.
Definition CONTROLLER_SEND_SPEC : command_spec :=
  MkCommandSpec
    [identity_option; opt "--config" TextKind; opt "--state" TextKind; opt "--lock" TextKind;
     opt "--timeout" FloatKind] [(u "controller_text", ChoiceKind CONTROLLER_COMMANDS)] None.
Definition RECEIPT_SPEC : command_spec :=
  MkCommandSpec [identity_option; opt "--timeout" FloatKind] [(u "pull_request", TextKind)] None.
Definition VERIFY_RECEIPT_SPEC : command_spec := MkCommandSpec [] [(u "path", TextKind)] None.
Definition WORK_CREATE_SPEC : command_spec :=
  MkCommandSpec
    [identity_option; opt "--repository" TextKind; opt "--timeout" FloatKind; opt "--output-directory" TextKind]
    [] (Some (u "work_command")).
Definition WORK_VERIFY_SPEC : command_spec := MkCommandSpec [] [(u "path", TextKind)] None.
Definition WORK_COUNTERSIGN_SPEC : command_spec :=
  MkCommandSpec [identity_option; opt "--repository" TextKind] [(u "path", TextKind)] None.
Definition WORK_EVIDENCE_SPEC : command_spec :=
  MkCommandSpec
    [required "--expectation" TextKind; opt "--receipt" TextKind; opt "--stdout" TextKind; opt "--stderr" TextKind;
     opt "--format" (ChoiceKind [u "json"; u "markdown"])] [] None.
Definition AUDIT_VERIFY_SPEC : command_spec :=
  MkCommandSpec [opt "--expected-head" TextKind] [(u "path", TextKind)] None.
Definition TASKS_READY_SPEC : command_spec :=
  MkCommandSpec
    [required "--beads-dir" TextKind; opt "--limit" TaskLimitKind;
     opt "--format" (ChoiceKind [u "text"; u "json"])] [] None.

(** The commands and their sub-commands. *)
Inductive parser_tree : Type :=
  | Leaf (spec : command_spec)
  | Branch (commands : list (str * command_spec)).

Definition COMMANDS : list (str * parser_tree) :=
  [(u "doctor", Leaf DOCTOR_SPEC); (u "health", Leaf HEALTH_SPEC);
   (u "controller", Branch [(u "create", CONTROLLER_CREATE_SPEC); (u "grant", CONTROLLER_GRANT_SPEC);
                            (u "send", CONTROLLER_SEND_SPEC)]);
   (u "launchd", Branch [(u "render", LAUNCHD_RENDER_SPEC)]); (u "provision", Leaf PROVISION_SPEC);
   (u "recover", Leaf RECOVER_SPEC); (u "recover-delivery", Leaf RECOVER_DELIVERY_SPEC);
   (u "receipt", Leaf RECEIPT_SPEC); (u "verify-receipt", Leaf VERIFY_RECEIPT_SPEC);
   (u "work-receipt", Branch [(u "create", WORK_CREATE_SPEC); (u "verify", WORK_VERIFY_SPEC);
                              (u "countersign", WORK_COUNTERSIGN_SPEC)]);
   (u "work-evidence", Leaf WORK_EVIDENCE_SPEC); (u "audit", Branch [(u "verify", AUDIT_VERIFY_SPEC)]);
   (u "tasks", Branch [(u "ready", TASKS_READY_SPEC)]); (u "run", Leaf RUN_SPEC)].

(** The command, its sub-command, its options. *)
Definition parse_args (argv : list str) : option (str * str * list (str * value)) :=
  match argv with
  | command :: rest =>
      tree ← dict_get command COMMANDS;
      match tree, rest with
      | Leaf spec, _ => ns ← parse spec rest; Some (command, [], ns)
      | Branch commands, sub :: rest =>
          spec ← dict_get sub commands; ns ← parse spec rest; Some (command, sub, ns)
      | Branch _, [] => None
      end
  | [] => None
  end.

(** ** What the handlers read *)

Section options.
Context (ns : list (str * value)).

(** The last value given. *)
Definition given (name : string) : option value := snd <$> last (List.filter (λ kv, kv.1 == u name) ns).
Definition text_option (name : string) : option str := match given name with Some (VText s) => Some s | _ => None end.
Definition text_default (name : string) (d : str) : str := default d (text_option name).
Definition float_default (name : string) (d : pyfloat) : pyfloat := match given name with Some (VFloat f) => f | _ => d end.
Definition int_default (name : string) (d : Z) : Z := match given name with Some (VInt z) => z | _ => d end.
Definition flag (name : string) : bool := bool_decide (is_Some (given name)).
(** [action="append"] *)
Definition text_list (name : string) : list str :=
  omap (λ kv, match kv.2 with VText s => if kv.1 == u name then Some s else None | _ => None end) ns.
End options.

Definition seconds (n : positive) (text : string) : pyfloat := Finite (Zpos n # 1) (u text).

Inductive command : Type :=
  | Doctor (identity : str)
  | Health (args : HealthArgs)
  | ControllerCreate (identity service account : str)
  | ControllerGrant (identity capability_policy : str)
  | ControllerSend (identity : str) (config state lock : option str) (timeout : pyfloat) (controller_text : str)
  | LaunchdRender (args : LaunchArgs)
  | ProvisionMailbox (args : RunArgs) (name server : str)
  | RecoverMailbox (args : RunArgs) (server : str) (retry : bool)
  | RecoverDelivery (args : RunArgs)
  | IssueReceipt (identity pull_request : str) (timeout : pyfloat)
  | VerifyReceipt (p : str)
  | WorkCreate (identity repository : str) (output_directory : option str) (timeout : pyfloat) (argv : list str)
  | WorkVerify (p : str)
  | WorkCountersign (identity repository p : str)
  | WorkEvidence (expectation : str) (receipt stdout stderr : option str) (markdown : bool)
  | AuditVerify (p : str) (expected_head : option str)
  | TasksReady (beads_dir : str) (limit : Z) (as_json : bool)
  | RunAgent (args : RunArgs).

(** [expanduser().absolute()], [expanduser().resolve()] and the home directory.
    Where the source makes a path absolute inside the component, it is made so
    here. *)
Class PathText := {
  absolute : str → str;
  resolved_text : str → str;
  default_identity : str;              (* DEFAULT_IDENTITY_PATH *)
  default_controller_identity : str    (* DEFAULT_CONTROLLER_IDENTITY_PATH *)
}.

Section handlers.
Context `{PathText} (ns : list (str * value)).

Definition start_at_of (choice : str) : start_at :=
  if choice == u "saved" then StartSaved else if choice == u "zero" then StartZero else StartLatest.

Definition resolved_option (name : string) : option str := resolved_text <$> text_option ns name.
Definition absolute_option (name : string) : option str := absolute <$> text_option ns name.

Definition run_args : RunArgs :=
  MkRunArgs (resolved_text (text_default ns "--identity" default_identity)) (text_option ns "--room")
    (resolved_option "--config") (text_option ns "--base-url") (float_default ns "--timeout" (seconds 20 "20.0"))
    (float_default ns "--github-timeout" (seconds 15 "15.0")) (float_default ns "--wait" (seconds 10 "10.0"))
    (int_default ns "--limit" 50) (flag ns "--once") (start_at_of (text_default ns "--start-at" (u "latest")))
    (resolved_option "--state") (resolved_option "--journal") (resolved_option "--lock")
    (resolved_option "--audit-log") (text_list ns "--allow-did") (flag ns "--allow-any-signed")
    (absolute_option "--capability-policy") (flag ns "--send") (flag ns "--apply") (flag ns "--confirm-retry").

Definition health_args : HealthArgs :=
  MkHealthArgs (absolute (text_default ns "--identity" default_identity)) (absolute_option "--config")
    (absolute_option "--state") (absolute (text_default ns "--capability-policy" [])) (absolute_option "--journal")
    (absolute_option "--audit-log") (absolute_option "--lock") (text_option ns "--expected-audit-head")
    (flag ns "--expect-running").

Definition launch_args : LaunchArgs :=
  MkLaunchArgs (absolute (text_default ns "--identity" default_identity)) (absolute_option "--config")
    (absolute_option "--state") (absolute (text_default ns "--capability-policy" [])) (absolute_option "--journal")
    (absolute_option "--audit-log") (absolute_option "--lock")
    (text_default ns "--label" (u "com.technocore.safe-agent")) (absolute (text_default ns "--executable" []))
    (absolute_option "--stdout-path") (absolute_option "--stderr-path") (text_option ns "--expected-audit-head").

Definition command_of (cmd sub : str) : option command :=
  let identity := resolved_text (text_default ns "--identity" default_identity) in
  let controller := absolute (text_default ns "--identity" default_controller_identity) in
  let server := text_default ns "--base-url" (u "https://technocore.chat") in
  let path := text_default ns "path" [] in
  if cmd == u "doctor" then Some (Doctor identity)
  else if cmd == u "health" then Some (Health health_args)
  else if cmd == u "controller" then
    if sub == u "create" then
      Some (ControllerCreate controller (text_default ns "--service" (u "technocore.safe-agent.controller"))
              (text_default ns "--account" (u "safe-agent-controller")))
    else if sub == u "grant" then
      Some (ControllerGrant controller (absolute (text_default ns "--capability-policy" [])))
    else Some (ControllerSend controller (absolute_option "--config") (absolute_option "--state")
                 (absolute_option "--lock") (float_default ns "--timeout" (seconds 20 "20.0"))
                 (text_default ns "controller_text" []))
  else if cmd == u "launchd" then Some (LaunchdRender launch_args)
  else if cmd == u "provision" then
    Some (ProvisionMailbox run_args (text_default ns "--name" (u "SafeAgent")) server)
  else if cmd == u "recover" then Some (RecoverMailbox run_args server (flag ns "--retry"))
  else if cmd == u "recover-delivery" then Some (RecoverDelivery run_args)
  else if cmd == u "receipt" then
    Some (IssueReceipt identity (text_default ns "pull_request" []) (float_default ns "--timeout" (seconds 15 "15.0")))
  else if cmd == u "verify-receipt" then Some (VerifyReceipt (resolved_text path))
  else if cmd == u "work-receipt" then
    let repository := text_default ns "--repository" (u ".") in
    if sub == u "create" then
      Some (WorkCreate identity repository (text_option ns "--output-directory")
              (float_default ns "--timeout" (seconds 300 "300.0")) (text_list ns "work_command"))
    else if sub == u "verify" then Some (WorkVerify (resolved_text path))
    else Some (WorkCountersign (resolved_text (text_default ns "--identity" default_controller_identity)) repository (resolved_text path))
  else if cmd == u "work-evidence" then
    Some (WorkEvidence (text_default ns "--expectation" []) (text_option ns "--receipt") (text_option ns "--stdout")
            (text_option ns "--stderr") (text_default ns "--format" (u "json") == u "markdown"))
  else if cmd == u "audit" then Some (AuditVerify (absolute path) (text_option ns "--expected-head"))
  else if cmd == u "tasks" then
    Some (TasksReady (text_default ns "--beads-dir" []) (int_default ns "--limit" 10)
            (text_default ns "--format" (u "text") == u "json"))
  else if cmd == u "run" then Some (RunAgent run_args)
  else None.
End handlers.

(** [build_parser().parse_args(argv)], and what the handler makes of it. *)
Definition command_line `{PathText} (argv : list str) : option command :=
  '(command, sub, ns) ← parse_args argv; command_of ns command sub.

(** ** On command lines *)

Section examples.
#[local] Instance plain_paths : PathText :=
  {| absolute s := s; resolved_text s := s; default_identity := u "/home/id.json"; default_controller_identity := u "/home/c.json" |}.

Example line_run :
  command_line [u "run"; u "--send"; u "--allow-did=did:key:z6Mk"; u "--wai"; u "0.5"; u "--allow-did"; u "x"; u "--limit"; u "7"]
  = Some (RunAgent (MkRunArgs (u "/home/id.json") None None None (seconds 20 "20.0") (seconds 15 "15.0")
            (Finite (5 # 10) (u "0.5")) 7 false StartLatest None None None None [u "did:key:z6Mk"; u "x"] false None
            true false false)).
Proof. by vm_compute. Qed.
Example line_exclusive : command_line [u "run"; u "--capability-policy"; u "/p"; u "--allow-any-signed"] = None.
Proof. by vm_compute. Qed.
Example line_ambiguous : command_line [u "run"; u "--allow"; u "x"] = None.
Proof. by vm_compute. Qed.
Example line_value_missing : command_line [u "run"; u "--state"; u "--send"] = None.
Proof. by vm_compute. Qed.
Example line_negative : float_default (default [] (parse RUN_SPEC [u "--wait"; u "-2"])) "--wait" (seconds 10 "10.0") = Finite (-2 # 1) (u "-2").
Proof. by vm_compute. Qed.
Example line_work :
  command_line [u "work-receipt"; u "create"; u "--timeout"; u "5"; u "--"; u "make"; u "--timeout"]
  = Some (WorkCreate (u "/home/id.json") (u ".") None (Finite 5 (u "5")) [u "--"; u "make"; u "--timeout"]).
Proof. by vm_compute. Qed.
Example line_tasks :
  command_line [u "tasks"; u "ready"; u "--limit"; u "11"; u "--beads-dir"; u "/b"] = None.
Proof. by vm_compute. Qed.
End examples.
