(* ===== verification/WorkPilot.v ===== *)
(** [scripts/run_work_receipt_pilot.py]: two new identities, one work receipt, a
    countersignature, in a temporary clone of a clean checkout.

    The clone, the name of the temporary directory and the keys are the
    environment's: the class [PilotClone].  What is in the temporary directory
    is known through [Workshop] only.  An exception the script does not catch
    is the outcome [Raise]. *)

From S2P Require Import Prelude Errors Text Json Crypto Url Clock Effects State Memory.
From S2P Require Import WorkVerifier WorkReceipt Run Controller Arguments.

Class PilotClone := {
  git_clone : nat → str → str → git_result;     (* git clone --quiet --no-hardlinks source checkout *)
  temporary_directory : nat → str;              (* mkdtemp *)
  generated_key : nat → bytes                   (* Ed25519PrivateKey.generate, as its seed *)
}.

Definition WORK_PILOT_SPEC : command_spec :=
  MkCommandSpec [opt "--repository" TextKind; opt "--output" TextKind; opt "--execute-work-receipt-pilot" FlagKind] [] None.

Definition PILOT_COMMAND : list str :=
  [u "python3"; u "-c";
   u "import io,sys,unittest;" ++ u "sys.path.insert(0,'src');" ++
   u "suite=unittest.defaultTestLoader.loadTestsFromName(" ++
   u "'tests.test_crypto_identity.CryptoIdentityTests." ++
   u "test_detached_signatures_verify_against_the_did_public_key');" ++
   u "result=unittest.TextTestRunner(stream=io.StringIO(),verbosity=0).run(suite);" ++
   u "raise SystemExit(0 if result.wasSuccessful() else 1)"].

Definition PILOT_TIMEOUT : pyfloat := Finite 30 (u "30").

Definition work_pilot_report (summary : WorkReceiptSummary) (written : bool) : list (str * json) :=
  [(u "status", JStr (u "passed")); (u "schema", jget (u "schema") (ws_payload summary));
   (u "result", jget (u "result") (ws_payload summary)); (u "independent_signers", JInt 2);
   (u "countersignatures", JInt (ws_countersignatures summary)); (u "artifact_written", JBool written);
   (u "artifact_published", JBool false)].

Section work_pilot.
Context `{Env} `{Workshop} `{UrlLib} `{Ed25519} `{PilotClone}.

(** [subprocess.run] with [check=True]. *)
Definition completed (r : git_result) : IO str :=
  match r with
  | GitOutput stdout => mret stdout
  | GitMissing => raise FileNotFoundError
  | GitTimeout | GitFailed => raise SubprocessError
  | GitOSError => raise OSError
  | GitUndecodable => raise UnicodeDecodeError
  end.

Definition _git (repository : str) (arguments : list str) : IO str :=
  r ← child (λ n, git_run n repository arguments); stdout ← completed r; mret (strip stdout).

Definition _write_private_new (p content : str) : IO unit :=
  let resolved := Path (resolve p) in
  mkdir_parents resolved;;
  create_exclusively resolved;;
  raw ← lift (utf8_encode (content ++ [10]));
  write_stream resolved raw.

(** Inside [with tempfile.TemporaryDirectory()]. *)
Definition pilot_in (source origin checkout : str) (output : option str) : IO WorkReceiptSummary :=
  r ← child (λ n, git_clone n source checkout);
  completed r;;
  _git checkout [u "remote"; u "set-url"; u "origin"; origin];;
  n ← next_tick; n' ← next_tick;
  let worker_key := generated_key n in
  let verifier_key := generated_key n' in
  worker_did ← lift (did_from_private_key worker_key);
  verifier_did ← lift (did_from_private_key verifier_key);
  receipt ← create_work_receipt checkout PILOT_COMMAND worker_did worker_key PILOT_TIMEOUT;
  countersigned ← countersign_work_receipt receipt checkout verifier_did verifier_key (Some PILOT_TIMEOUT);
  summary ← lift (verify_work_receipt countersigned);
  rendered ← lift (render_work_receipt countersigned);
  (match output with None => mret tt | Some p => _write_private_new p rendered end);;
  mret summary.

(** After the flag: what is printed, or [None] for a checkout that is not clean. *)
Definition work_pilot (repository : str) (output : option str) : IO (option (list (str * json))) :=
  let source := resolve repository in
  status ← _git source [u "status"; u "--porcelain"; u "--untracked-files=all"];
  if status != [] then mret None
  else
    origin ← _git source [u "remote"; u "get-url"; u "origin"];
    n ← Effects.action;
    summary ← try_finally (pilot_in source origin (temporary_directory n ++ u "/checkout") output)
                (Effects.action;; mret tt);
    mret (Some (work_pilot_report summary (bool_decide (is_Some output)))).

(** [None] when [argparse] ended the process. *)
Definition main (argv : list str) : IO (option Z) :=
  match parse WORK_PILOT_SPEC argv with
  | None => mret None
  | Some ns =>
      if negb (flag ns "--execute-work-receipt-pilot") then Effects.action;; mret (Some 2)
      else
        report ← work_pilot (text_default ns "--repository" (u ".")) (text_option ns "--output");
        match report with
        | None => Effects.action;; mret (Some 2)
        | Some report => _print_event report;; mret (Some 0)
        end
  end.
End work_pilot.
