(* ===== verification/WorkPilotFacts.v ===== *)
(** What a work receipt pilot that passed has shown, and what it left behind. *)

From S2P Require Import Prelude Errors Text Regex Sha256 Json Crypto Url Clock Effects State Memory Quiet Toy Sealed.
From S2P Require Import WorkVerifier WorkReceipt WorkFacts WorkRuns Run Controller Arguments WorkPilot.

(** ** The checkout and the command are elsewhere: no file of ours changes *)

Section untouched.
Context {Mem : Type} `{Env} `{Workshop} `{UrlLib} `{Ed25519}.
Set Default Proof Using "Type".

Lemma untouched_child {R} (oracle : nat → R) : Steps untouched (child (Mem := Mem) oracle).
Proof. unfold child. untouched. Qed.
#[local] Hint Resolve untouched_child : untouched.
Lemma untouched_git root args : Steps untouched (WorkReceipt._git (Mem := Mem) root args).
Proof. unfold WorkReceipt._git. untouched. Qed.
#[local] Hint Resolve untouched_git : untouched.
Lemma untouched_checkout selected sha : Steps untouched (_inspect_checkout (Mem := Mem) selected sha).
Proof. unfold _inspect_checkout. untouched. Qed.
#[local] Hint Resolve untouched_checkout : untouched.
Lemma untouched_still_there c : Steps untouched (still_there (Mem := Mem) c).
Proof. unfold still_there. untouched. Qed.
Lemma untouched_execute c command ms : Steps untouched (_execute (Mem := Mem) c command ms).
Proof. unfold _execute, time_monotonic, now_utc. untouched. Qed.
#[local] Hint Resolve untouched_still_there untouched_execute : untouched.
Lemma untouched_create selected command issuer key timeout :
  Steps untouched (create_work_receipt (Mem := Mem) selected command issuer key timeout).
Proof. unfold create_work_receipt. untouched. Qed.
Lemma untouched_countersign decoded selected verifier key timeout :
  Steps untouched (countersign_work_receipt (Mem := Mem) decoded selected verifier key timeout).
Proof. unfold countersign_work_receipt, now_utc. untouched. Qed.
End untouched.
#[export] Hint Resolve untouched_child untouched_create untouched_countersign : untouched.

(** What a returning step did, when it is one that changes nothing. *)
Lemma untouched_Ret {Mem A} (m : M Mem A) a w w' : Steps untouched m → m w = (Ret a, w') → untouched w w'.
Proof. intros Hm E. specialize (Hm w). by rewrite E in Hm. Qed.

(** The two files are the same but for a new one with the text of [e]. *)
Definition leaves_artifact `{Env} `{Workshop} `{UrlLib} `{Ed25519} (output : option str) (e : json) (w w' : world memory) : Prop :=
  w_mem w' = w_mem w ∧ w_trace w' = w_trace w ∧
  match output with
  | None => w_fs w' = w_fs w
  | Some p =>
      w_fs w !! Path (resolve p) = None ∧
      ∃ rendered raw, render_work_receipt e = Ok rendered ∧ utf8_encode (rendered ++ [10]) = Ok raw ∧
        w_fs w' = <[Path (resolve p) := private_file raw]> (w_fs w)
  end.

(** Whatever happened, at most that file is new, and what is in it is a beginning
    of the text of an envelope that verifies. *)
Definition at_most_artifact `{Env} `{Workshop} `{UrlLib} `{Ed25519} (output : option str) (w w' : world memory) : Prop :=
  w_mem w' = w_mem w ∧ w_trace w' = w_trace w ∧
  (w_fs w' = w_fs w ∨
   ∃ p e rendered data, output = Some p ∧ w_fs w !! Path (resolve p) = None ∧ render_work_receipt e = Ok rendered ∧
     (data = [] ∨ ∃ raw, utf8_encode (rendered ++ [10]) = Ok raw ∧ data `prefix_of` raw) ∧
     w_fs w' = <[Path (resolve p) := private_file data]> (w_fs w)).

(** At the moment [k], after [from], the clean checkout at [repository] was cloned
    into a temporary directory that had been made since, and the clone was given
    the origin of the checkout. *)
Record cloned `{Env} `{Workshop} `{PilotClone} (repository clone : str) (from k : nat) : Prop := {
  cl_clean : git_said_during from k (resolve repository) [u "status"; u "--porcelain"; u "--untracked-files=all"] [];
  cl_made : ∃ m out, (from ≤ m < k)%nat ∧ clone = temporary_directory m ++ u "/checkout" ∧
    git_clone k (resolve repository) clone = GitOutput out;
  cl_origin : ∃ origin answer, git_said_during from k (resolve repository) [u "remote"; u "get-url"; u "origin"] origin ∧
    git_said_during (S k) (S (S k)) clone [u "remote"; u "set-url"; u "origin"; origin] answer
}.

(** The test command was run in the clean clone twice, the second time after the
    first, at the same commit and with the same result. *)
Definition ran_twice `{Env} `{Workshop} `{UrlLib} (clone : str) (from : nat) (payload : list (str * json)) : Prop :=
  ∃ n n' worker c c' x x', (from < n < n')%nat ∧ payload = work_payload worker c PILOT_COMMAND 30000 x ∧
    clean_checkout (git_said_during (S from) n) clone c ∧ ran_at n c PILOT_COMMAND 30000 x ∧
    clean_checkout (git_said_during (S n) n') clone c' ∧ ran_at n' c' PILOT_COMMAND 30000 x' ∧
    commit c' = commit c ∧ same_execution payload x' = true.

(** The one countersignature is of an identity other than the issuer. *)
Definition countersigned_once `{Ed25519} (e : json) (payload : list (str * json)) : Prop :=
  ∃ counter verifier, verify_work_receipt e = Ok (summary_of payload [counter]) ∧
    counter_verifier counter = JStr verifier ∧ jget (u "issuer") payload ≠ JStr verifier.

Lemma work_payload_run issuer c argv ms x ms' argv' :
  jget (u "timeout_ms") (work_payload issuer c argv ms x) = JInt ms' →
  jget (u "command") (work_payload issuer c argv ms x) = JList (map JStr argv') → ms' = ms ∧ argv' = argv.
Proof. intros Em Ea. injection Em as <-. injection Ea as ->%map_JStr_inj. done. Qed.

Section pilot.
Context `{Env} `{Workshop} `{UrlLib} `{Ed25519Laws} `{PilotClone}.
Implicit Types w : world memory.
Set Default Proof Using "All".

Lemma untouched_completed r : Steps untouched (completed r).
Proof. unfold completed. untouched. Qed.
#[local] Hint Resolve untouched_completed : untouched.
Lemma untouched_pilot_git repository args : Steps untouched (WorkPilot._git repository args).
Proof. unfold WorkPilot._git. untouched. Qed.
#[local] Hint Resolve untouched_pilot_git : untouched.

Lemma write_private_new_Ret p content w w' : _write_private_new p content w = (Ret tt, w') →
  w_fs w !! Path (resolve p) = None ∧ w_mem w' = w_mem w ∧ w_trace w' = w_trace w ∧
  ∃ raw, utf8_encode (content ++ [10]) = Ok raw ∧ w_fs w' = <[Path (resolve p) := private_file raw]> (w_fs w).
Proof.
  unfold _write_private_new. cbv zeta. intros (?&w1&(F1&M1&T1)%untouched_Ret&E)%bind_Ret; [|unfold mkdir_parents; untouched].
  apply bind_Ret in E as ([]&w2&(Hn&F2&M2&T2)%create_exclusively_Ret&E).
  apply bind_Ret in E as (raw&w3&[Hraw ->]%lift_Ret&(F3&M3&T3)%write_stream_Ret).
  rewrite F1 in Hn, F2. do 3 (split; [congruence|]). exists raw. split; [done|].
  rewrite F3, F2, alter_insert_eq. done.
Qed.

Lemma completed_Ret r t w w' : completed r w = (Ret t, w') → r = GitOutput t ∧ w' = w.
Proof. destruct r; cbn; try by intros []%raise_Ret. by intros [-> ->]%ret_Ret. Qed.

Lemma pilot_git_Ret root args t w w' : WorkPilot._git root args w = (Ret t, w') →
  w_tick w' = S (w_tick w) ∧ untouched w w' ∧
  ∀ a b, (a ≤ w_tick w)%nat → (w_tick w < b)%nat → git_said_during a b root args t.
Proof.
  unfold WorkPilot._git. intros (r&w1&[-> ->]%child_Ret&Hg)%bind_Ret.
  apply bind_Ret in Hg as (out&w2&[Hc ->]%completed_Ret&[-> ->]%ret_Ret). split; [done|]. split; [done|]. intros a b Ha Hb. by exists (w_tick w), out.
Qed.

Lemma pilot_in_Ret source origin checkout output summary w w' :
  pilot_in source origin checkout output w = (Ret summary, w') →
  ∃ e out t, verify_work_receipt e = Ok summary ∧ git_clone (w_tick w) source checkout = GitOutput out ∧
    git_said_during (S (w_tick w)) (S (S (w_tick w))) checkout [u "remote"; u "set-url"; u "origin"; origin] t ∧
    ran_twice checkout (w_tick w) (ws_payload summary) ∧ countersigned_once e (ws_payload summary) ∧
    leaves_artifact output e w w'.
Proof.
  unfold pilot_in. intros (r&w1&[-> ->]%child_Ret&E)%bind_Ret.
  apply bind_Ret in E as (out&w2&[Hclone ->]%completed_Ret&E).
  apply bind_Ret in E as (t&w3&(T3&U3&Ht)%pilot_git_Ret&E). cbn [w_tick ticked] in *.
  apply bind_Ret in E as (n&w4&[= _ <-]&E). apply bind_Ret in E as (n'&w5&[= _ <-]&E). cbv zeta in E.
  apply bind_Ret in E as (worker&w6&[Hworker ->]%lift_Ret&E). apply bind_Ret in E as (verifier&w7&[Hverifier ->]%lift_Ret&E).
  apply bind_Ret in E as (receipt&w8&Hc&E). pose proof (untouched_Ret _ _ _ _ (untouched_create _ _ _ _ _) Hc) as U8.
  apply create_receipt_Ret in Hc as (c&after&ms&x&envelope&m&Hm&Hclean&Hran&Hafter&_&_&[= <-]&Hv). cbn [w_tick] in Hm, Hclean.
  apply bind_Ret in E as (e&w9&Hc&E). pose proof (untouched_Ret _ _ _ _ (untouched_countersign _ _ _ _ _) Hc) as U9.
  apply countersign_receipt_Ret in Hc
    as (P&cs&counter&c'&ms'&argv'&x'&m'&after'&Hne&Hd&He&Hcv&Hclean'&Hcommit&_&Hms&Hargv&Hran'&Hsame&Hm'&_).
  apply bind_Ret in E as (s&w10&[Hs ->]%lift_Ret&E). rewrite He in Hs. injection Hs as <-.
  apply bind_Ret in E as (rendered&w11&[Hr ->]%lift_Ret&E). apply bind_Ret in E as ([]&w12&Hw&[= <- <-]).
  unfold verify_work_receipt in Hd. rewrite Hv in Hd. injection Hd as <- Hlen _.
  destruct cs; [|by clear - Hlen; cbn in Hlen; lia]. destruct (work_payload_run _ _ _ _ _ _ _ Hms Hargv) as [-> ->].
  exists e, out, t. split; [exact He|]. split; [exact Hclone|]. split; [apply Ht; lia|]. split; [|split].
  - exists m, m', worker, c, c', x, x'. split; [lia|]. split; [done|].
    split; [by eapply during_wider; [..|exact Hclean]; lia|]. split; [done|].
    split; [by eapply during_wider; [..|exact Hclean']; lia|]. split; [done|]. split; [by injection Hcommit as ->|done].
  - by exists counter, verifier.
  - assert (untouched w w9) as (F&M&T) by (etrans; [exact U3|]; etrans; [exact U8|exact U9]). unfold leaves_artifact.
    destruct output as [p|]; [|by injection Hw as <-].
    apply write_private_new_Ret in Hw as (Hn&M'&T'&raw&Hraw&F'). rewrite M', T', F', M, T, F in *.
    do 3 (split; [done|]). by exists rendered, raw.
Qed.

Lemma work_pilot_Ret repository output report w w' :
  work_pilot repository output w = (Ret report, w') →
  (report = None ∧ untouched w w') ∨
  ∃ clone k e summary, report = Some (work_pilot_report summary (bool_decide (is_Some output))) ∧
    verify_work_receipt e = Ok summary ∧ cloned repository clone (w_tick w) k ∧ ran_twice clone k (ws_payload summary) ∧
    countersigned_once e (ws_payload summary) ∧ leaves_artifact output e w w'.
Proof.
  unfold work_pilot. cbv zeta. intros (status&w1&(T1&U1&Hst)%pilot_git_Ret&E)%bind_Ret.
  destruct (status != []) eqn:Es; [left; injection E as <- <-; done|right].
  apply negb_false_iff, bool_decide_eq_true in Es as ->.
  apply bind_Ret in E as (origin&w2&(T2&U2&Ho)%pilot_git_Ret&E).
  apply bind_Ret in E as (n&w3&Hn&E). assert (n = w_tick w2 ∧ w3 = ticked w2) as [-> ->].
  { unfold action, mbind, M_bind in Hn. cbn in Hn. destruct (env_fault (w_tick w2)); try done. by injection Hn as <- <-. }
  apply bind_Ret in E as (summary&w4&Hf&[= <- <-]).
  apply bind_Ret in Hf as (got&w5&Hp%on_raise_Ret&Hf).
  apply bind_Ret in Hf as (done_&w6&(F&M&T)%untouched_Ret&[= <- <-]); [|untouched].
  apply pilot_in_Ret in Hp as (e&out&t&He&Hclone&Hset&Hran&Hcs&Hl). cbn [w_tick ticked] in *.
  exists (temporary_directory (w_tick w2) ++ u "/checkout"), (S (w_tick w2)), e, got.
  split; [done|]. split; [done|]. split; [|split; [done|]; split; [done|]].
  - split; [apply Hst; lia|exists (w_tick w2), out; split; [lia|done]|exists origin, t; split; [apply Ho; lia|done]].
  - assert (untouched w w2) as (F'&M'&T') by (etrans; [exact U1|exact U2]).
    unfold leaves_artifact in *. cbn [w_fs w_mem w_trace ticked] in Hl. rewrite F, M, T. rewrite F', M', T' in Hl. exact Hl.
Qed.

(** *** Whatever happens *)

Section whatever_happens.
Context (output : option str).

Lemma untouched_artifact w w' : untouched w w' → at_most_artifact output w w'.
Proof. intros (F&M&T). split; [done|]. split; [done|by left]. Qed.

Lemma artifact_after w w1 w2 : at_most_artifact output w w1 → untouched w1 w2 → at_most_artifact output w w2.
Proof. intros Ha (F&M&T). unfold at_most_artifact. by rewrite F, M, T. Qed.
Lemma artifact_before w w1 w2 : untouched w w1 → at_most_artifact output w1 w2 → at_most_artifact output w w2.
Proof. intros (F&M&T) Ha. unfold at_most_artifact. by rewrite <- F, <- M, <- T. Qed.

Lemma artifact_then {A B} (m : IO A) (f : A → IO B) w :
  Steps untouched m → (∀ a w1, m w = (Ret a, w1) → at_most_artifact output w1 (f a w1).2) →
  at_most_artifact output w ((m ≫= f) w).2.
Proof.
  intros Hm Hf. specialize (Hm w). unfold mbind, M_bind. destruct (m w) as [[a|e|] w1]; [|by apply untouched_artifact..].
  eapply artifact_before; [exact Hm|by apply Hf].
Qed.
Lemma then_untouched {A B} (m : IO A) (f : A → IO B) w :
  at_most_artifact output w (m w).2 → (∀ a, Steps untouched (f a)) → at_most_artifact output w ((m ≫= f) w).2.
Proof.
  intros Hm Hf. unfold mbind, M_bind. destruct (m w) as [[a|e|] w1]; [|exact Hm..]. by eapply artifact_after, Hf.
Qed.
Lemma artifact_finally {A} (m : IO A) h w :
  at_most_artifact output w (m w).2 → Steps untouched h → at_most_artifact output w (try_finally m h w).2.
Proof.
  intros Hm Hh. unfold try_finally. apply then_untouched; [|intros a; untouched]. unfold on_raise.
  destruct (m w) as [[a|e|] w1]; [exact Hm| |exact Hm]. eapply artifact_after; [exact Hm|].
  assert (Steps untouched (h;; raise (A := A) e)) as Hs by untouched. apply Hs.
Qed.

Lemma artifact_write p content e w :
  output = Some p → render_work_receipt e = Ok content → at_most_artifact output w (_write_private_new p content w).2.
Proof.
  intros Hp He. unfold _write_private_new. cbv zeta. apply artifact_then; [unfold mkdir_parents; untouched|]. intros _ w1 _.
  assert (∀ w2, w_fs w1 !! Path (resolve p) = None →
    (∃ data, (data = [] ∨ ∃ raw, utf8_encode (content ++ [10]) = Ok raw ∧ data `prefix_of` raw) ∧
       w_fs w2 = <[Path (resolve p) := private_file data]> (w_fs w1)) → w_mem w2 = w_mem w1 → w_trace w2 = w_trace w1 →
    at_most_artifact output w1 w2) as Hnew.
  { intros w2 Hn (data&Hd&F) M T. do 2 (split; [done|]). right. by exists p, e, content, data. }
  unfold mbind at 1, M_bind at 1. destruct (create_exclusively (Path (resolve p)) w1) as [[[]|x|] w2] eqn:E.
  2,3: apply untouched_artifact; unfold create_exclusively, mbind, M_bind, action, mbind, M_bind in E; cbn in E;
    destruct (env_fault (w_tick w1)); cbn in E; try destruct (w_fs w1 !! _); cbn in E; try discriminate E;
    injection E; intros; by subst w2.
  apply create_exclusively_Ret in E as (Hn&F&M&T).
  unfold mbind, M_bind, lift. destruct (utf8_encode (content ++ [10])) as [raw|x] eqn:Er; cbn.
  2: { apply Hnew; [done| |done|done]. exists []. split; [by left|done]. }
  unfold write_stream, mbind, M_bind. cbn.
  assert (∀ data, data `prefix_of` raw → at_most_artifact output w1
    (World (alter (λ f, File (f_kind f) (f_mode f) (f_uid f) data) (Path (resolve p)) (w_fs w2)) (w_mem w2) (S (w_tick w2)) (w_trace w2)))
    as Hw.
  { intros data Hd. apply Hnew; [done| |done|done]. exists data. split; [right; by exists raw|].
    cbn. by rewrite F, alter_insert_eq. }
  destruct (env_fault (w_tick w2)); cbn; apply Hw; [done|apply prefix_take..].
Qed.

Lemma artifact_pilot_in source origin checkout w : at_most_artifact output w (pilot_in source origin checkout output w).2.
Proof.
  unfold pilot_in.
  do 5 (apply artifact_then; [untouched|intros ? ? _]). cbv zeta. do 4 (apply artifact_then; [untouched|intros ? ? _]).
  apply artifact_then; [untouched|intros ? ? _]. apply artifact_then; [untouched|].
  intros rendered v [He ->]%lift_Ret. apply then_untouched; [|untouched].
  destruct output as [p|] eqn:Ep; rewrite <- Ep; [by eapply artifact_write|by apply untouched_artifact].
Qed.

Lemma artifact_work_pilot repository w : at_most_artifact output w (work_pilot repository output w).2.
Proof.
  unfold work_pilot. cbv zeta. apply artifact_then; [untouched|]. intros status w1 _.
  destruct (status != []); [by apply untouched_artifact|].
  do 2 (apply artifact_then; [untouched|intros ? ? _]). apply then_untouched; [|untouched].
  apply artifact_finally; [apply artifact_pilot_in|untouched].
Qed.
End whatever_happens.

(** C27: a work receipt pilot that passes has done what it reports.  When the
    script returns 0, its flag was given and there is an envelope that verifies
    with exactly one countersignature, of an identity other than the issuer; the
    checkout was clean and was cloned into a new temporary directory; the test
    command was run in that clone, clean both times, first for the one signature
    and then again for the other, at the same commit and with the same result; the
    one new file, which did not exist, is the rendered envelope at [--output], if
    that was asked for, and nothing else changed.  When it returns anything else
    nothing changed at all.  And whatever fails, and wherever the process dies,
    nothing is sent and at most that one new file is left, with a beginning of the
    text of an envelope that verifies. *)
Theorem passed_work_pilot_is_countersigned (argv : list str) (w : world memory) :
  let '(o, w') := main argv w in
  (∀ code, o = Ret code → code ≠ Some 0 → untouched w w') ∧
  (o = Ret (Some 0) → ∃ ns clone k e payload, parse WORK_PILOT_SPEC argv = Some ns ∧
     flag ns "--execute-work-receipt-pilot" = true ∧
     cloned (text_default ns "--repository" (u ".")) clone (w_tick w) k ∧ ran_twice clone k payload ∧
     countersigned_once e payload ∧ leaves_artifact (text_option ns "--output") e w w') ∧
  at_most_artifact (ns ← parse WORK_PILOT_SPEC argv; text_option ns "--output") w w'.
Proof.
  destruct (main argv w) as [o w'] eqn:E. unfold main in E.
  destruct (parse WORK_PILOT_SPEC argv) as [ns|]; [|injection E as <- <-].
  2: { split; [done|]. split; [done|by apply untouched_artifact]. }
  cbn [mbind option_bind]. destruct (flag ns _) eqn:Ef; cbn [negb] in E.
  2: { assert (untouched w w') as U.
       { assert (Steps untouched (Effects.action (Mem := memory);; mret (Some 2))) as Hs by untouched.
         specialize (Hs w). by rewrite E in Hs. }
       split; [done|]. split; [|by apply untouched_artifact].
       intros ->. by apply bind_Ret in E as (?&?&_&[= _ _]). }
  split; [|split].
  - intros code -> Hne. apply bind_Ret in E as (report&w1&[[-> U1]|(clone&k&e&summary&->&_)]%work_pilot_Ret&E).
    + apply bind_Ret in E as (?&w2&U2%untouched_Ret&[= <- <-]); [by etrans|untouched].
    + by apply bind_Ret in E as (?&w2&_&[= <- <-]).
  - intros ->. apply bind_Ret in E as (report&w1&[[-> U1]|(clone&k&e&summary&->&_&Hc&Hr&Hs&Hl)]%work_pilot_Ret&E).
    + by apply bind_Ret in E as (?&w2&_&[= <-]).
    + apply bind_Ret in E as ([]&w2&(F&M&T)%untouched_Ret&[= <-]); [|unfold _print_event; untouched].
      exists ns, clone, k, e, (ws_payload summary). do 5 (split; [done|]). unfold leaves_artifact in *. by rewrite F, M, T.
  - assert (w' = ((report ← work_pilot (text_default ns "--repository" (u ".")) (text_option ns "--output");
      match report with
      | None => Effects.action;; mret (Some 2)
      | Some report => _print_event report;; mret (Some 0)
      end : IO (option Z)) w).2) as -> by by rewrite E.
    apply then_untouched; [apply artifact_work_pilot|unfold _print_event; untouched].
Qed.
End pilot.

(** ** Pilots that run *)

Section pilots.
#[local] Instance pilot_env : Env := calm_env.
#[local] Instance toy_clone : PilotClone := {|
  git_clone _ _ _ := GitOutput [];
  temporary_directory _ := u "/tmp/work-receipt-pilot-x";
  generated_key n := toy_seed n
|}.
#[local] Instance pilot_workshop : Workshop := toy_workshop (Some 0).
Definition pilot_argv : list str := [u "--execute-work-receipt-pilot"; u "--output=/receipt.json"].
Definition pilot_options : list (str * value) :=
  [(u "--execute-work-receipt-pilot", VFlag); (u "--output", VText (u "/receipt.json"))].
Definition pilot_machine : world memory := toy_world empty_memory [(Path (u "/notes"), private_file [])].

Example work_pilot_passes : (main pilot_argv pilot_machine).1 = Ret (Some 0).
Proof. by vm_compute. Qed.

(** The exit code, and the status that is printed, do not depend on the result
    of the command: a test that failed twice in the same way passes. *)
Example work_pilot_passes_a_failed_test :
  let W := toy_workshop (Some 1) in (main (H0 := W) pilot_argv pilot_machine).1 = Ret (Some 0).
Proof. by vm_compute. Qed.

Lemma pilot_parsed ns : parse WORK_PILOT_SPEC pilot_argv = Some ns →
  text_option ns "--output" = Some (u "/receipt.json") ∧ text_default ns "--repository" (u ".") = u ".".
Proof. assert (parse WORK_PILOT_SPEC pilot_argv = Some pilot_options) as -> by by vm_compute. by intros [= <-]. Qed.

Lemma passed_work_pilot_is_countersigned_witness :
  ∃ clone k e payload, cloned (u ".") clone 0 k ∧ ran_twice clone k payload ∧ countersigned_once e payload ∧
    leaves_artifact (Some (u "/receipt.json")) e pilot_machine (main pilot_argv pilot_machine).2.
Proof.
  pose proof (passed_work_pilot_is_countersigned pilot_argv pilot_machine) as Ht. pose proof work_pilot_passes as Ho.
  destruct (main pilot_argv pilot_machine) as [o w']. cbn [fst snd] in *.
  destruct Ht as (_&Hp&_). destruct (Hp Ho) as (ns&clone&k&e&payload&Hns&_&Hc&Hr&Hs&Hl).
  destruct (pilot_parsed _ Hns) as [Hout Hrep]. rewrite Hrep in Hc. rewrite Hout in Hl.
  exists clone, k, e, payload. split; [exact Hc|]. split; [exact Hr|]. split; [exact Hs|exact Hl].
Defined.

(** The disk is full while the artifact is written: the file is there, and empty. *)
Example work_pilot_leaves_a_beginning :
  let E := toy_env (λ n, if (n =? 36)%nat then OsFault else NoFault) (λ _, HttpFailed) in
  let '(o, w') := main (H := E) pilot_argv pilot_machine in
  (o, f_data <$> w_fs w' !! Path (u "/receipt.json")) = (Raise OSError, Some []).
Proof. by vm_compute. Qed.
End pilots.
