(* ===== verification/Main.v ===== *)
(** [cli.main]: a command line, its handler, the exit code. *)

From S2P Require Import Prelude Errors Text Json Crypto Url Clock Effects State Memory Protocol Prompt.
From S2P Require Import Config Identity Run Provision Controller BeadsTasks Health LaunchAgent WorkReceipt WorkEvidence.
From S2P Require Import WorkOutput Commands Arguments.

(** The dialogue at the pseudo-terminal has a memory of its own. *)
Definition in_session {A} (m : M session A) (s : session) : IO A := λ w,
  let '(o, w') := m (World (w_fs w) s (w_tick w) (w_trace w)) in
  (o, World (w_fs w') (w_mem w) (w_tick w') (w_trace w')).

Section main.
Context `{Env} `{UrlLib} `{Ed25519} `{FloatRepr} `{Keychain} `{Directories} `{Workshop} `{Terminal} `{KeychainDelete}
  `{SeedFactory} `{Microseconds} `{Resolver} `{Child} `{BeadsDirectory} `{PathText}.

(** [handler(args)]; [fuel] is how long the process may run.  A handler that
    prints its result returns 0. *)
Definition run_command (fuel : nat) (c : command) : IO Z :=
  match c with
  | Doctor identity => _doctor identity
  | Health args => _health args
  | ControllerCreate identity service account =>
      in_session (controller_create fuel (Path identity) service account) (MkSession [] 0 None [] []);; mret 0
  | ControllerGrant identity capability_policy => controller_grant (Path identity) (Path capability_policy);; mret 0
  | ControllerSend identity config state lock timeout text =>
      controller_send identity config state lock timeout text;; mret 0
  | LaunchdRender args => _launchd args;; mret 0
  | ProvisionMailbox args name server => _provision args name server;; mret 0
  | RecoverMailbox args server retry => _recover args server retry;; mret 0
  | RecoverDelivery args => _recover_delivery args;; mret 0
  | IssueReceipt identity pull_request timeout => _receipt identity pull_request timeout;; mret 0
  | VerifyReceipt p => _verify_receipt (Path p);; mret 0
  | WorkCreate identity repository output_directory timeout argv =>
      work_receipt_create identity repository argv timeout output_directory;; mret 0
  | WorkVerify p => work_receipt_verify (Path p);; mret 0
  | WorkCountersign identity repository p => work_receipt_countersign identity repository (Path p);; mret 0
  | WorkEvidence expectation receipt stdout stderr _ =>
      _work_evidence (Path expectation) (Path <$> receipt) (Path <$> stdout) (Path <$> stderr)
  | AuditVerify p expected_head => _audit (Path p) expected_head
  | TasksReady beads_dir limit as_json => _tasks fuel beads_dir limit as_json;; mret 0
  | RunAgent args => _run args fuel;; mret 0
  end.

(** [None] when [argparse] ended the process. *)
Definition main (fuel : nat) (argv : list str) : IO (option Z) :=
  match command_line argv with
  | None => mret None
  | Some c => code ← Commands.main (run_command fuel c); mret (Some code)
  end.
End main.
