(* ===== verification/MainFacts.v ===== *)
(** What a command line does as a whole: the commands that inspect only read,
    and the exit codes. *)

From S2P Require Import Prelude Errors Text Json Crypto Url Clock Effects State Memory Quiet Protocol Prompt.
From S2P Require Import Config Identity AuditLog Receipt Run Provision Controller BeadsTasks Health HealthFacts LaunchAgent WorkVerifier.
From S2P Require Import ReceiptFacts WorkReceipt WorkFacts WorkRuns WorkEvidence EvidenceFacts TaskFacts WorkOutput Commands.
From S2P Require Import Toy Arguments Main.

(** The commands that only look. *)
Definition inspects (c : command) : bool :=
  match c with
  | Doctor _ | Health _ | LaunchdRender _ | VerifyReceipt _ | WorkVerify _ | WorkEvidence _ _ _ _ _ | AuditVerify _ _
  | TasksReady _ _ _ => true
  | _ => false
  end.

Section evidence.
Context {Mem : Type} `{Env} `{Ed25519}.
Set Default Proof Using "Type".

#[local] Hint Resolve untouched_inspect : untouched.
Lemma untouched_work_evidence p r o e : Steps untouched (_work_evidence (Mem := Mem) p r o e).
Proof. unfold _work_evidence. untouched. Qed.
End evidence.
#[export] Hint Resolve untouched_work_evidence : untouched.

Section commands.
Context `{Env} `{UrlLib} `{Ed25519} `{FloatRepr} `{Keychain} `{Directories} `{Resolver}.
Set Default Proof Using "Type".

Lemma untouched_print_event e : Steps untouched (_print_event e).
Proof. unfold _print_event. untouched. Qed.
Lemma untouched_load_seed s a : Steps untouched (load_seed (Mem := memory) s a).
Proof. unfold load_seed. untouched. Qed.
#[local] Hint Resolve untouched_print_event untouched_load_seed untouched_load_identity_record untouched_health
  untouched_verify : untouched.
Lemma untouched_load_identity p : Steps untouched (_load_identity (Mem := memory) p).
Proof. unfold _load_identity, load_verified_private_key. untouched. Qed.
#[local] Hint Resolve untouched_load_identity : untouched.
Lemma untouched_doctor i : Steps untouched (_doctor i).
Proof. unfold _doctor. untouched. Qed.
Lemma untouched_health_command args : Steps untouched (_health args).
Proof. unfold _health. untouched. Qed.
Lemma untouched_verify_receipt p : Steps untouched (_verify_receipt p).
Proof. unfold _verify_receipt, read_text, os_errors. untouched. Qed.
Lemma untouched_work_verify p : Steps untouched (work_receipt_verify p).
Proof. unfold work_receipt_verify, _read_text_artifact, read_text, os_errors. untouched. Qed.
Lemma untouched_audit p h : Steps untouched (_audit p h).
Proof. unfold _audit. untouched. Qed.

Lemma untouched_resolved p : Steps untouched (resolved p).
Proof. unfold resolved. untouched. Qed.
#[local] Hint Resolve untouched_resolved : untouched.
Lemma untouched_resolve_all l : Steps untouched (resolve_all l).
Proof. induction l as [|p l IH]; cbn [resolve_all]; untouched. Qed.
#[local] Hint Resolve untouched_resolve_all : untouched.
Lemma untouched_validate_spec spec : Steps untouched (_validate_spec spec).
Proof.
  unfold _validate_spec, _validate_executable, _validate_log_destinations, _validate_log_path, _validate_log_directory,
    _validate_existing_log, os_errors. untouched.
Qed.
#[local] Hint Resolve untouched_validate_spec : untouched.
Lemma untouched_launchd args : Steps untouched (_launchd args).
Proof. unfold _launchd, render_launch_agent. untouched. Qed.
End commands.

(** ** A receipt is asked for *)

(** No file changes, and every request is to the public interface of GitHub. *)
Definition github_request (ev : event) : Prop :=
  ∃ path, startswith (u "/repos/") path = true ∧ ev = EvHttp (u "https://" ++ GITHUB_API_HOST ++ path).
Definition asks_github {Mem} (w w' : world Mem) : Prop :=
  w_fs w' = w_fs w ∧ ∃ l, w_trace w' = w_trace w ++ l ∧ Forall github_request l.

#[export] Instance asks_github_preorder {Mem} : PreOrder (asks_github (Mem := Mem)).
Proof.
  split; [intros w; split; [done|]; exists []; by rewrite app_nil_r|].
  intros w1 w2 w3 (F1&l1&E1&H1) (F2&l2&E2&H2). split; [congruence|]. exists (l1 ++ l2).
  rewrite E2, E1, app_assoc. split; [done|by apply Forall_app].
Qed.

Section github.
Context `{Env} `{UrlLib} `{Ed25519} `{FloatRepr} `{Keychain}.
Set Default Proof Using "Type".
#[local] Abbreviation AsksGithub m := (Steps asks_github m).

Lemma asks_untouched {A} (m : IO A) : Steps untouched m → AsksGithub m.
Proof. intros Hm w. destruct (Hm w) as (F&_&T). split; [done|]. exists []. by rewrite T, app_nil_r. Qed.

Lemma asks_connection path : startswith (u "/repos/") path = true → AsksGithub (connection_get (Mem := memory) GITHUB_API_HOST path).
Proof.
  intros Hp w. assert (asks_github w w) as Hr by reflexivity.
  assert (∀ w', w_fs w' = w_fs w → w_trace w' = w_trace w ++ [EvHttp (u "https://" ++ GITHUB_API_HOST ++ path)] →
    asks_github w w') as He.
  { intros w' F T. split; [done|]. eexists. split; [exact T|]. constructor; [by exists path|constructor]. }
  unfold connection_get, network, mbind, M_bind. cbn [next_tick].
  destruct (env_fault (w_tick w)); cbn; try apply Hr; destruct (env_fault (S (w_tick w))); cbn; by apply He.
Qed.

Ltac asks :=
  repeat first
    [ assumption
    | lazymatch goal with
      | |- Steps _ (_ ≫= _) => apply keeps_bind; [apply _| |intros ?]
      | |- Steps _ (try_except _ _ _) => apply keeps_try; [apply _| |intros ?]
      end
    | solve [auto 1] | progress intros | apply asks_untouched; solve [untouched] | case_match ].

Lemma asks_request_object p : AsksGithub (_request_object p).
Proof.
  intros w. unfold _request_object. apply steps_bind_at; [apply _|asks|].
  intros [] w1 [Hp _]%check_Ret. apply orb_false_elim in Hp as [Hp%negb_false_iff _]. revert w1.
  pose proof (asks_connection p Hp). unfold transport_request.
  match goal with |- ∀ w1, asks_github w1 (?m w1).2 => change (AsksGithub m) end. asks.
Qed.

Lemma asks_put_last_attempt t : AsksGithub (put_last_attempt t).
Proof. intros w. split; [done|]. exists []. by rewrite app_nil_r. Qed.

Lemma asks_issue service target : AsksGithub (issue service target).
Proof.
  pose proof asks_request_object. pose proof asks_put_last_attempt.
  unfold issue, inspect, get_last_attempt, time_monotonic, now_utc. asks.
Qed.

Lemma asks_receipt identity pull_request timeout : AsksGithub (_receipt identity pull_request timeout).
Proof.
  pose proof asks_issue. pose proof untouched_load_identity. unfold _receipt. asks.
Qed.
End github.

Section main.
Context `{Env} `{UrlLib} `{Ed25519} `{FloatRepr} `{Keychain} `{Directories} `{Workshop} `{Terminal} `{KeychainDelete}
  `{SeedFactory} `{Microseconds} `{Resolver} `{Child} `{BeadsDirectory} `{PathText}.
Set Default Proof Using "Type".

#[local] Hint Resolve untouched_doctor untouched_health_command untouched_verify_receipt untouched_work_verify untouched_audit
  untouched_launchd untouched_list_ready_tasks : untouched.

Lemma untouched_inspects fuel c : inspects c = true → Steps untouched (run_command fuel c).
Proof. destruct c; intros Hc; try discriminate Hc; cbn [run_command]; unfold _tasks; untouched. Qed.

(** [main] itself only prints. *)
Lemma main_steps (R : world memory → world memory → Prop) `{!PreOrder R} fuel argv c w :
  command_line argv = Some c → Steps R (run_command fuel c) → (∀ m : IO Z, Steps untouched m → Steps R m) →
  R w (main fuel argv w).2.
Proof.
  intros Ec Hc HR. unfold main. rewrite Ec. unfold Commands.main.
  assert (∀ b, Steps R (Effects.action;; mret (if b : bool then 3 else 2) : IO Z)) as Hp by (intros b; apply HR; untouched).
  assert (Steps R (try_except (run_command fuel c) (λ e, is_UncertainWriteError e || reported e)
    (λ e, Effects.action;; mret (if is_UncertainWriteError e then 3 else 2)))) as Ht by (by apply keeps_try).
  specialize (Ht w). unfold mbind, M_bind. by destruct (try_except _ _ _ w) as [[]].
Qed.

(** C39: inspecting changes nothing.  A command line of [doctor], [health],
    [launchd render], [verify-receipt], [work-receipt verify], [work-evidence],
    [audit verify] or [tasks ready] leaves every file, the memory and the room as they
    were, whatever fails and wherever the process dies; one of [receipt] leaves every
    file as it was and makes no request but to the public interface of GitHub. *)
Theorem inspection_commands_change_nothing (fuel : nat) (argv : list str) (c : command) (w : world memory) :
  command_line argv = Some c →
  (inspects c = true → untouched w (main fuel argv w).2) ∧
  (∀ identity pull_request timeout, c = IssueReceipt identity pull_request timeout → asks_github w (main fuel argv w).2).
Proof.
  intros Ec. split.
  - intros Hi. apply (main_steps untouched fuel argv c); [done|by apply untouched_inspects|done].
  - intros i p t ->. apply (main_steps asks_github fuel argv _ w Ec); [|apply asks_untouched].
    cbn [run_command]. apply keeps_bind; [apply _|apply asks_receipt|intros _]. apply asks_untouched. untouched.
Qed.
End main.

(** ** Command lines that run *)

Section runs.
#[local] Instance machine_env : Env := toy_env (λ _, NoFault) (λ _, HttpFailed).
#[local] Instance machine_keychain : Keychain := λ _ _ _, SecretPrinted (u "01" ++ replicate 62 48 ++ [10]).
#[local] Instance machine_directories : Directories := λ _ _, Some (DirectoryStatus true 448 501).
#[local] Instance machine_workshop : Workshop := toy_workshop (Some 0).
#[local] Instance machine_terminal : Terminal :=
  {| term_fork _ := false; term_ready _ := None; term_read _ := ReadFailed; term_echo_off _ := false;
     term_write _ := None; term_wait _ := None; term_kill _ := true |}.
#[local] Instance machine_delete : KeychainDelete := λ _ _ _, Deleted.
#[local] Instance machine_seeds : SeedFactory := λ _, u "01" ++ replicate 62 48.
#[local] Instance machine_micros : Microseconds := λ _, 0.
#[local] Instance machine_resolver : Resolver := λ _ p, Some p.
#[local] Instance machine_child : Child := toy_child [].
#[local] Instance machine_beads : BeadsDirectory := λ _ _, None.
#[local] Instance machine_paths : PathText :=
  {| absolute s := s; resolved_text s := s; default_identity := u "/home/id.json"; default_controller_identity := u "/home/c.json" |}.

Definition receipt_file : str :=
  match (receipt ← build_signed_receipt (evidence_of sample_details sample_check_summary sample_status_summary)
           sample_did (toy_seed 1) toy_now; render_signed_receipt receipt) with Ok t => t | Err _ => [] end.
Definition machine : world memory := toy_world empty_memory [(Path (u "/r.json"), private_file receipt_file)].

(** A receipt that verifies, a log that is not there, an option that does not exist. *)
Example main_verifies : (main 5 [u "verify-receipt"; u "/r.json"] machine).1 = Ret (Some 0).
Proof. by vm_compute. Qed.
Example main_missing : (main 5 [u "audit"; u "verify"; u "/log"] machine).1 = Ret (Some 2).
Proof. by vm_compute. Qed.
Example main_usage : (main 5 [u "doctor"; u "--verbose"] machine).1 = Ret None.
Proof. by vm_compute. Qed.

Lemma inspection_commands_change_nothing_witness :
  ∃ c, command_line [u "verify-receipt"; u "/r.json"] = Some c ∧
    untouched machine (main 5 [u "verify-receipt"; u "/r.json"] machine).2.
Proof.
  eexists. split; [reflexivity|].
  exact (proj1 (inspection_commands_change_nothing 5 [u "verify-receipt"; u "/r.json"] _ machine eq_refl) eq_refl).
Defined.
End runs.
