(* ===== verification/McpServer.v ===== *)
(** [mcp_server.py]: the offline verification tools, and the server.

    The schemas, the annotations and the transport belong to the SDK.  Modelled
    are what each tool computes, which tools there are, the guard on extra
    arguments, the options, and the session: [McpClient] says which calls arrive.
    Of the SDK this relies on what it documents: an exception of a tool is an
    error result of the call. *)

From S2P Require Import Prelude Errors Text Json Crypto Url Clock Effects State Memory.
From S2P Require Import Receipt AuditLog WorkVerifier WorkEvidence Commands Arguments.

Definition MAX_RECEIPT_INPUT_BYTES : Z := 4096.

Record ReceiptVerification := MkReceiptVerification {
  rv_valid : bool;
  rv_error_code : option str;
  receipt_schema : json;
  rv_issuer : json;
  rv_repository : json;
  rv_pull_number : json;
  rv_payload_sha256 : json
}.

Record AuditVerification := MkAuditVerification {
  av_valid : bool;
  av_error_code : option str;
  av_entries : option Z;
  av_issuer : option str;
  av_head_sha256 : option str;
  expected_head_matched : bool
}.

Definition _invalid_receipt (error_code : str) : ReceiptVerification :=
  MkReceiptVerification false (Some error_code) JNull JNull JNull JNull JNull.

Section tools.
Context `{UrlLib} `{Ed25519}.

(** An exception other than [GitHubReceiptError] goes through. *)
Definition verify_receipt_content (receipt_json : str) : res ReceiptVerification :=
  match utf8_encode receipt_json with
  | Err _ => Ok (_invalid_receipt (u "invalid_receipt"))
  | Ok encoded =>
      if MAX_RECEIPT_INPUT_BYTES <? length encoded then Ok (_invalid_receipt (u "receipt_too_large"))
      else
        match verify_signed_receipt_text receipt_json with
        | Err (GitHubReceiptError _ code _ _) => Ok (_invalid_receipt code)
        | Err e => Err e
        | Ok payload =>
            wrapper ← loads receipt_json;
            Ok (MkReceiptVerification true None (jget (u "schema") payload) (jget (u "issuer") payload)
                  (jget (u "repository") payload) (jget (u "pull_number") payload)
                  (jget (u "payload_sha256") (members_of wrapper)))
        end
  end.

Definition verify_audit_path {Mem} `{Env} (audit_path : path) (expected_head : option str)
  : M Mem AuditVerification :=
  summary ← try_except (s ← verify audit_path expected_head; mret (Some s)) is_AuditError (λ _, mret None);
  mret (match summary with
        | None => MkAuditVerification false (Some (u "audit_verification_failed")) None None None false
        | Some s => MkAuditVerification true None (Some (entries s)) (issuer s) (Some (head_sha256 s))
                      (bool_decide (is_Some expected_head))
        end).
End tools.

(** ** The server *)

(** The operator's options, fixed when the server is built. *)
Record McpOptions := MkMcpOptions {
  mcp_audit_path : option path;
  mcp_work_expectation : option path;
  mcp_work_receipt : option path;
  mcp_work_stdout : option path;
  mcp_work_stderr : option path
}.

Definition work_inputs_without_expectation (o : McpOptions) : bool :=
  bool_decide (mcp_work_expectation o = None) &&
  existsb (λ p, bool_decide (is_Some p)) [mcp_work_receipt o; mcp_work_stdout o; mcp_work_stderr o].

(** The names of the tools [build_mcp_server] registers. *)
Definition registered_tools (o : McpOptions) : res (list str) :=
  raise_if (work_inputs_without_expectation o) (ValueError "work evidence inputs require an expectation");;
  Ok ([u "verify_contribution_receipt"]
      ++ (if bool_decide (is_Some (mcp_audit_path o)) then [u "inspect_audit_integrity"] else [])
      ++ (if bool_decide (is_Some (mcp_work_expectation o)) then [u "inspect_work_evidence"] else [])).

(** What a call of a tool answers. *)
Inductive tool_call : Type :=
  | VerifyReceipt (receipt_json : str)
  | InspectAudit (expected_head : option str)
  | InspectEvidence (arguments : list (str * json)).

Inductive tool_answer : Type :=
  | ReceiptAnswer (r : ReceiptVerification)
  | AuditAnswer (a : AuditVerification)
  | EvidenceAnswer (j : json)
  | ToolError (msg : string)
  | NotRegistered.

Section server.
Context {Mem : Type} `{Env} `{UrlLib} `{Ed25519}.

Definition inspect_work_evidence_tool (expectation : path) (o : McpOptions) : M Mem json :=
  report ← try_except
    (r ← inspect_work_evidence expectation (mcp_work_receipt o) (mcp_work_stdout o) (mcp_work_stderr o); mret (Some r))
    is_EvidenceInputError (λ _, mret None);
  mret (match report with
        | Some r => JDict (report_json r)
        | None => JDict [(u "status", JStr (u "input_error")); (u "reason", JStr (u "work_evidence_input_error"))]
        end).

Definition call_tool (o : McpOptions) (call : tool_call) : M Mem tool_answer :=
  match call with
  | VerifyReceipt receipt_json => r ← lift (verify_receipt_content receipt_json); mret (ReceiptAnswer r)
  | InspectAudit expected_head =>
      match mcp_audit_path o with
      | Some p => a ← verify_audit_path p expected_head; mret (AuditAnswer a)
      | None => mret NotRegistered
      end
  | InspectEvidence arguments =>
      match mcp_work_expectation o with
      | Some expectation =>
          if negb (bool_decide (arguments = [])) then mret (ToolError "inspect_work_evidence accepts no arguments")
          else j ← inspect_work_evidence_tool expectation o; mret (EvidenceAnswer j)
      | None => mret NotRegistered
      end
  end.
End server.

(** ** The process *)

Definition MCP_SPEC : command_spec :=
  MkCommandSpec
    [opt "--audit-log" TextKind; opt "--work-expectation" TextKind; opt "--work-receipt" TextKind;
     opt "--work-stdout" TextKind; opt "--work-stderr" TextKind] [] None.

Definition mcp_options `{PathText} (ns : list (str * value)) : McpOptions :=
  let option name := Path <$> absolute_option ns name in
  MkMcpOptions (option "--audit-log") (option "--work-expectation") (option "--work-receipt") (option "--work-stdout")
    (option "--work-stderr").

(** What the process waits for next: a call, or the end of it. *)
Inductive mcp_input : Type :=
  | Called (call : tool_call)
  | InputEnded
  | Interrupted.                               (* KeyboardInterrupt *)

(** The client's calls, and whether the SDK can be imported. *)
Class McpClient := {
  mcp_sdk_installed : bool;
  mcp_next_input : nat → mcp_input
}.

Section process.
Context {Mem : Type} `{Env} `{UrlLib} `{Ed25519} `{McpClient}.

(** [server.run]: the answers, an exception of a tool as an error result, and
    whether the process was interrupted; [fuel] is how long it may run. *)
Fixpoint serve (fuel : nat) (o : McpOptions) : M Mem (list (tool_answer + exn) * bool) :=
  match fuel with
  | O => crash
  | S fuel =>
      n ← next_tick;
      match mcp_next_input n with
      | InputEnded => mret ([], false)
      | Interrupted => mret ([], true)
      | Called call =>
          answer ← try_except (a ← call_tool o call; mret (inl a)) (λ _, true) (λ e, mret (inr e));
          session ← serve fuel o;
          mret (answer :: session.1, session.2)
      end
  end.

(** [None] when [argparse] ended the process. *)
Definition main `{PathText} (fuel : nat) (argv : list str) : M Mem (option Z) :=
  match parse MCP_SPEC argv with
  | None => mret None
  | Some ns =>
      let o := mcp_options ns in
      if work_inputs_without_expectation o then mret None
      else if negb mcp_sdk_installed then action;; mret (Some 2)
      else session ← serve fuel o; mret (Some (if session.2 : bool then 130 else 0))
  end.
End process.
