(* ===== verification/McpFacts.v ===== *)
(** What a session of the MCP server reads: the files the operator configured,
    and nothing else. *)

From S2P Require Import Prelude Errors Text Json Crypto Url Clock Effects State Memory Quiet.
From S2P Require Import Receipt AuditLog AuditFacts WorkVerifier WorkReceipt WorkEvidence HealthFacts EvidenceFacts Commands Arguments.
From S2P Require Import Toy McpServer.

(** ** Computations that depend on some files only *)

(** The same number of actions has been performed, and the files of [P] are
    the same. *)
Definition alike {Mem} (P : path → Prop) (w1 w2 : world Mem) : Prop :=
  w_tick w1 = w_tick w2 ∧ ∀ p, P p → w_fs w1 !! p = w_fs w2 !! p.

(** Nothing outside [P] can be told from the outcome, or from how long it
    took. *)
Class Confined {Mem A} (P : path → Prop) (m : M Mem A) : Prop :=
  confined w1 w2 : alike P w1 w2 → (m w1).1 = (m w2).1 ∧ alike P (m w1).2 (m w2).2.

Section confined.
Context {Mem : Type} {P : path → Prop}.
#[local] Abbreviation Confined m := (Confined (Mem := Mem) P m).

Lemma confined_ret {A} (a : A) : Confined (mret a).
Proof. done. Qed.
Lemma confined_raise {A} e : Confined (raise (A := A) e).
Proof. done. Qed.
Lemma confined_crash {A} : Confined (crash (A := A)).
Proof. done. Qed.
Lemma confined_lift {A} (m : res A) : Confined (lift m).
Proof. by destruct m. Qed.
Lemma confined_check b e : Confined (check b e).
Proof. apply confined_lift. Qed.
Lemma confined_next_tick : Confined next_tick.
Proof. intros w1 w2 [T F]. cbn. rewrite T. by repeat split. Qed.

Lemma confined_bind {A B} (m : M Mem A) (f : A → M Mem B) :
  Confined m → (∀ a, Confined (f a)) → Confined (m ≫= f).
Proof.
  intros Hm Hf w1 w2 Hw. specialize (Hm w1 w2 Hw). unfold mbind, M_bind.
  destruct (m w1) as [o1 w1'], (m w2) as [o2 w2']. destruct Hm as [[= ->] Hw']. destruct o2; [by apply Hf|done..].
Qed.

Lemma confined_try {A} (m : M Mem A) c h : Confined m → (∀ e, Confined (h e)) → Confined (try_except m c h).
Proof.
  intros Hm Hh w1 w2 Hw. specialize (Hm w1 w2 Hw). unfold try_except.
  destruct (m w1) as [o1 w1'], (m w2) as [o2 w2']. destruct Hm as [[= ->] Hw'].
  destruct o2; [done| |done]. destruct (c e); [by apply Hh|done].
Qed.

(** What looks at the files looks at one of [P]. *)
Lemma confined_lookup {A} (g : option file → M Mem A) p :
  P p → (∀ x, Confined (g x)) → Confined (fs ← get_files; g (fs !! p)).
Proof. intros Hp Hg w1 w2 [T F]. unfold mbind, M_bind. cbn. rewrite (F p Hp). by apply Hg. Qed.
End confined.

Create HintDb confined.

(** Prove that a computation depends on the files of [P] only. *)
Ltac confined :=
  repeat first
    [ assumption | apply confined_ret | apply confined_raise | apply confined_crash | apply confined_lift
    | apply confined_check | apply confined_next_tick
    | solve [eauto with confined]
    | apply confined_bind; [|intros ?] | apply confined_try; [|intros ?]
    | progress intros | case_match ].

Section operations.
Context {Mem : Type} `{Env} {P : path → Prop}.
Set Default Proof Using "Type".
#[local] Abbreviation Confined m := (Confined (Mem := Mem) P m).

Lemma confined_action : Confined action.
Proof. unfold action. confined. Qed.
#[local] Hint Resolve confined_action : confined.
Lemma confined_path_exists p : P p → Confined (path_exists p).
Proof.
  intros Hp. unfold path_exists. apply confined_bind; [confined|intros _].
  apply (confined_lookup (λ x, mret (@bool_decide (is_Some x) (is_Some_dec x)))); [done|confined].
Qed.
Lemma confined_path_file p : P p → Confined (path_file p).
Proof.
  intros Hp. unfold path_file. apply confined_bind; [confined|intros _].
  apply (confined_lookup (λ x, match x with None => raise FileNotFoundError | Some f => mret f end)); [done|].
  intros x. confined.
Qed.
#[local] Hint Resolve confined_path_file : confined.
Lemma confined_open_nofollow p : P p → Confined (open_nofollow p).
Proof. intros Hp. unfold open_nofollow. confined. Qed.
End operations.
#[export] Hint Resolve confined_action confined_path_exists confined_path_file confined_open_nofollow : confined.

Section tools.
Context {Mem : Type} `{Env} `{UrlLib} `{Ed25519} {P : path → Prop}.
Set Default Proof Using "Type".
#[local] Abbreviation Confined m := (Confined (Mem := Mem) P m).

Lemma confined_verify p head : P p → Confined (verify p head).
Proof. intros Hp. unfold verify, verify_log, check_descriptor, os_errors. confined. Qed.
#[local] Hint Resolve confined_verify : confined.
Lemma confined_verify_audit_path p head : P p → Confined (verify_audit_path p head).
Proof. intros Hp. unfold verify_audit_path. confined. Qed.
Lemma confined_read_bounded p n : P p → Confined (_read_bounded p n).
Proof. intros Hp. unfold _read_bounded. confined. Qed.
#[local] Hint Resolve confined_read_bounded : confined.
Lemma confined_compare_output payload name p c : (∀ x, p = Some x → P x) → Confined (compare_output payload name p c).
Proof. intros Hp. unfold compare_output. destruct p; confined. Qed.
#[local] Hint Resolve confined_compare_output : confined.
Lemma confined_inspect expectation receipt out err :
  P expectation → (∀ x, receipt = Some x → P x) → (∀ x, out = Some x → P x) → (∀ x, err = Some x → P x) →
  Confined (inspect_work_evidence expectation receipt out err).
Proof. intros. unfold inspect_work_evidence, _expectation. destruct receipt; confined. Qed.
End tools.

(** ** The sessions *)

(** The files of the operator's command line. *)
Definition configured (o : McpOptions) (p : path) : Prop :=
  Some p ∈ [mcp_audit_path o; mcp_work_expectation o; mcp_work_receipt o; mcp_work_stdout o; mcp_work_stderr o].

Section server.
Context `{Env} `{UrlLib} `{Ed25519} `{McpClient}.
Set Default Proof Using "Type".

#[local] Hint Resolve confined_verify_audit_path confined_inspect : confined.
Lemma confined_call_tool o call : Confined (configured o) (call_tool (Mem := memory) o call).
Proof.
  unfold call_tool, inspect_work_evidence_tool. destruct call as [text|head|arguments].
  - confined.
  - destruct (mcp_audit_path o) as [p|] eqn:Ep; [|confined].
    assert (configured o p) by (unfold configured; rewrite Ep; set_solver). confined.
  - destruct (mcp_work_expectation o) as [p|] eqn:Ep; [|confined].
    assert (Confined (configured o)
      (inspect_work_evidence (Mem := memory) p (mcp_work_receipt o) (mcp_work_stdout o) (mcp_work_stderr o))).
    { apply confined_inspect; [|intros x Ex..]; unfold configured; rewrite ?Ep, <- ?Ex; set_solver. }
    confined.
Qed.
#[local] Hint Resolve confined_call_tool : confined.
Lemma confined_serve fuel o : Confined (configured o) (serve (Mem := memory) fuel o).
Proof. induction fuel as [|fuel IH]; cbn [serve]; confined. Qed.

#[local] Hint Resolve untouched_verify untouched_inspect : untouched.
Lemma untouched_call_tool o call : Steps untouched (call_tool (Mem := memory) o call).
Proof. unfold call_tool, inspect_work_evidence_tool, verify_audit_path. untouched. Qed.
#[local] Hint Resolve untouched_call_tool : untouched.
Lemma untouched_serve fuel o : Steps untouched (serve (Mem := memory) fuel o).
Proof. induction fuel as [|fuel IH]; cbn [serve]; untouched. Qed.

(** C40: the MCP server is confined to what the operator configured.  Whatever
    tools the client calls, with whatever arguments, and for however long the
    session runs: no file changes, nothing is sent, and everything the client is
    answered, errors included, is the same on any two machines whose configured
    files are the same, whatever their other files hold. *)
Theorem mcp_server_is_confined (fuel : nat) (o : McpOptions) (w other : world memory) :
  w_tick w = w_tick other → (∀ p, configured o p → w_fs w !! p = w_fs other !! p) →
  untouched w (serve fuel o w).2 ∧ (serve fuel o w).1 = (serve fuel o other).1.
Proof. intros Ht Hf. split; [apply untouched_serve|]. by apply (confined_serve fuel o w other). Qed.
End server.

(** ** Sessions that run *)

Section sessions.
#[local] Instance session_env : Env := toy_env (λ _, NoFault) (λ _, HttpFailed).
#[local] Instance session_client : McpClient := {|
  mcp_sdk_installed := true;
  mcp_next_input n :=
    match n with
    | 0%nat => Called (InspectAudit (Some (head_sha256 audit_summary)))
    | 5%nat => Called (VerifyReceipt (u "{}"))
    | 6%nat => Called (InspectEvidence [(u "path", JStr (u "/secret"))])
    | _ => InputEnded
    end |}.
Definition audit_only : McpOptions := MkMcpOptions (Some (Path (u "/log"))) None None None None.
Definition session_files (secret : bytes) : world memory :=
  toy_world empty_memory [(Path (u "/log"), private_file audit_sample); (Path (u "/secret"), private_file secret)].

Definition sample_answers : outcome (list (tool_answer + exn) * bool) :=
  Ret ([inl (AuditAnswer (MkAuditVerification true None (Some 2) (Some audit_did) (Some (head_sha256 audit_summary)) true));
        inl (ReceiptAnswer (_invalid_receipt (u "invalid_receipt"))); inl NotRegistered], false).

Example session_answers : (serve 9 audit_only (session_files [])).1 = sample_answers.
Proof. by vm_compute. Qed.

Lemma mcp_server_is_confined_witness :
  untouched (session_files []) (serve 9 audit_only (session_files [])).2 ∧
  (serve 9 audit_only (session_files (u "hunter2"))).1 = sample_answers.
Proof.
  destruct (mcp_server_is_confined 9 audit_only (session_files []) (session_files (u "hunter2")) eq_refl) as [Hu He].
  - intros p Hp. assert (p = Path (u "/log")) as -> by (unfold configured in Hp; cbn in Hp; set_solver).
    by vm_compute.
  - split; [exact Hu|]. rewrite <- He. exact session_answers.
Defined.
End sessions.
