(* ===== verification/ControllerFacts.v ===== *)
(** What the controller guarantees: a command is one of four, sent once, under a
    nonce that is on disk before; the grant is fixed and never replaces another. *)

From S2P Require Import Prelude Errors Text Regex Json Crypto Url Clock Effects State Memory Quiet Protocol Toy.
From S2P Require Import Requests Capabilities Config ConfigFacts Identity Run Provision HealthFacts Controller.

(** ** Reading *)

Section reading.
Context `{Env} `{Directories}.
Set Default Proof Using "Type".

Lemma untouched_time_ns : Steps untouched (time_ns (Mem := memory)).
Proof. unfold time_ns. untouched. Qed.
Lemma untouched_path_exists_controller p : Steps untouched (_path_exists (Mem := memory) p).
Proof. unfold _path_exists. untouched. Qed.
Lemma untouched_private_directory p : Steps untouched (_require_private_directory (Mem := memory) p).
Proof. unfold _require_private_directory. untouched. Qed.
Lemma untouched_private_regular p l : Steps untouched (_require_private_regular_file (Mem := memory) p l).
Proof. unfold _require_private_regular_file, os_errors. untouched. Qed.
Lemma untouched_load_controller p : Steps untouched (load_controller_identity (Mem := memory) p).
Proof.
  pose proof (untouched_load_identity_record p). pose proof (untouched_private_regular p).
  unfold load_controller_identity. untouched.
Qed.

(** Reading and checking before anything is done. *)
Lemma wp_reads {A} (m : IO A) (Φ : outcome A → world memory → Prop) (w0 w : world memory) :
  untouched w0 w → Steps untouched m → (∀ o w', untouched w0 w' → m w = (o, w') → Φ o w') → wp m Φ w.
Proof. intros Hw Hm HΦ. apply (wp_steps untouched); [done|]. intros o w' Hw'. apply HΦ. by etrans. Qed.
End reading.

(** ** Sending *)

Section sending.
Context `{Env} `{Directories} `{UrlLib} `{Ed25519} `{FloatRepr}.
Implicit Types w : world memory.
Set Default Proof Using "Type".

(** The four commands are their own sweep. *)
Lemma command_sweep command :
  command ∈ CONTROLLER_COMMANDS → sweep_text command 4096 = Ok command.
Proof.
  unfold CONTROLLER_COMMANDS. rewrite !elem_of_cons, elem_of_nil.
  intros [->|[->|[->|[->|[]]]]]; by vm_compute.
Qed.

Lemma sign_command key room nonce command text sig :
  command ∈ CONTROLLER_COMMANDS → sign_room_message key room nonce command = Ok (text, sig) → text = command.
Proof.
  intros Hc. unfold sign_room_message. intros Hs. apply res_bind_Ok in Hs as (r&_&Hs).
  apply res_bind_Ok in Hs as (n&_&Hs). rewrite command_sweep in Hs by done.
  apply res_bind_Ok in Hs as (t&[= <-]&Hs). apply res_bind_Ok in Hs as (c&_&Hs).
  by apply res_bind_Ok in Hs as (s&_&[= <- _]).
Qed.

(** One request was made, for a command under a nonce the state file holds. *)
Record commanded (did : str) (key : bytes) (config : AgentConfig) (sp : path) (command : str)
    (client : TechnocoreClient) (w w' : world memory) (s : AgentState) (nonce : Z) (sig url : str) : Prop := {
  cm_command : command ∈ CONTROLLER_COMMANDS;
  cm_config : validate_config config = Ok tt ∧ c_status config = JStr (u "active");
  cm_client : c_base_url config = JStr (base_url client);
  cm_key : did_from_private_key key = Ok did;
  cm_state : gave w (load sp) s;
  cm_fresh : default 0 (nonces s !! str_of (c_room config)) < nonce;
  cm_reserved : w_fs w' !! sp = Some (private_file (state_bytes (set_nonces <[str_of (c_room config) := nonce]> s)));
  cm_signed : sign_room_message key (str_of (c_room config)) (JInt nonce) command = Ok (command, sig);
  cm_url : send_url client (str_of (c_room config)) did sig (int_str nonce) command = Ok url;
  cm_trace : w_trace w' = w_trace w ++ [EvHttp url]
}.

Definition command_ends did key config sp command client w w' : Prop :=
  (∀ p, p ≠ sp → is_temp p = false → w_fs w' !! p = w_fs w !! p) ∧
  (w_trace w' = w_trace w ∨
   ∃ s nonce sig url, commanded did key config sp command client w w' s nonce sig url).

Lemma command_ends_untouched did key config sp command client w w' :
  untouched w w' → command_ends did key config sp command client w w'.
Proof. intros (E1&_&E3). split; [by rewrite E1|by left]. Qed.

Lemma sent_nonce_text n r : validate_nonce (JInt n) = Ok r → r = int_str n.
Proof.
  unfold validate_nonce. intros Hn. apply res_bind_Ok in Hn as (?&_&Hn).
  by destruct (fullmatch _ _); [apply Ok_inj in Hn|].
Qed.

Lemma wp_command did key config sp command client w :
  is_temp sp = false →
  wp (send_controller_command did key config sp command client)
     (λ _ w', command_ends did key config sp command client w w') w.
Proof.
  intros Hsp. pose proof (command_ends_untouched did key config sp command client w) as Hu.
  assert (untouched w w) as U0 by done. unfold send_controller_command.
  apply wp_bind, wp_lift. destruct (validate_did did) as [d|] eqn:Hd; [|by apply Hu].
  apply validate_did_Ok in Hd as [-> Hd].
  apply wp_bind, wp_lift. destruct (negb (command in? _)) eqn:Hc; cbn [raise_if]; [by apply Hu|].
  apply negb_false_iff, bool_decide_eq_true in Hc.
  apply wp_bind, wp_lift. destruct (validate_config config) as [[]|] eqn:Hv; [|by apply Hu].
  apply wp_bind, wp_lift. destruct (_ != _) eqn:Hact; cbn [raise_if]; [by apply Hu|].
  apply negb_false_iff, bool_decide_eq_true in Hact.
  apply wp_bind, wp_lift. destruct (JStr (base_url client) != _) eqn:Hb; cbn [raise_if]; [by apply Hu|].
  apply negb_false_iff, bool_decide_eq_true in Hb.
  apply wp_bind, wp_lift. destruct (did_from_private_key key) as [kd|] eqn:Hk; [|by apply Hu].
  apply wp_bind, wp_lift. destruct (kd != did) eqn:Hkd; cbn [raise_if]; [by apply Hu|].
  apply negb_false_iff, bool_decide_eq_true in Hkd. subst kd.
  apply wp_bind, (wp_reads _ _ w w); [done|apply untouched_private_directory|].
  intros o1 w1 U1 _. destruct o1; [|by apply Hu..].
  apply wp_bind, (wp_reads _ _ w w1); [done|apply untouched_path_exists_controller|].
  intros o2 w2 U2 _. destruct o2 as [present| |]; [|by apply Hu..].
  apply wp_bind, (wp_reads _ _ w w2); [done|destruct present; [apply untouched_private_regular|apply keeps_ret; apply _]|].
  intros o3 w3 U3 _. destruct o3; [|by apply Hu..].
  apply wp_bind, (wp_reads _ _ w w3); [done|apply untouched_load|].
  intros o4 w4 U4 Hload. destruct o4 as [s| |]; [|by apply Hu..].
  apply wp_bind, (wp_reads _ _ w w4); [done|apply untouched_time_ns|].
  intros o5 w5 U5 _. destruct o5 as [clock| |]; [|by apply Hu..]. cbv zeta.
  set (room := str_of (c_room config)). apply wp_bind, wp_lift.
  destruct (next_nonce room clock s) as [[nonce s']|] eqn:Hn; [|by apply Hu].
  apply next_nonce_Ok in Hn as (_&Hn&_&->).
  apply wp_bind. eapply wp_mono with (Φ := λ o w', save_ends (StateError "cannot write state file") sp
    (state_bytes (set_nonces <[room:=nonce]> s)) w5 o w' ∧ w_trace w' = w_trace w5).
  { split; [by apply (wp_save (set_nonces <[room:=nonce]> s) sp (save_ends _ _ _ w5)); [|intros]|apply quiet_save]. }
  intros o6 w6 [[[F6 _ _] _ Hf6] T6]. destruct U5 as (E5&_&T5).
  assert (∀ w', w_fs w' = w_fs w6 → w_trace w' = w_trace w6 → command_ends did key config sp command client w w') as Hend.
  { intros w' Ef Et. split; [|left; congruence]. intros p Hp Ht. rewrite Ef, F6, E5; done. }
  destruct o6 as [[]|e|]; [|by apply Hend..]. destruct Hf6 as [Hf6|[? _]]; [|done].
  apply wp_bind, wp_lift. destruct (sign_room_message _ _ _ _) as [[text sig]|] eqn:Hsig; [|by apply Hend].
  pose proof (sign_command _ _ _ _ _ _ Hc Hsig) as ->.
  pose proof (send_request client room did sig (JInt nonce) command w6) as (E7&_&T7).
  apply wp_bind. unfold wp at 1. set (w7 := (send_signed_message _ _ _ _ _ _ w6).2) in *.
  assert (command_ends did key config sp command client w w7) as H7.
  { destruct T7 as [T7|(url&(n&Hnn&Hurl)&T7)]; [by apply Hend|].
    split; [intros p Hp Ht; rewrite E7, F6, E5; done|]. right. exists s, nonce, sig, url.
    apply sent_nonce_text in Hnn as ->. split; try done.
    - by exists w3, w4.
    - fold room. lia.
    - by rewrite E7.
    - by rewrite T7, T6, T5. }
  clearbody w7. by destruct ((send_signed_message _ _ _ _ _ _ w6).1).
Qed.
End sending.

(** C33: a controller command makes at most one request, and only for one of the
    four read-only commands, with a valid active configuration, to the server that
    configuration names, with the key of the identity.  What it sends is that very
    command, signed under a nonce above every nonce the state file had for the
    room; and by then the state file holds that nonce, so that no later command
    can use it again.  No other file changes, whatever fails and wherever the
    process dies. *)
Theorem controller_sends_reserved_commands `{Env} `{Directories} `{UrlLib} `{Ed25519} `{FloatRepr}
    (did : str) (key : bytes) (config : AgentConfig) (state_file command : str) (client : TechnocoreClient)
    (w : world memory) :
  let '(o, w') := send_controller_command did key config (Path state_file) command client w in
  (∀ p, p ≠ Path state_file → is_temp p = false → w_fs w' !! p = w_fs w !! p) ∧
  (w_trace w' = w_trace w ∨
   ∃ s nonce sig url, commanded did key config (Path state_file) command client w w' s nonce sig url).
Proof.
  pose proof (wp_command did key config (Path state_file) command client w eq_refl) as Hc.
  unfold wp, command_ends in Hc. by destruct (send_controller_command did key config _ command client w).
Qed.

(** ** The grant *)

(** What the fixed policy says. *)
Definition fixed_grant : CapabilityGrant := MkCapabilityGrant true CONTROLLER_COMMANDS [] CONTROLLER_RATE_LIMIT.

Lemma parse_grant_payload did :
  fullmatch DID_PATTERN did = true → _parse_policy (grant_payload did) = Ok {[did := fixed_grant]}.
Proof.
  intros Hd. unfold grant_payload. set (g := JDict [(u "enabled", _); _; _; _]).
  assert (_parse_grant g = Ok fixed_grant) as Hg by (by vm_compute).
  clearbody g. unfold _parse_policy.
  set (top := [(u "schema", _); _]).
  assert (has_exact_keys top POLICY_KEYS = true) as -> by (by vm_compute).
  assert (jget (u "schema") top = JStr CAPABILITY_SCHEMA) as -> by (by vm_compute).
  assert (jget (u "principals") top = JDict [(did, g)]) as -> by done.
  cbn [raise_if negb mbind res_bind]. rewrite (bool_decide_eq_true_2 (_ = JStr CAPABILITY_SCHEMA)) by done.
  cbn -[validate_did _parse_grant]. unfold validate_did. rewrite Hd. cbn. by rewrite Hg.
Qed.

Section granting.
Context `{Env} `{Directories}.
Implicit Types w : world memory.
Set Default Proof Using "Type".

Definition granted w (identity pp : path) w' : Prop :=
  ∃ record, gave w (load_identity_record identity) record ∧ gave w (load_policy pp) ∅ ∧
    w_fs w' !! pp = Some (private_file (dumps false (grant_payload (i_did record)) ++ [10])) ∧
    _parse_policy (grant_payload (i_did record)) = Ok {[i_did record := fixed_grant]}.

Lemma cleans_unlink_if_present : cleans (Mem := memory) _unlink_if_present.
Proof.
  intros err n Φ w w' Hs HF. unfold _unlink_if_present. apply wp_bind, wp_try. unfold unlink.
  apply wp_bind, wp_action; [|cbn; apply HF; [by apply settled_ticked|by left]|cbn; apply HF; [by apply settled_ticked|unfold failed; auto]].
  unfold wp, get_files, mbind, M_bind. cbn. destruct (w_fs w' !! Temp n); cbn.
  - apply HF; [|by left]. eapply settled_temp; [done|]. intros q Hq. by apply lookup_delete_ne.
  - apply HF; [by apply settled_ticked|by left].
Qed.

(** The policy is replaced whole or not at all. *)
Lemma wp_replace_private p payload (Φ : outcome unit → world memory → Prop) w :
  is_temp p = false →
  (∀ o w', save_ends (ControllerError "cannot update the capability policy") p (dumps false payload ++ [10]) w o w' → Φ o w') →
  wp (_replace_private_json p payload) Φ w.
Proof.
  intros Hp HΦ. unfold _replace_private_json. cbv zeta. apply wp_bind.
  apply (wp_write_temporary_via (Mem := memory)); [apply cleans_unlink_if_present|done|apply harmless_ret|..].
  - intros w' Hf Hd. by eapply (wp_save_chmod _ _ _ w); [|exact Hd|auto].
  - intros o w' Hs Hf. destruct o as [[]|e|]; [by destruct Hf as [?|[?|?]]|by apply HΦ, save_ends_failed..].
Qed.

Lemma load_record_did p record w w' :
  load_identity_record (Mem := memory) p w = (Ret record, w') → fullmatch DID_PATTERN (i_did record) = true.
Proof.
  unfold load_identity_record. intros (j&w1&_&[Hj _]%lift_Ret)%bind_Ret. unfold parse_identity in Hj.
  apply res_bind_Ok in Hj as (kvs&_&Hj). apply res_bind_Ok in Hj as (c&_&Hj).
  apply res_bind_Ok in Hj as (?&_&Hj). apply res_bind_Ok in Hj as (did&Hd&Hj).
  apply res_bind_Ok in Hj as (?&_&Hj). apply res_bind_Ok in Hj as (?&_&Hj).
  apply res_bind_Ok in Hj as (?&_&Hj). apply res_bind_Ok in Hj as (?&_&[= <-]).
  unfold validate_did_value in Hd. destruct (jget _ kvs); try done. by apply validate_did_Ok in Hd as [-> Hd].
Qed.

Lemma load_controller_Ret p record w w' :
  load_controller_identity p w = (Ret record, w') → gave w (load_identity_record p) record ∧ fullmatch DID_PATTERN (i_did record) = true.
Proof.
  unfold load_controller_identity. intros (?&w1&Hr&Hl)%bind_Ret. split; [|by eapply load_record_did].
  exists w1, w'. split; [|done]. pose proof (untouched_private_regular p "controller identity" w) as Hu.
  by rewrite Hr in Hu.
Qed.

Lemma quiet_grant identity pp : Quiet (grant_controller_to_empty_policy identity pp).
Proof.
  assert (∀ A (m : IO A), Steps untouched m → Quiet m) as Hq by (intros A m Hm w; apply Hm).
  pose proof (Hq _ _ (untouched_load_controller identity)). pose proof (Hq _ _ (untouched_private_directory pp)).
  pose proof (Hq _ _ (untouched_load_policy pp)).
  unfold grant_controller_to_empty_policy, _replace_private_json, write_temporary_via, _unlink_if_present, os_errors. quiet.
Qed.
End granting.

(** C34: granting the controller its commands replaces an empty policy by one fixed
    policy or leaves it as it is, whatever fails and wherever the process dies: a
    policy with a principal is never touched, the new one names the controller's
    DID alone, enables the four read-only commands with no repository at ten
    requests an hour, and is private.  Nothing else changes and no request is
    made; when the call returns, the new policy is in place. *)
Theorem controller_grant_is_fixed `{Env} `{Directories} (identity_file policy_file : str) (w : world memory) :
  let '(o, w') := grant_controller_to_empty_policy (Path identity_file) (Path policy_file) w in
  (∀ p, p ≠ Path policy_file → is_temp p = false → w_fs w' !! p = w_fs w !! p) ∧
  w_trace w' = w_trace w ∧
  (w_fs w' !! Path policy_file = w_fs w !! Path policy_file ∨ granted w (Path identity_file) (Path policy_file) w') ∧
  (o = Ret tt → granted w (Path identity_file) (Path policy_file) w').
Proof.
  set (ip := Path identity_file). set (pp := Path policy_file). pose proof (quiet_grant ip pp w) as Hq.
  enough (wp (grant_controller_to_empty_policy ip pp) (λ o w',
    (∀ p, p ≠ pp → is_temp p = false → w_fs w' !! p = w_fs w !! p) ∧
    (w_fs w' !! pp = w_fs w !! pp ∨ granted w ip pp w') ∧ (o = Ret tt → granted w ip pp w')) w) as Hw.
  { unfold wp in Hw. destruct (grant_controller_to_empty_policy ip pp w). destruct Hw as (?&?&?). by split_and!. }
  assert (∀ o w', untouched w w' → o ≠ Ret tt →
    (∀ p, p ≠ pp → is_temp p = false → w_fs w' !! p = w_fs w !! p) ∧
    (w_fs w' !! pp = w_fs w !! pp ∨ granted w ip pp w') ∧ (o = Ret tt → granted w ip pp w')) as Hu.
  { intros o w' (E1&_&_) Ho. rewrite E1. split_and!; [done|by left|done]. }
  unfold grant_controller_to_empty_policy.
  apply wp_bind, (wp_reads _ _ w w); [done|apply untouched_load_controller|].
  intros o1 w1 U1 Hr. destruct o1 as [record| |]; [|by apply Hu..]. apply load_controller_Ret in Hr as [Hr Hd].
  apply wp_bind, (wp_reads _ _ w w1); [done|apply untouched_private_directory|].
  intros o2 w2 U2 _. destruct o2; [|by apply Hu..].
  apply wp_bind, (wp_reads _ _ w w2); [done|apply untouched_load_policy|].
  intros o3 w3 U3 Hp. destruct o3 as [policy| |]; [|by apply Hu..].
  apply wp_bind, wp_lift. destruct (negb _) eqn:He; cbn [raise_if]; [by apply Hu|].
  apply negb_false_iff, bool_decide_eq_true in He. subst policy.
  apply wp_bind, wp_replace_private; [done|]. intros o4 w4 [[F4 _ _] _ H4]. destruct U3 as (E3&_&_).
  assert (w_fs w4 !! pp = w_fs w !! pp ∨ granted w ip pp w4) as H4'.
  { destruct H4 as [H4|[_ H4]]; [right|left; congruence]. exists record. split; [done|].
    split; [by exists w2, w3|]. split; [done|by apply parse_grant_payload]. }
  assert (∀ o w', untouched w4 w' → (o = Ret tt → granted w ip pp w4) →
    (∀ p, p ≠ pp → is_temp p = false → w_fs w' !! p = w_fs w !! p) ∧
    (w_fs w' !! pp = w_fs w !! pp ∨ granted w ip pp w') ∧ (o = Ret tt → granted w ip pp w')) as Hend.
  { intros o w' (E&_&_) Ho. rewrite E. unfold granted. rewrite E. split_and!; [|exact H4'|exact Ho].
    intros p Hp1 Hp2. by rewrite F4, E3. }
  destruct o4 as [[]|e|]; [|by apply Hend..].
  assert (granted w ip pp w4) as Hg.
  { exists record. split; [done|]. split; [by exists w2, w3|]. destruct H4 as [H4|[? _]]; [|done].
    split; [done|by apply parse_grant_payload]. }
  apply wp_bind, (wp_reads _ _ w4 w4); [done|apply untouched_load_policy|].
  intros o5 w5 U5 _. destruct o5 as [policy| |]; [|by apply Hend..].
  apply wp_lift. destruct (negb _); cbn [raise_if]; by apply Hend.
Qed.

(** A file somebody else created at the path of the identity is removed when the
    exclusive creation fails. *)
Example create_removes_existing_file :
  let E := toy_env (λ _, NoFault) (λ _, HttpFailed) in
  let foreign := private_file (u "theirs") in
  let '(o, w') := _write_new_private_json (Path (u "/id")) JNull (toy_world empty_memory [(Path (u "/id"), foreign)]) in
  o = Raise (ControllerError "cannot write the controller identity") ∧ w_fs w' !! Path (u "/id") = None.
Proof. by vm_compute. Qed.

(** The server shows the command that was sent. *)
#[export] Instance toy_directories : Directories := λ _ _, Some (DirectoryStatus true 448 501).

Definition sample_command (command : str) : outcome (list (str * json)) * list event * bool :=
  let posted := JDict [(u "seq", JInt 6); (u "from", JStr sample_did); (u "text", JStr (u "/ping"));
                       (u "nonce", JStr (u "1700000000000000000"))] in
  let E := toy_env (λ _, NoFault) (λ _, HttpBody 200 (dumps false (JDict
    [(u "room", JStr (u "mb-p-1")); (u "first_seq", JInt 6); (u "last_seq", JInt 6);
     (u "messages", JList [posted]); (u "posted", posted)]))) in
  let '(o, w') := send_controller_command sample_did (toy_seed 1) (activated sample_config 5) (Path (u "/cs"))
    command (MkTechnocoreClient (u "https://technocore.chat") 20) (toy_world empty_memory []) in
  (o, w_trace w', (f_data <$> w_fs w' !! Path (u "/cs")) == Some (state_bytes
     (MkAgentState ∅ {[u "mb-p-1" := 1700000000000000000]} ∅ ∅))).

Example controller_ping : (sample_command (u "/ping")).1.1 =
  Ret [(u "status", JStr (u "acknowledged")); (u "command", JStr (u "/ping"))] ∧
  length (sample_command (u "/ping")).1.2 = 1%nat ∧ (sample_command (u "/ping")).2 = true.
Proof. by vm_compute. Qed.
Example controller_refuses : (sample_command (u "/pr x")).1 =
  (Raise (ControllerError "controller accepts only an exact read-only command"), []).
Proof. by vm_compute. Qed.
