(* ===== verification/AgentSafety.v ===== *)
(** At most one answer: what holds of the files and of the deliveries while
    [Agent.v] handles messages, whatever fails and wherever the process dies. *)

From S2P Require Import Prelude Errors Text Regex Json Crypto Url Effects State Memory Protocol.
From S2P Require Import Capabilities Receipt Policy Delivery AuditLog Agent.

(** ** The invariant *)

Section invariant.
Context `{HEnv : Env}.
Context (r : str) (sp jp : path).
Implicit Types (w : world memory) (d : delivery).

Definition input_of d : Z := d.1.2.
Definition envelope_of d : envelope := d.2.
Definition room_of d : str := d.1.1.

(** The journal holds the envelope of the delivery [d]. *)
Definition in_journal d w : Prop :=
  ∃ rec, record_wf rec ∧ journal_holds jp rec w ∧ input_sequence rec = input_of d.

(** [s] is the state on disk.  Every delivery is for this room, is covered by
    the cursor on disk or by the journal, and has the envelope of the journal if
    it has its input. *)
Record disk_inv (s : AgentState) (w : world memory) : Prop := {
  di_wf : state_wf s;
  di_disk : on_disk sp s w;
  di_journal : journal_wf jp w;
  di_room d : d ∈ deliveries (w_trace w) → room_of d = r;
  di_covered d : d ∈ deliveries (w_trace w) → input_of d ≤ cursor_for r s ∨ in_journal d w;
  di_match d rec : d ∈ deliveries (w_trace w) → record_wf rec → journal_holds jp rec w →
    input_sequence rec = input_of d → record_envelope rec = envelope_of d
}.

(** While a run is going, the cursor in memory is not behind the one on disk. *)
Definition run_inv (w : world memory) : Prop :=
  ∃ s, disk_inv s w ∧ wf_memory (w_mem w) ∧ cursor_for r s ≤ cursor_for r (m_state (w_mem w)).

Definition cursor_of (w : world memory) : Z := cursor_for r (m_state (w_mem w)).

Lemma private_file_inj data data' : private_file data = private_file data' → data = data'.
Proof. by intros [=]. Qed.

Lemma record_bytes_inj rec rec' :
  record_wf rec → record_wf rec' → record_bytes rec = record_bytes rec' → rec = rec'.
Proof.
  intros H1 H2 E. pose proof (loads_text_line _ (record_json_ok _ H1)) as L1.
  pose proof (loads_text_line _ (record_json_ok _ H2)) as L2. unfold record_bytes in E.
  rewrite E, L2 in L1. injection L1 as E'.
  pose proof (from_payload_roundtrip _ H1) as R1. pose proof (from_payload_roundtrip _ H2) as R2.
  unfold to_payload in R1, R2. rewrite <- E' in *. congruence.
Qed.

Lemma journal_holds_inj rec rec' w :
  record_wf rec → record_wf rec' → journal_holds jp rec w → journal_holds jp rec' w → rec = rec'.
Proof.
  unfold journal_holds. intros H1 H2 E1 E2. rewrite E1 in E2.
  by apply record_bytes_inj, private_file_inj, (inj Some).
Qed.

(** The invariant depends on the two files, the memory and the deliveries. *)
Lemma disk_inv_same s w w' :
  w_fs w' !! sp = w_fs w !! sp → w_fs w' !! jp = w_fs w !! jp →
  deliveries (w_trace w') = deliveries (w_trace w) → disk_inv s w → disk_inv s w'.
Proof.
  intros Es Ej Et [H1 H2 H3 H4 H5 H6].
  assert (∀ rec, journal_holds jp rec w' ↔ journal_holds jp rec w) as Hj
    by (intros; unfold journal_holds; by rewrite Ej).
  split; [done| | |by rewrite Et| |].
  - unfold on_disk in *. by rewrite Es.
  - unfold journal_wf, no_journal. rewrite Ej. by setoid_rewrite Hj.
  - rewrite Et. intros d Hd. unfold in_journal. setoid_rewrite Hj. by apply H5.
  - rewrite Et. intros d rec Hd Hrec. rewrite Hj. by apply H6.
Qed.

(** Saving a state whose cursor is not behind. *)
Lemma disk_inv_saved s s' w w' :
  w_fs w' !! sp = Some (private_file (state_bytes s')) → w_fs w' !! jp = w_fs w !! jp →
  deliveries (w_trace w') = deliveries (w_trace w) → state_wf s' → cursor_for r s ≤ cursor_for r s' →
  disk_inv s w → disk_inv s' w'.
Proof.
  intros Es Ej Et Hwf Hc [H1 H2 H3 H4 H5 H6].
  assert (∀ rec, journal_holds jp rec w' ↔ journal_holds jp rec w) as Hj
    by (intros; unfold journal_holds; by rewrite Ej).
  split; [done| | |by rewrite Et| |].
  - unfold on_disk. by rewrite Es.
  - unfold journal_wf, no_journal. rewrite Ej. by setoid_rewrite Hj.
  - rewrite Et. intros d Hd. unfold in_journal. setoid_rewrite Hj.
    destruct (H5 d Hd); [left; lia|by right].
  - rewrite Et. intros d rec Hd Hrec. rewrite Hj. by apply H6.
Qed.

(** The journal gets a record whose input, if it was delivered before the
    cursor covered it, was delivered with its nonce. *)
Lemma disk_inv_journal s rec w w' :
  w_fs w' !! sp = w_fs w !! sp → journal_holds jp rec w' → record_wf rec →
  deliveries (w_trace w') = deliveries (w_trace w) →
  (∀ d, d ∈ deliveries (w_trace w) → input_of d ≤ cursor_for r s ∨ input_of d = input_sequence rec) →
  (∀ d, d ∈ deliveries (w_trace w) → input_of d = input_sequence rec → envelope_of d = record_envelope rec) →
  disk_inv s w → disk_inv s w'.
Proof.
  intros Es Ej Hrec Et Hcov Hmatch [H1 H2 H3 H4 H5 H6]. split.
  - done.
  - unfold on_disk in *. by rewrite Es.
  - right. eauto.
  - by rewrite Et.
  - rewrite Et. intros d Hd. destruct (Hcov d Hd) as [?|Hd']; [by left|right]. by exists rec.
  - rewrite Et. intros d rec' Hd Hrec' Hj Hd'.
    assert (rec' = rec) as -> by by eapply journal_holds_inj. symmetry. by apply Hmatch.
Qed.

(** The journal is cleared once the cursor on disk covers its input. *)
Lemma disk_inv_cleared s w w' :
  w_fs w' !! sp = w_fs w !! sp → no_journal jp w' →
  deliveries (w_trace w') = deliveries (w_trace w) →
  (∀ rec, record_wf rec → journal_holds jp rec w → input_sequence rec ≤ cursor_for r s) →
  disk_inv s w → disk_inv s w'.
Proof.
  intros Es Ej Et Hcov [H1 H2 H3 H4 H5 H6]. split.
  - done.
  - unfold on_disk in *. by rewrite Es.
  - by left.
  - by rewrite Et.
  - rewrite Et. intros d Hd. left. destruct (H5 d Hd) as [?|(rec&Hrec&Hj&Hi)]; [done|].
    rewrite <- Hi. by eapply Hcov.
  - intros d rec _ _ Hj. unfold journal_holds, no_journal in *. by rewrite Ej in Hj.
Qed.

(** A delivery of the envelope in the journal. *)
Lemma disk_inv_delivered s rec w w' :
  w_fs w' = w_fs w → record_wf rec → journal_holds jp rec w →
  deliveries (w_trace w') = deliveries (w_trace w) ++ [(r, input_sequence rec, record_envelope rec)] →
  disk_inv s w → disk_inv s w'.
Proof.
  intros Ef Hrec Hj Et [H1 H2 H3 H4 H5 H6].
  assert (∀ rec, journal_holds jp rec w' ↔ journal_holds jp rec w) as Hj'
    by (intros; unfold journal_holds; by rewrite Ef).
  split; [done| | | | |].
  - unfold on_disk in *. by rewrite Ef.
  - right. exists rec. by rewrite Hj'.
  - rewrite Et. intros d [Hd| ->%list_elem_of_singleton]%elem_of_app; [by apply H4|done].
  - rewrite Et. intros d [Hd| ->%list_elem_of_singleton]%elem_of_app.
    + destruct (H5 d Hd) as [?|(rec'&?&?&?)]; [by left|right]. exists rec'. by rewrite Hj'.
    + right. exists rec. by rewrite Hj'.
  - rewrite Et. intros d rec' [Hd| ->%list_elem_of_singleton]%elem_of_app Hrec'; rewrite Hj'; intros Hj2 Hi.
    + by eapply H6.
    + by assert (rec' = rec) as -> by by eapply journal_holds_inj.
Qed.
End invariant.

(** ** Steps that keep the invariant *)

(** Neither of the two files, nor the shared state, nor the deliveries change. *)
Definition calm (sp jp : path) : world memory → world memory → Prop :=
  frame (λ q, q = sp ∨ q = jp) same_state.

#[export] Instance calm_preorder sp jp : PreOrder (calm sp jp).
Proof. apply _. Qed.

(** The paths of a run: distinct, and none of them a temporary file. *)
Class Paths (sp jp : path) : Prop := {
  paths_distinct : sp ≠ jp;
  paths_state : is_temp sp = false;
  paths_journal : is_temp jp = false
}.

Section safe.
Context `{HEnv : Env}.
Context (r : str) (sp jp : path) (K : list delivery → Prop).
Implicit Types w : world memory.

(** The invariant of a run, with a property [K] of the deliveries. *)
Definition safe w : Prop := run_inv r sp jp w ∧ K (deliveries (w_trace w)).

(** However a computation ends it is safe; [Ψ] holds if it returns. *)
Definition ends_safe {A} (Ψ : A → world memory → Prop) : outcome A → world memory → Prop :=
  λ o w', safe w' ∧ match o with Ret a => Ψ a w' | _ => True end.

(** Once the state is saved, the cursor on disk is the one in memory. *)
Definition saved w : Prop := ∃ s, disk_inv r sp jp s w ∧ cursor_for r s = cursor_of r w.
End safe.

Section safety.
Context `{HEnv : Env}.
Context {r : str} {sp jp : path} {Hpaths : Paths sp jp} {K : list delivery → Prop}.
Implicit Types w : world memory.
Set Default Proof Using "All".

#[local] Abbreviation safe := (safe r sp jp K).
#[local] Abbreviation safely m Ψ := (wp m (ends_safe r sp jp K Ψ)).

Lemma safely_ret {A} (a : A) (Ψ : A → world memory → Prop) w : safe w → Ψ a w → safely (mret a) Ψ w.
Proof. by intros. Qed.

Lemma safely_raise {A} e (Ψ : A → world memory → Prop) w : safe w → safely (raise e) Ψ w.
Proof. by intros. Qed.

Lemma safely_bind {A B} (m : IO A) (f : A → IO B) Ψ Ψ' w :
  safely m Ψ w → (∀ a w', safe w' → Ψ a w' → safely (f a) Ψ' w') → safely (m ≫= f) Ψ' w.
Proof.
  intros Hm Hf. apply wp_bind. eapply wp_mono; [exact Hm|].
  intros [a|e|] w' [Hs HΨ]; [by apply Hf|by split|by split].
Qed.

Lemma safely_mono {A} (m : IO A) (Ψ Ψ' : A → world memory → Prop) w :
  safely m Ψ w → (∀ a w', safe w' → Ψ a w' → Ψ' a w') → safely m Ψ' w.
Proof.
  intros Hm HΨ. eapply wp_mono; [exact Hm|]. intros [a|e|] w' [Hs Ha]; split; auto.
Qed.

(** A handler that raises again. *)
Lemma safely_rethrow {A} (m : IO A) c (h : exn → exn) Ψ w :
  safely m Ψ w → safely (try_except m c (λ e, raise (h e))) Ψ w.
Proof.
  intros Hm. apply wp_try. eapply wp_mono; [exact Hm|].
  intros [a|e|] w' [Hs Ha]; [by split| |by split]. by destruct (c e).
Qed.

Lemma safely_try {A} (m : IO A) c h Ψ w :
  safely m Ψ w → (∀ e w', safe w' → safely (h e) Ψ w') → safely (try_except m c h) Ψ w.
Proof.
  intros Hm Hh. apply wp_try. eapply wp_mono; [exact Hm|].
  intros [a|e|] w' [Hs Ha]; [by split| |by split]. destruct (c e); [by apply Hh|by split].
Qed.

Lemma calm_cursor w w' : calm sp jp w w' → cursor_of r w' = cursor_of r w.
Proof using Type. intros [_ M _]. unfold cursor_of. by rewrite M. Qed.

Lemma calm_safe w w' : calm sp jp w w' → safe w → safe w'.
Proof.
  intros [F M T] [(s&Hd&Hwf&Hc) HK]. split; [|by rewrite T]. exists s.
  split; [|by unfold wf_memory; rewrite M].
  eapply disk_inv_same; [apply F; by left|apply F; by right|exact T|done].
Qed.

(** A step that leaves the two files and the shared state alone. *)
Lemma safely_calm {A} (m : IO A) w :
  Keeps (λ q, q = sp ∨ q = jp) same_state m → safe w →
  safely m (λ a w', calm sp jp w w' ∧ m w = (Ret a, w')) w.
Proof.
  intros Hm Hs. specialize (Hm w). unfold wp. destruct (m w) as [o w'] eqn:E. cbn in *.
  split; [by eapply calm_safe|]. by destruct o.
Qed.

Lemma safely_lift {A} (m : res A) w : safe w → safely (lift m) (λ a w', m = Ok a ∧ w' = w) w.
Proof. intros Hs. apply wp_lift. by destruct m. Qed.

Lemma safely_check b e w : safe w → safely (check b e) (λ _ w', b = false ∧ w' = w) w.
Proof. intros Hs. unfold check, raise_if. by destruct b. Qed.

(** The shared state changes in memory, its cursor does not go back. *)
Lemma safe_with_state s w :
  safe w → state_wf s → cursor_of r w ≤ cursor_for r s → safe (with_state s w).
Proof.
  intros [(s0&Hd&_&Hc) HK] Hwf Hle. split; [|done]. exists s0.
  split; [by apply (disk_inv_same _ _ _ _ w)|]. split; [done|]. unfold cursor_of in Hle. cbn. lia.
Qed.

(** An assignment to the shared state. *)
Lemma safely_update_state {A} (f : AgentState → res (A * AgentState)) w :
  safe w →
  (∀ a s, f (m_state (w_mem w)) = Ok (a, s) → wf_memory (w_mem w) →
          state_wf s ∧ cursor_of r w ≤ cursor_for r s) →
  safely (update_state f) (λ a w', ∃ s, f (m_state (w_mem w)) = Ok (a, s) ∧ w' = with_state s w) w.
Proof.
  intros Hs Hf. apply wp_update_state. destruct (f _) as [[a s]|e] eqn:E; [|by split].
  destruct Hs as [Hr HK]. pose proof Hr as (_&_&Hwf&_). destruct (Hf a s eq_refl Hwf) as [Hwf' Hc].
  split; [|eauto]. by apply safe_with_state.
Qed.

Lemma safely_modify_state (f : AgentState → res AgentState) w :
  safe w →
  (∀ s, f (m_state (w_mem w)) = Ok s → wf_memory (w_mem w) →
        state_wf s ∧ cursor_of r w ≤ cursor_for r s) →
  safely (modify_state f) (λ _ w', ∃ s, f (m_state (w_mem w)) = Ok s ∧ w' = with_state s w) w.
Proof.
  intros Hs Hf. apply wp_modify_state. destruct (f _) as [s|e] eqn:E; [|by split].
  destruct Hs as [Hr HK]. pose proof Hr as (_&_&Hwf&_). destruct (Hf s eq_refl Hwf) as [Hwf' Hc].
  split; [|eauto]. by apply safe_with_state.
Qed.

(** A step of the rate limiter or another that may save the state. *)
Lemma safely_state_step {A} (m : IO A) w :
  Steps (state_step sp) m → safe w →
  safely m (λ a w', cursor_of r w' = cursor_of r w ∧ w_fs w' !! jp = w_fs w !! jp) w.
Proof.
  intros Hm [(s&Hd&Hwf&Hc) HK]. specialize (Hm w). unfold wp. destruct (m w) as [o w']. cbn in *.
  destruct Hm as [[F M T] W D], Hpaths as [Hne Hsp Hjp].
  assert (cursor_of r w' = cursor_of r w) as Hcur by (unfold cursor_of, cursor_for; by rewrite M).
  assert (w_fs w' !! jp = w_fs w !! jp) as Hj by (by apply F).
  split; [|by destruct o]. split; [|by rewrite T].
  destruct (D Hwf) as [Esp|(s'&Hs'&Ec&Esp)].
  - exists s. split; [by eapply disk_inv_same|]. split; [auto|]. unfold cursor_of in Hcur. lia.
  - assert (cursor_for r s' = cursor_of r w') as Es' by (unfold cursor_of, cursor_for; by rewrite Ec).
    exists s'. unfold cursor_of in *. split; [|split; [auto|lia]].
    eapply disk_inv_saved; [exact Esp|done|done|done| |exact Hd]. lia.
Qed.

Lemma safely_save w :
  safe w →
  safely (save_state sp) (λ _ w', cursor_of r w' = cursor_of r w ∧ saved r sp jp w' ∧
                                   w_fs w' !! jp = w_fs w !! jp) w.
Proof.
  intros [(s&Hd&Hwf&Hc) HK].
  change (safely (save (m_state (w_mem w)) sp) (λ _ w', cursor_of r w' = cursor_of r w ∧ saved r sp jp w' ∧
                                   w_fs w' !! jp = w_fs w !! jp) w).
  pose proof (@paths_distinct _ _ Hpaths) as Hne. pose proof (@paths_state _ _ Hpaths) as Hsp.
  pose proof (@paths_journal _ _ Hpaths) as Hjp. apply wp_save; [done|]. intros o w' [[F M T] _ Hf].
  assert (cursor_of r w' = cursor_of r w) as Hcur by (unfold cursor_of; by rewrite M).
  assert (w_fs w' !! jp = w_fs w !! jp) as Hj by (by apply F).
  assert (wf_memory (w_mem w')) as Hwf' by by rewrite <- M.
  destruct Hf as [Esp|[Ho Esp]].
  - assert (disk_inv r sp jp (m_state (w_mem w)) w') as Hd' by by eapply disk_inv_saved.
    split; [|destruct o as [[]| |]; [|done..]].
    + split; [|by rewrite T]. exists (m_state (w_mem w)). split; [done|]. split; [done|]. by rewrite <- M.
    + split; [done|]. split; [|done]. exists (m_state (w_mem w)). by rewrite Hcur.
  - split; [|by destruct o as [[]| |]]. split; [|by rewrite T]. exists s. split; [by eapply disk_inv_same|].
    split; [done|]. by rewrite <- M.
Qed.
End safety.
