(* ===== verification/AtMostOnce.v ===== *)
(** The responder keeps the invariant of [AgentSafety.v]: every path through
    [Agent.v] in live mode, whatever fails and wherever the process dies. *)

From S2P Require Import Prelude Errors Text Regex Json Crypto Url Effects State Memory Protocol Clients.
From S2P Require Import Capabilities Receipt Policy Delivery AuditLog Agent AgentSafety.

(** A live responder for the room [r] with its state at [sp] and its journal at
    [jp], as [cli.py] configures it. *)
Record live (r : str) (sp jp : path) (a : SafeResponder) : Prop := {
  live_send : send a = true;
  live_room : a_room a = r;
  live_state : state_path a = sp;
  live_journal : delivery_journal a = Some jp;
  live_limiter : limiter_at sp (policy a);
  live_log log : audit_log a = Some log → log ≠ sp ∧ log ≠ jp
}.

(** What may be said of the deliveries: it survives the delivery of an input
    that was not answered before. *)
Definition fresh_closed (K : list delivery → Prop) : Prop :=
  ∀ l d, K l → (∀ d', d' ∈ l → input_of d' ≠ input_of d) → K (l ++ [d]).

Lemma room_key_ok r : fullmatch ROOM_PATTERN r = true → key_ok r.
Proof.
  intros Hr. split; [by intros ->|]. eapply pattern_scalar; [|exact Hr]. cbn. repeat split; lia.
Qed.

Section journal_steps.
Context `{HEnv : Env}.
Context {r : str} {sp jp : path} {Hpaths : Paths sp jp} {K : list delivery → Prop}.
Implicit Types w : world memory.
Set Default Proof Using "All".

#[local] Abbreviation safe := (safe r sp jp K).
#[local] Abbreviation safely m Ψ := (wp m (ends_safe r sp jp K Ψ)).
#[local] Abbreviation cursor_of := (cursor_of r).

(** The journal holds the answer to the input [q]. *)
Definition answered (jp : path) (q : Z) w : Prop :=
  ∃ rec, record_wf rec ∧ journal_holds jp rec w ∧ input_sequence rec = q.

(** The evidence of the delivery. *)
Lemma safely_acknowledge rec reply w :
  safe w → record_wf rec → journal_holds jp rec w → reply < 10 ^ MAX_STR_DIGITS →
  safely (acknowledge reply jp) (λ _ w', cursor_of w' = cursor_of w ∧ answered jp (input_sequence rec) w') w.
Proof.
  pose proof Hpaths as [Hne Hsp Hjp]. intros [(s&Hdi&Hwf&Hc) HK] Hrec Hj Hreply.
  apply (wp_acknowledge _ _ rec); [done..|]. intros o w' rec' [F M T] Hrec' Ei En Hj'.
  assert (w_fs w' !! sp = w_fs w !! sp) as Esp by (by apply F).
  split.
  - split; [|by rewrite T]. exists s. rewrite <- M. split; [|done].
    apply (disk_inv_journal _ _ _ _ rec' w); [done..| | |done]; intros d Hd; rewrite Ei.
    + destruct (di_covered _ _ _ _ _ Hdi d Hd) as [?|(rec2&H2&Hj2&<-)]; [by left|right].
      by rewrite (journal_holds_inj _ rec2 rec w H2 Hrec Hj2 Hj).
    + intros E. rewrite En. symmetry. by apply (di_match _ _ _ _ _ Hdi).
  - destruct o as [rec2| |]; [|done..]. split; [unfold AgentSafety.cursor_of; by rewrite M|].
    exists rec'. by rewrite Ei.
Qed.

(** Clearing the journal of an answer the cursor on disk covers. *)
Lemma safely_clear q w :
  safe w → saved r sp jp w → answered jp q w → q ≤ cursor_of w →
  safely (clear jp) (λ _ w', cursor_of w' = cursor_of w) w.
Proof.
  pose proof Hpaths as [Hne Hsp Hjp].
  intros [(s0&_&Hwf&_) HK] (s&Hdi&Hc) (rec&Hrec&Hj&Hi) Hq. apply wp_clear. intros o w' [F M T] Hd _.
  assert (w_fs w' !! sp = w_fs w !! sp) as Esp by (by apply F).
  split; [|destruct o as [[]| |]; [unfold AgentSafety.cursor_of in *; by rewrite <- M|done..]].
  split; [|by rewrite T]. exists s. rewrite <- M. split; [|split; [done|unfold AgentSafety.cursor_of in *; lia]].
  destruct Hd as [Hd|[_ Hd]]; [|by apply (disk_inv_same _ _ _ _ w)].
  apply (disk_inv_cleared _ _ _ _ w); [done..| |done]. intros rec' Hrec' Hj'.
  rewrite (journal_holds_inj _ rec' rec w Hrec' Hrec Hj' Hj). lia.
Qed.
End journal_steps.

Section responder.
Context `{HEnv : Env} {HLaws : EnvLaws} `{UrlLib} `{Ed25519} `{FloatRepr}.
Context (r : str) (sp jp : path) {Hpaths : Paths sp jp} (K : list delivery → Prop) (a : SafeResponder).
Hypothesis K_fresh : fresh_closed K.
Hypothesis Hlive : live r sp jp a.
Hypothesis Hroom : fullmatch ROOM_PATTERN r = true.
Implicit Types w : world memory.
Set Default Proof Using "All".

#[local] Abbreviation safe := (safe r sp jp K).
#[local] Abbreviation safely m Ψ := (wp m (ends_safe r sp jp K Ψ)).
#[local] Abbreviation cursor_of := (cursor_of r).
#[local] Abbreviation answered := (answered jp).

(** The journal cannot be written over: nothing in it, hence every delivery is
    covered by the cursor on disk. *)
Lemma safe_no_journal w d :
  safe w → no_journal jp w → d ∈ deliveries (w_trace w) → input_of d ≤ cursor_of w.
Proof.
  intros [(s&[_ _ _ _ Hcov _]&_&Hc) _] Hn Hd. unfold AgentSafety.cursor_of.
  destruct (Hcov d Hd) as [?|(rec&_&Hj&_)]; [lia|].
  unfold journal_holds, no_journal in *. by rewrite Hn in Hj.
Qed.

(** Writing the journal of a message whose input is beyond the cursor. *)
Lemma safely_prepare rec w :
  safe w → no_journal jp w → record_wf rec → cursor_of w < input_sequence rec →
  safely (prepare rec jp) (λ _ w', cursor_of w' = cursor_of w ∧ journal_holds jp rec w' ∧
                            deliveries (w_trace w') = deliveries (w_trace w)) w.
Proof.
  pose proof Hpaths as [Hne Hsp Hjp]. intros Hs Hn Hrec Hq. unfold prepare.
  eapply safely_bind; [apply safely_calm; [keeps|done]|].
  intros b w1 Hs1 [Hcalm _]. pose proof (calm_cursor (r := r) _ _ Hcalm) as Hc1.
  destruct Hcalm as [F1 M1 T1].
  assert (no_journal jp w1) as Hn1 by (unfold no_journal; rewrite F1; [done|by right]).
  eapply safely_bind; [by apply safely_check|]. intros _ w2 Hs2 [_ ->].
  apply wp__write; [done|]. intros o w' [[F M T] Hd _].
  assert (cursor_of w' = cursor_of w) as Hc' by (rewrite <- Hc1; unfold AgentSafety.cursor_of; by rewrite M).
  assert (w_fs w' !! sp = w_fs w1 !! sp) as Esp by (by apply F).
  assert (safe w') as Hs'.
  { destruct Hs1 as [(s&Hdi&Hwf&Hcs) HK]. split; [|by rewrite T]. exists s. rewrite <- M.
    split; [|done]. destruct Hd as [Hd|[_ Hd]]; [|by apply (disk_inv_same _ _ _ _ w1)].
    assert (∀ d, d ∈ deliveries (w_trace w1) → input_of d ≤ cursor_for r s) as Hcov.
    { intros d Hd'. destruct (di_covered _ _ _ _ _ Hdi d Hd') as [?|(rec'&_&Hj&_)]; [done|].
      unfold journal_holds, no_journal in *. by rewrite Hn1 in Hj. }
    apply (disk_inv_journal _ _ _ _ rec w1); [done..| | |done].
    - intros d Hd'. left. by apply Hcov.
    - intros d Hd' E. specialize (Hcov d Hd'). unfold AgentSafety.cursor_of in *. lia. }
  split; [done|]. destruct o as [[]| |]; [|done..]. split; [done|]. rewrite T, T1. split; [|done].
  destruct Hd as [Hd|[[] _]]; done.
Qed.

(** Handing the envelope in the journal to the client. *)
Lemma safely_emit rec w :
  safe w → record_wf rec → journal_holds jp rec w →
  (∀ d, d ∈ deliveries (w_trace w) → input_of d ≠ input_sequence rec) →
  safely (emit (EvDeliver r (input_sequence rec) (record_envelope rec)))
    (λ _ w', cursor_of w' = cursor_of w ∧ journal_holds jp rec w') w.
Proof.
  intros [(s&Hdi&Hwf&Hc) HK] Hrec Hj Hfresh. split; [|done].
  assert (∀ l, deliveries (l ++ [EvDeliver r (input_sequence rec) (record_envelope rec)]) =
               deliveries l ++ [(r, input_sequence rec, record_envelope rec)]) as Et
    by (intros l; by rewrite deliveries_app).
  split; [exists s; split; [|done]|]; cbn.
  - apply (disk_inv_delivered _ _ _ _ rec w); try done. apply Et.
  - rewrite Et. by apply K_fresh.
Qed.


#[local] Hint Resolve keeps_time_ns keeps_send_signed_message keeps_require_empty : keeps.

Lemma safely_send_text text q w :
  safe w → cursor_of w < q → q < 10 ^ MAX_STR_DIGITS →
  safely (_send_text a text q) (λ _ w', cursor_of w' = cursor_of w ∧ answered q w') w.
Proof.
  pose proof Hpaths as [Hne Hsp Hjp]. pose proof Hlive as [_ Er _ Ej _ _]. intros Hs Hq Hprint.
  unfold _send_text. rewrite Ej, Er.
  eapply safely_bind; [apply safely_calm; [keeps|done]|]. intros [] w1 Hs1 [Hcalm Hn%require_empty_Ret].
  pose proof (calm_cursor (r := r) _ _ Hcalm) as Hc1.
  assert (no_journal jp w1) as Hn1 by (unfold no_journal; rewrite (frame_fs _ _ _ _ Hcalm); [done|by right]).
  eapply safely_bind; [apply safely_calm; [keeps|done]|]. intros clock w2 Hs2 [Hcalm2 _].
  pose proof (calm_cursor (r := r) _ _ Hcalm2) as Hc2.
  assert (no_journal jp w2) as Hn2 by (unfold no_journal; rewrite (frame_fs _ _ _ _ Hcalm2); [done|by right]).
  eapply safely_bind; [apply safely_update_state; [done|]|].
  { intros n s Hs' Hwf. split; [eapply next_nonce_wf; eauto using room_key_ok|].
    apply next_nonce_Ok in Hs' as (_&_&_&->). done. }
  intros n w3 Hs3 (s&Hnn&->).
  assert (cursor_of (with_state s w2) = cursor_of w2) as Hc3
    by (apply next_nonce_Ok in Hnn as (_&_&_&->); done).
  eapply safely_bind; [by apply safely_lift|]. intros [swept sig] w4 Hs4 [Hsig ->].
  eapply (safely_bind _ _ (λ _ w', cursor_of w' = cursor_of w ∧
    ∃ rec, record_wf rec ∧ journal_holds jp rec w' ∧ input_sequence rec = q ∧ record_envelope rec = (n, swept, sig) ∧
           ∀ d, d ∈ deliveries (w_trace w') → input_of d ≠ q)).
  { eapply safely_bind; [by apply safely_lift|]. intros rec w5 Hs5 [Hcreate ->].
    apply create_Ok in Hcreate as (Hrec&Hi&Hnr&_&Htx&_&Hsg&_); [|done].
    eapply safely_mono; [apply safely_prepare; [done|exact Hn2|done|lia]|].
    intros _ w6 Hs6 (Hc6&Hj6&Ht6). split; [lia|]. exists rec. do 3 (split; [done|]).
    split; [unfold record_envelope; congruence|].
    rewrite Ht6. intros d Hd E. pose proof (safe_no_journal _ d Hs4 Hn2 Hd). lia. }
  intros _ w5 Hs5 (Hc5&rec&Hrec&Hj5&Hi&Hnr&Hfresh). rewrite <- Hi, <- Hnr in *.
  eapply safely_bind; [by apply safely_emit|]. intros [] w6 Hs6 [Hc6 Hj6].
  eapply safely_bind; [apply safely_rethrow, safely_calm; [keeps|done]|].
  intros posted w7 Hs7 [Hcalm7 Hposted]. pose proof (calm_cursor (r := r) _ _ Hcalm7) as Hc7.
  apply client_send_Ret in Hposted as (_&_&_&Hseq).
  assert (journal_holds jp rec w7) as Hj7
    by (unfold journal_holds; rewrite (frame_fs _ _ _ _ Hcalm7); [done|by right]).
  eapply (safely_bind _ _ (λ _ w', cursor_of w' = cursor_of w ∧ answered (input_sequence rec) w'));
    [|intros _ w8 Hs8 ?; by apply safely_ret].
  apply safely_rethrow. eapply safely_bind; [by apply safely_acknowledge|].
  intros _ w8 Hs8 [Hc8 Hans]. apply safely_ret; [done|]. split; [lia|done].
Qed.

(** What handling a message promises: an event that says the answer was sent
    comes with its envelope in the journal. *)
Definition handled (q c : Z) (event : list (str * json)) w : Prop :=
  cursor_of w = c ∧ (is_sent event = true → answered q w).

Lemma safely_reply_event event q command reply w :
  safe w → cursor_of w < q → q < 10 ^ MAX_STR_DIGITS →
  safely (_reply_event a event q command reply) (handled q (cursor_of w)) w.
Proof.
  intros Hs Hq Hp. unfold _reply_event. rewrite (live_send _ _ _ _ Hlive).
  eapply safely_bind; [by apply safely_send_text|].
  intros posted w' Hs' [Hc Ha]. apply safely_ret; [done|]. by split.
Qed.

Lemma safely_receipt_event event q target w :
  safe w → cursor_of w < q → q < 10 ^ MAX_STR_DIGITS → is_sent event = false →
  safely (_receipt_event a event q target) (handled q (cursor_of w)) w.
Proof.
  intros Hs Hq Hp He. unfold _receipt_event. rewrite (live_send _ _ _ _ Hlive). cbn [negb].
  destruct (receipt_service a) as [service|]; [|by apply safely_raise].
  eapply safely_bind; [apply safely_calm; [keeps|done]|].
  intros issued w1 Hs1 [Hcalm Hissued]. pose proof (calm_cursor (r := r) _ _ Hcalm) as Hc1.
  destruct issued as [receipt|e].
  - eapply safely_bind; [apply safely_send_text; [done|lia|done]|].
    intros posted w2 Hs2 [Hc2 Ha]. eapply safely_mono; [by apply safely_lift|].
    intros ev w3 Hs3 [_ ->]. split; [lia|done].
  - apply safely_ret; [done|]. split; [lia|]. intros Hsent. exfalso. revert Hsent.
    unfold receipt_failed_event. destruct e; try by rewrite He.
    unfold is_sent. rewrite jget_update. by vm_compute.
Qed.

Lemma safely_event_for_message m w :
  safe w → cursor_of w < seq m → seq m < 10 ^ MAX_STR_DIGITS →
  safely (_event_for_message a m) (handled (seq m) (cursor_of w)) w.
Proof.
  intros Hs Hq Hp. unfold _event_for_message. pose proof Hlive as [_ _ _ _ Hl _].
  eapply safely_bind; [apply safely_state_step; [apply steps_decide; [apply Hpaths|done]|done]|].
  intros d w1 Hs1 [Hc1 _]. rewrite <- Hc1 in *.
  assert (is_sent (base_event a d m) = false) as Hb by (by destruct d as [[] ? ? ?]).
  assert (safely (mret (base_event a d m)) (handled (seq m) (cursor_of w1)) w1) as Hi.
  { apply safely_ret; [done|]. split; [done|]. by rewrite Hb. }
  destruct (d_action d), (d_reply d), (d_target d);
    try done; first [by apply safely_reply_event|by apply safely_receipt_event].
Qed.

Lemma keeps_audit_record m event :
  Keeps (λ q, q = sp ∨ q = jp) same_state (_append_audit_record a m event).
Proof.
  unfold _append_audit_record. pose proof (live_log _ _ _ _ Hlive) as Hlog.
  destruct (audit_log a) as [log|]; [|apply keeps_raise; apply _]. destruct (Hlog log eq_refl) as [Hlsp Hljp].
  apply keeps_bind; [apply _|apply keeps_lift; apply _|]. intros f.
  apply keeps_bind; [apply _|apply keeps_now_utc; apply _|]. intros t.
  apply keeps_bind; [apply _| |intros _; apply keeps_ret; apply _].
  eapply steps_sub; [apply _|apply (keeps_append same_state)|]. intros w w' [F M T].
  split; [|done..]. intros q [-> | ->]; by apply F.
Qed.

Lemma safely_persist m event w :
  safe w → cursor_of w < seq m → seq m < 10 ^ MAX_STR_DIGITS →
  (is_sent event = true → answered (seq m) w) →
  safely (_persist_processed_message a m event) (λ _ w', cursor_of w' = seq m) w.
Proof.
  intros Hs Hq Hp Hsent. pose proof Hlive as [Esend Er Es Ej _ _].
  unfold _persist_processed_message. rewrite Esend, Ej, Er, Es. cbn [negb andb].
  eapply (safely_bind _ _ (λ _ w', calm sp jp w w')).
  { destruct (bool_decide _); [|by apply safely_ret].
    eapply safely_mono; [apply safely_calm; [apply keeps_audit_record|done]|]. by intros ? ? ? [? _]. }
  intros _ w1 Hs1 Hcalm. pose proof (calm_cursor (r := r) _ _ Hcalm) as Hc1.
  assert (is_sent event = true → answered (seq m) w1) as Hsent1.
  { intros (rec&?&Hj&?)%Hsent. exists rec. split; [done|]. split; [|done].
    unfold journal_holds. rewrite (frame_fs _ _ _ _ Hcalm); [done|by right]. }
  eapply safely_bind; [apply safely_modify_state; [done|]|].
  { intros s Hs' Hwf. split; [eapply advance_cursor_wf; eauto using room_key_ok|].
    apply advance_cursor_Ok in Hs' as (_&_&->). rewrite cursor_for_set. lia. }
  intros _ w2 Hs2 (s&Hadv&->).
  assert (cursor_of (with_state s w1) = seq m) as Hc2
    by (apply advance_cursor_Ok in Hadv as (_&_&->); apply cursor_for_set).
  eapply safely_bind; [by apply safely_rethrow, safely_save|]. intros _ w3 Hs3 (Hc3&Hsaved&Hjp3).
  rewrite Hc2 in Hc3. destruct (is_sent event); [|by apply safely_ret].
  apply safely_rethrow. apply (safely_mono _ (λ _ w', cursor_of w' = cursor_of w3));
    [|by intros ? w4 _ ->; rewrite Hc3]. apply (safely_clear (seq m)); [done..| |lia].
  destruct Hsent1 as (rec&?&Hj&?); [done|]. exists rec. split; [done|]. split; [|done].
  unfold journal_holds. by rewrite Hjp3.
Qed.

Lemma safely_process_messages ms c h events w :
  safe w → cursor_of w = c → Forall (λ m, seq m < 10 ^ MAX_STR_DIGITS) ms →
  safely (process_messages a ms c h events) (λ '(c', _, _) w', cursor_of w' = c') w.
Proof.
  intros Hs Hc Hms. revert c h events w Hs Hc.
  induction Hms as [|m ms Hm Hms IH]; intros c h events w Hs Hc; [by apply safely_ret|]. cbn.
  destruct (Z.leb_spec (seq m) c); [by apply IH|].
  eapply safely_bind; [apply safely_event_for_message; [done|lia|done]|].
  intros event w1 Hs1 [Hc1 Hsent].
  eapply safely_bind; [apply safely_persist; [done|lia|done|done]|].
  intros [] w2 Hs2 Hc2. by apply IH.
Qed.

Lemma safely_observe_generation g w :
  safe w → g < 10 ^ MAX_STR_DIGITS →
  safely (update_state (observe_generation r g)) (λ _ w', cursor_of w' = cursor_of w) w.
Proof.
  intros Hs Hg. eapply safely_mono; [apply safely_update_state; [done|]|].
  - intros b s Hs' Hwf. split; [eapply observe_generation_wf; eauto using room_key_ok|].
    by apply observe_generation_Ok in Hs' as [_ ->].
  - intros b w' _ (s&Hobs&->). by apply observe_generation_Ok in Hobs as [_ ->].
Qed.

Lemma safely_advance q w :
  safe w → q < 10 ^ MAX_STR_DIGITS →
  safely (modify_state (advance_cursor r q)) (λ _ _, True) w.
Proof.
  intros Hs Hq. eapply safely_mono; [apply safely_modify_state; [done|]|done].
  intros s Hs' Hwf. split; [eapply advance_cursor_wf; eauto using room_key_ok|].
  apply advance_cursor_Ok in Hs' as (_&Hle&->). by rewrite cursor_for_set.
Qed.

Lemma safely_saves (b : bool) w :
  safe w → safely (if b then save_state (state_path a) else mret tt) (λ _ _, True) w.
Proof.
  intros Hs. rewrite (live_state _ _ _ _ Hlive). destruct b; [|by apply safely_ret].
  by eapply safely_mono; [apply safely_save|].
Qed.

Lemma safely_process_snapshot snapshot w :
  safe w → snapshot_printable snapshot →
  safely (process_snapshot a snapshot) (λ _ _, True) w.
Proof.
  intros Hs (Hms&Hlast&Hgen). unfold process_snapshot. rewrite (live_room _ _ _ _ Hlive).
  eapply safely_bind; [by apply safely_check|]. intros _ w1 Hs1 [_ ->].
  eapply safely_bind; [apply safely_calm; [keeps|done]|]. intros previous w2 Hs2 _.
  eapply safely_bind; [by apply safely_rethrow, safely_observe_generation|]. intros changed w3 Hs3 _.
  eapply (safely_bind _ _ (λ c w', cursor_of w' = c)).
  { apply wp_ask_state. by split. }
  intros c w4 Hs4 Hc4.
  eapply safely_bind; [by apply safely_process_messages|]. intros [[c' h] events] w5 Hs5 _.
  eapply (safely_bind _ _ (λ _ _, True)).
  - destruct (negb h && _); [|by apply safely_ret].
    eapply safely_bind; [by apply safely_advance|]. intros _ w6 Hs6 _.
    eapply safely_bind; [by apply safely_saves|]. intros _ w7 Hs7 _. by apply safely_ret.
  - intros [persisted events'] w6 Hs6 _.
    eapply safely_bind; [by apply safely_saves|]. intros _ w7 Hs7 _. by apply safely_ret.
Qed.

Lemma safely_bootstrap_latest w : safe w → safely (bootstrap_latest a) (λ _ _, True) w.
Proof.
  intros Hs. unfold bootstrap_latest, client_read_room. rewrite (live_room _ _ _ _ Hlive).
  eapply safely_bind; [apply safely_calm; [keeps|done]|].
  intros snapshot w1 Hs1 [_ (_&(_&Hlast&Hgen)&_)%read_room_Ret].
  eapply safely_bind; [by apply safely_observe_generation|]. intros _ w2 Hs2 _.
  eapply safely_bind; [by apply safely_advance|]. intros _ w3 Hs3 _.
  eapply safely_bind; [by apply safely_saves|]. intros _ w4 Hs4 _. by apply safely_ret.
Qed.
End responder.
