(* ===== verification/RecoverySafety.v ===== *)
(** Recovery keeps the invariant of [AgentSafety.v], and sends nothing but the
    envelope in the journal. *)

From S2P Require Import Prelude Errors Text Regex Json Crypto Url Effects State Memory Protocol.
From S2P Require Import Delivery Agent AgentSafety AtMostOnce Recovery.

(** A property of the deliveries that also survives the same signed message
    being sent again. *)
Definition again_closed (K : list delivery → Prop) : Prop :=
  ∀ l d, K l → (∀ d', d' ∈ l → input_of d' = input_of d → envelope_of d' = envelope_of d) → K (l ++ [d]).

Lemma again_fresh K : again_closed K → fresh_closed K.
Proof. intros HK l d Hl Hd. apply HK; [done|]. intros d' Hd' E. by destruct (Hd d' Hd'). Qed.

Section recovery.
Context `{HEnv : Env} {HLaws : EnvLaws} `{Ed25519} `{FloatRepr}.
Context (r : str) (sp jp : path) {Hpaths : Paths sp jp} (K : list delivery → Prop) (c : recovery).
Hypothesis K_again : again_closed K.
Hypothesis c_room : rec_room c = r.
Hypothesis c_state : rec_state_path c = sp.
Hypothesis c_journal : rec_journal c = jp.
Hypothesis Hroom : fullmatch ROOM_PATTERN r = true.
Implicit Types w : world memory.
Set Default Proof Using "All".

#[local] Abbreviation safe := (safe r sp jp K).
#[local] Abbreviation safely m Ψ := (wp m (ends_safe r sp jp K Ψ)).
#[local] Abbreviation cursor_of := (cursor_of r).
#[local] Hint Resolve room_key_ok : core.

Lemma safely_persist_recovered rec w :
  safe w → record_wf rec →
  safely (_persist_recovered_state c r rec)
    (λ _ w', input_sequence rec ≤ cursor_of w' ∧ saved r sp jp w' ∧ w_fs w' !! jp = w_fs w !! jp) w.
Proof.
  intros Hs Hrec. unfold _persist_recovered_state. rewrite c_state.
  eapply safely_bind; [apply safely_modify_state; [done|]|].
  { intros s Hs' Hwf. split; [eapply observe_nonce_wf; eauto; apply Hrec|].
    unfold observe_nonce in Hs'. by apply res_bind_Ok in Hs' as (?&_&[= <-]). }
  intros _ w1 Hs1 (s1&Hs1'&->). set (w1 := with_state s1 w) in *.
  eapply safely_bind; [apply safely_modify_state; [done|]|].
  { intros s Hs' Hwf. pose proof (wf_input _ Hrec). split.
    - eapply advance_cursor_wf; eauto. apply Z.max_lub_lt; [|lia].
      unfold cursor_for. destruct (cursors _ !! r) as [z|] eqn:E; cbn; [|by apply Z.pow_pos_nonneg].
      by destruct (wf_cursors _ Hwf _ _ E) as [_ []].
    - apply advance_cursor_Ok in Hs' as (_&_&->). rewrite cursor_for_set. unfold AgentSafety.cursor_of. lia. }
  intros _ w2 Hs2 (s2&Hs2'&->).
  assert (input_sequence rec ≤ cursor_of (with_state s2 w1)) as Hc.
  { apply advance_cursor_Ok in Hs2' as (_&_&->). unfold AgentSafety.cursor_of. cbn.
    rewrite cursor_for_set. lia. }
  eapply safely_mono; [by apply safely_save|]. intros [] w3 Hs3 (Hc3&Hsaved&Hj). rewrite Hc3. done.
Qed.

Lemma safely_finalize rec reply w :
  safe w → record_wf rec → journal_holds jp rec w → reply < 10 ^ MAX_STR_DIGITS →
  safely (_finalize_recovery c r rec reply) (λ _ _, True) w.
Proof.
  intros Hs Hrec Hj Hq. unfold _finalize_recovery. rewrite c_journal. apply safely_rethrow.
  eapply safely_bind; [by apply safely_acknowledge|]. intros _ w1 Hs1 (Hc1&rec1&Hrec1&Hj1&Hi1).
  eapply safely_bind; [by apply safely_persist_recovered|]. intros _ w2 Hs2 (Hc2&Hsaved&Hj2).
  eapply safely_mono; [apply (safely_clear (input_sequence rec)); try done|done].
  exists rec1. split; [done|]. split; [|done]. unfold journal_holds. by rewrite Hj2.
Qed.

Lemma safely_retry rec w :
  safe w → record_wf rec → journal_holds jp rec w →
  safely (_retry_exact_envelope c r rec)
    (λ posted w', seq posted < 10 ^ MAX_STR_DIGITS ∧ journal_holds jp rec w') w.
Proof.
  intros Hs Hrec Hj. unfold _retry_exact_envelope.
  eapply (safely_bind _ _ (λ _ w', journal_holds jp rec w')).
  { destruct Hs as [(s&Hdi&Hwf&Hc) HK]. split; [|done].
    assert (∀ l, deliveries (l ++ [EvDeliver r (input_sequence rec) (record_envelope rec)]) =
                 deliveries l ++ [(r, input_sequence rec, record_envelope rec)]) as Et
      by (intros l; by rewrite deliveries_app).
    split; [exists s; split; [|done]|]; cbn.
    - apply (disk_inv_delivered _ _ _ _ rec w); try done. apply Et.
    - rewrite Et. apply K_again; [done|]. intros d Hd E. symmetry. by apply (di_match _ _ _ _ _ Hdi). }
  intros _ w1 Hs1 Hj1. apply safely_rethrow.
  eapply safely_mono; [apply safely_calm; [keeps|done]|].
  intros posted w2 Hs2 [Hcalm Hposted]. apply send_signed_message_Ret in Hposted as (_&_&_&_&_&_&Hq).
  split; [done|]. unfold journal_holds. rewrite (frame_fs _ _ _ _ Hcalm); [done|by right].
Qed.

Lemma safely_recover_acknowledged rec w :
  safe w → record_wf rec → journal_holds jp rec w →
  safely (_recover_acknowledged c r rec) (λ _ _, True) w.
Proof.
  intros Hs Hrec Hj. unfold _recover_acknowledged. destruct (negb _); [by apply safely_ret|].
  destruct (reply_sequence rec) as [q|] eqn:Eq; [|by apply safely_raise].
  eapply safely_bind; [apply safely_finalize; try done|intros; by apply safely_ret].
  pose proof (wf_reply _ Hrec) as Hr. unfold reply_wf in Hr. rewrite Eq in Hr. destruct (status rec); [done|by destruct Hr].
Qed.

Lemma safely_recover_pending rec snapshot w :
  safe w → record_wf rec → journal_holds jp rec w → snapshot_printable snapshot →
  safely (_recover_pending c r rec snapshot) (λ _ _, True) w.
Proof.
  intros Hs Hrec Hj (Hms&_&_). unfold _recover_pending. cbv zeta.
  destruct (negb (_is_complete_history _ _)); [by apply safely_ret|].
  assert (Forall (λ m, seq m < 10 ^ MAX_STR_DIGITS) (List.filter (matches rec) (messages snapshot))) as Hf.
  { apply Forall_forall. intros m Hm. apply list_elem_of_In, filter_In in Hm as [Hm _].
    apply list_elem_of_In in Hm. by apply (Forall_elem _ _ _ Hms Hm). }
  destruct (List.filter _ _) as [|m [|m' ms]].
  - destruct (negb (_ && _)); [by apply safely_ret|].
    eapply safely_bind; [by apply safely_retry|]. intros posted w1 Hs1 [Hq Hj1].
    eapply safely_bind; [by apply safely_finalize|]. intros; by apply safely_ret.
  - destruct (negb _); [by apply safely_ret|]. apply Forall_cons in Hf as [Hq _].
    eapply safely_bind; [by apply safely_finalize|]. intros; by apply safely_ret.
  - by apply safely_ret.
Qed.

Lemma safely_recover_delivery w : safe w → safely (recover_delivery c) (λ _ _, True) w.
Proof.
  intros Hs. unfold recover_delivery. rewrite c_room, c_journal.
  eapply safely_bind; [by apply safely_lift|]. intros vr w1 Hs1 [[-> _]%validate_room_Ok ->].
  eapply safely_bind; [by apply safely_lift|]. intros vd w1 Hs1' [_ ->].
  eapply safely_bind; [by apply safely_check|]. intros _ w1 Hs1'' [_ ->].
  eapply safely_bind; [apply safely_calm; [keeps|done]|]. intros o w1 Hs2 [Hcalm (Hn&Hh&_)%load_journal_Ret].
  destruct o as [rec|]; [|by apply safely_ret].
  assert (record_wf rec ∧ journal_holds jp rec w1) as [Hrec Hj].
  { destruct Hs as [(s&Hdi&_) _]. destruct (di_journal _ _ _ _ _ Hdi) as [Hno|(rec'&Hrec'&Hj')].
    - by specialize (Hn Hno).
    - specialize (Hh _ Hrec' Hj') as [= ->]. split; [done|]. unfold journal_holds.
      rewrite (frame_fs _ _ _ _ Hcalm); [done|by right]. }
  eapply safely_bind; [by apply safely_lift|]. intros _ w2 Hs3 [_ ->].
  eapply safely_bind; [by apply safely_check|]. intros _ w2 Hs4 [_ ->].
  destruct (status rec); [|by apply safely_recover_acknowledged].
  eapply safely_bind; [apply safely_calm; [keeps|done]|].
  intros snapshot w3 Hs5 [Hcalm3 (_&Hp&_)%read_room_Ret].
  apply safely_recover_pending; try done. unfold journal_holds.
  rewrite (frame_fs _ _ _ _ Hcalm3); [done|by right].
Qed.
End recovery.
