(* ===== verification/History.v ===== *)
(** Every history of live processes and recoveries on one machine: what the
    deliveries may be, wherever a process died. *)

From S2P Require Import Prelude Errors Text Regex Json Crypto Url Effects State Memory Protocol Clients.
From S2P Require Import Toy Capabilities Receipt Policy Delivery AuditLog Config Identity Lock.
From S2P Require Import Agent Recovery Run AgentSafety AtMostOnce RecoverySafety.

(** The room a command would resolve, were it started in [w]. *)
Definition targets `{UrlLib} (r : str) (args : RunArgs) (w : world memory) : Prop :=
  match arg_room args with
  | Some (x :: s) => x :: s = r
  | _ => ∀ cp f j c,
      _path_beside_identity (arg_config args) (identity args) (u "safe-agent-config.json") = Ok cp →
      w_fs w !! cp = Some f → loads_text (f_data f) = Ok j → parse_config j = Ok c →
      str_of (c_room c) = r
  end.

(** The options of a process that works on the state [sp] and the journal [jp],
    with its other files elsewhere. *)
Record uses (sp jp : path) (args : RunArgs) : Prop := {
  uses_state : _path_beside_identity (arg_state args) (identity args) (u "safe-agent-state.json") = Ok sp;
  uses_journal : journal_path args (identity args) = Ok jp;
  uses_audit p : audit_path args (identity args) = Ok p → p ≠ sp ∧ p ≠ jp;
  uses_lock p : lock_path args (identity args) = Ok p →
    p ≠ sp ∧ p ≠ jp ∧
    _path_beside_identity (arg_config args) (identity args) (u "safe-agent-config.json") ≠ Ok p
}.

(** ** Before the state is loaded *)

(** What the files say, whatever is in memory. *)
Definition disk_safe `{Env} (r : str) (sp jp : path) (K : list delivery → Prop) (w : world memory) : Prop :=
  (∃ s, disk_inv r sp jp s w) ∧ K (deliveries (w_trace w)).
Definition ends_on_disk `{Env} r sp jp K {A} (o : outcome A) (w : world memory) : Prop := disk_safe r sp jp K w.

(** The files at [sp], [jp] and [cp] are untouched. *)
Definition idle (sp jp : path) (cp : option path) : world memory → world memory → Prop :=
  frame (λ q, q = sp ∨ q = jp ∨ Some q = cp) anything.

Section disk.
Context `{HEnv : Env}.
Context {r : str} {sp jp : path} {K : list delivery → Prop}.
Implicit Types w : world memory.
Set Default Proof Using "All".

#[local] Abbreviation disk_safe := (disk_safe r sp jp K).
#[local] Abbreviation ends_on_disk := (ends_on_disk r sp jp K).

Lemma safe_disk w : safe r sp jp K w → disk_safe w.
Proof. intros [(s&Hd&_) HK]. split; [by exists s|done]. Qed.

Lemma idle_disk cp w w' : idle sp jp cp w w' → disk_safe w → disk_safe w'.
Proof.
  intros [F _ T] [(s&Hd) HK]. split; [|by rewrite T]. exists s.
  apply (disk_inv_same _ _ _ _ w); [apply F; by left|apply F; right; by left|done|done].
Qed.

Lemma wp_idle {A} cp (m : IO A) (Φ : outcome A → world memory → Prop) w :
  Keeps (λ q, q = sp ∨ q = jp ∨ Some q = cp) anything m → disk_safe w →
  (∀ o w', idle sp jp cp w w' → m w = (o, w') → disk_safe w' → Φ o w') → wp m Φ w.
Proof.
  intros Hm Hd HΦ. apply (wp_steps _ _ _ _ Hm). intros o w' Hi Ew. apply HΦ; [done|done|].
  by eapply idle_disk.
Qed.

(** An exception or the end of the process before the next part. *)
Lemma disk_idle_bind {A B} cp (m : IO A) (f : A → IO B) w :
  Keeps (λ q, q = sp ∨ q = jp ∨ Some q = cp) anything m → disk_safe w →
  (∀ a w', idle sp jp cp w w' → m w = (Ret a, w') → disk_safe w' → wp (f a) ends_on_disk w') →
  wp (m ≫= f) ends_on_disk w.
Proof.
  intros Hm Hd Hf. apply wp_bind. eapply wp_idle; [done..|]. intros [a|e|] w' Hi Ew Hd'; [by eapply Hf|done..].
Qed.

Lemma disk_lift_bind {A B} (m : res A) (f : A → IO B) w :
  disk_safe w → (∀ a, m = Ok a → wp (f a) ends_on_disk w) → wp (lift m ≫= f) ends_on_disk w.
Proof. intros Hd Hf. apply wp_bind, wp_lift. destruct m; [by apply Hf|done]. Qed.

Lemma disk_of_safely {A} (m : IO A) Ψ w :
  wp m (ends_safe r sp jp K Ψ) w → wp m ends_on_disk w.
Proof. intros Hm. eapply wp_mono; [exact Hm|]. intros o w' [Hs _]. by apply safe_disk. Qed.

Lemma disk_then_keeps {A} (m : IO A) (k : IO unit) w :
  wp m ends_on_disk w → Keeps (λ q, q = sp ∨ q = jp ∨ Some q = None) anything k →
  wp (try_finally m k) ends_on_disk w.
Proof.
  intros Hm Hk. unfold try_finally. apply wp_bind, wp_on_raise. eapply wp_mono; [exact Hm|].
  intros [a|e|] w' Hd; [| |done].
  - apply (disk_idle_bind None); [done|done|]. intros _ w2 _ _ Hd2. done.
  - apply wp_bind. eapply wp_idle; [done..|]. by intros [] w2 _ _ Hd2.
Qed.

Lemma disk_with_lock {A} p (m : IO A) cp w :
  p ≠ sp → p ≠ jp → cp ≠ Some p → disk_safe w →
  (∀ w', idle sp jp cp w w' → disk_safe w' → wp m ends_on_disk w') →
  wp (with_lock p m) ends_on_disk w.
Proof.
  intros H1 H2 H3 Hd Hm. unfold with_lock. apply (disk_idle_bind cp); [|done|].
  - apply keeps_acquire; [apply _|]. intros [?|[?|?]]; congruence.
  - intros _ w' Hi _ Hd'. apply disk_then_keeps; [by apply Hm|]. apply keeps_release. apply _.
Qed.
End disk.

(** ** The commands *)

Section commands.
Context `{HEnv : Env} {HLaws : EnvLaws} `{UrlLib} `{Ed25519} `{FloatRepr} `{Keychain}.
Context (r : str) (sp jp : path) (K : list delivery → Prop) (args : RunArgs).
Hypothesis Huses : uses sp jp args.
Implicit Types w : world memory.
Set Default Proof Using "Type".

#[local] Abbreviation safe := (safe r sp jp K).
#[local] Abbreviation disk_safe := (disk_safe r sp jp K).
#[local] Abbreviation ends_on_disk := (ends_on_disk r sp jp K).
#[local] Abbreviation safely m Ψ := (wp m (ends_safe r sp jp K Ψ)).

Definition config_path_of : option path :=
  match _path_beside_identity (arg_config args) (identity args) (u "safe-agent-config.json") with
  | Ok p => Some p | Err _ => None
  end.

Lemma targets_idle w w' : idle sp jp config_path_of w w' → targets r args w → targets r args w'.
Proof.
  intros Hi. unfold targets. destruct (arg_room args) as [[|x s]|]; [|done|].
  all: intros Ht cp f j c Hcp Hf; eapply Ht; try done; rewrite <- Hf; symmetry; apply Hi.
  all: right; right; unfold config_path_of; by rewrite Hcp.
Qed.

Lemma paths_beside_identity_Ok ip cp sp' :
  _paths_beside_identity args = Ok (ip, cp, sp') → ip = identity args ∧ config_path_of = Some cp ∧ sp' = sp.
Proof using Huses.
  unfold _paths_beside_identity, config_path_of. rewrite (uses_state _ _ _ Huses).
  intros (cp'&->&Hc)%res_bind_Ok. by simplify_eq/=.
Qed.

(** The room a configuration read from the file names. *)
Lemma resolve_target_Ok e w config room url :
  targets r args w →
  (∀ c, config = Some c → config_wf c ∧ ∃ cp f j, config_path_of = Some cp ∧ w_fs w !! cp = Some f ∧
     loads_text (f_data f) = Ok j ∧ parse_config j = Ok c) →
  resolve_target e args config = Ok (room, url) → room = r ∧ fullmatch ROOM_PATTERN r = true.
Proof.
  intros Ht Hc. unfold resolve_target. intros (ro&Hr&[= -> _])%res_bind_Ok. unfold targets in Ht.
  destruct (arg_room args) as [[|x s]|].
  2: { apply validate_room_Ok in Hr as [-> Hr]. by subst. }
  all: destruct config as [c|]; [|done]; injection Hr as <-;
    destruct (Hc c eq_refl) as (Hwf&cp&f&j&Hcp&Hf&Hj&Hp); unfold config_path_of in Hcp;
    destruct (_path_beside_identity _ _ _) as [cp'|] eqn:Ep; [|done]; injection Hcp as ->;
    rewrite (Ht _ _ _ _ eq_refl Hf Hj Hp); split; [done|];
    destruct (cw_room _ Hwf) as (s&Es&Hs); rewrite <- (Ht _ _ _ _ eq_refl Hf Hj Hp), Es; done.
Qed.

Lemma load_config_parsed cp c w w' :
  load_config cp w = (Ret c, w') →
  config_wf c ∧ ∃ f j, w_fs w !! cp = Some f ∧ loads_text (f_data f) = Ok j ∧ parse_config j = Ok c.
Proof.
  intros Hl. split; [by eapply load_config_Ret|]. unfold load_config in Hl.
  apply bind_Ret in Hl as (j&w1&Hj&[Hp _]%lift_Ret).
  apply try_Ret in Hj as [(_&f&Hf&Hj)%read_json_text_Ret|(?&?&_&_&[]%raise_Ret)]. eauto.
Qed.

Lemma keeps_load_config P (Q : memory → memory → Prop) `{!PreOrder Q} cp : Keeps P Q (load_config cp).
Proof using Type. unfold load_config, read_json_text. keeps. Qed.

#[local] Hint Resolve keeps_load_config : keeps.

(** The state in memory is the one on disk. *)
Lemma safely_loaded {B} (f : IO B) w :
  disk_safe w → (∀ w', idle sp jp config_path_of w w' → safe w' → wp f ends_on_disk w') →
  wp (state ← load sp; put_state state;; f) ends_on_disk w.
Proof.
  intros Hd Hf. pose proof Hd as [(s&Hdi) HK].
  apply (disk_idle_bind config_path_of); [keeps|done|]. intros s' w1 Hi Hl Hd1.
  apply (load_Ret _ s) in Hl as ->; [|apply Hdi..]. destruct Hi as [F _ T]. apply wp_bind.
  change (wp f ends_on_disk (with_state s w1)). apply Hf.
  - by split.
  - split; [|change (K (deliveries (w_trace w1))); by rewrite T]. exists s. split; [|by split; [apply Hdi|]].
    apply (disk_inv_same _ _ _ _ w); [apply F; by left|apply F; right; by left|done|done].
Qed.

Lemma keeps_active_config P (Q : memory → memory → Prop) `{!PreOrder Q} e record cp :
  Keeps P Q (active_config e record cp).
Proof using Type. unfold active_config, load_config, read_json_text. keeps. Qed.

Lemma active_config_Ret e record cp config w w' :
  config_path_of = Some cp → active_config e record cp w = (Ret config, w') →
  ∀ c, config = Some c → config_wf c ∧ ∃ cp f j, config_path_of = Some cp ∧ w_fs w !! cp = Some f ∧
     loads_text (f_data f) = Ok j ∧ parse_config j = Ok c.
Proof.
  intros Hcp. unfold active_config. intros (b&w1&[-> _]%path_exists_Ret&Hl)%bind_Ret c ->.
  destruct (negb b); [by apply ret_Ret in Hl as [? _]|].
  apply bind_Ret in Hl as (c'&w2&(Hwf&f&j&Hf&Hj&Hp)%load_config_parsed&Hl).
  do 2 (apply bind_Ret in Hl as (?&?&_&Hl)). apply ret_Ret in Hl as [[= ->] _].
  split; [done|]. exists cp, f, j. done.
Qed.

(** ** The pieces of a live responder *)

Lemma command_policy_limiter did p w w' :
  _command_policy args did sp w = (Ret p, w') → limiter_at sp p.
Proof.
  unfold _command_policy. destruct (capability_policy args) as [file|].
  - intros (?&w1&_&[Hp _]%lift_Ret)%bind_Ret. unfold policy_init in Hp.
    apply res_bind_Ok in Hp as (?&_&Hp). apply res_bind_Ok in Hp as (?&_&[= <-]). by intros l [= <-].
  - intros (?&w1&_&Hp)%bind_Ret. apply bind_Ret in Hp as (?&w2&_&[Hp _]%lift_Ret). unfold policy_init in Hp.
    apply res_bind_Ok in Hp as (?&_&Hp). apply res_bind_Ok in Hp as (?&_&[= <-]). by intros l [=].
Qed.

Lemma keeps_command_policy P did p : Keeps P same_state (_command_policy args did p).
Proof using Type. unfold _command_policy. keeps. Qed.

Lemma live_artifacts_Ret did j l w w' :
  arg_send args = true → _live_artifacts args (identity args) did w = (Ret (j, l), w') →
  j = Some jp ∧ ∀ log, l = Some log → log ≠ sp ∧ log ≠ jp.
Proof using Huses.
  intros Hsend. unfold _live_artifacts. rewrite Hsend. cbn [negb].
  intros (j'&w1&[Hj ->]%lift_Ret&Hl)%bind_Ret. rewrite (uses_journal _ _ _ Huses) in Hj.
  injection Hj as <-. apply bind_Ret in Hl as (?&w2&_&Hl).
  apply bind_Ret in Hl as (ap&w3&[Hap ->]%lift_Ret&Hl).
  do 2 (apply bind_Ret in Hl as (?&?&_&Hl)). apply ret_Ret in Hl as [[= -> ->] _].
  split; [done|]. intros log [= <-]. by apply (uses_audit _ _ _ Huses).
Qed.

Lemma keeps_live_artifacts P ip did : Keeps P same_state (_live_artifacts args ip did).
Proof using Type. unfold _live_artifacts. keeps. Qed.
End commands.

(** ** A live process *)

Section polling.
Context `{HEnv : Env} {HLaws : EnvLaws} `{UrlLib} `{Ed25519} `{FloatRepr}.
Context (r : str) (sp jp : path) {Hpaths : Paths sp jp} (K : list delivery → Prop)
  (args : RunArgs) (a : SafeResponder).
Hypothesis K_fresh : fresh_closed K.
Hypothesis Hlive : live r sp jp a.
Hypothesis Hroom : fullmatch ROOM_PATTERN r = true.
Implicit Types w : world memory.
Set Default Proof Using "All".

#[local] Abbreviation safe := (safe r sp jp K).
#[local] Abbreviation safely m Ψ := (wp m (ends_safe r sp jp K Ψ)).

Lemma keeps_print_event P (Q : memory → memory → Prop) `{!PreOrder Q} event : Keeps P Q (_print_event event).
Proof using Type. unfold _print_event. keeps. Qed.

Lemma keeps_sleep_until P (Q : memory → memory → Prop) `{!PreOrder Q} fuel deadline :
  Keeps P Q (sleep_until fuel deadline).
Proof using Type. induction fuel as [|fuel IH]; cbn; keeps. Qed.

#[local] Hint Resolve keeps_print_event keeps_sleep_until : keeps.

Lemma safely_poll_once n w : safe w → safely (poll_once args a n) (λ _ _, True) w.
Proof.
  intros Hs. unfold poll_once, client_read_room.
  eapply safely_bind; [apply safely_calm; [keeps|done]|]. intros c w1 Hs1 _.
  eapply safely_bind; [apply safely_calm; [keeps|done]|]. intros snapshot w2 Hs2 [_ (_&Hp&_)%read_room_Ret].
  eapply safely_bind; [by apply safely_check|]. intros _ w3 Hs3 [_ ->].
  eapply safely_bind; [by eapply safely_process_snapshot|]. intros events w3 Hs4 _.
  eapply safely_mono; [apply safely_calm; [keeps|done]|done].
Qed.

Lemma safely_poll fuel n backoff w : safe w → safely (_poll args fuel a n backoff) (λ _ _, True) w.
Proof.
  revert n backoff w. induction fuel as [|fuel IH]; intros n backoff w Hs; [done|]. cbn [_poll].
  eapply (safely_bind _ _ (λ _ _, True)).
  - apply safely_try.
    + eapply safely_bind; [by apply safely_poll_once|]. intros _ w1 Hs1 _. by apply safely_ret.
    + intros e w1 Hs1. destruct (once args); [by apply safely_raise|].
      destruct e; try by apply safely_raise.
      eapply safely_mono; [apply safely_calm; [keeps; apply keeps_sleep_until; apply _|done]|done].
  - intros backoff' w1 Hs1 _. destruct (once args); [by apply safely_ret|by apply IH].
Qed.

Lemma safely_initialize_cursor w : safe w → safely (_initialize_cursor args a) (λ _ _, True) w.
Proof.
  intros Hs. unfold _initialize_cursor.
  eapply safely_bind; [apply safely_calm; [keeps|done]|]. intros known w1 Hs1 _.
  destruct known; [by apply safely_ret|]. destruct (arg_start_at args).
  - eapply safely_bind; [by eapply safely_bootstrap_latest|]. intros event w2 Hs2 _.
    eapply safely_mono; [apply safely_calm; [keeps|done]|done].
  - by apply safely_raise.
  - by apply safely_ret.
Qed.
End polling.

Section live_run.
Context `{HEnv : Env} {HLaws : EnvLaws} `{UrlLib} `{Ed25519} `{FloatRepr} `{Keychain}.
Context (r : str) (sp jp : path) {Hpaths : Paths sp jp} (K : list delivery → Prop) (args : RunArgs).
Hypothesis Huses : uses sp jp args.
Implicit Types w : world memory.
Set Default Proof Using "All".

#[local] Abbreviation disk_safe := (disk_safe r sp jp K).
#[local] Abbreviation ends_on_disk := (ends_on_disk r sp jp K).

Lemma state_path_of dp :
  dp = sp → match arg_state args with Some p => Path p | None => dp end = sp.
Proof. intros ->. pose proof (uses_state _ _ _ Huses) as Hu. by destruct (arg_state args); [injection Hu as <-|]. Qed.

Lemma disk_run_with_identity fuel record key cp w :
  fresh_closed K → arg_send args = true → config_path_of args = Some cp →
  disk_safe w → targets r args w →
  wp (_run_with_identity args fuel record key (identity args) cp sp) ends_on_disk w.
Proof.
  intros HK Hsend Hcp Hd Ht. unfold _run_with_identity.
  apply (disk_idle_bind (config_path_of args)); [by apply keeps_active_config; apply _|done|].
  intros config w1 Hi1 Hconfig Hd1. pose proof (active_config_Ret args _ _ _ _ _ _ Hcp Hconfig) as Hc.
  apply disk_lift_bind; [done|]. intros [room url] Htarget.
  apply (resolve_target_Ok r args _ w) in Htarget as [-> Hroom]; [|done..].
  rewrite (state_path_of sp) by done. apply (safely_loaded r sp jp K args); [done|]. intros w2 _ Hs2.
  apply (disk_of_safely _ (λ _ _, True)).
  eapply safely_bind; [apply safely_calm; [apply keeps_command_policy|done]|].
  intros policy w3 Hs3 [_ Hpolicy%command_policy_limiter].
  eapply safely_bind; [apply safely_calm; [apply keeps_live_artifacts|done]|].
  intros [j l] w4 Hs4 [_ [-> Hl]%(live_artifacts_Ret sp jp args Huses)]; [|done].
  eapply safely_bind; [by apply safely_lift|]. intros client w5 Hs5 [_ ->].
  eapply safely_bind; [by apply safely_lift|]. intros service w5 Hs6 [_ ->].
  set (a := MkSafeResponder _ _ _ _ _ _ _ _ _ _).
  assert (live r sp jp a) as Hlive by (by split).
  eapply safely_bind; [by eapply safely_initialize_cursor|]. intros done w5 Hs7 _.
  destruct done; [by apply safely_ret|by eapply safely_poll].
Qed.

Lemma disk_put_empty w : disk_safe w → disk_safe (World (w_fs w) empty_memory (w_tick w) (w_trace w)).
Proof. intros [(s&Hd) HK]. split; [|done]. exists s. by apply (disk_inv_same _ _ _ _ w). Qed.

Lemma disk_run fuel w :
  fresh_closed K → arg_send args = true → disk_safe w → targets r args w →
  wp (_run args fuel) ends_on_disk w.
Proof.
  intros HK Hsend Hd Ht. unfold _run. apply wp_bind.
  set (w0 := World (w_fs w) empty_memory (w_tick w) (w_trace w)).
  assert (disk_safe w0) as Hd0 by by apply disk_put_empty. assert (targets r args w0) as Ht0 by done.
  change (wp ('(record, private_key) ← _load_identity (Path (identity args));
              '(identity_path, config_path, default_state_path) ← lift (_paths_beside_identity args);
              lock ← lift (lock_path args identity_path);
              if arg_send args
              then with_lock lock (_run_with_identity args fuel record private_key identity_path config_path
                                     default_state_path)
              else _run_with_identity args fuel record private_key identity_path config_path
                     default_state_path) ends_on_disk w0). clearbody w0. clear dependent w.
  apply (disk_idle_bind (config_path_of args)); [keeps|done|]. intros [record key] w1 Hi1 _ Hd1.
  assert (targets r args w1) as Ht1 by by eapply targets_idle.
  apply disk_lift_bind; [done|]. intros [[ip cp] dp] Hp.
  destruct (paths_beside_identity_Ok sp jp args Huses _ _ _ Hp) as (->&Hcp&->).
  apply disk_lift_bind; [done|]. intros lp Hlock. rewrite Hsend.
  destruct (uses_lock _ _ _ Huses _ Hlock) as (Hl1&Hl2&Hl3).
  apply (disk_with_lock _ _ (config_path_of args)); [done|done| |done|].
  - unfold config_path_of. destruct (_path_beside_identity (arg_config args) _ _); congruence.
  - intros w2 Hi2 Hd2. apply disk_run_with_identity; try done. by eapply targets_idle.
Qed.

Lemma disk_recover_delivery w :
  again_closed K → disk_safe w → targets r args w → wp (_recover_delivery args) ends_on_disk w.
Proof.
  intros HK Hd Ht. unfold _recover_delivery. apply wp_bind.
  set (w0 := World (w_fs w) empty_memory (w_tick w) (w_trace w)).
  assert (disk_safe w0) as Hd0 by by apply disk_put_empty. assert (targets r args w0) as Ht0 by done.
  change (wp (recover_command args) ends_on_disk w0). clearbody w0. clear dependent w. rename w0 into w.
  unfold recover_command.
  apply disk_lift_bind; [done|]. intros [[ip cp] dp] Hp.
  destruct (paths_beside_identity_Ok sp jp args Huses _ _ _ Hp) as (->&Hcp&->).
  apply (disk_idle_bind (config_path_of args)); [keeps|done|]. intros record w1 Hi1 _ Hd1.
  assert (targets r args w1) as Ht1 by by eapply targets_idle.
  apply (disk_idle_bind (config_path_of args)); [by apply keeps_active_config; apply _|done|].
  intros config w2 Hi2 Hconfig Hd2. pose proof (active_config_Ret args _ _ _ _ _ _ Hcp Hconfig) as Hc.
  apply disk_lift_bind; [done|]. intros [room url] Htarget.
  apply (resolve_target_Ok r args _ w1) in Htarget as [-> Hroom]; [|done..].
  rewrite (state_path_of sp) by done.
  apply disk_lift_bind; [done|]. intros j Hj. rewrite (uses_journal _ _ _ Huses) in Hj. injection Hj as <-.
  apply disk_lift_bind; [done|]. intros lp Hlock.
  destruct (uses_lock _ _ _ Huses _ Hlock) as (Hl1&Hl2&Hl3). apply wp_bind.
  eapply (wp_mono _ (History.ends_on_disk r sp jp K)); [apply (disk_with_lock _ _ (config_path_of args)); [done|done| |done|]|].
  - unfold config_path_of. destruct (_path_beside_identity (arg_config args) _ _); congruence.
  - intros w3 _ Hd3. apply (safely_loaded r sp jp K args); [done|]. intros w4 _ Hs4.
    apply (disk_of_safely _ (λ _ _, True)).
    eapply safely_bind; [by apply safely_lift|]. intros client w5 Hs5 [_ ->].
    by apply safely_recover_delivery.
  - intros [event|e|] w3 Hd3; [|done..].
    apply (disk_idle_bind (config_path_of args)); [by apply keeps_print_event; apply _|done|].
    by intros _ w4 _ _ Hd4.
Qed.
End live_run.

(** ** Histories *)

(** The worlds a machine goes through: the agent is installed without a state
    and a journal; live processes run, each to its end or to the point where it
    died; [recover-delivery] runs if [recoveries] allows it; in between anything
    may happen that leaves the two files alone. *)
Section histories.
Context `{HEnv : Env} `{UrlLib} `{Ed25519} `{FloatRepr} `{Keychain}.
Context (r : str) (sp jp : path) (recoveries : Prop).

Inductive reachable : world memory → Prop :=
  | installed w :
      w_fs w !! sp = None → w_fs w !! jp = None → deliveries (w_trace w) = [] → reachable w
  | elsewhere w w' :
      reachable w → w_fs w' !! sp = w_fs w !! sp → w_fs w' !! jp = w_fs w !! jp →
      deliveries (w_trace w') = deliveries (w_trace w) → reachable w'
  | ran w args fuel :
      reachable w → arg_send args = true → uses sp jp args → targets r args w →
      reachable (_run args fuel w).2
  | recovered w args :
      recoveries → reachable w → uses sp jp args → targets r args w →
      reachable (_recover_delivery args w).2.

Lemma reachable_disk {HLaws : EnvLaws} {Hpaths : Paths sp jp} K w :
  fresh_closed K → (recoveries → again_closed K) → K [] → reachable w → disk_safe r sp jp K w.
Proof.
  intros HK Hagain K0 Hw. induction Hw as [w Hs Hj Ht|w w' _ IH Hs Hj Ht|w args fuel _ IH Hsend Hu Htg|w args Hr _ IH Hu Htg].
  - split; [|by rewrite Ht]. exists empty_state. split; rewrite ?Ht; try (by intros ? ?%elem_of_nil); try (by intros ? ? ?%elem_of_nil).
    + apply state_wf_empty.
    + unfold on_disk. by rewrite Hs.
    + by left.
  - destruct IH as [(s&Hd) IH]. split; [|by rewrite Ht]. exists s. by apply (disk_inv_same _ _ _ _ w).
  - apply (disk_run r sp jp K args); done.
  - apply (disk_recover_delivery r sp jp K args); auto.
Qed.
End histories.

Definition answered_once (l : list delivery) : Prop := NoDup (map input_of l).
Definition same_envelope (l : list delivery) : Prop :=
  ∀ d d', d ∈ l → d' ∈ l → input_of d = input_of d' → envelope_of d = envelope_of d'.

Lemma answered_once_fresh : fresh_closed answered_once.
Proof.
  intros l d Hl Hd. unfold answered_once. rewrite map_app. apply NoDup_app. split; [done|].
  split; [|apply NoDup_singleton]. intros q Hq ->%list_elem_of_singleton.
  apply list_elem_of_In, in_map_iff in Hq as (d'&E&Hd'%list_elem_of_In). by apply (Hd d').
Qed.

Lemma same_envelope_again : again_closed same_envelope.
Proof.
  intros l d Hl Hd d1 d2 [H1| ->%list_elem_of_singleton]%elem_of_app
    [H2| ->%list_elem_of_singleton]%elem_of_app E; auto. symmetry. auto.
Qed.

(** ** One machine *)

(** The room [lobby] holds the request [/ping] of another agent as message 5;
    the answer is message 6. *)
Definition sim_did (n : Z) : str := match did_from_private_key (toy_seed n) with Ok d => d | Err _ => [] end.
Definition sim_identity : json :=
  JDict [(u "did", JStr (sim_did 1));
         (u "fingerprint", JStr (match fingerprint_of_did (sim_did 1) with Ok f => f | Err _ => [] end));
         (u "custody", JDict [(u "backend", JStr (u "macos-keychain")); (u "service", JStr (u "s"));
                              (u "account", JStr (u "a"))])].

#[export] Instance sim_keychain : Keychain := λ _ _ _, SecretPrinted (u "01" ++ replicate 62 48 ++ [10]).

Definition sim_message (seq : Z) (did text nonce : str) : json :=
  JDict [(u "seq", JInt seq); (u "from", JStr did); (u "text", JStr text); (u "nonce", JStr nonce)].
Definition sim_request : json := sim_message 5 (sim_did 2) (u "/ping") (u "7").
Definition sim_reply : json := sim_message 6 (sim_did 1) (u "pong") (u "1700000000000000000").

Definition sim_snapshot (ms : list json) (first last : Z) (posted : list (str * json)) : http_result :=
  HttpBody 200 (dumps false (JDict ([(u "room", JStr (u "lobby")); (u "first_seq", JInt first);
    (u "last_seq", JInt last); (u "messages", JList ms)] ++ posted))).

(** What the server says to a read since 0, a read since 5 and a signed message. *)
Definition sim_answer (url : str) : http_result :=
  if startswith (u "https://technocore.chat/r/lobby?format=json&since=5") url
  then sim_snapshot [sim_reply] 6 6 []
  else if startswith (u "https://technocore.chat/r/lobby?format=json&since=0") url
  then sim_snapshot [sim_request; sim_reply] 5 6 []
  else sim_snapshot [sim_reply] 6 6 [(u "posted", sim_reply)].

Definition sim_args (apply : bool) : RunArgs :=
  MkRunArgs (u "/agent/id.json") (Some (u "lobby")) None None (Finite 20 (u "20")) (Finite 15 (u "15"))
    (Finite 10 (u "10")) 50 true StartZero None None None None [sim_did 2] false None true apply false.

Definition sim_start : world memory :=
  toy_world empty_memory
    [(Path (u "/agent/id.json"), File Regular MODE_0600 501 (dumps false sim_identity))].

Definition sim_env (crash_at : nat) : Env :=
  toy_env (λ n, if Nat.eqb n crash_at then CrashFault else NoFault) sim_answer.
Definition sim_state : path := Path (u "/agent/safe-agent-state.json").
Definition sim_journal : path := Path (u "/agent/safe-agent-delivery.json").

#[export] Instance sim_paths : Paths sim_state sim_journal.
Proof. by split. Qed.

Lemma sim_uses apply : uses sim_state sim_journal (sim_args apply).
Proof. split; [done|done|by intros p [= <-]|by intros p [= <-]]. Qed.

(** A run that dies after action [n], a run after it, a recovery. *)
Section sim_history.
Context (n : nat).
#[local] Instance sim_history_env : Env := sim_env n.

Definition sim_run : world memory := (_run (sim_args true) 3 sim_start).2.
Definition sim_rerun : world memory := (_run (sim_args true) 3 sim_run).2.
Definition sim_recovery : world memory := (_recover_delivery (sim_args true) sim_rerun).2.

Lemma sim_rerun_reachable recoveries : reachable (u "lobby") sim_state sim_journal recoveries sim_rerun.
Proof.
  apply ran; [|done|apply sim_uses|done]. apply ran; [|done|apply sim_uses|done]. by apply installed.
Qed.

Lemma sim_recovery_reachable : reachable (u "lobby") sim_state sim_journal True sim_recovery.
Proof. apply recovered; [done|apply sim_rerun_reachable|apply sim_uses|done]. Qed.
End sim_history.

(** ** The theorems *)

(** C1: however often live processes are started, and wherever any of them is
    stopped by a fault or dies, no room message is answered twice: as long as
    [recover-delivery] is not used, every input is delivered at most once. *)
Theorem at_most_once `{HEnv : Env} {HLaws : EnvLaws} `{UrlLib} `{Ed25519} `{FloatRepr} `{Keychain}
    (r : str) (sp jp : path) {Hpaths : Paths sp jp} (w : world memory) :
  reachable r sp jp False w → answered_once (deliveries (w_trace w)).
Proof.
  intros Hw. apply (reachable_disk r sp jp False answered_once w); try done.
  - apply answered_once_fresh.
  - apply NoDup_nil_2.
Qed.

Lemma at_most_once_witness : answered_once (deliveries (w_trace (sim_rerun 40))).
Proof.
  apply (at_most_once (HEnv := sim_env 40) (HLaws := toy_env_laws _ _) (u "lobby") sim_state sim_journal).
  apply sim_rerun_reachable.
Defined.

(** C2: with recoveries too, whatever is delivered again for an input is the
    signed message that was delivered before: same nonce, text and signature. *)
Theorem resends_same_envelope `{HEnv : Env} {HLaws : EnvLaws} `{UrlLib} `{Ed25519} `{FloatRepr} `{Keychain}
    (r : str) (sp jp : path) {Hpaths : Paths sp jp} (w : world memory) :
  reachable r sp jp True w → same_envelope (deliveries (w_trace w)).
Proof.
  intros Hw. apply (reachable_disk r sp jp True same_envelope w); try done.
  - apply again_fresh, same_envelope_again.
  - intros _. apply same_envelope_again.
  - by intros ? ? ?%elem_of_nil.
Qed.

Lemma resends_same_envelope_witness : same_envelope (deliveries (w_trace (sim_recovery 40))).
Proof.
  apply (resends_same_envelope (HEnv := sim_env 40) (HLaws := toy_env_laws _ _) (u "lobby") sim_state sim_journal).
  apply sim_recovery_reachable.
Defined.

(** C3: at every moment of such a history a message that was delivered is on
    record: the state file says the cursor has passed its input, or the journal
    file holds that very message. *)
Theorem deliveries_on_record `{HEnv : Env} {HLaws : EnvLaws} `{UrlLib} `{Ed25519} `{FloatRepr} `{Keychain}
    (r : str) (sp jp : path) {Hpaths : Paths sp jp} (w : world memory) :
  reachable r sp jp True w →
  ∃ s, state_wf s ∧ on_disk sp s w ∧
    ∀ d, d ∈ deliveries (w_trace w) →
      room_of d = r ∧
      (input_of d ≤ cursor_for r s ∨
       ∃ rec, record_wf rec ∧ journal_holds jp rec w ∧ input_sequence rec = input_of d ∧
              record_envelope rec = envelope_of d).
Proof.
  intros Hw. destruct (reachable_disk r sp jp True (λ _, True) w) as [(s&[Hwf Hdisk Hjw Hroom Hcov Hmatch]) _]; try done.
  exists s. split; [done|]. split; [done|]. intros d Hd. split; [by apply Hroom|].
  destruct (Hcov d Hd) as [?|(rec&?&?&?)]; [by left|right]. exists rec. eauto.
Qed.

Lemma deliveries_on_record_witness :
  ∃ s, state_wf s ∧ @on_disk memory (sim_env 40) sim_state s (sim_recovery 40) ∧
    ∀ d, d ∈ deliveries (w_trace (sim_recovery 40)) →
      room_of d = u "lobby" ∧
      (input_of d ≤ cursor_for (u "lobby") s ∨
       ∃ rec, record_wf rec ∧ @journal_holds memory (sim_env 40) sim_journal rec (sim_recovery 40) ∧
              input_sequence rec = input_of d ∧ record_envelope rec = envelope_of d).
Proof.
  apply (deliveries_on_record (HEnv := sim_env 40) (HLaws := toy_env_laws _ _) (u "lobby") sim_state sim_journal).
  apply sim_recovery_reachable.
Defined.
