(* ===== verification/DryRun.v ===== *)
(** A run without [--send]: whatever happens, it leaves every file as it was and
    delivers nothing. *)

From S2P Require Import Prelude Errors Text Json Crypto Url Clock Effects State Memory Protocol Toy.
From S2P Require Import Capabilities Receipt Policy Delivery AuditLog Config Identity Lock Agent.
From S2P Require Import Recovery Run AgentSafety AtMostOnce RecoverySafety History.

(** The memory may change, nothing else does. *)
Abbreviation Silent := (Keeps (λ _, True) anything).

Lemma keeps_weaken {Mem A} (Q Q' : Mem → Mem → Prop) (m : M Mem A) :
  (∀ x y, Q x y → Q' x y) → Keeps (λ _, True) Q m → Keeps (λ _, True) Q' m.
Proof. intros HQ Hm w. destruct (Hm w) as [F M T]. split; auto. Qed.

Lemma silent_of_same {A} (m : IO A) : Keeps (λ _, True) same_state m → Silent m.
Proof. by apply keeps_weaken. Qed.

Lemma silent_memory {A} (m : IO A) :
  (∀ w, w_fs (m w).2 = w_fs w ∧ w_trace (m w).2 = w_trace w) → Silent m.
Proof. intros Hm w. destruct (Hm w) as [Hf Ht]. split; [by rewrite Hf|done|by rewrite Ht]. Qed.

Lemma silent_put_state s : Silent (put_state s).
Proof. by apply silent_memory. Qed.

Lemma silent_modify_state f : Silent (modify_state f).
Proof.
  apply silent_memory. intros w. unfold modify_state, get_state, mbind, M_bind. cbn.
  by destruct (f (m_state (w_mem w))).
Qed.

Lemma silent_update_state {A} (f : AgentState → res (A * AgentState)) : Silent (update_state f).
Proof.
  apply silent_memory. intros w. unfold update_state, get_state, mbind, M_bind. cbn.
  by destruct (f (m_state (w_mem w))) as [[]|].
Qed.

Lemma silent_put_mem (m : memory) : Silent (put_mem m).
Proof. by apply silent_memory. Qed.

#[export] Hint Resolve silent_put_state silent_modify_state silent_update_state silent_put_mem : keeps.

Section dry.
Context `{HEnv : Env} {HLaws : EnvLaws} `{UrlLib} `{Ed25519} `{FloatRepr} `{Keychain}.
Implicit Types w : world memory.
Set Default Proof Using "All".

(** The limiter only counts. *)
Definition only_counts (p : CommandPolicy) : Prop := ∀ l, rate_limiter p = Some l → consume l = false.

Lemma silent_allow did limit l : consume l = false → Silent (allow did limit l).
Proof. intros Hl. unfold allow. rewrite Hl. keeps. Qed.

Lemma silent_decide message p : only_counts p → Silent (decide message p).
Proof.
  intros Hp. unfold decide. apply keeps_bind; [apply _|by apply silent_of_same, keeps_authorize_sender|].
  intros [denial grant]. unfold _decide_authorized_command.
  repeat first [apply keeps_ret; apply _ | apply keeps_raise; apply _ | by apply silent_allow, Hp
               | apply keeps_bind; [apply _| |intros ?] | apply keeps_lift; apply _ | case_match].
Qed.

Lemma silent_process_snapshot a snapshot :
  send a = false → only_counts (policy a) → Silent (process_snapshot a snapshot).
Proof.
  intros Hs Hp. unfold process_snapshot.
  assert (∀ m, Silent (_event_for_message a m)) as He.
  { intros m. unfold _event_for_message, _reply_event, _receipt_event. rewrite Hs.
    pose proof (silent_decide m (policy a) Hp). keeps. }
  assert (∀ ms c h es, Silent (process_messages a ms c h es)) as Hms.
  { induction ms as [|m ms IH]; intros c h es; cbn [process_messages]; [keeps|].
    specialize (He m). unfold _persist_processed_message. rewrite Hs. keeps. }
  rewrite Hs. cbn [andb]. keeps.
Qed.

Lemma silent_bootstrap a : send a = false → Silent (bootstrap_latest a).
Proof. intros Hs. unfold bootstrap_latest. rewrite Hs. keeps. Qed.
Lemma command_policy_counts args did sp p w w' :
  arg_send args = false → _command_policy args did sp w = (Ret p, w') → only_counts p.
Proof.
  intros Hs. unfold _command_policy. destruct (capability_policy args) as [file|].
  - intros (?&w1&_&[Hp _]%lift_Ret)%bind_Ret. unfold policy_init in Hp.
    apply res_bind_Ok in Hp as (?&_&Hp). apply res_bind_Ok in Hp as (?&_&[= <-]). by intros l [= <-].
  - intros (?&w1&_&Hp)%bind_Ret. apply bind_Ret in Hp as (?&w2&_&[Hp _]%lift_Ret). unfold policy_init in Hp.
    apply res_bind_Ok in Hp as (?&_&Hp). apply res_bind_Ok in Hp as (?&_&[= <-]). by intros l [=].
Qed.

Lemma silent_poll args fuel a n backoff :
  send a = false → only_counts (policy a) → Silent (_poll args fuel a n backoff).
Proof.
  intros Hs Hp. revert n backoff. induction fuel as [|fuel IH]; intros n backoff; cbn [_poll]; [keeps|].
  assert (Silent (poll_once args a n)).
  { unfold poll_once. pose proof (λ s, silent_process_snapshot a s Hs Hp).
    pose proof (keeps_print_event (λ _, True) anything). keeps. }
  pose proof (keeps_print_event (λ _, True) anything).
  pose proof (keeps_sleep_until (λ _, True) anything). keeps.
Qed.

Lemma silent_run args fuel : arg_send args = false → Silent (_run args fuel).
Proof.
  intros Hs. unfold _run. rewrite Hs.
  apply keeps_bind; [apply _|apply silent_put_mem|]. intros _.
  apply keeps_bind; [apply _|apply keeps_load_identity; apply _|]. intros [record key].
  apply keeps_bind; [apply _|apply keeps_lift; apply _|]. intros [[ip cp] dp].
  apply keeps_bind; [apply _|apply keeps_lift; apply _|]. intros _. cbv zeta. unfold _run_with_identity.
  apply keeps_bind; [apply _|apply keeps_active_config; apply _|]. intros config.
  apply keeps_bind; [apply _|apply keeps_lift; apply _|]. intros [room url].
  apply keeps_bind; [apply _|apply keeps_load; apply _|]. intros s.
  apply keeps_bind; [apply _|apply silent_put_state|]. intros _ w.
  apply (steps_bind_at (frame (λ _, True) anything)); [by apply silent_of_same, keeps_command_policy|].
  intros p w1 Hp%(command_policy_counts _ _ _ _ _ _ Hs). revert w1.
  apply keeps_bind; [apply _|by apply silent_of_same, keeps_live_artifacts|]. intros [j l].
  apply keeps_bind; [apply _|apply keeps_lift; apply _|]. intros c.
  apply keeps_bind; [apply _|apply keeps_lift; apply _|]. intros service.
  apply keeps_bind; [apply _| |intros []; [apply keeps_ret; apply _|by apply silent_poll]].
  unfold _initialize_cursor. pose proof (keeps_print_event (λ _, True) anything).
  pose proof (λ a, silent_bootstrap a). keeps.
Qed.
End dry.

(** C19: a dry run leaves no trace: without [--send], whatever the room, the disk
    and the clocks do and wherever the process dies, every file is what it was
    and no signed message is delivered. *)
Theorem dry_run_changes_nothing `{HEnv : Env} {HLaws : EnvLaws} `{UrlLib} `{Ed25519} `{FloatRepr} `{Keychain}
    (args : RunArgs) (fuel : nat) (w : world memory) :
  arg_send args = false →
  w_fs (_run args fuel w).2 = w_fs w ∧ deliveries (w_trace (_run args fuel w).2) = deliveries (w_trace w).
Proof.
  intros Hs. destruct (silent_run args fuel Hs w) as [F _ T]. split; [|done].
  apply map_eq. intros p. by apply F.
Qed.

Definition dry_args : RunArgs :=
  MkRunArgs (u "/agent/id.json") (Some (u "lobby")) None None (Finite 20 (u "20")) (Finite 15 (u "15"))
    (Finite 10 (u "10")) 50 true StartZero None None None None [sim_did 2] false None false false false.

Lemma dry_run_changes_nothing_witness :
  let w' := (_run (H := sim_env 9) dry_args 3 sim_start).2 in
  w_fs w' = w_fs sim_start ∧ deliveries (w_trace w') = [].
Proof.
  exact (dry_run_changes_nothing (HEnv := sim_env 9) (HLaws := toy_env_laws _ _) dry_args 3 sim_start eq_refl).
Defined.
