(* ===== verification/Traffic.v ===== *)
(** The record of deliveries that [History] speaks of is the traffic itself:
    whatever a live process writes to the server is the message it recorded just
    before, and all its other requests are reads. *)

From S2P Require Import Prelude Errors Text Regex Json Crypto Url Clock Effects State Memory Quiet Protocol Clients.
From S2P Require Import Requests Capabilities Receipt Policy Delivery AuditLog Config Identity Lock Agent.
From S2P Require Import Recovery Run.

(** The requests of a process, in order.  A recorded message is followed at once
    by the request that sends exactly it, unless the client refuses it. *)
Inductive heard `{FloatRepr} : list event → Prop :=
  | heard_nil : heard []
  | heard_read client room since wait limit buster l :
      heard l → heard (EvHttp (read_url client room since wait limit buster) :: l)
  | heard_github path l :
      startswith (u "/repos/") path = true → heard l →
      heard (EvHttp (u "https://" ++ GITHUB_API_HOST ++ path) :: l)
  | heard_write client room input did nonce text signature url l :
      send_url client room did signature (int_str nonce) text = Ok url → heard l →
      heard (EvDeliver room input (nonce, text, signature) :: EvHttp url :: l)
  | heard_refused d l : heard l → heard (EvDeliver d.1.1 d.1.2 d.2 :: l).

Lemma heard_app `{FloatRepr} l1 l2 : heard l1 → heard l2 → heard (l1 ++ l2).
Proof. intros H1 H2. induction H1; cbn; [done|econstructor..]; eauto. Qed.

Definition hears {Mem} `{FloatRepr} (w w' : world Mem) : Prop := ∃ l, w_trace w' = w_trace w ++ l ∧ heard l.

#[export] Instance hears_preorder {Mem} `{FloatRepr} : PreOrder (hears (Mem := Mem)).
Proof.
  split; [intros w; exists []; split; [by rewrite app_nil_r|constructor]|].
  intros w1 w2 w3 (l1&E1&H1) (l2&E2&H2). exists (l1 ++ l2).
  split; [by rewrite E2, E1, app_assoc|by apply heard_app].
Qed.

Abbreviation Hears m := (Steps hears m).

Lemma hears_quiet {Mem A} `{FloatRepr} (m : M Mem A) : Quiet m → Hears m.
Proof. intros Hm w. exists []. rewrite app_nil_r. split; [apply Hm|constructor]. Qed.

Create HintDb hears.

Ltac hears_step :=
  first
    [ assumption | apply keeps_ret; apply _ | apply keeps_raise; apply _ | apply keeps_crash; apply _
    | apply keeps_lift; apply _ | apply keeps_check; apply _
    | apply keeps_get_mem; apply _ | apply keeps_get_files; apply _
    | solve [eauto with hears] | apply hears_quiet; solve [eauto with quiet]
    | apply keeps_bind; [apply _| |intros ?] | apply keeps_try; [apply _| |intros ?]
    | apply keeps_on_raise; [apply _| | ] | apply keeps_finally; [apply _| | ]
    | apply keeps_mapM_; [apply _|intros ?]
    | progress intros | case_match ].

(** Prove that a computation built from the operations below is heard. *)
Ltac hears := repeat hears_step.

(** ** The two requests *)

Lemma validate_nonce_shown n s : validate_nonce (JInt n) = Ok s → s = int_str n.
Proof. unfold validate_nonce. intros (?&_&Hn)%res_bind_Ok. by case_match; simplify_eq. Qed.

Section requests.
Context {Mem : Type} `{Env} `{FloatRepr}.
Implicit Types w : world Mem.
Set Default Proof Using "Type".

Lemma hears_read_room client room since wait limit buster :
  Hears (read_room (Mem := Mem) client room since wait limit buster).
Proof.
  intros w. destruct (read_room_asks client room since wait limit buster w) as (_&_&[E|(url&(q&->)&E)]);
    unfold hears; rewrite E.
  - exists []. rewrite app_nil_r. split; [done|constructor].
  - eexists. split; [done|]. apply (heard_read _ _ _ _ _ _ []), heard_nil.
Qed.

(** A message that was recorded and handed to the client. *)
Lemma hears_handed client room input did nonce text signature w w0 :
  w_trace w0 = w_trace w ++ [EvDeliver room input (nonce, text, signature)] →
  hears w (send_signed_message client room did signature (JInt nonce) text w0).2.
Proof.
  intros E0. destruct (send_request client room did signature (JInt nonce) text w0) as (_&_&[E|(url&(n&Hn&Hu)&E)]).
  - exists [EvDeliver room input (nonce, text, signature)]. rewrite E, E0. split; [done|].
    apply (heard_refused (room, input, (nonce, text, signature))), heard_nil.
  - exists [EvDeliver room input (nonce, text, signature); EvHttp url]. rewrite E, E0, <- app_assoc.
    split; [done|]. apply validate_nonce_shown in Hn as ->. by eapply heard_write; [|constructor].
Qed.

(** A way of sending is faithful when its request is the message it is given,
    or there is none. *)
Definition faithful room input nonce text signature (sending : M Mem RoomMessage) : Prop :=
  ∀ w w0, w_trace w0 = w_trace w ++ [EvDeliver room input (nonce, text, signature)] → hears w (sending w0).2.

Lemma hears_deliver room input nonce text signature sending c (e : exn) {A} (f : RoomMessage → M Mem A) :
  faithful room input nonce text signature sending → (∀ p, Hears (f p)) →
  Hears (emit (EvDeliver room input (nonce, text, signature));;
         p ← try_except sending c (λ _, raise e);
         f p).
Proof.
  intros Hs Hf w. set (ev := EvDeliver room input (nonce, text, signature)).
  set (w1 := World (w_fs w) (w_mem w) (w_tick w) (w_trace w ++ [ev])).
  pose proof (Hs w w1 eq_refl) as Hh. unfold mbind, M_bind, emit, try_except. fold w1.
  destruct (sending w1) as [[p|x|] w2]; cbn in *; [|by destruct (c x)|done].
  etrans; [exact Hh|]. apply Hf.
Qed.

Lemma faithful_direct client room input did nonce text signature :
  faithful room input nonce text signature (send_signed_message client room did signature (JInt nonce) text).
Proof. intros w w0. apply hears_handed. Qed.
End requests.

(** A recorded message that is handed over as the last step. *)
Lemma hears_deliver_last `{Env} `{FloatRepr} {Mem} client room input did nonce text signature c (e : exn) :
  Hears (emit (Mem := Mem) (EvDeliver room input (nonce, text, signature));;
         try_except (send_signed_message client room did signature (JInt nonce) text) c (λ _, raise e)).
Proof.
  intros w. pose proof (hears_deliver room input nonce text signature _ c e mret
    (faithful_direct (Mem := Mem) client room input did nonce text signature) (λ p, keeps_ret _ p) w) as Hh.
  revert Hh. unfold mbind, M_bind. cbn. by destruct (try_except _ _ _ _) as [[]].
Qed.

#[export] Hint Resolve hears_read_room hears_deliver_last : hears.

(** ** The components send nothing *)

Section components.
Context `{Env} `{UrlLib} `{Ed25519} `{FloatRepr} `{Keychain}.
Set Default Proof Using "Type".

Lemma quiet_get_state : Quiet get_state.
Proof. by intros w. Qed.
Lemma quiet_put_state s : Quiet (put_state s).
Proof. by intros w. Qed.
Lemma quiet_ask_state {A} (f : AgentState → res A) : Quiet (ask_state f).
Proof. pose proof quiet_get_state. unfold ask_state. quiet. Qed.
Lemma quiet_modify_state f : Quiet (modify_state f).
Proof. pose proof quiet_get_state. pose proof quiet_put_state. unfold modify_state. quiet. Qed.
Lemma quiet_update_state {A} (f : AgentState → res (A * AgentState)) : Quiet (update_state f).
Proof. pose proof quiet_get_state. pose proof quiet_put_state. unfold update_state. quiet. Qed.
Lemma quiet_save_state p : Quiet (save_state p).
Proof. pose proof quiet_get_state. unfold save_state. quiet. Qed.

#[local] Hint Resolve quiet_get_state quiet_put_state quiet_ask_state quiet_modify_state quiet_update_state
  quiet_save_state : quiet.

Lemma quiet_load_journal p : Quiet (load_journal (Mem := memory) p).
Proof. unfold load_journal, sync_directory, os_errors. quiet. Qed.
Lemma quiet_write_journal r p : Quiet (_write (Mem := memory) r p).
Proof. unfold _write, sync_directory, os_errors. quiet. Qed.
#[local] Hint Resolve quiet_load_journal quiet_write_journal : quiet.
Lemma quiet_require_empty p : Quiet (require_empty (Mem := memory) p).
Proof. unfold require_empty. quiet. Qed.
Lemma quiet_prepare r p : Quiet (prepare (Mem := memory) r p).
Proof. unfold prepare. quiet. Qed.
Lemma quiet_acknowledge n p : Quiet (acknowledge (Mem := memory) n p).
Proof. unfold acknowledge. quiet. Qed.
Lemma quiet_clear p : Quiet (clear (Mem := memory) p).
Proof. unfold clear, sync_directory, os_errors. quiet. Qed.

Lemma quiet_load_config p : Quiet (load_config (Mem := memory) p).
Proof. unfold load_config. quiet. Qed.
Lemma quiet_load_identity_record p : Quiet (load_identity_record (Mem := memory) p).
Proof. unfold load_identity_record. quiet. Qed.
#[local] Hint Resolve quiet_load_identity_record : quiet.
Lemma quiet_load_identity p : Quiet (_load_identity (Mem := memory) p).
Proof. unfold _load_identity, load_verified_private_key, load_seed. quiet. Qed.
Lemma quiet_verify_log p : Quiet (verify_log (Mem := memory) p).
Proof. unfold verify_log, check_descriptor, os_errors. quiet. Qed.
#[local] Hint Resolve quiet_verify_log : quiet.
Lemma quiet_verify p head : Quiet (verify (Mem := memory) p head).
Proof. unfold verify, os_errors. quiet. Qed.
Lemma quiet_append p did key now f : Quiet (append (Mem := memory) p did key now f).
Proof. unfold append, check_descriptor, _write_all, os_errors. quiet. Qed.
Lemma quiet_load_policy p : Quiet (load_policy p).
Proof. unfold load_policy, os_errors. quiet. Qed.
#[local] Hint Resolve quiet_load_policy : quiet.
Lemma quiet_allow did limit l : Quiet (allow did limit l).
Proof. unfold allow. quiet. Qed.
#[local] Hint Resolve quiet_allow : quiet.
Lemma quiet_decide m p : Quiet (decide m p).
Proof. unfold decide, _authorize_sender, _grant_for, _decide_authorized_command. quiet. Qed.
Lemma hears_connection path :
  startswith (u "/repos/") path = true → Hears (connection_get (Mem := memory) GITHUB_API_HOST path).
Proof.
  intros Hp w. unfold connection_get, network, mbind, M_bind, hears. cbn [next_tick].
  assert (heard [EvHttp (u "https://" ++ GITHUB_API_HOST ++ path)]) as Hh by (by apply heard_github, heard_nil).
  assert (∃ l, w_trace w = w_trace w ++ l ∧ heard l) as Hn
    by (exists []; rewrite app_nil_r; split; [done|constructor]).
  destruct (env_fault (w_tick w)); cbn; try done; destruct (env_fault (S (w_tick w))); cbn; eauto.
Qed.
Lemma hears_request_object p : Hears (_request_object p).
Proof.
  intros w. unfold _request_object. apply steps_bind_at; [apply _|hears|].
  intros [] w1 [Hp _]%check_Ret. apply orb_false_elim in Hp as [Hp%negb_false_iff _]. revert w1.
  pose proof (hears_connection p Hp). unfold transport_request. hears.
Qed.
#[local] Hint Resolve hears_request_object : hears.
Lemma hears_issue service target : Hears (issue service target).
Proof. unfold issue, inspect, get_last_attempt, put_last_attempt. hears. Qed.
Lemma quiet_print_event e : Quiet (_print_event e).
Proof. unfold _print_event. quiet. Qed.
Lemma quiet_sleep_until fuel t : Quiet (sleep_until fuel t).
Proof. induction fuel as [|fuel IH]; cbn [sleep_until]; quiet. Qed.
Lemma quiet_acquire p : Quiet (acquire (Mem := memory) p).
Proof. unfold acquire, release. quiet. Qed.
Lemma quiet_release : Quiet (release (Mem := memory)).
Proof. unfold release. quiet. Qed.
End components.

#[export] Hint Resolve quiet_get_state quiet_put_state quiet_ask_state quiet_modify_state quiet_update_state
  quiet_save_state quiet_load_journal quiet_write_journal quiet_require_empty quiet_prepare quiet_acknowledge
  quiet_clear quiet_load_config quiet_load_identity_record quiet_load_identity quiet_verify quiet_append
  quiet_load_policy quiet_allow quiet_decide quiet_print_event quiet_sleep_until quiet_acquire
  quiet_release : quiet.
#[export] Hint Resolve hears_issue : hears.

(** ** The processes *)

Section processes.
Context `{Env} `{UrlLib} `{Ed25519} `{FloatRepr} `{Keychain}.
Set Default Proof Using "Type".

Lemma quiet_get_writes : Quiet get_writes.
Proof. by intros w. Qed.
Lemma quiet_put_writes ws : Quiet (put_writes ws).
Proof. by intros w. Qed.
#[local] Hint Resolve quiet_get_writes quiet_put_writes : quiet.

Lemma hears_at_lift {A B} (x : res A) (f : A → IO B) (w w0 : world memory) :
  hears w w0 → (∀ a, hears w (f a w0).2) → hears w ((lift x ≫= f) w0).2.
Proof. intros Hw Hf. destruct x; [apply Hf|exact Hw]. Qed.

Lemma hears_then {A B} (m : IO A) (f : A → IO B) (w w0 : world memory) :
  hears w (m w0).2 → (∀ a, Hears (f a)) → hears w ((m ≫= f) w0).2.
Proof.
  intros Hm Hf. unfold mbind, M_bind. destruct (m w0) as [[a|e|] w1]; [|done..]. etrans; [exact Hm|apply Hf].
Qed.

(** The audited client only looks before it sends and records afterwards. *)
Lemma faithful_client client room input did nonce text signature :
  faithful room input nonce text signature (client_send client room did signature nonce text).
Proof.
  destruct client as [plain|plain]; cbn [client_send]; [apply faithful_direct|]. intros w w0 E0.
  assert (hears w w0).
  { eexists. split; [exact E0|]. apply (heard_refused (room, input, (nonce, text, signature))), heard_nil. }
  unfold audited_send_signed_message, check at 1.
  apply hears_at_lift; [done|]. intros raw. apply hears_at_lift; [done|]. intros _.
  apply hears_then; [by eapply hears_handed|]. intros posted. hears.
Qed.

Lemma hears_send_text a text input : Hears (_send_text a text input).
Proof. unfold _send_text. repeat first [apply hears_deliver; [apply faithful_client|intros ?] | hears_step]. Qed.
Lemma hears_event_for_message a m : Hears (_event_for_message a m).
Proof.
  pose proof (hears_send_text a). unfold _event_for_message, _reply_event, _receipt_event. hears.
Qed.
Lemma hears_persist a m e : Hears (_persist_processed_message a m e).
Proof. unfold _persist_processed_message, _append_audit_record. hears. Qed.
Lemma hears_process_messages a ms c h es : Hears (process_messages a ms c h es).
Proof.
  pose proof (hears_event_for_message a). pose proof (hears_persist a).
  revert c h es. induction ms as [|m ms IH]; intros c h es; cbn [process_messages]; hears.
Qed.
Lemma hears_process_snapshot a s : Hears (process_snapshot a s).
Proof. pose proof (hears_process_messages a). unfold process_snapshot. hears. Qed.
Lemma hears_bootstrap a : Hears (bootstrap_latest a).
Proof. unfold bootstrap_latest, client_read_room. hears. Qed.
Lemma hears_poll args fuel a n b : Hears (_poll args fuel a n b).
Proof.
  pose proof (hears_process_snapshot a). revert n b.
  induction fuel as [|fuel IH]; intros n b; cbn [_poll]; unfold poll_once, client_read_room; hears.
Qed.
Lemma hears_with_lock {A} p (m : IO A) : Hears m → Hears (with_lock p m).
Proof. intros Hm. unfold with_lock. hears. Qed.
Lemma hears_run_with_identity args fuel record key ip cp sp :
  Hears (_run_with_identity args fuel record key ip cp sp).
Proof.
  pose proof (hears_poll args fuel). pose proof hears_bootstrap.
  unfold _run_with_identity, _load_active_config, active_config, _command_policy, _live_artifacts,
    _initialize_cursor. hears.
Qed.
Lemma hears_run args fuel : Hears (_run args fuel).
Proof.
  pose proof (hears_run_with_identity args fuel). unfold _run.
  repeat first [apply hears_with_lock | hears_step].
Qed.

Lemma hears_retry c room record : Hears (_retry_exact_envelope c room record).
Proof. apply hears_deliver_last. Qed.
Lemma hears_finalize c room record n : Hears (_finalize_recovery c room record n).
Proof. unfold _finalize_recovery, _persist_recovered_state. hears. Qed.
Lemma hears_recover c : Hears (recover_delivery c).
Proof.
  pose proof (hears_retry c). pose proof (hears_finalize c).
  unfold recover_delivery, _recover_acknowledged, _recover_pending. hears.
Qed.
Lemma hears_recover_delivery args : Hears (_recover_delivery args).
Proof.
  pose proof hears_recover. unfold _recover_delivery, recover_command, recovery_config, active_config.
  repeat first [apply hears_with_lock | hears_step].
Qed.
End processes.

(** C4: the record of deliveries is the traffic.  Whatever happens to a live
    process or a recovery, its requests to the server are reads, requests to the
    GitHub interface, and writes; and each write follows at once the delivery
    that was recorded for it and sends exactly its room, nonce, text and
    signature. *)
Theorem writes_are_recorded_deliveries `{Env} `{UrlLib} `{Ed25519} `{FloatRepr} `{Keychain}
    (args : RunArgs) (fuel : nat) (w : world memory) :
  (∃ l, w_trace (_run args fuel w).2 = w_trace w ++ l ∧ heard l) ∧
  (∃ l, w_trace (_recover_delivery args w).2 = w_trace w ++ l ∧ heard l).
Proof. split; [apply hears_run|apply hears_recover_delivery]. Qed.
