(* ===== verification/PilotSafety.v ===== *)
(** What the receipt pilot wrote to the room when it passes: the list of
    acknowledged writes is the traffic, and it is one command and one receipt. *)

From S2P Require Import Prelude Errors Text Json Crypto Url Clock Effects State Memory Quiet Protocol Clients.
From S2P Require Import Requests Capabilities Receipt Policy Delivery AuditLog Config Identity Agent Run Traffic Pilot.

(** The requests of the pilot, with the list its client keeps. *)
Inductive trail `{FloatRepr} `{Ed25519} (client : TechnocoreClient) (room : str)
    : list event → list _AcknowledgedSignedWrite → Prop :=
  | trail_nil : trail client room [] []
  | trail_read since wait limit buster l ws :
      trail client room l ws → trail client room (EvHttp (read_url client room since wait limit buster) :: l) ws
  | trail_github path l ws :
      startswith (u "/repos/") path = true → trail client room l ws →
      trail client room (EvHttp (u "https://" ++ GITHUB_API_HOST ++ path) :: l) ws
  | trail_handed d l ws : trail client room l ws → trail client room (EvDeliver d.1.1 d.1.2 d.2 :: l) ws
  | trail_write w canonical signature url l ws :
      utf8_encode (canonical_message room (w_nonce w) (w_text w)) = Ok canonical →
      verify_detached_signature (w_did w) canonical signature = true →
      send_url client room (w_did w) signature (w_nonce w) (w_text w) = Ok url →
      trail client room l ws → trail client room (EvHttp url :: l) (w :: ws).

Section trail.
Context `{FloatRepr} `{Ed25519} (client : TechnocoreClient) (room : str).
Implicit Types w : world memory.
Set Default Proof Using "Type".

Lemma trail_app l1 l2 ws1 ws2 :
  trail client room l1 ws1 → trail client room l2 ws2 → trail client room (l1 ++ l2) (ws1 ++ ws2).
Proof. intros H1 H2. induction H1; cbn; [done|econstructor..]; eauto. Qed.

(** What was asked and what was recorded between two worlds, when every write
    was one [D] admits. *)
Definition logged (D : _AcknowledgedSignedWrite → Prop) w w' : Prop :=
  ∃ l ws, w_trace w' = w_trace w ++ l ∧ m_writes (w_mem w') = m_writes (w_mem w) ++ ws ∧
          trail client room l ws ∧ Forall D ws.

#[export] Instance logged_preorder D : PreOrder (logged D).
Proof.
  split; [intros w; exists [], []; rewrite !app_nil_r; repeat split; constructor|].
  intros w1 w2 w3 (l1&s1&E1&M1&T1&F1) (l2&s2&E2&M2&T2&F2). exists (l1 ++ l2), (s1 ++ s2).
  rewrite E2, E1, M2, M1, !app_assoc. repeat split; [by apply trail_app|by apply Forall_app].
Qed.

Lemma logged_none (D : _AcknowledgedSignedWrite → Prop) w w' : logged (λ _, False) w w' → logged D w w'.
Proof. intros (l&ws&?&?&?&Hf). exists l, ws. repeat split; try done. by eapply Forall_impl. Qed.

Context (D : _AcknowledgedSignedWrite → Prop).

(** Asked for only when it returns: an attempt whose outcome is not known is
    not in the list. *)
Definition Logs {A} (m : IO A) : Prop := ∀ w a w', m w = (Ret a, w') → logged D w w'.

Lemma logs_steps {A} (m : IO A) : Steps (logged D) m → Logs m.
Proof. intros Hm w a w' E. specialize (Hm w). by rewrite E in Hm. Qed.

Lemma logs_bind {A B} (m : IO A) (f : A → IO B) : Logs m → (∀ a, Logs (f a)) → Logs (m ≫= f).
Proof. intros Hm Hf w b w' (a&w1&E1&E2)%bind_Ret. etrans; [by eapply Hm|by eapply Hf]. Qed.

(** An exception that is only turned into another. *)
Lemma rethrow_Ret {A} (m : IO A) c (e : exn) a w w' :
  try_except m c (λ _, raise e) w = (Ret a, w') → m w = (Ret a, w').
Proof. by intros [?|(?&?&_&_&[]%raise_Ret)]%try_Ret. Qed.

Lemma logs_rethrow {A} (m : IO A) c (e : exn) : Logs m → Logs (try_except m c (λ _, raise e)).
Proof. intros Hm w a w' E%rethrow_Ret. by eapply Hm. Qed.

(** *** What sends nothing and records nothing *)

Definition same_writes (m m' : memory) : Prop := m_writes m' = m_writes m.
#[export] Instance same_writes_preorder : PreOrder same_writes.
Proof. split; [done|]. intros x y z. unfold same_writes. congruence. Qed.
End trail.

Abbreviation Idle m := (Keeps no_path same_writes m).

Section idle.
Context `{Env} `{UrlLib} `{FloatRepr} `{Ed25519}.
Set Default Proof Using "Type".

Lemma logged_idle {A} client room D (m : IO A) : Quiet m → Idle m → Steps (logged client room D) m.
Proof.
  intros Hq Hm w. destruct (Hm w) as [_ Hw _]. exists [], []. rewrite !app_nil_r.
  split; [apply Hq|]. split; [exact Hw|]. split; constructor.
Qed.

Lemma idle_put_state s : Idle (put_state s).
Proof. intros w. by split. Qed.
Lemma idle_put_last_attempt t : Idle (put_last_attempt t).
Proof. intros w. by split. Qed.
Lemma idle_modify_state f : Idle (modify_state f).
Proof. pose proof idle_put_state. unfold modify_state, get_state. keeps. Qed.
Lemma idle_update_state {A} (f : AgentState → res (A * AgentState)) : Idle (update_state f).
Proof. pose proof idle_put_state. unfold update_state, get_state. keeps. Qed.
Lemma idle_save_state p : Idle (save_state p).
Proof. unfold save_state, get_state, save, write_temporary, os_errors. keeps; eauto with keeps. Qed.
#[local] Hint Resolve idle_put_last_attempt idle_modify_state idle_update_state idle_save_state : keeps.
Lemma idle_allow did limit l : Idle (allow did limit l).
Proof. unfold allow. keeps. Qed.
#[local] Hint Resolve idle_allow : keeps.
Lemma idle_decide m p : Idle (decide m p).
Proof. unfold decide, _authorize_sender, _grant_for, _decide_authorized_command. keeps. Qed.
Lemma idle_sleep : Idle sleep.
Proof. unfold sleep. keeps. Qed.
Lemma quiet_sleep : Quiet (sleep (Mem := memory)).
Proof. unfold sleep. quiet. Qed.
End idle.
#[export] Hint Resolve idle_put_state idle_put_last_attempt idle_modify_state idle_update_state idle_save_state
  idle_decide idle_sleep : keeps.
#[export] Hint Resolve quiet_sleep : quiet.

(** ** What the audited client and the responder log *)

Create HintDb logs.

Ltac logs_step :=
  first
    [ assumption
    | lazymatch goal with
      | |- Logs _ _ _ (_ ≫= _) => apply logs_bind; [|intros ?]
      | |- Logs _ _ _ (try_except _ _ (λ _, raise _)) => apply logs_rethrow
      end
    | solve [eauto with logs] | progress intros
    | case_match | apply logs_steps, logged_idle; [solve [quiet]|solve [keeps]] ].

(** Prove that what a computation asks and records is logged. *)
Ltac logs := repeat logs_step.

Section client.
Context `{Env} `{UrlLib} `{FloatRepr} `{Ed25519} (plain : TechnocoreClient) (room : str).
Context (D : _AcknowledgedSignedWrite → Prop).
Set Default Proof Using "Type".

(** An acknowledged write was checked, sent, and is recorded. *)
Lemma client_send_logged did sig nonce text posted w w' :
  client_send (Audited plain) room did sig nonce text w = (Ret posted, w') →
  let write := MkWrite (seq posted) did (int_str nonce) text in
  ∃ l, w_trace w' = w_trace w ++ l ∧ m_writes (w_mem w') = m_writes (w_mem w) ++ [write] ∧
       trail plain room l [write].
Proof.
  cbn [client_send]. unfold audited_send_signed_message.
  intros (raw&w1&[Hraw ->]%lift_Ret&(?&?&[Hv%negb_false_iff ->]%check_Ret&Hs)%bind_Ret)%bind_Ret.
  apply bind_Ret in Hs as (p&w2&(n&url&Hn%validate_nonce_shown&Hu&Ht&Hm)%send_heard&Hs). subst n.
  apply bind_Ret in Hs as (?&?&[_ ->]%check_Ret&Hs). apply bind_Ret in Hs as (ws&?&Hg&Hs).
  injection Hg as <- <-. apply bind_Ret in Hs as (?&w3&Hp&[-> ->]%ret_Ret). injection Hp as _ <-. cbn.
  exists [EvHttp url]. rewrite Ht, Hm. split; [done|]. split; [done|].
  by apply (trail_write _ _ (MkWrite (seq p) did (int_str nonce) text) raw sig url [] []); [..|constructor].
Qed.

Lemma logs_client_send did sig nonce text :
  (∀ s n, D (MkWrite s did n text)) → Logs plain room D (client_send (Audited plain) room did sig nonce text).
Proof.
  intros HD w p w' (l&E&M&T)%client_send_logged. exists l, [MkWrite (seq p) did (int_str nonce) text].
  do 3 (split; [done|]). by constructor.
Qed.

Lemma logs_read since wait limit buster :
  Steps (logged plain room D) (client_read_room (Audited plain) room since wait limit buster).
Proof.
  intros w. unfold client_read_room. cbn [inner].
  destruct (read_room_asks plain room since wait limit buster w) as (_&Hm&[E|(url&(q&->)&E)]);
    unfold logged; rewrite Hm, E.
  - exists [], []. rewrite !app_nil_r. repeat split; constructor.
  - exists [EvHttp (read_url plain room since q limit buster)], []. rewrite app_nil_r.
    split; [done|]. split; [done|]. split; [apply trail_read|]; constructor.
Qed.

Lemma logged_github path w w' :
  startswith (u "/repos/") path = true → w_mem w' = w_mem w →
  (w_trace w' = w_trace w ∨ w_trace w' = w_trace w ++ [EvHttp (u "https://" ++ GITHUB_API_HOST ++ path)]) →
  logged plain room D w w'.
Proof.
  intros Hp Hm [E|E]; unfold logged; rewrite Hm, E.
  - exists [], []. rewrite !app_nil_r. repeat split; constructor.
  - exists [EvHttp (u "https://" ++ GITHUB_API_HOST ++ path)], []. rewrite app_nil_r.
    split; [done|]. split; [done|]. split; [apply trail_github; [done|]|]; constructor.
Qed.

Lemma logs_connection path :
  startswith (u "/repos/") path = true → Steps (logged plain room D) (connection_get GITHUB_API_HOST path).
Proof.
  intros Hp w. apply (logged_github path); [done|..]; unfold connection_get, network, mbind, M_bind; cbn [next_tick];
    destruct (env_fault (w_tick w)); cbn; auto; destruct (env_fault (S (w_tick w))); cbn; auto.
Qed.
End client.
#[export] Hint Resolve logs_read logs_client_send : logs.

Ltac log_step :=
  first
    [ assumption
    | lazymatch goal with
      | |- Steps _ (_ ≫= _) => apply keeps_bind; [apply _| |intros ?]
      | |- Steps _ (try_except _ _ _) => apply keeps_try; [apply _| |intros ?]
      end
    | solve [eauto with logs] | progress intros
    | case_match | apply logged_idle; [solve [quiet]|solve [keeps]] ].

Section pilot_responder.
Context `{Env} `{UrlLib} `{FloatRepr} `{Ed25519} (plain : TechnocoreClient) (room : str).
Context (D : _AcknowledgedSignedWrite → Prop).
Set Default Proof Using "Type".
#[local] Abbreviation Logs := (Logs plain room D).
#[local] Abbreviation LogSteps m := (Steps (logged plain room D) m).

Lemma logs_request_object p : LogSteps (_request_object p).
Proof.
  intros w. unfold _request_object. apply steps_bind_at; [apply _|repeat log_step|].
  intros [] w1 [Hp _]%check_Ret. apply orb_false_elim in Hp as [Hp%negb_false_iff _]. revert w1.
  pose proof (logs_connection plain room D p Hp). unfold transport_request.
  match goal with |- ∀ w1, logged _ _ _ w1 (?m w1).2 => change (LogSteps m) end. repeat log_step.
Qed.

Lemma logs_issue service target : LogSteps (issue service target).
Proof.
  pose proof logs_request_object. unfold issue, inspect. repeat log_step.
Qed.

(** A responder of the pilot: its client is audited, it keeps neither journal
    nor log. *)
Context (a : SafeResponder).
Context (Hclient : Agent.client a = Audited plain) (Hroom : a_room a = room).
Context (Hjournal : delivery_journal a = None) (Haudit : audit_log a = None).
Context (HD : ∀ s n t, D (MkWrite s (a_did a) n t)).
Set Default Proof Using "All".

Lemma logs_emit d : LogSteps (emit (EvDeliver d.1.1 d.1.2 d.2)).
Proof.
  intros w. exists [EvDeliver d.1.1 d.1.2 d.2], []. rewrite app_nil_r. split; [done|]. split; [done|].
  split; [apply (trail_handed _ _ d)|]; constructor.
Qed.

Lemma logs_send_text text input : Logs (_send_text a text input).
Proof.
  assert (∀ sig nonce text, Logs (client_send (Audited plain) room (a_did a) sig nonce text)) by (intros; by apply logs_client_send).
  assert (∀ i e, Logs (emit (EvDeliver room i e))) by (intros i e; apply logs_steps, (logs_emit (room, i, e))).
  unfold _send_text. rewrite Hjournal, Hclient, Hroom.
  logs.
Qed.

Lemma logs_event_for_message m : Logs (_event_for_message a m).
Proof.
  pose proof logs_send_text. unfold _event_for_message, _reply_event, _receipt_event.
  assert (∀ service target, Logs (try_except (receipt ← issue service target; mret (inl receipt)) is_GitHubReceiptError
    (λ e, mret (inr e)))) by (intros; apply logs_steps; pose proof logs_issue; repeat log_step).
  logs.
Qed.

Lemma logs_persist m e : Logs (_persist_processed_message a m e).
Proof using Haudit Hjournal. unfold _persist_processed_message. rewrite Haudit, Hjournal. rewrite andb_false_r. logs. Qed.

Lemma logs_process_messages ms c h es : Logs (process_messages a ms c h es).
Proof.
  pose proof logs_event_for_message. pose proof logs_persist.
  revert c h es. induction ms as [|m ms IH]; intros c h es; cbn [process_messages]; logs.
Qed.

Lemma logs_process_snapshot s : Logs (process_snapshot a s).
Proof. pose proof logs_process_messages. unfold process_snapshot. logs. Qed.

Lemma logs_client_read since wait limit buster : Logs (client_read_room (Audited plain) room since wait limit buster).
Proof using Type. apply logs_steps, logs_read. Qed.

Lemma logs_drain : Logs (_drain_existing a).
Proof.
  pose proof logs_process_snapshot. pose proof logs_client_read.
  unfold _drain_existing. rewrite Hclient, Hroom. logs.
Qed.

Lemma logs_process_until attempts target : Logs (process_until attempts a target).
Proof. pose proof logs_drain. induction attempts as [|k IH]; cbn [process_until]; logs. Qed.

Lemma logs_until target : Logs (_process_until a target).
Proof. apply logs_process_until. Qed.

Lemma logs_room_tail : Logs (_room_tail (Audited plain) room).
Proof using Type. pose proof logs_client_read. unfold _room_tail. logs. Qed.

Lemma logs_baseline : Logs (_establish_receipt_pilot_baseline a (Audited plain)).
Proof. pose proof logs_drain. pose proof logs_room_tail. unfold _establish_receipt_pilot_baseline. rewrite Hroom. logs. Qed.

Lemma logs_pair baseline c r : Logs (_read_receipt_pilot_pair (Audited plain) room baseline c r).
Proof. pose proof logs_client_read. unfold _read_receipt_pilot_pair. logs. Qed.

Lemma logs_finish r : Logs (_finish_receipt_pilot a (Audited plain) room r).
Proof. pose proof logs_drain. pose proof logs_room_tail. unfold _finish_receipt_pilot. logs. Qed.
End pilot_responder.

(** ** Events and writes *)

Section unsent.
Context `{Env} `{UrlLib} `{FloatRepr} `{Ed25519} (plain : TechnocoreClient) (room : str).
Context (a : SafeResponder).
Context (Hclient : Agent.client a = Audited plain) (Hroom : a_room a = room).
Context (Hjournal : delivery_journal a = None) (Haudit : audit_log a = None).
Set Default Proof Using "All".

(** Nothing was recorded. *)
#[local] Abbreviation unsent := (logged plain room (λ _, False)).
#[local] Abbreviation Unsent m := (Logs plain room (λ _, False) m).

Lemma unsent_writes w w' : unsent w w' → m_writes (w_mem w') = m_writes (w_mem w).
Proof using Type. intros (l&ws&_&->&_&Hf). destruct ws; [by rewrite app_nil_r|by inversion Hf]. Qed.

(** An answer that was sent is an event that says so. *)
Lemma unsent_reply d m command reply q e w w' :
  _reply_event a (base_event a d m) q command reply w = (Ret e, w') → is_sent e = false → unsent w w'.
Proof using Type.
  unfold _reply_event. destruct (send a); cbn [negb]; [|by intros [_ ->]%ret_Ret].
  intros (p&w2&_&[-> _]%ret_Ret)%bind_Ret Hs. exfalso. clear -Hs. by vm_compute in Hs.
Qed.

Lemma unsent_receipt d m q target e w w' :
  _receipt_event a (base_event a d m) q target w = (Ret e, w') → is_sent e = false → unsent w w'.
Proof using Type.
  unfold _receipt_event. destruct (send a); cbn [negb]; [|by intros [_ ->]%ret_Ret].
  destruct (receipt_service a) as [service|]; [|by intros E%raise_Ret]. intros (issued&w1&Ei&E)%bind_Ret Hs.
  assert (unsent w w1) as Hi.
  { refine (logs_steps _ _ _ _ _ _ _ _ Ei). pose proof (logs_issue plain room (λ _, False)). repeat log_step. }
  destruct issued as [receipt|x]; [|by apply ret_Ret in E as [_ ->]].
  apply bind_Ret in E as (p&w2&_&[E _]%lift_Ret). exfalso. unfold sent_receipt_event in E.
  apply res_bind_Ok in E as (raw&_&[= <-]). clear -Hs. by vm_compute in Hs.
Qed.

Lemma unsent_event m e w w' : _event_for_message a m w = (Ret e, w') → is_sent e = false → unsent w w'.
Proof using Type.
  unfold _event_for_message. intros (d&w1&Ed&E)%bind_Ret Hs.
  assert (Unsent (decide m (policy a))) as Hd by (apply logs_steps, logged_idle; [eauto with quiet|eauto with keeps]).
  etrans; [by eapply Hd|]. clear Ed Hd.
  destruct (d_action d), (d_reply d) as [r|], (d_target d) as [t|];
    first [by apply ret_Ret in E as [_ ->] | by eapply unsent_reply | by eapply unsent_receipt].
Qed.

Lemma unsent_messages ms c h es c' h' es' w w' :
  process_messages a ms c h es w = (Ret (c', h', es'), w') → existsb is_sent es' = false → unsent w w'.
Proof.
  pose proof (logs_persist plain room (λ _, False) a Hjournal Haudit) as Hp. intros E Hs.
  enough (∃ l, es' = es ++ l ∧ (existsb is_sent l = false → unsent w w')) as (l&->&Hl).
  { rewrite existsb_app in Hs. apply Hl. by destruct (existsb is_sent es). }
  clear Hs. revert c h es w E. induction ms as [|m ms IH]; intros c h es w; cbn [process_messages].
  - intros [[= -> -> ->] ->]%ret_Ret. exists []. by rewrite app_nil_r.
  - destruct (seq m <=? c); [apply IH|]. intros (e&w1&Ee&(?&w2&Ep&E)%bind_Ret)%bind_Ret.
    apply IH in E as (l&->&Hl). exists ([e] ++ l). rewrite app_assoc. split; [done|]. rewrite existsb_app. cbn.
    destruct (is_sent e) eqn:He; cbn; [done|]. intros Hs. etrans; [by eapply unsent_event|].
    etrans; [by eapply Hp|]. by apply Hl.
Qed.

Lemma unsent_bind {A B} (m : IO A) (f : A → IO B) b w w' :
  Unsent m → (m ≫= f) w = (Ret b, w') → (∀ x w1, f x w1 = (Ret b, w') → unsent w1 w') → unsent w w'.
Proof using Type. intros Hm (x&w1&E1&E2)%bind_Ret Hf. etrans; [by eapply Hm|by eapply Hf]. Qed.

Lemma unsent_snapshot s es w w' : process_snapshot a s w = (Ret es, w') → existsb is_sent es = false → unsent w w'.
Proof.
  unfold process_snapshot. intros E Hs.
  do 4 (eapply unsent_bind; [|exact E|]; [logs|]; clear E w; intros ? w E).
  apply bind_Ret in E as ([[c h] events]&w1&Em&E).
  apply bind_Ret in E as ([persisted events']&w2&Ep&E).
  assert (unsent w2 w' ∧ es = events') as [Hl ->].
  { apply bind_Ret in E as (?&w3&E&[-> ->]%ret_Ret). split; [|done]. revert w2 w3 E Ep.
    match goal with |- ∀ w2 w3, ?m w2 = _ → _ => assert (Unsent m) as Hm by logs end. intros w2 w3 E _. by eapply Hm. }
  assert (unsent w1 w2 ∧ existsb is_sent events = false) as [Hw Hn].
  { destruct (negb h && (c <? last_seq s)).
    - apply bind_Ret in Ep as (?&w3&E1&Ep). apply bind_Ret in Ep as (?&w4&E2&[[= -> ->] ->]%ret_Ret).
      rewrite existsb_app in Hs. apply orb_false_elim in Hs as [Hs _]. split; [|done].
      assert (Unsent (modify_state (advance_cursor (a_room a) (last_seq s)))) as H3' by logs.
      assert (Unsent (if send a then save_state (state_path a) else mret tt)) as H4' by logs.
      etrans; [by eapply H3'|by eapply H4'].
    - apply ret_Ret in Ep as [[= -> ->] ->]. done. }
  etrans; [by eapply unsent_messages|]. by etrans.
Qed.

Lemma unsent_drain es w w' : _drain_existing a w = (Ret es, w') → existsb is_sent es = false → unsent w w'.
Proof.
  pose proof (logs_client_read plain room (λ _, False)). unfold _drain_existing. rewrite Hclient, Hroom.
  intros E Hs. do 3 (eapply unsent_bind; [|exact E|]; [logs|]; clear E w; intros ? w E). by eapply unsent_snapshot.
Qed.

(** The last look at the room sends nothing, and the cursor is at the receipt. *)
Lemma unsent_finish r n w w' :
  _finish_receipt_pilot a (Audited plain) room r w = (Ret n, w') →
  unsent w w' ∧ n = r ∧ cursor_for room (m_state (w_mem w')) = r.
Proof.
  unfold _finish_receipt_pilot. intros (es&w1&Ed&E)%bind_Ret.
  apply bind_Ret in E as (?&?&[Hs ->]%check_Ret&E). apply bind_Ret in E as (tail&w2&Et&E).
  apply bind_Ret in E as (cursor&w3&Ec&E). apply bind_Ret in E as (?&?&[Hc ->]%check_Ret&[-> ->]%ret_Ret).
  injection Ec as <- <-. apply orb_false_elim in Hc as [_ Hc%negb_false_iff%Z.eqb_eq]. split; [|done].
  etrans; [by eapply unsent_drain|]. by eapply (logs_room_tail plain room (λ _, False)).
Qed.
End unsent.

(** ** The pilot *)

Lemma send_command_logged `{Env} `{UrlLib} `{FloatRepr} `{Ed25519} plain room key text posted (w w' : world memory) :
  _send_receipt_pilot_command (Audited plain) key room text w = (Ret posted, w') →
  ∃ l n did swept, let write := MkWrite (seq posted) did n swept in
    did_from_private_key key = Ok did ∧ sweep_text text 4096 = Ok swept ∧ w_trace w' = w_trace w ++ l ∧
    m_writes (w_mem w') = m_writes (w_mem w) ++ [write] ∧ trail plain room l [write].
Proof.
  unfold _send_receipt_pilot_command. intros (clock&w1&Ec&E)%rethrow_Ret%bind_Ret.
  injection Ec as _ <-. unfold _send_signed in E.
  apply bind_Ret in E as (did&?&[Hd ->]%lift_Ret&E). apply bind_Ret in E as ([swept sig]&?&[Hs ->]%lift_Ret&E).
  apply client_send_logged in E as (l&E1&E2&E3). exists l, (int_str clock), did, swept.
  unfold sign_room_message in Hs. do 2 apply res_bind_Ok in Hs as (?&_&Hs). apply res_bind_Ok in Hs as (t&Ht&Hs).
  apply res_bind_Ok in Hs as (?&_&Hs). by apply res_bind_Ok in Hs as (?&_&[= <- <-]).
Qed.

Lemma require_writes_Ok writes c r peer agent :
  _require_receipt_pilot_writes writes c r peer agent = Ok tt →
  ∃ w1 w2, writes = [w1; w2] ∧ w_sequence w1 = c ∧ w_sequence w2 = r ∧ w_did w1 = peer ∧ w_did w2 = agent.
Proof.
  unfold _require_receipt_pilot_writes. intros Hw%raise_if_Ok. rewrite !orb_false_iff in Hw.
  destruct Hw as [[_ Hs] Hd]. breflect. destruct writes as [|w1 [|w2 [|]]]; try done.
  cbn in Hs, Hd. injection Hs as <- <-. injection Hd as <- <-. by exists w1, w2.
Qed.

Lemma pair_Ret `{Env} `{FloatRepr} client room baseline c r p1 p2 (w w' : world memory) :
  _read_receipt_pilot_pair client room baseline c r w = (Ret (p1, p2), w') → seq p1 = c ∧ seq p2 = r.
Proof.
  unfold _read_receipt_pilot_pair. intros (?&?&_&E)%bind_Ret. apply bind_Ret in E as (s&?&_&E).
  apply bind_Ret in E as (?&?&_&E). apply bind_Ret in E as (?&?&[Hc ->]%check_Ret&E). breflect.
  destruct (List.filter _ _) as [|m1 [|m2 [|]]]; try done. apply ret_Ret in E as [[= -> ->] _]. cbn in Hc. by injection Hc.
Qed.

Lemma reply_sequence_Ok event c r : _require_receipt_reply_sequence event c = Ok r → c < r.
Proof.
  unfold _require_receipt_reply_sequence, valid_reply_seq. intros (?&_&E)%res_bind_Ok.
  apply res_bind_Ok in E as (?&_&E). destruct (jget _ event); try done.
  destruct (_ <=? c) eqn:Hc; [done|]. injection E as <-. lia.
Qed.

(** The payload names the pull request in each of its fields; owner and repository
    are compared without regard to case. *)
Definition names_pull_request `{UrlLib} (reference : GitHubPullRequestRef) (payload : list (str * json)) : Prop :=
  jget (u "pull_number") payload = JInt (number reference) ∧
  casefold (str_of (jget (u "repository") payload)) = casefold (full_name reference) ∧
  ∃ payload_url, parse_github_pull_request_url (jget (u "url") payload) = Ok payload_url ∧
    casefold (full_name payload_url) = casefold (full_name reference) ∧ number payload_url = number reference.

Lemma verify_pair_Ok `{Ed25519} `{UrlLib} p1 p2 peer agent text reference payload :
  _verify_receipt_pilot_pair p1 p2 peer agent text reference = Ok payload →
  sender p1 = peer ∧ Protocol.text p1 = text ∧ sender p2 = agent ∧
  verify_signed_receipt_text (Protocol.text p2) = Ok payload ∧ jget (u "issuer") payload = JStr agent ∧
  names_pull_request reference payload.
Proof.
  unfold _verify_receipt_pilot_pair. intros (?&H1%raise_if_Ok&E)%res_bind_Ok.
  apply res_bind_Ok in E as (?&H2%raise_if_Ok&E). apply res_bind_Ok in E as (p&Hp&E).
  apply res_bind_Ok in E as (url&Hu&E). apply res_bind_Ok in E as (?&H3%raise_if_Ok&[= <-]).
  rewrite !orb_false_iff in *. destruct H1 as [[H1 H1'] _], H2 as [H2 _], H3 as [[[[H3 H4] H5] H6] H7].
  breflect. do 5 (split; [done|]). split; [done|]. split; [done|]. exists url. by split.
Qed.

Section pilot.
Context `{Env} `{UrlLib} `{FloatRepr} `{Ed25519} `{PilotOracle}.

(** Only one write was another's than the responder's. *)
Lemma command_between client room agent command c r w0 w1 w2 w3 l :
  let D := λ x, w_did x = agent in
  logged client room D w0 w1 → m_writes (w_mem w0) = [] →
  w_trace w2 = w_trace w1 ++ l → m_writes (w_mem w2) = m_writes (w_mem w1) ++ [command] → trail client room l [command] →
  logged client room D w2 w3 → m_writes (w_mem w3) = [c; r] → w_did c ≠ agent →
  command = c ∧ ∃ l', w_trace w3 = w_trace w0 ++ l' ∧ trail client room l' [c; r].
Proof.
  intros D (l1&s1&T1&M1&R1&F1) M0 T2 M2 R2 (l3&s3&T3&M3&R3&F3) E Hne.
  rewrite M3, M2, M1, M0, app_nil_l, <- app_assoc in E. destruct s1 as [|x s1].
  - injection E as -> ->. split; [done|]. exists (l1 ++ l ++ l3). split; [by rewrite T3, T2, T1, <- !app_assoc|].
    change [c; r] with ([] ++ [c] ++ [r]). by repeat first [apply trail_app; [done|] | done].
  - injection E as -> _. by inversion F1.
Qed.

(** C38: a receipt pilot that passes wrote one command and one receipt.  When it
    returns its report, whatever the server answered: every request it made was a
    read of the room, a request to the GitHub interface, or the sending of one of
    two messages whose signatures were checked before; the first is the command for
    the pull request that was asked for, by a key other than the agent's, the second
    a later one by the agent; they are the two its client recorded.  The room showed
    a message of the agent at the second one's place, and this message is a receipt that
    verifies, was issued by the agent and names the pull request asked for: its
    number, its repository and its URL; the cursor is at it. *)
Theorem passed_receipt_pilot_wrote_two_messages record private_key config client state_path pull_request service
    report (w w' : world memory) :
  execute_live_receipt_pilot record private_key config client state_path pull_request service w = (Ret report, w') →
  let room := str_of (c_room config) in
  ∃ reference command reply message payload l,
    parse_github_pull_request_url pull_request = Ok reference ∧
    (w_trace w' = w_trace w ++ l ∧ trail client room l [command; reply] ∧ m_writes (w_mem w') = [command; reply]) ∧
    (w_did command ≠ i_did record ∧ sweep_text (u "/pr " ++ url reference) 4096 = Ok (w_text command)) ∧
    (w_did reply = i_did record ∧ w_sequence command < w_sequence reply) ∧
    (seq message = w_sequence reply ∧ sender message = i_did record ∧
     verify_signed_receipt_text (Protocol.text message) = Ok payload ∧
     jget (u "issuer") payload = JStr (i_did record) ∧ names_pull_request reference payload) ∧
    cursor_for room (m_state (w_mem w')) = w_sequence reply.
Proof.
  unfold execute_live_receipt_pilot. intros ([]&w1&Ev&E)%bind_Ret. set (room := str_of (c_room config)) in *.
  assert (w_trace w1 = w_trace w) as T1.
  { assert (Quiet (_validate_receipt_pilot_context record config client)) as Hq by (unfold _validate_receipt_pilot_context; quiet).
    specialize (Hq w). by rewrite Ev in Hq. }
  apply bind_Ret in E as (reference&?&[Href ->]%lift_Ret&E). apply bind_Ret in E as (n&w2&En&E).
  injection En as _ <-. apply bind_Ret in E as (peer&?&[Hpeer ->]%lift_Ret&E).
  apply bind_Ret in E as ([]&?&[Hne%bool_decide_eq_false ->]%check_Ret&E). apply bind_Ret in E as ([]&w3&Ew&E).
  assert (w_trace w3 = w_trace w ∧ m_writes (w_mem w3) = []) as [T3 M3] by (injection Ew as <-; by rewrite <- T1).
  clear Ew Ev T1. apply bind_Ret in E as (a&?&[[= <-] ->]%lift_Ret&E). set (a := MkSafeResponder _ _ _ _ _ _ _ _ _ _) in E.
  set (D := λ x, w_did x = i_did record).
  assert (∀ s n t, D (MkWrite s (a_did a) n t)) as HD by done.
  apply bind_Ret in E as (baseline&w4&L1%(logs_baseline client room D a eq_refl eq_refl eq_refl eq_refl HD)&E).
  apply bind_Ret in E as (command&w5&(l5&n5&did&swept&Hdid&Ht&T5&M5&R5)%send_command_logged&E).
  assert (did = peer) as -> by congruence.
  apply bind_Ret in E as (event&w6&L2%(logs_until client room D a eq_refl eq_refl eq_refl eq_refl HD)&E).
  apply bind_Ret in E as (r&?&[Hr%reply_sequence_Ok ->]%lift_Ret&E).
  apply bind_Ret in E as ([p1 p2]&w7&Ep&E). pose proof (pair_Ret _ _ _ _ _ _ _ _ _ Ep) as [_ Hseq].
  apply (logs_pair client room D a eq_refl eq_refl eq_refl eq_refl HD) in Ep as L3.
  apply bind_Ret in E as (payload&?&[(_&_&Hs2&Hv&Hi&Hn)%verify_pair_Ok ->]%lift_Ret&E).
  apply bind_Ret in E as (writes&w8&Eg&E). injection Eg as <- <-.
  apply bind_Ret in E as ([]&?&[(c&reply&Ew&Es&<-&Edc&Edr)%require_writes_Ok ->]%lift_Ret&E).
  apply bind_Ret in E as (final&w9&(Hfin&_&Hcur)%(unsent_finish client room a eq_refl eq_refl eq_refl eq_refl)&E).
  apply bind_Ret in E as (hash&?&[_ ->]%lift_Ret&E). apply bind_Ret in E as (ws&w10&Eg&[_ ->]%lift_Ret).
  injection Eg as _ <-. pose proof (unsent_writes _ _ _ _ Hfin) as M9. rewrite Ew in M9.
  apply (logged_none client room D) in Hfin. assert (w_did c ≠ i_did record) as Hne' by (by rewrite Edc).
  destruct (command_between client room (i_did record) _ c reply w3 w4 w5 w9 l5 L1 M3 T5 M5 R5) as (<-&l&T&R); [|done..|].
  { etrans; [exact L2|]. by etrans. }
  eexists reference, (MkWrite _ peer n5 swept), reply, p2, payload, l. rewrite T, T3.
  split; [done|]. split; [done|]. split; [done|]. split; [done|]. by split.
Qed.
End pilot.
