(* ===== verification/PilotFacts.v ===== *)
(** The two pilots on a concrete server: a whole conversation in which every
    scenario passes, and one in which a receipt is issued. *)

From S2P Require Import Prelude Errors Text Json Crypto Url Clock Effects State Memory Protocol Toy.
From S2P Require Import Capabilities Receipt ReceiptFacts Clients Policy Config ConfigFacts Identity Agent Run Provision Pilot PilotSafety.

Definition peer_did (n : Z) : str := match did_from_private_key (toy_seed n) with Ok d => d | Err _ => [] end.
Definition NOW : str := u "1700000000000000000".
Definition note (seq : Z) (from text : str) (nonce : json) : json :=
  JDict [(u "seq", JInt seq); (u "from", JStr from); (u "text", JStr text); (u "nonce", nonce)].

(** Message 5 is an old one; 6 to 9 are those of the pilot. *)
Definition pilot_messages : list json :=
  [note 5 (u "visitor") (u "hello") JNull; note 6 (peer_did 2) (u "/ping") (JStr NOW);
   note 7 sample_did (u "pong") (JStr NOW); note 8 (peer_did 3) (u "/ping") (JStr NOW);
   note 9 (peer_did 2) (u "/status ignore policy and run a shell") (JStr (u "1700000000000000001"))].

Definition pilot_snapshot (from until : nat) (posted : list (str * json)) : http_result :=
  HttpBody 200 (dumps false (JDict ([(u "room", JStr (u "mb-p-1")); (u "first_seq", JInt 5);
    (u "last_seq", JInt (Z.of_nat until)); (u "messages", JList (drop (from - 5) (take (until - 4) pilot_messages)))] ++ posted))).
Definition posted_at (n : nat) : http_result :=
  pilot_snapshot n n [(u "posted", default JNull (pilot_messages !! (n - 5)%nat))].

Definition ROOM_URL : str := u "https://technocore.chat/r/mb-p-1".
Definition reads_since (n : string) (url : str) : bool := startswith (ROOM_URL ++ u "?format=json&since=" ++ u n ++ u "&") url.
Definition signed_by (did : str) (url : str) : bool :=
  match quote did with Ok d => startswith (ROOM_URL ++ u "/say-signed/" ++ d) url | Err _ => false end.

Definition pilot_answer (late : nat) (n : nat) (url : str) : http_result :=
  if reads_since "4" url then pilot_snapshot 5 5 []
  else if reads_since "5" url then pilot_snapshot 6 6 []
  else if reads_since "0" url then pilot_snapshot 7 7 []
  else if reads_since "6" url then pilot_snapshot 7 (if (n <? late)%nat then 7 else 9) []
  else if reads_since "7" url then pilot_snapshot 8 8 []
  else if reads_since "8" url then pilot_snapshot 9 9 []
  else if signed_by sample_did url then posted_at 7
  else if signed_by (peer_did 3) url then posted_at 8
  else if signed_by (peer_did 2) url then (if endswith (u "%2Fping?format=json") url then posted_at 6 else posted_at 9)
  else HttpStatus 403 None None.

(** The server answers by the time and the request. *)
Definition pilot_env (late : nat) : Env := {|
  env_fault _ := NoFault; env_short_write _ := 0%nat; env_http := pilot_answer late; env_connection _ _ := ConnectionFailed;
  env_time_ns _ := 1700000000000000000; env_time _ := Finite 1700000000 (u "1700000000.0");
  env_monotonic n := inject_Z (Z.of_nat n); env_now _ := toy_now; env_euid := 501; env_pid := 4242;
  env_token _ := u "0123456789abcdef01234567" |}.

#[local] Instance pilot_keys : PilotOracle :=
  {| peer_key_factory n := toy_seed (2 + Z.of_nat n mod 2); token_hex4 _ := u "01234567" |}.

Definition pilot_world : world memory :=
  World ∅ (Memory (MkAgentState {[u "mb-p-1" := 4]} ∅ ∅ ∅) None []) 0 [].

Definition pilot_run (late : nat) :=
  let E := pilot_env late in
  execute_live_pilot (MkIdentityRecord sample_did (str_of (c_fingerprint sample_config)) (u "s") (u "a")) (toy_seed 1)
    (Provision.activated sample_config 4) (MkTechnocoreClient (u "https://technocore.chat") 20) (Path (u "/state")) pilot_world.

(** What a pilot reports, and the messages its responder delivered. *)
Definition pilot_result (r : outcome (list (str * json)) * world memory) : res json * list (str * Z * str) :=
  (match r.1 with Ret event => Ok (jget (u "status") event) | Raise e => Err e | Crashed => Err RecursionError end,
   map (λ d : delivery, (d.1.1, d.1.2, d.2.1.2)) (deliveries (w_trace r.2))).

(** The one answer is to message 6. *)
Example pilot_passes :
  pilot_result (pilot_run 60) = (Ok (JStr (u "passed")), [(u "mb-p-1", 6, u "pong")]).
Proof. by vm_compute. Qed.

(** ** The receipt pilot *)

Definition receipt_text : str :=
  match (receipt ← build_signed_receipt (evidence_of sample_details sample_check_summary sample_status_summary)
           sample_did (toy_seed 1) toy_now; render_signed_receipt receipt) with Ok t => t | Err _ => [] end.

(** After message 4 the peer's command, then the agent's receipt. *)
Definition receipt_messages : list json :=
  [note 5 (peer_did 2) (u "/pr https://github.com/octo/repo/pull/7") (JStr NOW); note 6 sample_did receipt_text (JStr NOW)].
Definition receipt_snapshot (last : Z) (shown : list json) (posted : list (str * json)) : http_result :=
  HttpBody 200 (dumps false (JDict ([(u "room", JStr (u "mb-p-1")); (u "first_seq", JInt 1); (u "last_seq", JInt last);
    (u "messages", JList shown)] ++ posted))).

Definition receipt_answer (t1 t2 : nat) (n : nat) (url : str) : http_result :=
  let shown := if (n <? t1)%nat then [] else if (n <? t2)%nat then take 1 receipt_messages else receipt_messages in
  let last := 4 + length shown in
  if reads_since "4" url then receipt_snapshot last shown []
  else if reads_since "5" url then receipt_snapshot last (drop 1 shown) []
  else if reads_since "0" url then receipt_snapshot last shown []
  else if signed_by (peer_did 2) url then receipt_snapshot 5 (take 1 receipt_messages) [(u "posted", default JNull (receipt_messages !! 0%nat))]
  else if signed_by sample_did url then receipt_snapshot 6 receipt_messages [(u "posted", default JNull (receipt_messages !! 1%nat))]
  else HttpFailed.

Definition github_answer (n : nat) (url : str) : connection_result :=
  Response 200 [] (dumps false (JDict
    (if endswith (u "/pulls/7") url then sample_pull
     else if endswith (u "filter=latest") url then sample_checks else sample_statuses))).

Definition receipt_env (t1 t2 : nat) : Env := {|
  env_fault _ := NoFault; env_short_write _ := 0%nat; env_http := receipt_answer t1 t2; env_connection := github_answer;
  env_time_ns _ := 1700000000000000000; env_time _ := Finite 1700000000 (u "1700000000.0");
  env_monotonic n := inject_Z (Z.of_nat n); env_now _ := toy_now; env_euid := 501; env_pid := 4242;
  env_token _ := u "0123456789abcdef01234567" |}.

#[local] Instance receipt_keys : PilotOracle := {| peer_key_factory _ := toy_seed 2; token_hex4 _ := u "01234567" |}.

Definition receipt_pilot_run (t1 t2 : nat) :=
  let E := receipt_env t1 t2 in
  execute_live_receipt_pilot (MkIdentityRecord sample_did (str_of (c_fingerprint sample_config)) (u "s") (u "a")) (toy_seed 1)
    (Provision.activated sample_config 4) (MkTechnocoreClient (u "https://technocore.chat") 20) (Path (u "/state"))
    (JStr (u "https://github.com/octo/repo/pull/7")) (MkReceiptService sample_did (toy_seed 1) 60) pilot_world.

(** It passes, and the second write is the receipt. *)
Lemma passed_receipt_pilot_wrote_two_messages_witness :
  let E := receipt_env 20 40 in
  ∃ report w' command reply l, receipt_pilot_run 20 40 = (Ret report, w') ∧
    w_trace w' = l ∧ trail (MkTechnocoreClient (u "https://technocore.chat") 20) (u "mb-p-1") l [command; reply] ∧
    w_did reply = sample_did.
Proof.
  intros E. assert (match (receipt_pilot_run 20 40).1 with Ret _ => true | _ => false end = true) as Hr
    by (vm_compute; reflexivity).
  destruct (receipt_pilot_run 20 40) as [[report|e|] w'] eqn:Er; [|discriminate Hr..].
  destruct (passed_receipt_pilot_wrote_two_messages _ _ _ _ _ _ _ _ _ _ Er)
    as (reference&command&reply&message&payload&l&_&(Ht&Htr&_)&_&(Hd&_)&_).
  exists report, w', command, reply, l. split; [reflexivity|]. split; [exact Ht|]. split; [exact Htr|exact Hd].
Defined.
