(* ===== verification/PropertyList.v ===== *)
(** What a rendered property list says to the one that reads it: the markup is
    split into tags and the characters between them, the entities are decoded, and
    the arguments are the strings of the array that follows the key
    [ProgramArguments].  The reader knows nothing of the writer of [LaunchAgent];
    the theorem is that it finds the arguments that were written. *)

From S2P Require Import Prelude Errors Text Effects Run Provision Health LaunchAgent.

(** ** The markup *)

Inductive token := Tag (name : str) | Chars (text : str).

(** Tags are between [<] and [>]; [cur] holds what was read since the last of
    them, in reverse. *)
Fixpoint scan (inside : bool) (cur s : str) : list token :=
  match s with
  | [] => [Chars (rev cur)]
  | c :: s' =>
      if inside then if c =? 62 then Tag (rev cur) :: scan false [] s' else scan true (c :: cur) s'
      else if c =? 60 then Chars (rev cur) :: scan true [] s' else scan false (c :: cur) s'
  end.
Definition tokens (text : str) : list token := scan false [] text.

(** The three entities; [skip] counts the characters of an entity already decoded. *)
Fixpoint decode_after (skip : nat) (s : str) : str :=
  match s, skip with
  | [], _ => []
  | _ :: s', S skip' => decode_after skip' s'
  | c :: s', O =>
      if startswith (u "&amp;") s then 38 :: decode_after 4 s'
      else if startswith (u "&lt;") s then 60 :: decode_after 3 s'
      else if startswith (u "&gt;") s then 62 :: decode_after 3 s'
      else c :: decode_after 0 s'
  end.
Definition decoded (s : str) : str := decode_after 0 s.

(** ** The arguments *)

(** The strings up to the end of the array; [None] when something else is in it. *)
Fixpoint array_strings (l : list token) : option (list str) :=
  match l with
  | Chars _ :: Tag opening :: l' =>
      if opening == u "/array" then Some []
      else match l' with
           | Chars text :: Tag closing :: l'' =>
               if (opening == u "string") && (closing == u "/string") then cons (decoded text) <$> array_strings l''
               else None
           | _ => None
           end
  | _ => None
  end.

(** The array that follows the first key of this name. *)
Fixpoint array_of (name : str) (l : list token) : option (list str) :=
  match l with
  | [] => None
  | Tag opening :: ((Chars key :: Tag closing :: Chars _ :: Tag array :: l'') as l') =>
      if (opening == u "key") && (decoded key == name) && (closing == u "/key") && (array == u "array")
      then array_strings l''
      else array_of name l'
  | _ :: l' => array_of name l'
  end.

Definition plist_arguments (text : str) : option (list str) := array_of (u "ProgramArguments") (tokens text).

(** ** Reading what was written *)

Lemma scan_chars t cur r : 60 ∉ t → scan false cur (t ++ 60 :: r) = Chars (rev cur ++ t) :: scan true [] r.
Proof.
  revert cur. induction t as [|c t IH]; intros cur Ht; [cbn; by rewrite app_nil_r|].
  apply not_elem_of_cons in Ht as [Hc Ht]. cbn [app scan]. rewrite (proj2 (Z.eqb_neq c 60)) by congruence.
  rewrite IH by done. cbn. by rewrite <- app_assoc.
Qed.
Lemma scan_tag t cur r : 62 ∉ t → scan true cur (t ++ 62 :: r) = Tag (rev cur ++ t) :: scan false [] r.
Proof.
  revert cur. induction t as [|c t IH]; intros cur Ht; [cbn; by rewrite app_nil_r|].
  apply not_elem_of_cons in Ht as [Hc Ht]. cbn [app scan]. rewrite (proj2 (Z.eqb_neq c 62)) by congruence.
  rewrite IH by done. cbn. by rewrite <- app_assoc.
Qed.

Lemma escape_char_plain c : 60 ∉ escape_char c.
Proof.
  unfold escape_char. repeat case_match; [by apply (bool_decide_eq_true_1 _)..|].
  intros <-%list_elem_of_singleton. done.
Qed.
Lemma escaped_plain s : 60 ∉ concat (map escape_char s).
Proof.
  induction s as [|c s IH]; cbn; [apply not_elem_of_nil|]. rewrite not_elem_of_app. split; [apply escape_char_plain|done].
Qed.

Lemma decoded_escape_char c r : decoded (escape_char c ++ r) = c :: decoded r.
Proof.
  unfold decoded, escape_char.
  destruct (Z.eqb_spec c 38) as [->|H1]; [reflexivity|]. destruct (Z.eqb_spec c 60) as [->|H2]; [reflexivity|].
  destruct (Z.eqb_spec c 62) as [->|H3]; [reflexivity|]. cbn [app decode_after].
  assert (∀ t, startswith (38 :: t) (c :: r) = false) as Hs by (intros t; apply bool_decide_eq_false; cbn; congruence).
  change (u "&amp;") with (38 :: u "amp;"). change (u "&lt;") with (38 :: u "lt;").
  change (u "&gt;") with (38 :: u "gt;"). by rewrite !Hs.
Qed.
Lemma decoded_escaped s : decoded (concat (map escape_char s)) = s.
Proof. induction s as [|c s IH]; [done|]. cbn [map concat]. by rewrite decoded_escape_char, IH. Qed.

(** The escaped text of a value. *)
Definition escaped (s : str) : str := concat (map escape_char (universal_newlines s)).
Lemma plist_escape_Ok s t : plist_escape s = Ok t → t = escaped s.
Proof. unfold plist_escape. by intros ([]&_&[= <-])%res_bind_Ok. Qed.

(** One element of a name without markup. *)
Lemma scan_element level tag content cur r :
  62 ∉ tag → 60 ∉ content →
  scan false cur (element level tag content ++ r) =
    Chars (rev cur ++ replicate level 9) :: Tag tag :: Chars content :: Tag (47 :: tag) :: scan false [10] r.
Proof.
  intros Ht Hc. unfold element, indented.
  assert (60 ∉ replicate level 9) as Hl by (by intros [? _]%elem_of_replicate).
  transitivity (scan false cur (replicate level 9 ++ 60 :: tag ++ 62 :: content ++ 60 :: (47 :: tag) ++ 62 :: 10 :: r)).
  { f_equal. change (u "<") with [60]. change (u ">") with [62]. change (u "</") with [60; 47]. by simplify_list_eq. }
  assert (62 ∉ 47 :: tag) as Ht' by (by apply not_elem_of_cons).
  by rewrite scan_chars, scan_tag, scan_chars, scan_tag.
Qed.

Lemma scan_line level tag cur r :
  62 ∉ tag →
  scan false cur (indented level (60 :: tag ++ [62]) ++ r) =
    Chars (rev cur ++ replicate level 9) :: Tag tag :: scan false [10] r.
Proof.
  intros Ht. unfold indented.
  assert (60 ∉ replicate level 9) as Hl by (by intros [? _]%elem_of_replicate).
  transitivity (scan false cur (replicate level 9 ++ 60 :: tag ++ 62 :: 10 :: r)).
  { f_equal. by simplify_list_eq. }
  by rewrite scan_chars, scan_tag.
Qed.

(** The strings of the array come out as they went in, with their line ends
    translated. *)
Lemma array_strings_written level l lines r :
  mapM_res (write_value level) (map PString l) = Ok lines →
  array_strings (scan false [10] (concat lines ++ indented 1 (u "</array>") ++ r)) = Some (map universal_newlines l).
Proof.
  revert lines. induction l as [|s l IH]; intros lines; cbn [map mapM_res].
  - intros [= <-]. cbn [concat app]. change (u "</array>") with (60 :: u "/array" ++ [62]).
    rewrite scan_line by (by apply (bool_decide_eq_true_1 _)). reflexivity.
  - intros (x&Hx&(ys&Hys&[= <-])%res_bind_Ok)%res_bind_Ok. cbn [write_value] in Hx.
    apply res_bind_Ok in Hx as (t&->%plist_escape_Ok&[= <-]). cbn [concat]. rewrite <- app_assoc.
    rewrite scan_element by (apply escaped_plain || by apply (bool_decide_eq_true_1 _)).
    cbn [array_strings]. unfold escaped. rewrite decoded_escaped. rewrite (IH ys Hys). reflexivity.
Qed.

Lemma element_written level tag s t r :
  62 ∉ tag → plist_escape s = Ok t →
  scan false [10] (element level tag t ++ r) =
    Chars (10 :: replicate level 9) :: Tag tag :: Chars t :: Tag (47 :: tag) :: scan false [10] r.
Proof. intros Ht ->%plist_escape_Ok. by rewrite scan_element by (done || apply escaped_plain). Qed.

(** The beginning of every property list. *)
Definition plist_head : str :=
  PLISTHEADER ++ u "<plist version=" ++ quoted (u "1.0") ++ u ">" ++ [10] ++ indented 0 (u "<dict>").

Lemma array_of_head name r :
  array_of name (tokens (plist_head ++ r)) = array_of name (Tag (u "dict") :: scan false [10] r).
Proof.
  assert (∃ before, tokens (plist_head ++ r) = before ++ Tag (u "dict") :: scan false [10] r ∧
    before = [Chars []; Tag (u "?xml version=" ++ quoted (u "1.0") ++ u " encoding=" ++ quoted (u "UTF-8") ++ u "?");
      Chars [10]; Tag (removesuffix (u ">") (drop 40 (removesuffix [10] PLISTHEADER))); Chars [10];
      Tag (u "plist version=" ++ quoted (u "1.0")); Chars [10]]) as (before&->&->)
    by (eexists; split; [|done]; vm_compute; reflexivity).
  generalize (scan false [10] r). by intros [|[x|x] [|[y|y] l]].
Qed.

#[local] Instance Ok_inj {A} : Inj (=) (=) (@Ok A).
Proof. congruence. Qed.

Lemma key_written key r :
  scan false [10] (element 1 (u "key") (escaped key) ++ r) =
    Chars [10; 9] :: Tag (u "key") :: Chars (escaped key) :: Tag (u "/key") :: scan false [10] r.
Proof. by rewrite scan_element by (apply escaped_plain || by apply (bool_decide_eq_true_1 _)). Qed.
Lemma string_written s r :
  scan false [10] (element 1 (u "string") (escaped s) ++ r) =
    Chars [10; 9] :: Tag (u "string") :: Chars (escaped s) :: Tag (u "/string") :: scan false [10] r.
Proof. by rewrite scan_element by (apply escaped_plain || by apply (bool_decide_eq_true_1 _)). Qed.

(** The lines of one entry. *)
Definition write_entry (kv : str * plist) : res str :=
  key ← plist_escape kv.1; value ← write_value 1 kv.2; Ok (element 1 (u "key") key ++ value).

Lemma write_entry_Ok key value line :
  write_entry (key, value) = Ok line →
  ∃ v, write_value 1 value = Ok v ∧ line = element 1 (u "key") (escaped key) ++ v.
Proof.
  intros (k&->%plist_escape_Ok&(v&Hv&H)%res_bind_Ok)%res_bind_Ok. exists v. split; [done|]. by apply (inj Ok) in H as <-.
Qed.
Lemma write_string_Ok s v : write_value 1 (PString s) = Ok v → v = element 1 (u "string") (escaped s).
Proof. cbn [write_value]. intros (t&->%plist_escape_Ok&H)%res_bind_Ok. by apply (inj Ok) in H as <-. Qed.
Lemma write_strings_Ok a args v :
  write_value 1 (PArray (map PString (a :: args))) = Ok v →
  ∃ lines, mapM_res (write_value 2) (map PString (a :: args)) = Ok lines ∧
    v = indented 1 (60 :: u "array" ++ [62]) ++ concat lines ++ indented 1 (u "</array>").
Proof. intros (lines&Hl&H)%res_bind_Ok. exists lines. split; [done|]. by apply (inj Ok) in H as <-. Qed.
Lemma write_dict_Ok e es v :
  write_value 0 (PDict (e :: es)) = Ok v →
  ∃ lines, Forall2 (λ kv line, write_entry kv = Ok line) (e :: es) lines ∧
    v = indented 0 (u "<dict>") ++ concat lines ++ indented 0 (u "</dict>").
Proof.
  intros (lines&Hl%mapM_res_Forall2&H)%res_bind_Ok. exists lines. split; [exact Hl|]. by apply (inj Ok) in H as <-.
Qed.
Lemma plist_dumps_Ok payload text :
  plist_dumps payload = Ok text →
  ∃ body, write_value 0 payload = Ok body ∧
    text = PLISTHEADER ++ u "<plist version=" ++ quoted (u "1.0") ++ u ">" ++ [10] ++ body ++ u "</plist>" ++ [10].
Proof.
  unfold plist_dumps. intros (body&Hb&(?&_&H)%res_bind_Ok)%res_bind_Ok. exists body. split; [done|].
  by apply (inj Ok) in H as <-.
Qed.

(** The text with its elements one after the other. *)
Lemma elements_in_line (h1 h2 h3 h4 h5 d a b c e f i s j r z t : str) :
  h1 ++ h2 ++ h3 ++ h4 ++ h5 ++ (d ++ ((a ++ b) ++ (c ++ e) ++ (f ++ i ++ s ++ j) ++ r) ++ z) ++ t =
  (h1 ++ h2 ++ h3 ++ h4 ++ h5 ++ d) ++ a ++ b ++ c ++ e ++ f ++ i ++ s ++ j ++ r ++ z ++ t.
Proof. by rewrite <- !app_assoc. Qed.

(** The array is found whatever else the property list holds. *)
Lemma plist_arguments_written name program a args kvs text :
  plist_dumps (PDict ((u "Label", PString name) :: (u "Program", PString program) ::
    (u "ProgramArguments", PArray (map PString (a :: args))) :: kvs)) = Ok text →
  plist_arguments text = Some (map universal_newlines (a :: args)).
Proof.
  intros (body&(lines&Hl&->)%write_dict_Ok&->)%plist_dumps_Ok.
  apply Forall2_cons_inv_l in Hl as (?&?&(v1&->%write_string_Ok&->)%write_entry_Ok&Hl&->).
  apply Forall2_cons_inv_l in Hl as (?&?&(v2&->%write_string_Ok&->)%write_entry_Ok&Hl&->).
  apply Forall2_cons_inv_l in Hl as (?&others&(v3&(strings&Hs&->)%write_strings_Ok&->)%write_entry_Ok&_&->).
  unfold plist_arguments. cbn [concat].
  rewrite elements_in_line. fold plist_head.
  rewrite array_of_head, !key_written, !string_written, key_written, string_written, key_written.
  rewrite scan_line by (by apply (bool_decide_eq_true_1 _)).
  etransitivity; [|exact (array_strings_written 2 _ _ (concat others ++ indented 0 (u "</dict>") ++ u "</plist>" ++ [10]) Hs)]. reflexivity.
Qed.

(** The strings the agent is started with. *)
Lemma plist_arguments_launched spec text :
  plist_dumps (launch_payload spec) = Ok text → (∀ p, p ∈ artifacts spec → 13 ∉ path_text p) →
  plist_arguments text = Some (program_arguments spec).
Proof.
  intros Ht%plist_arguments_written Hcr. rewrite Ht. f_equal.
  assert (Forall (λ p, universal_newlines (path_text p) = path_text p) (artifacts spec)) as Hid
    by (apply Forall_forall; intros p Hp; by apply universal_newlines_id, Hcr).
  unfold artifacts in Hid. rewrite !Forall_cons in Hid. destruct Hid as (E1&E2&E3&E4&E5&E6&E7&E8&_).
  cbn [map]. rewrite E1, E2, E3, E4, E5, E6, E7, E8. reflexivity.
Qed.

(** A carriage return does not come back. *)
Example carriage_return_is_lost :
  let spec := MkLaunchAgentSpec (u "a.b") (Path (u "/bin/agent"))
    (MkHealthPaths (Path (47 :: [13])) (Path (u "/c")) (Path (u "/s")) (Path (u "/p")) (Path (u "/j")) (Path (u "/a")) (Path (u "/l")))
    (Path (u "/o")) (Path (u "/e")) None in
  match plist_dumps (launch_payload spec) with
  | Ok text => (x ← plist_arguments text; x !! 3%nat) = Some (47 :: [10])
  | Err _ => False
  end.
Proof. vm_compute. reflexivity. Qed.
