(* ===== verification/Startup.v ===== *)
(** From the inspection to the first request: an agent that was found healthy,
    started with the arguments of the LaunchAgent rendered for it, asks for its
    mailbox. *)

From S2P Require Import Prelude Errors Text Regex Json Crypto Url Clock Effects State Memory Quiet Protocol Clients.
From S2P Require Import Requests Toy Prompt Capabilities Receipt Policy Delivery AuditLog Config ConfigFacts Identity Lock Agent.
From S2P Require Import Recovery Run Provision Controller Health HealthFacts LaunchAgent PropertyList Commands Arguments Main MainFacts Traffic.

(** ** Computations that only read one file *)

Section reading.
Context {Mem : Type} `{Env}.
Context (calm : ∀ n, env_fault n = NoFault).
Implicit Types w : world Mem.
Set Default Proof Using "Type".

(** What comes out depends on the file at [p] alone. *)
Definition decided {A} (p : path) (m : M Mem A) : Prop :=
  ∀ w w', w_fs w !! p = w_fs w' !! p → (m w).1 = (m w').1.

Lemma decided_ret {A} p (a : A) : decided p (mret a : M Mem A).
Proof. by intros ? ? ?. Qed.
Lemma decided_raise {A} p e : decided p (raise e : M Mem A).
Proof. by intros ? ? ?. Qed.
Lemma decided_lift {A} p (m : res A) : decided p (lift m : M Mem A).
Proof. by destruct m. Qed.
Lemma decided_check p b e : decided p (check b e : M Mem unit).
Proof. apply decided_lift. Qed.

Lemma decided_bind {A B} p (m : M Mem A) (f : A → M Mem B) :
  decided p m → Steps untouched m → (∀ a, decided p (f a)) → decided p (m ≫= f).
Proof.
  intros Hm Hu Hf w w' E. pose proof (Hm w w' E) as E1. pose proof (Hu w) as (F1&_). pose proof (Hu w') as (F2&_).
  unfold mbind, M_bind. destruct (m w) as [o w1], (m w') as [o' w1']. cbn in *. subst o'.
  destruct o as [a|e|]; [|done..]. apply Hf. congruence.
Qed.

Lemma decided_try {A} p (m : M Mem A) c h :
  decided p m → Steps untouched m → (∀ e, decided p (h e)) → decided p (try_except m c h).
Proof.
  intros Hm Hu Hh w w' E. pose proof (Hm w w' E) as E1. pose proof (Hu w) as (F1&_). pose proof (Hu w') as (F2&_).
  unfold try_except. destruct (m w) as [o w1], (m w') as [o' w1']. cbn in *. subst o'.
  destruct o as [a|e|]; [done| |done]. destruct (c e); [|done]. apply Hh. congruence.
Qed.

Lemma action_calm w : Effects.action w = (Ret (w_tick w), ticked w).
Proof using calm. unfold Effects.action, mbind, M_bind. cbn. by rewrite calm. Qed.

Lemma decided_action {A} p (m : M Mem A) : decided p m → decided p (Effects.action;; m).
Proof using calm. intros Hm w w' E. unfold mbind, M_bind. rewrite !action_calm. by apply Hm. Qed.

Lemma decided_path_exists p : decided p (path_exists (Mem := Mem) p).
Proof using calm. intros w w' E. unfold path_exists, mbind, M_bind. rewrite !action_calm. cbn. by rewrite E. Qed.
Lemma decided_path_file p : decided p (path_file (Mem := Mem) p).
Proof using calm.
  intros w w' E. unfold path_file, mbind, M_bind. rewrite !action_calm. cbn. rewrite E. by destruct (w_fs w' !! p).
Qed.
End reading.

Create HintDb decided.
#[export] Hint Resolve decided_path_exists decided_path_file : decided.

(** Prove that a computation reads the one file. *)
Ltac decided :=
  repeat first
    [ assumption | apply decided_ret | apply decided_raise | apply decided_lift | apply decided_check
    | solve [eauto with decided]
    | apply decided_action; [assumption|]
    | apply decided_bind; [|untouched|intros ?] | apply decided_try; [|untouched|intros ?]
    | progress intros | case_match ].

Section components.
Context `{Env} `{UrlLib} `{Ed25519}.
Context (calm : ∀ n, env_fault n = NoFault).
Set Default Proof Using "Type".

Lemma decided_open_nofollow p : decided p (open_nofollow (Mem := memory) p).
Proof using calm. unfold open_nofollow. decided. Qed.
Lemma decided_read_json_text p : decided p (read_json_text (Mem := memory) p).
Proof using calm. unfold read_json_text, read_bytes. decided. Qed.
#[local] Hint Resolve decided_open_nofollow decided_read_json_text : decided.

Lemma decided_load_identity_record p : decided p (load_identity_record (Mem := memory) p).
Proof using calm. unfold load_identity_record. decided. Qed.
Lemma decided_load_config p : decided p (load_config (Mem := memory) p).
Proof using calm. unfold load_config. decided. Qed.
Lemma decided_load p : decided p (load (Mem := memory) p).
Proof using calm. unfold load. decided. Qed.
Lemma decided_load_policy p : decided p (load_policy p).
Proof using calm. unfold load_policy, os_errors. decided. Qed.
Lemma decided_load_journal p : decided p (load_journal (Mem := memory) p).
Proof using calm. unfold load_journal. decided. Qed.
Lemma decided_verify_log p : decided p (verify_log (Mem := memory) p).
Proof using calm. unfold verify_log, check_descriptor, os_errors. decided. Qed.
End components.
#[export] Hint Resolve decided_load_identity_record decided_load_config decided_load decided_load_policy
  decided_load_journal decided_verify_log : decided.
#[export] Hint Resolve untouched_load_identity_record untouched_load_config untouched_load_policy
  untouched_load_journal untouched_verify : untouched.

(** ** Steps that succeed *)

(** [m] returns [a] and only the clock moves. *)
Definition yields {A} (m : IO A) (w : world memory) (a : A) : Prop := ∃ w', m w = (Ret a, w') ∧ untouched w w'.

Section yielding.
Context `{Env}.
Implicit Types w : world memory.
Set Default Proof Using "Type".

Lemma yields_ret {A} (a : A) w : yields (mret a) w a.
Proof. by exists w. Qed.
Lemma yields_lift {A} (m : res A) a w : m = Ok a → yields (lift m) w a.
Proof. intros ->. by exists w. Qed.
Lemma yields_check b e w : b = false → yields (check b e) w tt.
Proof. intros ->. by exists w. Qed.

Lemma yields_bind {A B} (m : IO A) (f : A → IO B) w a b :
  yields m w a → (∀ w', untouched w w' → yields (f a) w' b) → yields (m ≫= f) w b.
Proof.
  intros (w1&E&Hu) Hf. destruct (Hf w1 Hu) as (w2&E2&Hu2). exists w2. unfold mbind, M_bind. rewrite E.
  split; [done|]. by etrans.
Qed.

(** What reading a file gave once it gives again. *)
Lemma yields_again {A} p (m : IO A) w0 w a :
  decided p m → Steps untouched m → gave w0 m a → w_fs w !! p = w_fs w0 !! p → yields m w a.
Proof.
  intros Hd Hu (w1&w2&(F&_)&E) Hp. exists (m w).2. split; [|apply Hu].
  assert ((m w).1 = Ret a) as <-; [|by destruct (m w)].
  rewrite (Hd w w1); [by rewrite E|]. by rewrite F.
Qed.

Context (calm : ∀ n, env_fault n = NoFault).

Lemma yields_path_exists p w b : b = bool_decide (is_Some (w_fs w !! p)) → yields (path_exists p) w b.
Proof using calm.
  intros ->. exists (ticked w). split; [|done]. unfold path_exists, mbind, M_bind. by rewrite action_calm.
Qed.

(** *** The first request *)

(** The first request of [m] is for [url]. *)
Definition opens {A} (url : str) (m : IO A) (w : world memory) : Prop :=
  ∃ l, w_trace (m w).2 = w_trace w ++ EvHttp url :: l.

Lemma opens_after {A B} url (m : IO A) (f : A → IO B) w a :
  yields m w a → (∀ w', untouched w w' → opens url (f a) w') → opens url (m ≫= f) w.
Proof.
  intros (w1&E&Hu) Hf. destruct (Hf w1 Hu) as (l&El). exists l. unfold mbind, M_bind. rewrite E, El.
  by destruct Hu as (_&_&->).
Qed.

Lemma opens_step {A B} url (m : IO A) (f : A → IO B) w a w1 :
  m w = (Ret a, w1) → w_trace w1 = w_trace w → opens url (f a) w1 → opens url (m ≫= f) w.
Proof. intros E Et (l&El). exists l. unfold mbind, M_bind. by rewrite E, El, Et. Qed.

Lemma opens_first `{FloatRepr} {A B} url (m : IO A) (f : A → IO B) w :
  opens url m w → (∀ a, Steps hears (f a)) → opens url (m ≫= f) w.
Proof.
  intros (l&E) Hf. unfold opens, mbind, M_bind. destruct (m w) as [[a|e|] w1]; cbn in E; [|by exists l..].
  destruct (Hf a w1) as (l'&E'&_). exists (l ++ l'). rewrite E', E, <- app_assoc. done.
Qed.

Lemma opens_try `{FloatRepr} {A} url (m : IO A) c h w :
  opens url m w → (∀ e, Steps hears (h e)) → opens url (try_except m c h) w.
Proof.
  intros (l&E) Hh. unfold opens, try_except. destruct (m w) as [[a|e|] w1]; cbn in E; [by exists l| |by exists l].
  destruct (c e); [|by exists l]. destruct (Hh e w1) as (l'&E'&_). exists (l ++ l'). rewrite E', E, <- app_assoc. done.
Qed.

Lemma opens_on_raise `{FloatRepr} {A} url (m : IO A) h w :
  opens url m w → Steps hears h → opens url (on_raise m h) w.
Proof.
  intros (l&E) Hh. unfold opens, on_raise. destruct (m w) as [[a|e|] w1]; cbn in E; [by exists l| |by exists l].
  assert (Steps hears (h;; raise (A := A) e)) as Hs by hears.
  destruct (Hs w1) as (l'&E'&_). exists (l ++ l'). rewrite E', E, <- app_assoc. done.
Qed.

Lemma opens_http_get url w : opens url (http_get url) w.
Proof using calm. exists []. unfold http_get, network, mbind, M_bind. cbn. rewrite calm. cbn. by rewrite calm. Qed.

Lemma opens_read_room `{FloatRepr} client room since q t limit buster w :
  fullmatch ROOM_PATTERN room = true → 0 ≤ since → (0 <= q)%Q → (q <= 10)%Q → (q < timeout client)%Q →
  1 ≤ limit ≤ 200 → 0 ≤ buster →
  opens (read_url client room since q limit buster) (read_room client room since (Finite q t) limit buster) w.
Proof using calm.
  intros Hroom Hs Hq0 Hq10 Ht Hl Hb. unfold read_room.
  eapply opens_after; [by apply yields_lift, validate_room_Ok|]. intros w1 _.
  eapply opens_after; [apply yields_check; lia|]. intros w2 _.
  eapply opens_after; [apply yields_lift; unfold _bounded_float|].
  { apply Qle_bool_iff in Hq0, Hq10. by rewrite Hq0, Hq10. }
  intros w3 _. eapply opens_after; [apply yields_check|].
  { apply not_true_iff_false. rewrite Qle_bool_iff. by apply Qlt_not_le. }
  intros w4 _. eapply opens_after; [apply yields_check; lia|]. intros w5 _.
  eapply opens_after; [apply yields_check; lia|]. intros w6 _.
  apply opens_first; [|intros; hears]. unfold _request_json. apply opens_first; [apply opens_http_get|]. intros; hears.
Qed.
End yielding.

(** ** The process *)

(** The Keychain holds the key of the identity. *)
Definition key_available `{Keychain} `{Ed25519} (record : IdentityRecord) : Prop :=
  ∀ n, ∃ secret key, keychain_read n (keychain_service record) (keychain_account record) = SecretPrinted secret ∧
    private_key_from_seed (strip secret) = Ok key ∧ did_from_private_key key = Ok (i_did record).

(** The options of a LaunchAgent. *)
Definition launched (identity config state journal lock audit policy : str) : RunArgs :=
  MkRunArgs identity None (Some config) None (seconds 20 "20.0") (seconds 15 "15.0") (seconds 10 "10.0") 50 false
    StartSaved (Some state) (Some journal) (Some lock) (Some audit) [] false (Some policy) true false false.

Section process.
Context `{Env} `{UrlLib} `{Ed25519} `{FloatRepr} `{Keychain}.
Context (calm : ∀ n, env_fault n = NoFault).
Context (w0 : world memory) (identity config state journal lock audit policy : str).
Abbreviation args := (launched identity config state journal lock audit policy).
Implicit Types w : world memory.
Set Default Proof Using "Type".

Lemma yields_load_identity record w :
  gave w0 (load_identity_record (Path identity)) record → key_available record →
  w_fs w !! Path identity = w_fs w0 !! Path identity →
  ∃ key, yields (_load_identity (Path identity)) w (record, key).
Proof using calm.
  intros Hg Hk Hp. unfold _load_identity.
  destruct (yields_again _ _ _ w _ (decided_load_identity_record calm _) (untouched_load_identity_record _) Hg Hp)
    as (w1&E&Hu).
  destruct (Hk (w_tick w1)) as (secret&key&Hr&Hs&Hd). exists key, (ticked w1).
  split; [|etrans; [exact Hu|done]]. unfold mbind at 1, M_bind. rewrite E.
  unfold load_verified_private_key, load_seed, mbind, M_bind. cbn. rewrite Hr. cbn. rewrite Hs. cbn. rewrite Hd. cbn.
  by rewrite bool_decide_eq_true_2.
Qed.

Lemma yields_config record c w :
  private_regular w0 (Path config) → gave w0 (load_config (Path config)) c → c_status c = JStr (u "active") →
  c_did c = JStr (i_did record) → c_fingerprint c = JStr (i_fingerprint record) →
  w_fs w !! Path config = w_fs w0 !! Path config → yields (_load_active_config record (Path config)) w (Some c).
Proof using calm.
  intros (g&Hf&_) Hg Hs Hd Hfp Hp. unfold _load_active_config, active_config.
  eapply yields_bind; [by apply yields_path_exists|]. intros w1 (F1&_). rewrite bool_decide_eq_true_2 by (rewrite Hp; eauto).
  eapply yields_bind.
  { eapply yields_again; [by apply decided_load_config|by apply untouched_load_config|exact Hg|by rewrite F1]. }
  intros w2 _. eapply yields_bind; [apply yields_check; by rewrite Hd, Hfp, !bool_decide_eq_true_2|]. intros w3 _.
  eapply yields_bind; [apply yields_check; by rewrite Hs, bool_decide_eq_true_2|]. intros w4 _. apply yields_ret.
Qed.

Lemma yields_policy did sp w :
  (∃ p, gave w0 (load_policy (Path policy)) p) → w_fs w !! Path policy = w_fs w0 !! Path policy →
  ∃ p, yields (_command_policy args did sp) w p.
Proof using calm.
  intros (p&Hg) Hp. eexists. unfold _command_policy. cbn [capability_policy args].
  eapply yields_bind.
  { eapply yields_again; [by apply decided_load_policy|by apply untouched_load_policy|exact Hg|done]. }
  intros w1 _. by apply yields_lift.
Qed.

Lemma yields_artifacts record c d head w :
  delivery_good w0 (Path journal) (Some record) (Some c) d → d = None → audit_good w0 (Path audit) (Some record) head →
  w_fs w !! Path journal = w_fs w0 !! Path journal → w_fs w !! Path audit = w_fs w0 !! Path audit →
  yields (_live_artifacts args identity (i_did record)) w (Some (Path journal), Some (Path audit)).
Proof using calm.
  intros Hd -> Ha Hpj Hpa. unfold _live_artifacts. cbn [arg_send args negb].
  eapply yields_bind; [by apply yields_lift|]. intros w1 (F1&_).
  eapply (yields_bind _ _ _ tt).
  { unfold require_empty. eapply (yields_bind _ _ _ None); [|intros; by apply yields_check].
    destruct Hd as [[_ [Hn|Hg]]|(?&?&?&?&_)]; [| |done].
    - unfold load_journal. eapply yields_bind; [by apply yields_path_exists|]. intros w2 (F2&_).
      rewrite F1, Hpj, Hn. apply yields_ret.
    - eapply yields_again; [by apply decided_load_journal|by apply untouched_load_journal|exact Hg|by rewrite F1]. }
  intros w2 (F2&_). eapply yields_bind; [by apply yields_lift|]. intros w3 (F3&_).
  eapply yields_bind; [by apply yields_path_exists|]. intros w4 (F4&_).
  assert (w_fs w3 !! Path audit = w_fs w0 !! Path audit) as E3 by congruence.
  destruct Ha as [[_ Hn]|(r&s&[= <-]&(g&Hf&_)&Hg&Hi)].
  - rewrite E3, Hn. eapply (yields_bind _ _ _ tt); [apply yields_ret|]. intros; apply yields_ret.
  - rewrite E3, Hf, bool_decide_eq_true_2 by eauto. eapply (yields_bind _ _ _ tt); [|intros; apply yields_ret].
    assert (gave w0 (verify_log (Path audit)) s) as Hl.
    { destruct Hg as (w5&w6&Hu&E). exists w5. unfold verify in E. apply bind_Ret in E as (s'&w7&E&Es). exists w7.
      split; [done|]. rewrite E. destruct head; [|by apply ret_Ret in Es as [-> _]].
      apply bind_Ret in Es as (?&?&_&Es). apply bind_Ret in Es as (?&?&_&Es). by apply ret_Ret in Es as [-> _]. }
    eapply (yields_bind _ _ _ s).
    { unfold verify. eapply yields_bind; [|intros; apply yields_ret].
      eapply yields_again; [by apply decided_verify_log|unfold verify_log, check_descriptor, os_errors; untouched|
        exact Hl|by rewrite F4]. }
    intros w5 _. apply yields_check. destruct (issuer s) as [i|]; [|done]. rewrite (Hi i eq_refl).
    by rewrite bool_decide_eq_true_2.
Qed.

Lemma config_client c w w' :
  load_config (Path config) w = (Ret c, w') →
  ∃ client, make_client (str_of (c_base_url c)) (seconds 20 "20.0") = Ok client ∧ timeout client = 20%Q.
Proof.
  unfold load_config. intros (j&w1&_&[Hj _]%lift_Ret)%bind_Ret. unfold parse_config in Hj.
  apply res_bind_Ok in Hj as (kvs&_&Hj). apply res_bind_Ok in Hj as (c'&_&Hj).
  apply res_bind_Ok in Hj as ([]&Hv&[= ->]). unfold validate_config in Hv.
  do 4 apply res_bind_Ok in Hv as (?&_&Hv). apply res_bind_Ok in Hv as (b&Hb&_).
  destruct (c_base_url c); try done. eexists. unfold make_client. cbn in Hb |- *. rewrite Hb. by split.
Qed.

(** A computation that returns wherever it starts. *)
Definition succeeds {A} (m : IO A) : Prop := ∀ w, ∃ a w', m w = (Ret a, w').

Lemma succeeds_bind {A B} (m : IO A) (f : A → IO B) : succeeds m → (∀ a, succeeds (f a)) → succeeds (m ≫= f).
Proof. intros Hm Hf w. destruct (Hm w) as (a&w1&E). unfold mbind, M_bind. rewrite E. apply Hf. Qed.
Lemma succeeds_try {A} (m : IO A) c h : succeeds m → succeeds (try_except m c h).
Proof. intros Hm w. destruct (Hm w) as (a&w1&E). unfold try_except. rewrite E. eauto. Qed.
Lemma succeeds_action : succeeds Effects.action.
Proof using calm. intros w. rewrite action_calm by done. eauto. Qed.
Lemma succeeds_lock_action : succeeds lock_action.
Proof using calm. intros w. unfold lock_action, mbind, M_bind. cbn. rewrite calm. cbn. eauto. Qed.

Lemma succeeds_acquire p : succeeds (acquire p).
Proof using calm.
  assert (∀ fs, succeeds (put_files fs)) as Hput by (intros fs w; by eexists _, _).
  assert (succeeds get_files) as Hget by (intros w; by eexists _, _).
  assert (succeeds (mret tt : IO unit)) as Hret by (intros w; by eexists _, _).
  unfold acquire, mkdir_parents, create_if_missing, chmod, write_bytes, update_file, fsync.
  repeat first
    [ assumption | apply Hput | apply succeeds_action | apply succeeds_lock_action
    | apply succeeds_bind; [|intros ?] | apply succeeds_try | case_match ].
Qed.

Lemma acquire_calm p w : ∃ w', acquire p w = (Ret tt, w') ∧ w_trace w' = w_trace w ∧
  ∀ q, q ≠ p → w_fs w' !! q = w_fs w !! q.
Proof using calm.
  destruct (succeeds_acquire p w) as ([]&w'&E).
  exists w'. split; [done|]. pose proof (quiet_acquire p w) as Hq. rewrite E in Hq. split; [exact Hq|].
  pose proof (keeps_acquire (λ q, q ≠ p) (λ _ _ : memory, True) p (λ Hn, Hn eq_refl) w) as [Hf _ _]. by rewrite E in Hf.
Qed.


(** What the inspection established, in a world with the same files. *)
Context (record : IdentityRecord) (c : AgentConfig) (s : AgentState) (cursor : Z) (client : TechnocoreClient).
Context (Hidentity : gave w0 (load_identity_record (Path identity)) record) (Hkey : key_available record).
Context (Hconfig : config_good w0 (Path config) (Some record) (Some c)).
Context (Hstate : gave w0 (load (Path state)) s).
Context (Hcursor : cursors s !! str_of (c_room c) = Some cursor).
Context (Hpolicy : ∃ p, gave w0 (load_policy (Path policy)) p).
Context (Hdelivery : delivery_good w0 (Path journal) (Some record) (Some c) None).
Context (head : option str) (Haudit : audit_good w0 (Path audit) (Some record) head).
Context (Hclient : make_client (str_of (c_base_url c)) (seconds 20 "20.0") = Ok client).

Abbreviation url := (read_url client (str_of (c_room c)) cursor (10 # 1) 50 1).

Lemma service_of_identity r key w w' :
  load_identity_record (Path identity) w = (Ret r, w') →
  make_service args (i_did r) key = Ok (MkReceiptService (i_did r) key 60).
Proof.
  unfold load_identity_record. intros (j&w1&_&[Hj _]%lift_Ret)%bind_Ret. unfold parse_identity in Hj.
  do 3 apply res_bind_Ok in Hj as (?&_&Hj). apply res_bind_Ok in Hj as (did&Hd&Hj).
  do 4 apply res_bind_Ok in Hj as (?&_&Hj). injection Hj as <-. cbn [i_did].
  unfold validate_did_value in Hd. destruct (jget (u "did") _); try done. apply validate_did_Ok in Hd as [-> Hd].
  match type of Hd with fullmatch _ ?did = true =>
    change (make_service args did key) with (validate_did did;; Ok (MkReceiptService did key 60));
    by rewrite (proj2 (validate_did_Ok did did) (conj eq_refl Hd)) end.
Qed.

(** A cursor that was loaded is not negative. *)
Lemma int_map_nonneg v m : _nonnegative_int_map v = Ok m → map_Forall (λ _ z, 0 ≤ z) m.
Proof.
  unfold _nonnegative_int_map. destruct v as [| | | | | |kvs]; try done.
  assert (map_Forall (λ _ z, 0 ≤ z) (∅ : gmap str Z)) as H0' by apply map_Forall_empty. revert H0'.
  generalize (∅ : gmap str Z). induction kvs as [|[k v] kvs IH]; intros m0 H0'; cbn [foldM_res]; [by intros [= <-]|].
  intros (m1&Hm1&Hr)%res_bind_Ok. apply res_bind_Ok in Hm1 as (?&_&Hm1). apply res_bind_Ok in Hm1 as (z&Hz&[= <-]).
  eapply IH; [|exact Hr]. apply map_Forall_insert_2; [|done]. destruct v; try done.
  by apply require_nonnegative_Ok in Hz as [? ->].
Qed.

Lemma loaded_nonneg q (w w' : world memory) st room n :
  load q w = (Ret st, w') → cursors st !! room = Some n → 0 ≤ n.
Proof.
  unfold load. intros (b&w1&_&Hl)%bind_Ret Hn. destruct b; [|apply ret_Ret in Hl as [-> _]; done].
  apply bind_Ret in Hl as (j&w2&_&[Hj _]%lift_Ret). unfold parse_state in Hj.
  apply res_bind_Ok in Hj as (?&_&Hj). apply res_bind_Ok in Hj as (?&_&Hj). apply res_bind_Ok in Hj as (m&Hm&Hj).
  do 3 apply res_bind_Ok in Hj as (?&_&Hj). injection Hj as <-. exact (int_map_nonneg _ _ Hm _ _ Hn).
Qed.

Lemma yields_ask_state {A} (f : AgentState → res A) w x :
  f (m_state (w_mem w)) = Ok x → yields (ask_state f) w x.
Proof. intros E. exists w. split; [|done]. unfold ask_state, get_state, mbind, M_bind. cbn. by rewrite E. Qed.

Lemma opens_poll fuel a w :
  a_room a = str_of (c_room c) → Agent.client a = Direct client → m_state (w_mem w) = s →
  opens url (_poll args (S fuel) a 1 1) w.
Proof using All.
  intros Ea Ec Es. destruct Hconfig as (record'&c'&_&[= <-]&_&(w1&w2&_&Ecfg)&_).
  pose proof (load_config_Ret _ _ _ _ Ecfg) as Hwf. destruct (cw_room _ Hwf) as (room&Eroom&Hroom).
  destruct (config_client _ _ _ Ecfg) as (client'&Hc'&Ht). assert (client' = client) as -> by congruence.
  destruct Hstate as (w3&w4&_&Est). pose proof (loaded_nonneg _ _ _ _ _ _ Est Hcursor) as Hnn.
  cbn [_poll]. apply opens_first; [|intros; cbn [once args]; pose proof hears_poll; hears].
  apply opens_try; [|intros; hears]. apply opens_first; [|intros; hears]. unfold poll_once, client_read_room. rewrite Ea, Ec. cbn [inner].
  eapply opens_after.
  { apply yields_ask_state. rewrite Es. unfold cursor_for. by rewrite Hcursor. }
  intros w5 _. cbn [default once args wait limit seconds]. apply opens_first; [|intros; pose proof hears_process_snapshot; hears].
  rewrite Eroom. apply opens_read_room; rewrite ?Ht; first [assumption | by vm_compute | lia | idtac].
Qed.

Abbreviation agrees w := (∀ q, q ≠ Path lock → w_fs w !! q = w_fs w0 !! q).
Context (Hlock : Path lock ∉ [Path identity; Path config; Path state; Path policy; Path journal; Path audit]).

Lemma opens_body fuel key sp w :
  agrees w → opens url (_run_with_identity args (S fuel) record key identity (Path config) sp) w.
Proof using All.
  rewrite !not_elem_of_cons in Hlock. destruct Hlock as (Hi&Hc&Hs&Hp&Hj&Ha&_). intros Hw.
  destruct Hconfig as (record'&c'&[= <-]&[= <-]&Hreg&Hgc&Hact&Hdid&Hfp).
  unfold _run_with_identity.
  eapply opens_after; [by apply yields_config; auto|]. intros w1 (F1&_).
  eapply opens_after; [by apply yields_lift|]. intros w2 (F2&_). cbn [arg_state args or_else arg_base_url].
  eapply opens_after.
  { eapply yields_again; [by apply decided_load|untouched|exact Hstate|by rewrite F2, F1, Hw]. }
  intros w3 (F3&_). eapply opens_step; [done|done|]. set (w4 := World _ _ _ _).
  assert (w_fs w4 = w_fs w) as F4 by (cbn; congruence). assert (m_state (w_mem w4) = s) as Es by done. clearbody w4.
  destruct (yields_policy (i_did record) (Path state) w4 Hpolicy) as [pol Hpol]; [by rewrite F4, Hw|].
  eapply opens_after; [exact Hpol|]. intros w5 (F5&M5&_).
  eapply opens_after.
  { eapply yields_artifacts; [exact Hdelivery|done|exact Haudit|by rewrite F5, F4, Hw|by rewrite F5, F4, Hw]. }
  intros w6 (F6&M6&_). cbn [or_else arg_base_url args].
  eapply opens_after; [by apply yields_lift, Hclient|]. intros w7 (F7&M7&_).
  eapply opens_after.
  { apply yields_lift. destruct Hidentity as (w8&w9&_&E). by apply (service_of_identity record key w8 w9). }
  intros w8 (F8&M8&_). eapply opens_after.
  { unfold _initialize_cursor. cbn [a_room]. eapply yields_bind.
    - apply yields_ask_state. reflexivity.
    - intros w9 (_&M9&_). rewrite M8, M7, M6, M5, Es, Hcursor, bool_decide_eq_true_2 by eauto. apply yields_ret. }
  intros w9 (F9&M9&_). apply opens_poll; [done|done|]. by rewrite M9, M8, M7, M6, M5.
Qed.

Lemma opens_run fuel w : agrees w → opens url (_run args (S fuel)) w.
Proof using All.
  intros Hw. pose proof Hlock as Hl. rewrite !not_elem_of_cons in Hl. destruct Hl as (Hi&_).
  unfold _run. eapply opens_step; [done|done|].
  destruct (yields_load_identity record (World (w_fs w) empty_memory (w_tick w) (w_trace w)) Hidentity Hkey) as [key Hk];
    [by apply Hw|].
  eapply opens_after; [exact Hk|]. intros w1 (F1&_). eapply opens_after; [by apply yields_lift|]. intros w2 (F2&_).
  eapply opens_after; [by apply yields_lift|]. intros w3 (F3&_). cbn [arg_send args]. unfold with_lock.
  destruct (acquire_calm (Path lock) w3) as (w4&E4&T4&F4). eapply opens_step; [exact E4|done|].
  unfold try_finally. apply opens_first; [|intros; hears]. apply opens_on_raise; [|hears].
  apply opens_body. intros q Hq. rewrite F4, F3, F2, F1 by done. cbn. by apply Hw.
Qed.
End process.

(** ** The theorem *)

Section rendering.
Context `{Env} `{UrlLib} `{Ed25519} `{Directories} `{Resolver}.
Set Default Proof Using "Type".

Lemma absolute_path p : is_absolute p = true → ∃ s, p = Path (47 :: s).
Proof.
  unfold is_absolute, startswith. intros Hp%bool_decide_eq_true. destruct p as [[|x s]|]; cbn in Hp; try done.
  injection Hp as ->. eauto.
Qed.

(** What a rendered agent went through. *)
Lemma rendered_Ret spec text w w' :
  render_launch_agent spec w = (Ret text, w') →
  (∀ p, p ∈ artifacts spec → ∃ s, p = Path (47 :: s)) ∧ plist_dumps (launch_payload spec) = Ok text ∧
  ∃ report w1 w2, untouched w w1 ∧ exit_code report = 0 ∧
    inspect_operational_health (health_paths spec) (expected_audit_head spec) false w1 = (Ret report, w2).
Proof.
  unfold render_launch_agent. intros (?&w1&Hv&Hr)%bind_Ret. apply bind_Ret in Hr as (report&w2&Hi&Hr).
  apply bind_Ret in Hr as (?&w3&[Hc _]%check_Ret&[Ht _]%lift_Ret). split; [|split; [done|]].
  - unfold _validate_spec in Hv. apply bind_Ret in Hv as (?&?&_&Hv). apply bind_Ret in Hv as (?&?&[Ha _]%lift_Ret&_).
    unfold _require_absolute_paths in Ha. apply raise_if_Ok, negb_false_iff in Ha. rewrite forallb_forall in Ha.
    intros p Hp. apply absolute_path, Ha, in_or_app. left. by apply list_elem_of_In.
  - exists report, w1, w2. split; [exact (step_Ret _ _ _ _ (untouched_validate_spec spec) Hv)|].
    split; [|done]. by apply negb_false_iff, Z.eqb_eq in Hc.
Qed.
End rendering.

(** The command line of the agent is read as the options of [run]. *)
Lemma launched_command_line `{PathText} lab e so se head i c st j l a p :
  (∀ s, s ∈ [i; c; st; j; l; a; p] → resolved_text (47 :: s) = 47 :: s ∧ absolute (47 :: s) = 47 :: s) →
  command_line (tail (program_arguments (MkLaunchAgentSpec lab e
    (MkHealthPaths (Path (47 :: i)) (Path (47 :: c)) (Path (47 :: st)) (Path (47 :: p)) (Path (47 :: j)) (Path (47 :: a)) (Path (47 :: l)))
    so se head)))
  = Some (RunAgent (launched (47 :: i) (47 :: c) (47 :: st) (47 :: j) (47 :: l) (47 :: a) (47 :: p))).
Proof.
  intros Hr. unfold program_arguments. cbn [tail path_text health_paths h_identity h_config h_state h_journal h_lock h_audit h_capability_policy].
  transitivity (Some (RunAgent (launched (resolved_text (47 :: i)) (resolved_text (47 :: c)) (resolved_text (47 :: st)) (resolved_text (47 :: j)) (resolved_text (47 :: l)) (resolved_text (47 :: a)) (absolute (47 :: p))))).
  - vm_compute. reflexivity.
  - rewrite !(λ s Hs, proj1 (Hr s Hs)), (proj2 (Hr p ltac:(set_solver))) by set_solver. done.
Qed.

(** C14: a LaunchAgent that was rendered starts an agent that asks for its mailbox.
    When nothing fails, the Keychain holds the key of the identity, the lock file
    is not one of the runtime files, the paths are absolute and resolved and hold no
    carriage return, then the rendered text, read as a property list, holds
    arguments that the command line reads as options of [run], and a process
    started with them on these files passes every check of its start: its first
    request reads the room of the configuration on the server of the configuration
    from the cursor that was saved. *)
Theorem launched_agent_reads_its_mailbox `{Env} `{UrlLib} `{Ed25519} `{FloatRepr} `{Keychain} `{Directories}
    `{Resolver} `{PathText} (spec : LaunchAgentSpec) (text : str) (w w' started : world memory) (fuel : nat) :
  let paths := health_paths spec in
  (∀ n, env_fault n = NoFault) →
  (∀ record, (load_identity_record (h_identity paths) w).1 = Ret record → key_available record) →
  (∀ p, p ∈ artifacts spec → resolved_text (path_text p) = path_text p ∧ absolute (path_text p) = path_text p) →
  (∀ p, p ∈ artifacts spec → 13 ∉ path_text p) →
  h_lock paths ∉ [h_identity paths; h_config paths; h_state paths; h_capability_policy paths; h_journal paths; h_audit paths] →
  render_launch_agent spec w = (Ret text, w') → w_fs started = w_fs w →
  ∃ arguments args config state cursor client rest,
    plist_arguments text = Some arguments ∧ command_line (tail arguments) = Some (RunAgent args) ∧
    (load_config (h_config paths) w).1 = Ret config ∧ (load (h_state paths) w).1 = Ret state ∧
    cursors state !! str_of (c_room config) = Some cursor ∧
    make_client (str_of (c_base_url config)) (arg_timeout args) = Ok client ∧
    w_trace (_run args (S fuel) started).2 =
      w_trace started ++ EvHttp (read_url client (str_of (c_room config)) cursor 10 50 1) :: rest.
Proof.
  cbv zeta. intros calm Hkey Hres Hcr Hlock Hr Hfs.
  apply rendered_Ret in Hr as (Habs&Htext&report&w1&w2&Hu&Hcode&Hi).
  pose proof (plist_arguments_launched spec text Htext Hcr) as Hargs. clear Htext Hcr.
  destruct spec as [lab exe [pi pc ps pp pj pa pl] so se head].
  cbn [health_paths h_identity h_config h_state h_capability_policy h_journal h_audit h_lock expected_audit_head] in *.
  assert (∀ q, q ∈ [pi; pc; ps; pp; pj; pa; pl] →
    ∃ t, q = Path (47 :: t) ∧ resolved_text (47 :: t) = 47 :: t ∧ absolute (47 :: t) = 47 :: t) as Ht.
  { intros q Hq. assert (q ∈ exe :: [pi; pc; ps; pp; pj; pa; pl]) as Hq' by (by right).
    destruct (Habs q Hq') as [t ->]. exists t. split; [done|]. exact (Hres _ Hq'). }
  clear Habs Hres. rewrite <- Forall_forall, !Forall_cons in Ht.
  destruct Ht as ((i&->&Hi1)&(c&->&Hc1)&(st&->&Hst1)&(p&->&Hp1)&(j&->&Hj1)&(a&->&Ha1)&(l&->&Hl1)&_).
  destruct (inspect_healthy_Ret _ _ _ _ _ _ Hi Hcode) as (identity&config&delivery&Gi&Gc&Gs&Gp&Gd&Ga&Hst).
  cbn [h_identity h_config h_state h_capability_policy h_journal h_audit h_lock] in *.
  assert (delivery = None) as ->.
  { destruct Hst as [[_ [n Hn]]|(_&_&?)]; [by rewrite calm in Hn|done]. }
  destruct Gp as [_ Gp]. destruct Gi as (record&->&Gi). pose proof Gc as (r&cfg&[= <-]&->&_&Gc'&_).
  destruct Gs as (s&_&Gs&Hcur). destruct (Hcur cfg eq_refl) as (cursor&?&?&Ecur&_). clear Hcur.
  pose proof Gc' as (w3&w4&_&Ecfg). destruct (config_client _ _ _ _ Ecfg) as (client&Hclient&_).
  assert (w_fs w1 = w_fs w) as F1 by apply Hu.
  pose proof (λ q, f_equal (λ fs, fs !! q) (eq_sym F1)) as Fq. cbn beta in Fq.
  assert (key_available record) as Hk.
  { apply Hkey. destruct (yields_again _ _ w1 w record (decided_load_identity_record calm _)
      (untouched_load_identity_record _) Gi (Fq _)) as (?&E&_). by rewrite E. }
  destruct (opens_run calm w1 (47 :: i) (47 :: c) (47 :: st) (47 :: j) (47 :: l) (47 :: a) (47 :: p) record cfg s cursor client
    Gi Hk Gc Gs Ecur Gp Gd head Ga Hclient Hlock fuel started) as [rest Hrest]; [by intros q _; rewrite Hfs, F1|].
  eexists _, (launched (47 :: i) (47 :: c) (47 :: st) (47 :: j) (47 :: l) (47 :: a) (47 :: p)), cfg, s, cursor, client, rest.
  split; [exact Hargs|]. split.
  { apply launched_command_line. apply Forall_forall. rewrite !Forall_cons, Forall_nil. tauto. }
  split; [|split; [|done]].
  - destruct (yields_again _ _ w1 w cfg (decided_load_config calm _) (untouched_load_config _) Gc' (Fq _)) as (?&E&_).
    by rewrite E.
  - destruct (yields_again _ _ w1 w s (decided_load calm _) (untouched_load _) Gs (Fq _)) as (?&E&_). by rewrite E.
Qed.

(** A machine with an agent in order. *)
Section machine.
#[local] Instance machine_env : Env := toy_env (λ _, NoFault) (λ _, HttpFailed).
#[local] Instance machine_keychain : Keychain := λ _ _ _, SecretPrinted (u "01" ++ replicate 62 48 ++ [10]).
#[local] Instance machine_directories : Directories := λ _ _, Some (DirectoryStatus true 448 501).
#[local] Instance machine_resolver : Resolver := λ _ p, Some p.
#[local] Instance machine_paths : PathText :=
  {| absolute s := s; resolved_text s := s; default_identity := []; default_controller_identity := [] |}.

Definition machine_spec : LaunchAgentSpec :=
  let p name := Path (u name) in
  MkLaunchAgentSpec (u "com.technocore.safe-agent") (p "/bin/agent")
    (MkHealthPaths (p "/id") (p "/config") (p "/state") (p "/policy") (p "/journal") (p "/audit") (p "/lock"))
    (p "/log/out") (p "/log/err") None.
Definition machine_world : world memory :=
  let file s := private_file (dumps false s) in
  toy_world empty_memory
    [(Path (u "/bin/agent"), File Regular 493 501 []); (Path (u "/id"), file sample_identity);
     (Path (u "/config"), private_file (config_bytes (activated sample_config 5)));
     (Path (u "/state"), private_file (state_bytes (sample_state 5)));
     (Path (u "/policy"), file sample_policy)].

Lemma machine_paths_plain p : p ∈ artifacts machine_spec → 13 ∉ path_text p.
Proof. revert p. apply Forall_forall. by apply (bool_decide_eq_true_1 _). Qed.

Lemma launched_agent_reads_its_mailbox_witness :
  ∃ arguments args rest, command_line (tail arguments) = Some (RunAgent args) ∧
    w_trace (_run args 3 machine_world).2 =
      EvHttp (u "https://technocore.chat/r/mb-p-1?format=json&since=5&wait=10.0&limit=50&n=1") :: rest.
Proof.
  assert (∃ text w', render_launch_agent machine_spec machine_world = (Ret text, w')) as (text&w'&Hr)
    by (vm_compute; eauto).
  destruct (launched_agent_reads_its_mailbox machine_spec text machine_world w' machine_world 2)
    as (arguments&args&config&state&cursor&client&rest&Hread&Hargs&Hc&Hs&Hcur&Hclient&Ht).
  - done.
  - intros record Hrec n. vm_compute in Hrec. injection Hrec as <-. eexists _, (toy_seed 1).
    split; [reflexivity|]. split; vm_compute; reflexivity.
  - intros p _. split; reflexivity.
  - exact machine_paths_plain.
  - apply (bool_decide_eq_false_1 _). vm_compute. reflexivity.
  - exact Hr.
  - done.
  - exists arguments, args, rest. split; [exact Hargs|]. apply rendered_Ret in Hr as (_&Htext&_).
    rewrite (plist_arguments_launched _ _ Htext machine_paths_plain) in Hread. injection Hread as <-. cbn [health_paths machine_spec h_config h_state] in Hc, Hs.
    vm_compute in Hc. injection Hc as <-. vm_compute in Hs. injection Hs as <-. vm_compute in Hcur. injection Hcur as <-.
    vm_compute in Hargs. injection Hargs as <-. vm_compute in Hclient. injection Hclient as <-.
    etransitivity; [exact Ht|]. vm_compute. reflexivity.
Defined.
End machine.
